(* ===== verification/_CoqProject ===== *)
-Q . S2P
Prelude.v
GoUnicode.v
GoString.v
GoPath.v
GoFloat.v
GoTime.v
Base64.v
Json.v
Sha256.v
Http.v
Metrics.v
Rooms.v
Events.v
Storage.v
Cursor.v
Auth.v
AuthFacts.v
AuthTheorems.v
Sqlite.v
Postgres.v
GoStrconv.v
GoFmt.v
Server.v
History.v
HistoryTheorems.v
Client.v
Hub.v
HubFacts.v
HubSystem.v
HubInvariant.v
HubDrain.v
HubProgress.v
HubHistory.v
HubBroker.v
HubMetrics.v
HubTheorems.v
HubExamples.v
Broker.v
Delivery.v
Config.v
RateLimit.v
Upgrade.v
MetricsTheorems.v
Router.v
Tracing.v
Wsload.v
Migrations.v
Telemetry.v
Startup.v
