(* ===== verification/Prelude.v ===== *)
(** * A verification library for the Chatster backend

    Chatster is a chat server in Go: browsers talk to it over WebSockets and a
    JSON API, messages are stored in SQLite or PostgreSQL, and instances that
    share a database exchange messages through Redis.  This library models the
    backend under [src/backend] and proves what makes it correct.  All file names
    below are relative to that directory; the [.v] files are this library's.

    ** How the program fits together

    [main] reads the environment, builds the session service, opens a repository
    (running its migrations), prunes old rows, connects to Redis when configured,
    and starts a hub.  The HTTP server routes requests to the handlers; an upgrade
    request becomes a client of the hub.  A client's reader validates frames,
    stores messages and hands them to the hub; the hub's loop fans them out to the
    outbound queues of the clients in the room, which the writers empty.  Stored
    messages also go to the broker's queue; a publisher sends them to Redis, and a
    subscriber feeds the events of other instances to the hub.  On shutdown the
    hub drains: it refuses new clients, closes the connected ones and waits for
    their goroutines.

    ** Files and what they model

    The language and its standard library:
    - [Prelude]: results, lists, tactics ([unbool], ...) and the hint database [go];
    - [GoUnicode], [GoString]: the character tables, UTF-8 decoding, [TrimSpace],
      [ToLower], [EqualFold], splitting and joining; [GoStrconv]: [ParseInt], [Atoi],
      [Itoa]; [GoFmt]: [Sscanf] with %d, [Duration.String];
    - [GoPath]: [filepath.Clean] and [Join], and what lies beneath a directory;
    - [GoFloat]: [float64] arithmetic, every operation rounded to 53 bits;
    - [GoTime]: instants, the calendar, RFC 3339 formatting and parsing;
    - [Base64], [Json], [Sha256] (with HMAC), [Http]: the encodings and the parts
      of requests and responses the handlers touch.

    The program, bottom up:
    - [Metrics]: the collectors with their names, labels and buckets, and counting
      on their series ([internal/metrics/metrics.go]);
    - [Rooms]: [NormalizeRoom] and [truncateRunes] ([db/database.go]);
    - [Events]: the envelope of the cross-instance contract and the channel names
      ([internal/events/envelope.go]);
    - [Storage]: the interface [Repository] ([db/repository.go]) as a type class,
      its records, the calls that write as data ([write]), the world of a driver
      call ([call]: the clocks and the call that fails), and the class
      [HistoryContract], the abstract history a repository promises;
    - [Sqlite], [Postgres]: the two implementations, one definition per method
      ([db/database.go], [db/postgres.go]), with an instance of the contract each;
    - [Migrations]: the schemas and their migrations, one process on SQLite,
      interleaved replicas on PostgreSQL;
    - [Auth], [AuthFacts], [AuthTheorems]: sessions ([internal/auth/session.go]);
    - [Cursor]: history cursors ([history_cursor.go]);
    - [Server]: the JSON handlers, CORS and origin checks ([server.go]);
      [History], [HistoryTheorems]: a client that follows [next_cursor];
    - [Client]: the WebSocket client and one iteration of its read loop
      ([client.go], [message.go]); the token bucket is the class [RateLimiter];
    - [Hub]: the hub's state and one definition per operation ([hub.go]), split at
      locks and blocking channel operations; [HubFacts]: fan-out and the duplicate
      window; [HubSystem]: the goroutines as program points and a step relation
      that interleaves them; [HubInvariant], [HubDrain], [HubBroker], [HubMetrics]: the
      invariants of reachable states; [HubProgress]: what a shutdown can still do from
      any of them; [HubHistory]: a client's stream along a run; [HubTheorems],
      [HubExamples], [MetricsTheorems]: the properties and concrete runs;
    - [Broker]: publishing, subscribing and reconnecting
      ([internal/broker/redis.go]) with the JSON form of events; [Delivery]: the
      hubs of two instances over it;
    - [Config] ([internal/config/config.go]), [RateLimit]
      ([internal/ratelimit/ws_upgrade.go]), [Telemetry]
      ([internal/telemetry/telemetry.go]), [Upgrade] ([serveWs] in [server.go]) and
      [Startup] ([main.go], [OpenRepository], [Open], [OpenPostgres]);
    - [Router]: the server as a whole, its routes, the CORS middleware around every
      handler and the static files ([mount], [mountWithAuth], [staticHandler]);
    - [Tracing]: the spans of all operations and the session's span;
    - [Wsload]: the load generator ([cmd/wsload/main.go]).

    ** How state and operations correspond

    A Go struct is a record with its fields; a value with an error is a [result];
    errors are constructors, their texts are not modelled.  Shared mutable state is
    passed explicitly: a repository method maps a [call] and a state to a result
    and a state; the hub's operations map a [World] (hub, client store, database,
    counters, what was written to each socket) to a [World].  Client pointers are
    numbers into the store, so aliasing is kept.  Buffered channels are lists whose
    capacity is tested where the code sends; a send that would block has no result
    or no step.  A critical section is one step.  Maps that the code ranges over
    are enumerated in an arbitrary order that is an argument.  Integers are [Z] with
    their width where it matters ([wrap64], ranges in the decoders, [max_int64] for
    row ids); strings are byte strings.

    ** What the theorems show

    - Isolation and identity: [room_isolation], [read_step_identity],
      [read_step_outcome], [upgrade_admission], [authorize_exact],
      [authenticate_sound];
    - The hub: [fanout_exact], [queues_bounded], [duplicate_window] (against a
      sliding-window reference), [history_on_connect] (the history goroutine beside
      all others, message by message), and shutdown: [draining_is_closed],
      [finish_never_blocks], [drain_waits_for_running] (no notification is lost, and
      from every state a drain can complete without its deadline),
      [finished_never_forgotten]; [drain_gauge_stale] is a drain whose gauge ends
      wrong; [reachable_broker] on the goroutines [stopBroker]
      waits for; [upgrade_runs_in_hub] refines [serveWs] to steps of
      the system, [startup_sound] its initial state;
    - Cross-instance delivery: [broker_round_trip], [run_delivers_valid_events],
      [reconnect_backoff], and end to end [event_delivered_once];
      [saved_message_is_valid_event] and [unsaved_message_passes_guard] on what is
      offered to the broker; [validate_exact];
    - Storage: [sqlite_run_invariant], [pg_run_invariant], the exact pages, save
      outcomes, all-or-nothing reads and retention; [sqlite_migrations_resume] and
      [postgres_replicas_migrate];
    - History over HTTP, against the abstract history: [history_page_refines],
      [history_walk_complete] (termination and completeness), [cursor_round_trip];
    - Sessions: [session_round_trip], [configured_users_log_in];
    - Names, configuration and limits: [normalize_room_fixpoint], [from_env_valid],
      [upgrade_limiter_isolation];
    - The server from outside: [http_boundary] (origins), [history_guarded] (sessions
      and rooms, through router, middleware, handler and repository),
      [static_contained] (path traversal), and what an operator sees:
      [metrics_exact] (every series, the two gauges apart, only grows) and
      [spans_documented];
    - The load generator: [load_tag_roundtrip] (its messages are recognised again),
      [loss_exact] and [percentile_order_statistic]; [history_masks_loss] is a run
      whose loss an old message hides.

    ** Bounds and fuel

    The JSON parser is the one function with fuel: [decode_value] gives it four
    times the length of the input and one, and [decode_value_fuel] shows that more
    changes nothing.  [print_int] writes at most 20 digits, enough for 64 bits.
    The walk over the history takes the number of pages as its bound, and
    [history_walk_complete] shows that it suffices.  Everything else is structural:
    an outside that acts for ever (messages, reconnects, steps) is a list of any
    length or a step relation.  [percentile_order_statistic] holds for up to [2 ^ 45]
    samples, where the rounding error of the index stays below a hundredth.

    ** Assumptions

    Third-party code appears as parameters.  The laws used are in classes beside
    them: [SqliteDriverLaws] (how go-sqlite3 stores times and SQLite orders them),
    [PgDriverLaws] (how pgx maps times to microseconds) and [HistoryContract]
    (discharged for both databases), [RoomScoped] (reads return rows of the room
    asked for, discharged likewise) and [MuxLaws] (gorilla/mux matches a path, or
    the beginning of one).  Nothing is assumed of
    token buckets, of Redis, of the parsers of DSNs and URLs, of [ParseFloat] and
    [ParseDuration]; the theorems hold for any.  HMAC is executed, not idealised:
    unforgeability is not stated.

    ** Not modelled

    Logging; the values histograms observe (observations are counted); how spans are related and exported.  WebSocket framing and deadlines as
    real time (a heartbeat fails or stops at any moment); [net/http] itself, the
    bytes of a static file and of the metrics page; SQL beyond the statements the
    code issues (types, constraints and query plans); the Go memory model: steps are
    atomic where the code holds a lock or does one channel operation.  The JSON text
    of the load generator's report (the decimal form of floats) and its sleeps, the
    [flag] package, and the TypeScript front end are outside. *)
From Stdlib Require Ascii.
From Stdlib Require Export ZArith Lia ZifyBool.
From stdpp Require Export prelude strings gmap list sorting.
Export Stdlib.Strings.Ascii (ascii(..)).
Export (notations) Stdlib.Strings.Ascii.
Export List.ListNotations.

(** ** Automation

    [go] holds the side conditions the components discharge again and again:
    bytes of printed JSON, printable values, canonical names.  [eauto with go]
    closes them. *)
Create HintDb go discriminated.

(** ** Fallible code *)

(** A Go function returning [(T, error)]: [Ok] carries the value, [Err] the
    error.  The value Go returns beside a non-nil error is never used by the
    callers modelled here. *)
Inductive result (E A : Type) : Type :=
| Ok (a : A)
| Err (e : E).
Arguments Ok {E A} a.
Arguments Err {E A} e.

#[export] Instance result_eq_dec {E A} `{EqDecision E, EqDecision A} :
  EqDecision (result E A).
Proof. solve_decision. Defined.

#[export] Instance Ok_inj {E A} : Inj (=) (=) (@Ok E A).
Proof. by intros x y [= ->]. Qed.

Declare Scope go_scope.
Delimit Scope go_scope with go.
Open Scope go_scope.

(** [x, err := c; if err != nil { return err }; k] *)
Notation "'try' x ':=' c 'in' k" :=
  (match c with Ok x => k | Err err => Err err end)
  (at level 10, x name, c at level 100, k at level 200)
  : go_scope.

(** [if b { return Err e }; k] *)
Notation "'guard' b 'else' e ';;' k" :=
  (if b then k else Err e)
  (at level 10, b at level 100, e at level 100, k at level 200) : go_scope.

Definition is_ok {E A} (r : result E A) : bool :=
  match r with Ok _ => true | Err _ => false end.

Definition ok_or {E A} (d : A) (r : result E A) : A :=
  match r with Ok x => x | Err _ => d end.

Lemma ok_or_ok {E A} (d : A) (r : result E A) : is_ok r = true → r = Ok (ok_or d r).
Proof. by destruct r. Qed.

Definition err_of {E A} (r : result E A) : option E :=
  match r with Ok _ => None | Err e => Some e end.

(** Early returns peeled off one by one. *)
Section early_return.
Context {E A B : Type}.
Implicit Types (b : bool) (e : E) (k : result E A) (x : A).

Lemma if_err_ok b e k x : (if b then Err e else k) = Ok x ↔ b = false ∧ k = Ok x.
Proof. destruct b; naive_solver. Qed.

Lemma bool_decide_neq_false `{EqDecision B} (u v : B) : bool_decide (u ≠ v) = false ↔ u = v.
Proof.
  rewrite bool_decide_eq_false. split; [apply dec_stable|]. intros ? Hn. by apply Hn.
Qed.

(** [v, err := c; if err != nil { ... }; if v != want { ... }; k] *)
Lemma match_canonical_ok `{EqDecision B} {F} (c : result F B) (want : B) (f : F → E) e k x :
  match c with
  | Err err => Err (f err)
  | Ok v => if bool_decide (v ≠ want) then Err e else k
  end = Ok x ↔ c = Ok want ∧ k = Ok x.
Proof.
  destruct c as [v|err]; [|naive_solver]. rewrite if_err_ok, bool_decide_neq_false.
  naive_solver.
Qed.
End early_return.

(** ** Tactics of the development *)

(** Split every [match]/[if] of the hypothesis [H] and keep the consistent
    cases. *)
Ltac split_hyp H :=
  repeat (case_match; simplify_eq/=; try discriminate H).

(** [lia] with the Euclidean equations of [/] and [mod]. *)
Ltac lia_div := Z.div_mod_to_equations; lia.

(** Turn boolean connectives in the context into propositions. *)
Ltac unbool :=
  repeat match goal with
  | H : _ && _ = true |- _ => apply andb_true_iff in H as [? ?]
  | H : _ || _ = false |- _ => apply orb_false_iff in H as [? ?]
  | H : negb _ = true |- _ => apply negb_true_iff in H
  | H : negb _ = false |- _ => apply negb_false_iff in H
  | H : bool_decide _ = true |- _ => apply bool_decide_eq_true in H
  | H : bool_decide _ = false |- _ => apply bool_decide_eq_false in H
  | H : Is_true _ |- _ => apply Is_true_true_1 in H
  end.

(** ** Lists *)

Section lists.
Context {A : Type}.
Implicit Types (l : list A) (n : nat).

Lemma head_map {B} (f : A → B) l : head (f <$> l) = f <$> head l.
Proof. by destruct l. Qed.

(** [l[len(l)-n:]] for a slice longer than [n]. *)
Definition last_n n l : list A := drop (length l - n) l.

Lemma length_last_n n l : length (last_n n l) = n `min` length l.
Proof. unfold last_n. rewrite length_drop. lia. Qed.

Lemma last_n_all n l : length l ≤ n → last_n n l = l.
Proof. intros. unfold last_n. by replace (length l - n) with 0 by lia. Qed.

Lemma elem_of_last_n_snoc n x l : 0 < n → x ∈ last_n n (l ++ [x]).
Proof.
  intros Hn. unfold last_n. rewrite length_app. simpl. rewrite drop_app_le by lia.
  apply elem_of_app. right. by left.
Qed.

Lemma last_n_app n l : take (length l - n) l ++ last_n n l = l.
Proof. apply take_drop. Qed.

Lemma reverse_take_last n l : reverse (take n l) = last_n n (reverse l).
Proof. unfold last_n. by rewrite reverse_take, length_reverse. Qed.

Lemma forallb_take (f : A → bool) n l : forallb f l = true → forallb f (take n l) = true.
Proof.
  rewrite !forallb_forall. intros H x Hx. apply H.
  rewrite <- list_elem_of_In in *. by eapply elem_of_take in Hx as (?&?%list_elem_of_lookup_2&_).
Qed.

(** [List.filter] with a boolean test, in stdpp's terms. *)
Lemma filter_bool (f : A → bool) l : List.filter f l = filter (λ x, f x = true) l.
Proof.
  induction l as [|x l IH]; [done|]. cbn [List.filter]. rewrite filter_cons, IH.
  by destruct (f x).
Qed.

Lemma elem_of_filter_bool (f : A → bool) l x : x ∈ List.filter f l ↔ f x = true ∧ x ∈ l.
Proof. by rewrite filter_bool, list_elem_of_filter. Qed.

Lemma sublist_filter_bool (f : A → bool) l : List.filter f l `sublist_of` l.
Proof. induction l as [|x l IH]; simpl; [constructor|]. destruct (f x); by constructor. Qed.

Lemma StronglySorted_filter_bool (R : relation A) (f : A → bool) l :
  StronglySorted R l → StronglySorted R (List.filter f l).
Proof.
  induction 1 as [|x l Hl IH Hx]; simpl; [constructor|]. destruct (f x); [|done].
  constructor; [done|]. rewrite Forall_forall in *. intros y Hy.
  apply Hx. by apply elem_of_filter_bool in Hy as [_ Hy].
Qed.

Lemma filter_ext_elem (f g : A → bool) l :
  (∀ x, x ∈ l → f x = g x) → List.filter f l = List.filter g l.
Proof. intros H. apply filter_ext_in. intros x Hx. apply H. by apply list_elem_of_In. Qed.

Lemma filter_filter_bool (f g : A → bool) l :
  List.filter g (List.filter f l) = List.filter (λ x, f x && g x) l.
Proof.
  induction l as [|x l IH]; [done|]. simpl. destruct (f x); simpl; by rewrite IH.
Qed.

Lemma filter_comm_bool (f g : A → bool) l :
  List.filter g (List.filter f l) = List.filter f (List.filter g l).
Proof. rewrite !filter_filter_bool. apply filter_ext. intros x. apply andb_comm. Qed.

Lemma length_filter_negb (f : A → bool) l :
  Z.of_nat (length (List.filter f l))
  = (Z.of_nat (length l) - Z.of_nat (length (List.filter (λ x, negb (f x)) l)))%Z.
Proof. induction l as [|x l IH]; [done|]. simpl. destruct (f x); simpl; lia. Qed.

Lemma sublist_last_n n l : last_n n l `sublist_of` l.
Proof. apply sublist_drop. Qed.

Lemma filter_all (f : A → bool) l : (∀ x, x ∈ l → f x = true) → List.filter f l = l.
Proof.
  induction l as [|x l IH]; intros H; [done|]. simpl. rewrite H by left.
  f_equal. apply IH. intros y Hy. apply H. by right.
Qed.

Lemma filter_none (f : A → bool) l : (∀ x, x ∈ l → f x = false) → List.filter f l = [].
Proof.
  induction l as [|x l IH]; intros H; [done|]. simpl. rewrite H by left.
  apply IH. intros y Hy. apply H. by right.
Qed.

Lemma last_n_last_n n m l : n ≤ m → last_n n (last_n m l) = last_n n l.
Proof.
  intros Hnm. unfold last_n. rewrite length_drop, drop_drop. f_equal. lia.
Qed.

Lemma head_last_n n l : 0 < n ≤ length l → head (last_n n l) = l !! (length l - n).
Proof. intros Hn. unfold last_n. by rewrite head_lookup, lookup_drop, Nat.add_0_r. Qed.

(** In a strictly sorted list, what is below an element is the prefix in front
    of it. *)
Lemma filter_below (R : relation A) (f : A → bool) l i m :
  (∀ x, f x = true ↔ R x m) → (∀ x, ¬ R x x) → Transitive R →
  StronglySorted R l → l !! i = Some m → List.filter f l = take i l.
Proof.
  intros Hf Hirr Htr Hl Hi. pose proof (take_drop_middle l i m Hi) as Hsplit.
  rewrite <- Hsplit in Hl. rewrite <- Hsplit at 1. rewrite List.filter_app, filter_all.
  - rewrite filter_none; [apply app_nil_r|]. intros x Hx. apply not_true_is_false. rewrite Hf.
    intros Hxm. apply elem_of_cons in Hx as [->|Hx]; [by eapply Hirr|].
    apply StronglySorted_app_1_r, StronglySorted_inv in Hl as [_ Hall].
    rewrite Forall_forall in Hall. eapply (Hirr m). transitivity x; [by apply Hall|done].
  - intros x Hx. apply Hf. eapply StronglySorted_app_1_elem_of; [exact Hl|done|left].
Qed.

Lemma last_n_snoc n l x : last_n (S n) (l ++ [x]) = last_n n l ++ [x].
Proof.
  unfold last_n. rewrite length_app. simpl.
  replace (length l + 1 - S n) with (length l - n) by lia.
  rewrite drop_app_le by lia. done.
Qed.

End lists.

Arguments last_n : simpl never.

Section lists_maps.
Context {A B : Type}.

Lemma last_n_fmap (f : A → B) n (l : list A) : last_n n (f <$> l) = f <$> last_n n l.
Proof. unfold last_n. by rewrite length_fmap, fmap_drop. Qed.

Lemma filter_fmap (f : A → B) (p : B → bool) (l : list A) :
  List.filter p (f <$> l) = f <$> List.filter (λ x, p (f x)) l.
Proof. induction l as [|x l IH]; [done|]. csimpl. rewrite IH. by destruct (p (f x)). Qed.

Lemma NoDup_fmap_filter_bool (f : A → B) (p : A → bool) (l : list A) :
  NoDup (f <$> l) → NoDup (f <$> List.filter p l).
Proof.
  induction l as [|x l IH]; [done|]. csimpl. intros [Hni Hnd]%NoDup_cons.
  destruct (p x); [|by apply IH]. csimpl. constructor; [|by apply IH].
  intros (y & Hy & Hin)%list_elem_of_fmap. apply elem_of_filter_bool in Hin as [_ Hin].
  apply Hni. apply list_elem_of_fmap. eauto.
Qed.

Lemma StronglySorted_fmap_in (R : relation A) (S : relation B) (f : A → B) (l : list A) :
  (∀ x y, x ∈ l → y ∈ l → R x y → S (f x) (f y)) →
  StronglySorted R l → StronglySorted S (f <$> l).
Proof.
  intros H Hl. induction Hl as [|x l Hl IH Hx]; csimpl; [constructor|]. constructor.
  - apply IH. intros y z Hy Hz. apply H; by right.
  - rewrite Forall_fmap, Forall_forall in *. intros y Hy. apply H; [left|by right|by apply Hx].
Qed.
End lists_maps.
