(* ===== verification/GoUnicode.v ===== *)
(** Unicode character data used by Go's [unicode] package.

    [strings.ToLower] and [strings.TrimSpace] consult [unicode.ToLower] and
    [unicode.IsSpace].  Runes are code points in [Z].  [lower_ranges] is the
    simple lower-case mapping of the Unicode character database outside ASCII
    as strided ranges [(lo, hi, stride, delta)]: the code points [lo],
    [lo + stride], ..., [hi] map to themselves plus [delta]. *)
From S2P Require Import Prelude.
Open Scope Z_scope.

Definition lower_ranges : list (Z * Z * Z * Z) := [
  (192, 214, 1, 32); (216, 222, 1, 32); (256, 302, 2, 1); (304, 304, 1, -199);
  (306, 310, 2, 1); (313, 327, 2, 1); (330, 374, 2, 1); (376, 376, 1, -121);
  (377, 381, 2, 1); (385, 385, 1, 210); (386, 388, 2, 1); (390, 390, 1, 206);
  (391, 391, 1, 1); (393, 394, 1, 205); (395, 395, 1, 1); (398, 398, 1, 79);
  (399, 399, 1, 202); (400, 400, 1, 203); (401, 401, 1, 1); (403, 403, 1, 205);
  (404, 404, 1, 207); (406, 406, 1, 211); (407, 407, 1, 209); (408, 408, 1, 1);
  (412, 412, 1, 211); (413, 413, 1, 213); (415, 415, 1, 214); (416, 420, 2, 1);
  (422, 422, 1, 218); (423, 423, 1, 1); (425, 425, 1, 218); (428, 428, 1, 1);
  (430, 430, 1, 218); (431, 431, 1, 1); (433, 434, 1, 217); (435, 437, 2, 1);
  (439, 439, 1, 219); (440, 440, 1, 1); (444, 444, 1, 1); (452, 452, 1, 2);
  (453, 453, 1, 1); (455, 455, 1, 2); (456, 456, 1, 1); (458, 458, 1, 2); (459, 475, 2, 1);
  (478, 494, 2, 1); (497, 497, 1, 2); (498, 500, 2, 1); (502, 502, 1, -97);
  (503, 503, 1, -56); (504, 542, 2, 1); (544, 544, 1, -130); (546, 562, 2, 1);
  (570, 570, 1, 10795); (571, 571, 1, 1); (573, 573, 1, -163); (574, 574, 1, 10792);
  (577, 577, 1, 1); (579, 579, 1, -195); (580, 580, 1, 69); (581, 581, 1, 71);
  (582, 590, 2, 1); (880, 882, 2, 1); (886, 886, 1, 1); (895, 895, 1, 116);
  (902, 902, 1, 38); (904, 906, 1, 37); (908, 908, 1, 64); (910, 911, 1, 63);
  (913, 929, 1, 32); (931, 939, 1, 32); (975, 975, 1, 8); (984, 1006, 2, 1);
  (1012, 1012, 1, -60); (1015, 1015, 1, 1); (1017, 1017, 1, -7); (1018, 1018, 1, 1);
  (1021, 1023, 1, -130); (1024, 1039, 1, 80); (1040, 1071, 1, 32); (1120, 1152, 2, 1);
  (1162, 1214, 2, 1); (1216, 1216, 1, 15); (1217, 1229, 2, 1); (1232, 1326, 2, 1);
  (1329, 1366, 1, 48); (4256, 4293, 1, 7264); (4295, 4295, 1, 7264); (4301, 4301, 1, 7264);
  (5024, 5103, 1, 38864); (5104, 5109, 1, 8); (7312, 7354, 1, -3008);
  (7357, 7359, 1, -3008); (7680, 7828, 2, 1); (7838, 7838, 1, -7615); (7840, 7934, 2, 1);
  (7944, 7951, 1, -8); (7960, 7965, 1, -8); (7976, 7983, 1, -8); (7992, 7999, 1, -8);
  (8008, 8013, 1, -8); (8025, 8031, 2, -8); (8040, 8047, 1, -8); (8072, 8079, 1, -8);
  (8088, 8095, 1, -8); (8104, 8111, 1, -8); (8120, 8121, 1, -8); (8122, 8123, 1, -74);
  (8124, 8124, 1, -9); (8136, 8139, 1, -86); (8140, 8140, 1, -9); (8152, 8153, 1, -8);
  (8154, 8155, 1, -100); (8168, 8169, 1, -8); (8170, 8171, 1, -112); (8172, 8172, 1, -7);
  (8184, 8185, 1, -128); (8186, 8187, 1, -126); (8188, 8188, 1, -9);
  (8486, 8486, 1, -7517); (8490, 8490, 1, -8383); (8491, 8491, 1, -8262);
  (8498, 8498, 1, 28); (8544, 8559, 1, 16); (8579, 8579, 1, 1); (9398, 9423, 1, 26);
  (11264, 11311, 1, 48); (11360, 11360, 1, 1); (11362, 11362, 1, -10743);
  (11363, 11363, 1, -3814); (11364, 11364, 1, -10727); (11367, 11371, 2, 1);
  (11373, 11373, 1, -10780); (11374, 11374, 1, -10749); (11375, 11375, 1, -10783);
  (11376, 11376, 1, -10782); (11378, 11378, 1, 1); (11381, 11381, 1, 1);
  (11390, 11391, 1, -10815); (11392, 11490, 2, 1); (11499, 11501, 2, 1);
  (11506, 11506, 1, 1); (42560, 42604, 2, 1); (42624, 42650, 2, 1); (42786, 42798, 2, 1);
  (42802, 42862, 2, 1); (42873, 42875, 2, 1); (42877, 42877, 1, -35332);
  (42878, 42886, 2, 1); (42891, 42891, 1, 1); (42893, 42893, 1, -42280);
  (42896, 42898, 2, 1); (42902, 42920, 2, 1); (42922, 42922, 1, -42308);
  (42923, 42923, 1, -42319); (42924, 42924, 1, -42315); (42925, 42925, 1, -42305);
  (42926, 42926, 1, -42308); (42928, 42928, 1, -42258); (42929, 42929, 1, -42282);
  (42930, 42930, 1, -42261); (42931, 42931, 1, 928); (42932, 42946, 2, 1);
  (42948, 42948, 1, -48); (42949, 42949, 1, -42307); (42950, 42950, 1, -35384);
  (42951, 42953, 2, 1); (42960, 42960, 1, 1); (42966, 42968, 2, 1); (42997, 42997, 1, 1);
  (65313, 65338, 1, 32); (66560, 66599, 1, 40); (66736, 66771, 1, 40);
  (66928, 66938, 1, 39); (66940, 66954, 1, 39); (66956, 66962, 1, 39);
  (66964, 66965, 1, 39); (68736, 68786, 1, 64); (71840, 71871, 1, 32);
  (93760, 93791, 1, 32); (125184, 125217, 1, 34)
].

Definition in_range (r : Z) (e : Z * Z * Z * Z) : bool :=
  match e with
  | (lo, hi, stride, _) => (lo <=? r) && (r <=? hi) && ((r - lo) mod stride =? 0)
  end.

(** [unicode.ToLower]: the ASCII fast path, then the case table. *)
Definition rune_lower (r : Z) : Z :=
  if (65 <=? r) && (r <=? 90) then r + 32
  else if r <? 128 then r
  else match List.find (in_range r) lower_ranges with
       | Some (_, _, _, delta) => r + delta
       | None => r
       end.

(** [unicode.IsSpace]: the six ASCII spaces, U+0085, U+00A0 and the
    separators of category Z. *)
Definition is_space (r : Z) : bool :=
  ((9 <=? r) && (r <=? 13)) || (r =? 32) || (r =? 0x85) || (r =? 0xA0)
  || (r =? 0x1680) || ((0x2000 <=? r) && (r <=? 0x200a))
  || (r =? 0x2028) || (r =? 0x2029) || (r =? 0x202f) || (r =? 0x205f)
  || (r =? 0x3000).

(** A code point [utf8.EncodeRune] encodes as itself. *)
Definition valid_rune (r : Z) : bool :=
  ((0 <=? r) && (r <? 0xD800)) || ((0xE000 <=? r) && (r <=? 0x10FFFF)).

Definition RuneError : Z := 0xFFFD.

(** A boolean summary of the table: outside ASCII, only U+0130 and U+212A
    have an ASCII lower case, and no entry leaves the valid code points. *)
Definition range_ok (e : Z * Z * Z * Z) : bool :=
  match e with
  | (lo, hi, stride, delta) =>
      (1 <=? stride) && (128 <=? lo) && (lo <=? hi)
      && (((128 <=? lo + delta) && valid_rune lo && valid_rune hi
           && valid_rune (lo + delta) && valid_rune (hi + delta)
           && Bool.eqb (lo <? 0xD800) (hi <? 0xD800)
           && Bool.eqb (lo + delta <? 0xD800) (hi + delta <? 0xD800))
          || ((lo =? hi) && (lo =? 0x130) && (delta =? -199))
          || ((lo =? hi) && (lo =? 0x212A) && (delta =? -8383)))
  end.

Lemma lower_ranges_ok : forallb range_ok lower_ranges = true.
Proof. vm_compute. reflexivity. Qed.

Lemma rune_lower_ascii r : r < 128 → rune_lower r = if (65 <=? r) && (r <=? 90) then r + 32 else r.
Proof. unfold rune_lower. intros. case_match; [done|]. case_match; [done|lia]. Qed.

Lemma rune_lower_find r :
  128 <= r →
  rune_lower r = r ∨
  ∃ lo hi stride delta, in_range r (lo, hi, stride, delta) = true
    ∧ range_ok (lo, hi, stride, delta) = true ∧ rune_lower r = r + delta.
Proof.
  intros Hr. unfold rune_lower.
  destruct ((65 <=? r) && (r <=? 90)) eqn:E1; [lia|].
  destruct (r <? 128) eqn:E2; [lia|].
  destruct (List.find _ _) as [[[[lo hi] st] d]|] eqn:Ef; [|by left].
  apply List.find_some in Ef as [Hin Hr']. right. exists lo, hi, st, d.
  split_and!; [done| |done].
  pose proof lower_ranges_ok as Hok. rewrite forallb_forall in Hok. by apply Hok.
Qed.

(** Only two code points outside ASCII lower into ASCII. *)
Lemma rune_lower_to_ascii r :
  128 <= r → rune_lower r < 128 → r = 0x130 ∨ r = 0x212A.
Proof.
  intros Hr Hlt.
  destruct (rune_lower_find r Hr) as [Heq|(lo&hi&st&d&Hin&Hok&Heq)];
    rewrite Heq in Hlt; [lia|]. unfold in_range, range_ok in *. lia.
Qed.

Lemma rune_lower_valid r : valid_rune r = true → valid_rune (rune_lower r) = true.
Proof.
  intros Hv. destruct (decide (128 <= r)) as [Hr|Hr].
  - destruct (rune_lower_find r Hr) as [->|(lo&hi&st&d&Hin&Hok&->)]; [done|].
    unfold in_range, range_ok, valid_rune in *. lia.
  - rewrite rune_lower_ascii by lia. unfold valid_rune in *. case_match; lia.
Qed.

(** A second boolean summary: no lower case is a space, and none is one of the
    two code points that lower into ASCII. *)
Definition avoids (x : Z) (e : Z * Z * Z * Z) : bool :=
  match e with
  | (lo, hi, stride, delta) =>
    (x <? lo + delta) || (hi + delta <? x) || negb ((x - delta - lo) mod stride =? 0)
  end.
Definition special_runes : list Z :=
  [0x85; 0xA0; 0x1680; 0x2000; 0x2001; 0x2002; 0x2003; 0x2004; 0x2005; 0x2006; 0x2007; 0x2008;
   0x2009; 0x200a; 0x2028; 0x2029; 0x202f; 0x205f; 0x3000; 0x130; 0x212A].

Lemma lower_avoids_special :
  forallb (λ e, forallb (λ x, avoids x e) special_runes) lower_ranges = true.
Proof. vm_compute. reflexivity. Qed.

Lemma space_special r : is_space r = true → r < 128 ∨ r ∈ special_runes.
Proof.
  unfold is_space, special_runes. intros H.
  destruct (decide (r < 128)) as [|Hr]; [by left|right].
  assert (Hcases : r = 0x85 ∨ r = 0xA0 ∨ r = 0x1680 ∨ r = 0x2000 ∨ r = 0x2001 ∨ r = 0x2002 ∨ r = 0x2003
    ∨ r = 0x2004 ∨ r = 0x2005 ∨ r = 0x2006 ∨ r = 0x2007 ∨ r = 0x2008 ∨ r = 0x2009 ∨ r = 0x200a
    ∨ r = 0x2028 ∨ r = 0x2029 ∨ r = 0x202f ∨ r = 0x205f ∨ r = 0x3000) by lia.
  rewrite !elem_of_cons. intuition.
Qed.

(** Outside ASCII, a rune that has a lower case is mapped off the special ones. *)
Lemma rune_lower_special r x :
  128 <= r → x ∈ special_runes → rune_lower r = x → rune_lower r = r.
Proof.
  intros Hr Hx Hl. unfold rune_lower in *.
  destruct ((65 <=? r) && (r <=? 90)) eqn:E1; [lia|]. destruct (r <? 128) eqn:E2; [lia|].
  destruct (List.find (in_range r) lower_ranges) as [[[[lo hi] st] d]|] eqn:Ef; [|done].
  apply List.find_some in Ef as [Hin Hr']. exfalso.
  pose proof lower_avoids_special as Hall. rewrite forallb_forall in Hall.
  specialize (Hall _ Hin). rewrite forallb_forall in Hall.
  apply list_elem_of_In in Hx. specialize (Hall _ Hx). unfold avoids in Hall. unfold in_range in Hr'.
  subst x. replace (r + d - d - lo) with (r - lo) in Hall by lia. lia.
Qed.

(** Lower-casing keeps spaces apart from other runes. *)
Lemma is_space_lower r : is_space (rune_lower r) = true → is_space r = true.
Proof.
  destruct (decide (r < 128)) as [Hr|Hr].
  - rewrite rune_lower_ascii by done. unfold is_space. case_match; lia.
  - intros H. destruct (space_special _ H) as [Hlt|Hx].
    + apply rune_lower_to_ascii in Hlt as [->| ->]; [| |lia]; by vm_compute in H.
    + rewrite (rune_lower_special r (rune_lower r)) in H; [done|lia|done|done].
Qed.

(** A lower-cased rune that lower-cases into ASCII is its own lower case. *)
Lemma rune_lower_lower_ascii r :
  rune_lower (rune_lower r) < 128 → rune_lower (rune_lower r) = rune_lower r.
Proof.
  intros H. destruct (decide (rune_lower r < 128)) as [Hl|Hl].
  - rewrite (rune_lower_ascii (rune_lower r)) by done. destruct (decide (r < 128)) as [Hr|Hr].
    + rewrite rune_lower_ascii by done. repeat case_match; lia.
    + apply rune_lower_to_ascii in Hl as [->| ->]; [vm_compute; reflexivity..|lia].
  - assert (Hx : rune_lower r ∈ [0x130; 0x212A]).
    { apply rune_lower_to_ascii in H as [->| ->]; [by left|right; by left|lia]. }
    destruct (decide (r < 128)) as [Hr|Hr]; [rewrite rune_lower_ascii in Hl by done; case_match; lia|].
    assert (Hs : rune_lower r ∈ special_runes).
    { unfold special_runes. rewrite !elem_of_cons in *. intuition. }
    pose proof (rune_lower_special r _ ltac:(lia) Hs eq_refl) as Hid. rewrite Hid in Hx.
    exfalso. apply elem_of_cons in Hx as [->|Hx]; [by vm_compute in Hid|].
    apply list_elem_of_singleton in Hx as ->. by vm_compute in Hid.
Qed.
