(* ===== verification/GoString.v ===== *)
(** Go strings: byte sequences, UTF-8 and the [strings] functions in use.

    A Go string is a Rocq [string], one [ascii] per byte.  The functions of
    [unicode/utf8] and [strings] the backend calls are defined on the byte
    list; runes are code points in [Z].  Invalid UTF-8 decodes byte by byte to
    [RuneError], as in Go. *)
From S2P Require Import Prelude.
From S2P Require Import GoUnicode.
Open Scope Z_scope.

(** ** Bytes *)

Definition byte_val (a : ascii) : Z := Z.of_N (Strings.Ascii.N_of_ascii a).
Definition byte_of (z : Z) : ascii := Strings.Ascii.ascii_of_N (Z.to_N z).

(** [chr "x"] is the code point of an ASCII character. *)
Notation "'chr' c" := (ltac:(let z := eval vm_compute in (byte_val c%char) in exact z))
  (at level 9, c at level 8, only parsing) : go_scope.

Fixpoint bytes (s : string) : list Z :=
  match s with
  | EmptyString => []
  | String a s => byte_val a :: bytes s
  end.

Fixpoint of_bytes (bs : list Z) : string :=
  match bs with
  | [] => EmptyString
  | b :: bs => String (byte_of b) (of_bytes bs)
  end.

(** Go's [len(s)]. *)
Definition len (s : string) : Z := Z.of_nat (String.length s).

Definition is_byte (b : Z) : bool := (0 <=? b) && (b <? 256).

Lemma byte_val_range a : 0 <= byte_val a < 256.
Proof.
  unfold byte_val. pose proof (Strings.Ascii.N_ascii_bounded a). lia.
Qed.

Lemma byte_of_val a : byte_of (byte_val a) = a.
Proof. unfold byte_of, byte_val. rewrite N2Z.id. apply Strings.Ascii.ascii_N_embedding. Qed.

Lemma byte_val_of b : is_byte b = true → byte_val (byte_of b) = b.
Proof.
  unfold is_byte, byte_of, byte_val. intros.
  rewrite Strings.Ascii.N_ascii_embedding; lia.
Qed.

Lemma of_bytes_bytes s : of_bytes (bytes s) = s.
Proof. induction s as [|a s IH]; simpl; [done|]. by rewrite byte_of_val, IH. Qed.

Lemma bytes_of_bytes bs : forallb is_byte bs = true → bytes (of_bytes bs) = bs.
Proof.
  induction bs as [|b bs IH]; simpl; [done|]. intros [Hb Hbs]%andb_true_iff.
  by rewrite byte_val_of, IH.
Qed.

Lemma bytes_are_bytes s : forallb is_byte (bytes s) = true.
Proof.
  induction s as [|a s IH]; simpl; [done|].
  pose proof (byte_val_range a). unfold is_byte at 1. rewrite IH. lia.
Qed.

#[export] Instance bytes_inj : Inj (=) (=) bytes.
Proof. intros s t H. by rewrite <- (of_bytes_bytes s), H, of_bytes_bytes. Qed.

Lemma bytes_app s t : bytes (s +:+ t) = bytes s ++ bytes t.
Proof. induction s as [|a s IH]; [done|]. simpl. by rewrite <- IH. Qed.

Lemma length_bytes s : length (bytes s) = String.length s.
Proof. induction s; simpl; auto. Qed.

Lemma len_bytes s : len s = Z.of_nat (length (bytes s)).
Proof. unfold len. by rewrite length_bytes. Qed.

(** ** UTF-8 decoding: [utf8.DecodeRuneInString] *)

Definition cont (b : Z) : bool := (0x80 <=? b) && (b <=? 0xBF).

(** The accept range of the second byte, by the leading byte. *)
Definition accept_lo (b0 : Z) : Z :=
  if b0 =? 0xE0 then 0xA0 else if b0 =? 0xF0 then 0x90 else 0x80.
Definition accept_hi (b0 : Z) : Z :=
  if b0 =? 0xED then 0x9F else if b0 =? 0xF4 then 0x8F else 0xBF.

Definition decode_rune (bs : list Z) : Z * nat :=
  match bs with
  | [] => (RuneError, 0%nat)
  | b0 :: t =>
    if b0 <? 0x80 then (b0, 1%nat)
    else if (b0 <? 0xC2) || (0xF4 <? b0) then (RuneError, 1%nat)
    else match t with
    | [] => (RuneError, 1%nat)
    | b1 :: t =>
      if (b1 <? accept_lo b0) || (accept_hi b0 <? b1) then (RuneError, 1%nat)
      else if b0 <? 0xE0 then ((b0 - 0xC0) * 64 + (b1 - 0x80), 2%nat)
      else match t with
      | [] => (RuneError, 1%nat)
      | b2 :: t =>
        if negb (cont b2) then (RuneError, 1%nat)
        else if b0 <? 0xF0 then
          ((b0 - 0xE0) * 4096 + (b1 - 0x80) * 64 + (b2 - 0x80), 3%nat)
        else match t with
        | [] => (RuneError, 1%nat)
        | b3 :: _ =>
          if negb (cont b3) then (RuneError, 1%nat)
          else ((b0 - 0xF0) * 262144 + (b1 - 0x80) * 4096
                + (b2 - 0x80) * 64 + (b3 - 0x80), 4%nat)
        end
      end
    end
  end.

(** [utf8.AppendRune]: the encoding of a rune; surrogates and values outside
    Unicode encode as [RuneError]. *)
Definition encode_rune (r : Z) : list Z :=
  let r := if valid_rune r then r else RuneError in
  if r <? 0x80 then [r]
  else if r <? 0x800 then [0xC0 + r / 64; 0x80 + r mod 64]
  else if r <? 0x10000 then [0xE0 + r / 4096; 0x80 + r / 64 mod 64; 0x80 + r mod 64]
  else [0xF0 + r / 262144; 0x80 + r / 4096 mod 64; 0x80 + r / 64 mod 64; 0x80 + r mod 64].

(** The runes of a byte list with the bytes each was decoded from: what
    [for i, r := range s] visits.  [skip] counts the bytes already consumed. *)
Fixpoint tokens_from (skip : nat) (bs : list Z) : list (Z * list Z) :=
  match bs with
  | [] => []
  | _ :: t =>
    match skip with
    | S k => tokens_from k t
    | O => let '(r, w) := decode_rune bs in (r, take w bs) :: tokens_from (pred w) t
    end
  end.

Definition tokens (bs : list Z) : list (Z * list Z) := tokens_from 0 bs.

(** [[]rune(s)], [utf8.RuneCountInString] and [string([]rune)]. *)
Definition runes (s : string) : list Z := (tokens (bytes s)).*1.
Definition rune_count (s : string) : Z := Z.of_nat (length (runes s)).
Definition string_of_runes (rs : list Z) : string := of_bytes (mjoin (encode_rune <$> rs)).

(** ** The [strings] package *)

Fixpoint drop_while {A} (p : A → bool) (l : list A) : list A :=
  match l with
  | [] => []
  | x :: t => if p x then drop_while p t else l
  end.

Definition drop_while_end {A} (p : A → bool) (l : list A) : list A :=
  reverse (drop_while p (reverse l)).

Definition space_token (t : Z * list Z) : bool := is_space t.1.

(** [strings.TrimSpace]. *)
Definition trim_space (s : string) : string :=
  of_bytes (mjoin (drop_while_end space_token
    (drop_while space_token (tokens (bytes s)))).*2).

(** [strings.ToLower]. *)
Definition to_lower (s : string) : string := string_of_runes (rune_lower <$> runes s).

(** [strings.HasPrefix] and [strings.TrimPrefix]. *)
Fixpoint has_prefix (s p : string) : bool :=
  match p, s with
  | EmptyString, _ => true
  | String b p, String a s => bool_decide (a = b) && has_prefix s p
  | _, _ => false
  end.

Definition trim_prefix (s p : string) : string :=
  if has_prefix s p then String.substring (String.length p) (String.length s) s else s.

(** [strings.Cut] at a one-byte separator. *)
Fixpoint cut (s : string) (sep : ascii) : option (string * string) :=
  match s with
  | EmptyString => None
  | String a s =>
    if decide (a = sep) then Some (EmptyString, s)
    else match cut s sep with
         | Some (x, y) => Some (String a x, y)
         | None => None
         end
  end.

(** [strings.Contains] of a one-byte string and [strings.ContainsAny] of
    ASCII characters. *)
Fixpoint contains (s : string) (c : ascii) : bool :=
  match s with
  | EmptyString => false
  | String a s => bool_decide (a = c) || contains s c
  end.

Definition contains_any (s : string) (cs : list ascii) : bool :=
  existsb (contains s) cs.

(** The runes [strings.EqualFold] identifies with an ASCII rune: its other
    case, U+017F with "s" and U+212A with "k".  Runes folding to no ASCII rune
    are kept apart, so [equal_fold] is [strings.EqualFold] whenever one side is
    ASCII, as it is at every call of the program. *)
Definition fold_key (r : Z) : Z :=
  if r =? 0x17F then chr "s" else if r =? 0x212A then chr "k"
  else if (65 <=? r) && (r <=? 90) then r + 32 else r.

Definition equal_fold (s t : string) : bool :=
  bool_decide (fold_key <$> runes s = fold_key <$> runes t).

(** ** Decoding *)

(** Case analysis on the decoder. *)
Ltac split_decode :=
  repeat match goal with
  | |- context [match ?t with [] => _ | _ :: _ => _ end] => destruct t
  | |- context [if ?b then _ else _] => destruct b eqn:?
  end.

Lemma decode_rune_width b t : (1 ≤ (decode_rune (b :: t)).2 ≤ S (length t))%nat.
Proof. unfold decode_rune. split_decode; simpl; lia. Qed.

Lemma tokens_from_drop k bs : tokens_from k bs = tokens (drop k bs).
Proof.
  revert k. induction bs as [|b t IH]; intros k; [by destruct k|].
  destruct k; [done|]. simpl. apply IH.
Qed.

Lemma tokens_nil : tokens [] = [].
Proof. done. Qed.

Lemma tokens_cons b t r w :
  decode_rune (b :: t) = (r, w) →
  tokens (b :: t) = (r, take w (b :: t)) :: tokens (drop w (b :: t)).
Proof.
  intros Hd. pose proof (decode_rune_width b t) as Hw. rewrite Hd in Hw. simpl in Hw.
  unfold tokens at 1. cbn [tokens_from]. rewrite Hd, tokens_from_drop.
  destruct w; [lia|]. done.
Qed.

(** Induction along the decoder. *)
Lemma tokens_ind (P : list Z → Prop) :
  P [] →
  (∀ b t r w, decode_rune (b :: t) = (r, w) → P (drop w (b :: t)) → P (b :: t)) →
  ∀ bs, P bs.
Proof.
  intros Hnil Hcons bs. remember (length bs) as n eqn:Hn.
  revert bs Hn. induction n as [n IH] using lt_wf_ind. intros [|b t] ->; [done|].
  destruct (decode_rune (b :: t)) as [r w] eqn:Hd.
  pose proof (decode_rune_width b t) as Hw. rewrite Hd in Hw. simpl in Hw.
  eapply Hcons; [done|]. eapply IH; [|done]. rewrite length_drop. simpl. lia.
Qed.

Lemma tokens_join bs : mjoin (tokens bs).*2 = bs.
Proof.
  induction bs as [|b t r w Hd IH] using tokens_ind; [done|].
  rewrite (tokens_cons _ _ _ _ Hd). csimpl. rewrite IH. apply take_drop.
Qed.

Lemma decode_rune_valid b t : 0 <= b → valid_rune (decode_rune (b :: t)).1 = true.
Proof.
  intros. unfold decode_rune, valid_rune, accept_lo, accept_hi, cont, RuneError.
  split_decode; simpl; repeat case_match; lia.
Qed.

(** A rune below 0x80 was decoded from that single byte. *)
Lemma decode_rune_ascii b t :
  is_byte b = true →
  (decode_rune (b :: t)).1 < 0x80 → b < 0x80 ∧ decode_rune (b :: t) = (b, 1%nat).
Proof.
  unfold decode_rune, is_byte, accept_lo, accept_hi, cont, RuneError.
  split_decode; simpl; repeat case_match; try done; lia.
Qed.

(** The decoder looks at no byte behind the rune it returns. *)
Lemma decode_rune_app p q r w :
  decode_rune p = (r, w) → (1 < w)%nat ∨ ((1 ≤ w)%nat ∧ r ≠ RuneError) →
  decode_rune (p ++ q) = (r, w).
Proof.
  destruct p as [|b0 [|b1 [|b2 [|b3 p]]]]; unfold decode_rune; cbn [app];
    repeat case_match; intros; simplify_eq; try done; lia.
Qed.

Lemma encode_rune_bytes r : forallb is_byte (encode_rune r) = true.
Proof.
  unfold encode_rune.
  assert (Hv : valid_rune (if valid_rune r then r else RuneError) = true)
    by by destruct (valid_rune r) eqn:?.
  revert Hv. generalize (if valid_rune r then r else RuneError). clear r.
  unfold valid_rune. intros r Hv.
  repeat case_match; cbn [forallb]; unfold is_byte; lia_div.
Qed.

(** UTF-8 round trip: encoding a rune and decoding returns it. *)
Lemma decode_encode r t :
  valid_rune r = true → decode_rune (encode_rune r ++ t) = (r, length (encode_rune r)).
Proof.
  intros Hv. unfold encode_rune. rewrite Hv. unfold valid_rune in Hv.
  pose proof (Z.mod_pos_bound r 64). pose proof (Z.mod_pos_bound (r / 64) 64).
  pose proof (Z.mod_pos_bound (r / 4096) 64).
  assert (Hdiv : r = 64 * (r / 64) + r mod 64) by (apply Z.div_mod; lia).
  assert (Hdiv2 : r / 64 = 64 * (r / 4096) + r / 64 mod 64).
  { replace (r / 4096) with (r / 64 / 64) by (rewrite Z.div_div; [done|lia..]).
    apply Z.div_mod; lia. }
  assert (Hdiv3 : r / 4096 = 64 * (r / 262144) + r / 4096 mod 64).
  { replace (r / 262144) with (r / 4096 / 64) by (rewrite Z.div_div; [done|lia..]).
    apply Z.div_mod; lia. }
  generalize dependent (r / 262144). generalize dependent (r / 4096 mod 64).
  generalize dependent (r / 4096). generalize dependent (r / 64 mod 64).
  generalize dependent (r / 64). generalize dependent (r mod 64). intros.
  unfold decode_rune, accept_lo, accept_hi, cont.
  destruct (r <? 0x80) eqn:?; [|destruct (r <? 0x800) eqn:?; [|destruct (r <? 0x10000) eqn:?]];
    cbn [app length]; split_decode; repeat case_match; try (exfalso; lia); f_equal; lia.
Qed.

Lemma tokens_encode r t :
  valid_rune r = true → tokens (encode_rune r ++ t) = (r, encode_rune r) :: tokens t.
Proof.
  intros Hv. pose proof (decode_encode r t Hv) as Hd.
  destruct (encode_rune r) as [|b e] eqn:He.
  { unfold encode_rune in He. repeat case_match; done. }
  simpl app in *. rewrite (tokens_cons _ _ _ _ Hd).
  change (b :: e ++ t) with ((b :: e) ++ t). rewrite take_app_length, drop_app_length. done.
Qed.

Lemma runes_string_of_runes rs :
  forallb valid_rune rs = true → runes (string_of_runes rs) = rs.
Proof.
  intros Hv. unfold runes, string_of_runes.
  rewrite bytes_of_bytes.
  - induction rs as [|r rs IH]; [done|]. simpl in Hv. apply andb_true_iff in Hv as [Hr Hv].
    csimpl. rewrite tokens_encode by done. csimpl. f_equal. by apply IH.
  - clear Hv. induction rs as [|r rs IH]; [done|].
    csimpl. rewrite forallb_app, encode_rune_bytes. done.
Qed.

(** Cutting the input behind a decoded rune does not change it. *)
Lemma decode_rune_prefix p q r w :
  decode_rune (p ++ q) = (r, w) → p ≠ [] → (w ≤ length p)%nat → decode_rune p = (r, w).
Proof.
  destruct p as [|b0 [|b1 [|b2 [|b3 p]]]]; unfold decode_rune; cbn [app length];
    repeat case_match; intros; simplify_eq; try done; lia.
Qed.

(** Every run of consecutive tokens is itself the decoding of its bytes. *)
Lemma tokens_drop n bs : tokens (mjoin (drop n (tokens bs)).*2) = drop n (tokens bs).
Proof.
  revert n. induction bs as [|b t r w Hd IH] using tokens_ind; intros n; [by destruct n|].
  destruct n; [by rewrite drop_0, tokens_join|].
  rewrite (tokens_cons _ _ _ _ Hd). apply IH.
Qed.

Lemma tokens_take n bs : tokens (mjoin (take n (tokens bs)).*2) = take n (tokens bs).
Proof.
  revert n. induction bs as [|b t r w Hd IH] using tokens_ind; intros n; [by destruct n|].
  destruct n; [done|].
  pose proof (decode_rune_width b t) as Hw. rewrite Hd in Hw. simpl in Hw.
  rewrite (tokens_cons _ _ _ _ Hd). csimpl.
  set (rest := mjoin (take n (tokens (drop w (b :: t)))).*2) in *.
  destruct w as [|w]; [lia|]. simpl take. simpl app.
  assert (Hd' : decode_rune (b :: take w t ++ rest) = (r, S w)).
  { apply (decode_rune_prefix _ (mjoin (drop n (tokens (drop (S w) (b :: t)))).*2));
      [|done|simpl; rewrite length_app, length_take; lia].
    rewrite <- Hd. f_equal. simpl. f_equal. rewrite <- app_assoc. unfold rest.
    rewrite <- join_app, <- fmap_app, take_drop, tokens_join. apply take_drop. }
  rewrite (tokens_cons _ _ _ _ Hd'). simpl. f_equal.
  - f_equal. f_equal. apply take_app_length'. rewrite length_take. lia.
  - rewrite drop_app_length' by (rewrite length_take; lia). apply IH.
Qed.

(** ** ASCII strings *)

Definition ascii_bytes (bs : list Z) : bool := forallb (λ b, b <? 0x80) bs.

Lemma tokens_ascii bs : ascii_bytes bs = true → tokens bs = (λ b, (b, [b])) <$> bs.
Proof.
  induction bs as [|b bs IH]; [done|]. simpl. intros [Hb Hbs]%andb_true_iff.
  assert (Hd : decode_rune (b :: bs) = (b, 1%nat)) by (unfold decode_rune; by rewrite Hb).
  rewrite (tokens_cons _ _ _ _ Hd). simpl. by rewrite take_0, drop_0, IH.
Qed.

Lemma runes_ascii s : ascii_bytes (bytes s) = true → runes s = bytes s.
Proof.
  intros H. unfold runes. rewrite tokens_ascii by done.
  rewrite <- list_fmap_compose. apply list_fmap_id.
Qed.

(** A string whose runes are ASCII is the string of those bytes. *)
Lemma runes_ascii_bytes s :
  ascii_bytes (runes s) = true → bytes s = runes s.
Proof.
  unfold runes. pose proof (bytes_are_bytes s) as Hb. revert Hb.
  induction (bytes s) as [|b t r w Hd IH] using tokens_ind; [done|].
  rewrite (tokens_cons _ _ _ _ Hd). csimpl. intros Hb [Hr Ht]%andb_true_iff.
  simpl in Hb. apply andb_true_iff in Hb as [Hb Hbt].
  destruct (decode_rune_ascii b t Hb) as [Hlt Hd']; [rewrite Hd; simpl; lia|].
  rewrite Hd' in Hd. simplify_eq. simpl drop in *. rewrite drop_0 in *. f_equal. by apply IH.
Qed.

Lemma string_of_runes_ascii s :
  ascii_bytes (runes s) = true → string_of_runes (runes s) = s.
Proof.
  intros H. apply runes_ascii_bytes in H as Hb. unfold string_of_runes.
  rewrite <- (of_bytes_bytes s) at 2. f_equal. rewrite Hb.
  pose proof (bytes_are_bytes s) as Hr. rewrite Hb in Hr. clear Hb.
  induction (runes s) as [|r rs IH]; [done|]. simpl in H, Hr. unbool.
  csimpl. rewrite IH by done. unfold encode_rune, valid_rune, is_byte in *.
  repeat case_match; try done; lia.
Qed.

(** [to_lower] leaves an ASCII string without upper-case letters alone. *)
Lemma to_lower_id s :
  forallb (λ r, (0 <=? r) && (r <? 0x80) && negb ((65 <=? r) && (r <=? 90))) (runes s) = true →
  to_lower s = s.
Proof.
  intros H. assert (Ha : ascii_bytes (runes s) = true).
  { unfold ascii_bytes. rewrite forallb_forall in *. intros r Hr. specialize (H r Hr). lia. }
  rewrite <- (string_of_runes_ascii s Ha) at 2. unfold to_lower. f_equal.
  rewrite <- (list_fmap_id (runes s)) at 2. apply list_fmap_ext. intros i r Hr.
  apply list_elem_of_lookup_2, list_elem_of_In in Hr.
  rewrite forallb_forall in H. specialize (H r Hr).
  rewrite rune_lower_ascii by lia. simpl. case_match; lia.
Qed.

Lemma runes_valid s : forallb valid_rune (runes s) = true.
Proof.
  unfold runes. pose proof (bytes_are_bytes s) as Hb. revert Hb.
  induction (bytes s) as [|b t r w Hd IH] using tokens_ind; [done|].
  intros Hb. rewrite (tokens_cons _ _ _ _ Hd). csimpl. apply andb_true_intro. split.
  - replace r with (decode_rune (b :: t)).1 by by rewrite Hd.
    apply decode_rune_valid. simpl in Hb. unfold is_byte in Hb. lia.
  - apply IH. apply forallb_forall. intros x Hx. rewrite forallb_forall in Hb. apply Hb.
    rewrite <- (take_drop w (b :: t)). apply in_app_iff. by right.
Qed.

Lemma runes_to_lower s : runes (to_lower s) = rune_lower <$> runes s.
Proof.
  unfold to_lower. apply runes_string_of_runes.
  pose proof (runes_valid s) as Hv. rewrite forallb_forall in *. intros x Hx.
  apply list_elem_of_In, list_elem_of_fmap in Hx as (r&->&Hr%list_elem_of_In).
  apply rune_lower_valid. by apply Hv.
Qed.

(** ** [TrimSpace] *)

Section drop_while.
Context {A : Type} (p : A → bool).
Implicit Types l : list A.

Lemma drop_while_drop l : ∃ n, drop_while p l = drop n l.
Proof.
  induction l as [|x l [n IH]]; [by exists 0%nat|]. simpl.
  case_match; [by exists (S n)|by exists 0%nat].
Qed.

Lemma drop_while_end_take l : ∃ n, drop_while_end p l = take n l.
Proof.
  unfold drop_while_end. destruct (drop_while_drop (reverse l)) as [n ->].
  exists (length l - n)%nat. by rewrite reverse_drop, reverse_involutive, length_reverse.
Qed.

Lemma drop_while_id l : drop_while p l = l ↔ ∀ x, head l = Some x → p x = false.
Proof.
  split.
  - intros H x Hx. destruct l as [|y l]; simplify_eq/=.
    destruct (p x) eqn:Hp; [|done]. exfalso.
    destruct (drop_while_drop l) as [n Hn]. rewrite Hn in H.
    apply (f_equal length) in H. rewrite length_drop in H. simpl in H. lia.
  - intros H. destruct l as [|y l]; simpl; [done|]. by rewrite (H y eq_refl).
Qed.

Lemma drop_while_head l x : head (drop_while p l) = Some x → p x = false.
Proof.
  induction l as [|y l IH]; simpl; [done|]. destruct (p y) eqn:Hp; [done|].
  simpl. naive_solver.
Qed.

Lemma drop_while_idemp l : drop_while p (drop_while p l) = drop_while p l.
Proof. apply drop_while_id, drop_while_head. Qed.

Lemma drop_while_end_idemp l : drop_while_end p (drop_while_end p l) = drop_while_end p l.
Proof. unfold drop_while_end. by rewrite reverse_involutive, drop_while_idemp. Qed.

Lemma drop_while_take n l :
  drop_while p l = l → drop_while p (take n l) = take n l.
Proof.
  rewrite !drop_while_id. intros H x. destruct n; [done|].
  destruct l; [done|]. simpl. apply H.
Qed.

Lemma drop_while_none l : forallb (λ x, negb (p x)) l = true → drop_while p l = l.
Proof. intros H. apply drop_while_id. intros x Hx. destruct l; simplify_eq/=. by unbool. Qed.

Lemma drop_while_end_none l : forallb (λ x, negb (p x)) l = true → drop_while_end p l = l.
Proof.
  intros H. unfold drop_while_end. rewrite drop_while_none; [apply reverse_involutive|].
  rewrite forallb_forall in *. intros x Hx. apply H.
  by apply list_elem_of_In, elem_of_reverse, list_elem_of_In.
Qed.

Lemma drop_while_sub l : sublist (drop_while p l) l.
Proof. destruct (drop_while_drop l) as [n ->]. apply sublist_drop. Qed.
End drop_while.

(** The tokens of a trimmed string. *)
Definition trimmed_tokens (s : string) : list (Z * list Z) :=
  drop_while_end space_token (drop_while space_token (tokens (bytes s))).

Lemma forallb_join_sub (f : Z → bool) (ts ts' : list (Z * list Z)) :
  ts ⊆ ts' → forallb f (mjoin ts'.*2) = true → forallb f (mjoin ts.*2) = true.
Proof.
  intros Hsub. rewrite !forallb_forall. intros H x Hx. apply H.
  rewrite <- list_elem_of_In in *. apply list_elem_of_join in Hx as (l&Hxl&Hl).
  apply list_elem_of_join. exists l. split; [done|].
  apply list_elem_of_fmap in Hl as (t&->&Ht). apply list_elem_of_fmap. eauto.
Qed.

Lemma tokens_trim_space s : tokens (bytes (trim_space s)) = trimmed_tokens s.
Proof.
  unfold trim_space, trimmed_tokens.
  destruct (drop_while_drop space_token (tokens (bytes s))) as [n ->].
  rewrite bytes_of_bytes.
  - pose proof (tokens_drop n (bytes s)) as Hd. rewrite <- Hd.
    destruct (drop_while_end_take space_token (tokens (mjoin (drop n (tokens (bytes s))).*2)))
      as [k ->]. apply tokens_take.
  - destruct (drop_while_end_take space_token (drop n (tokens (bytes s)))) as [k ->].
    pose proof (bytes_are_bytes s) as Hb. rewrite <- (tokens_join (bytes s)) in Hb.
    apply (forallb_join_sub _ _ (tokens (bytes s))); [|done].
    etrans; [apply subseteq_take|apply subseteq_drop].
Qed.

Lemma trim_space_trim s :
  drop_while_end space_token (drop_while space_token (trimmed_tokens s)) = trimmed_tokens s.
Proof.
  unfold trimmed_tokens.
  destruct (drop_while_end_take space_token (drop_while space_token (tokens (bytes s))))
    as [n Hn].
  rewrite Hn at 1. rewrite drop_while_take by apply drop_while_idemp.
  rewrite <- Hn. apply drop_while_end_idemp.
Qed.

(** Trimming twice is trimming once. *)
Lemma trim_space_idemp s : trim_space (trim_space s) = trim_space s.
Proof.
  unfold trim_space at 1. rewrite tokens_trim_space, trim_space_trim. done.
Qed.

(** A string is trimmed when its outer runes are no spaces. *)
Lemma drop_while_end_id {A} (p : A → bool) l :
  drop_while_end p l = l ↔ ∀ x, last l = Some x → p x = false.
Proof.
  unfold drop_while_end. rewrite <- head_reverse, <- drop_while_id. split; intros H.
  - rewrite <- H at 2. by rewrite reverse_involutive.
  - by rewrite H, reverse_involutive.
Qed.

Lemma trim_space_fix s :
  trim_space s = s ↔ (∀ r, head (runes s) = Some r → is_space r = false)
                     ∧ (∀ r, last (runes s) = Some r → is_space r = false).
Proof.
  assert (Hiff : trim_space s = s ↔ drop_while space_token (tokens (bytes s)) = tokens (bytes s)
                   ∧ drop_while_end space_token (tokens (bytes s)) = tokens (bytes s)).
  { split.
    - intros H. pose proof (tokens_trim_space s) as Ht. rewrite H in Ht. unfold trimmed_tokens in Ht.
      assert (Hd : drop_while space_token (tokens (bytes s)) = tokens (bytes s)); [|by rewrite Hd in Ht].
      destruct (drop_while_drop space_token (tokens (bytes s))) as [n Hn]. rewrite Hn in Ht |- *.
      destruct (drop_while_end_take space_token (drop n (tokens (bytes s)))) as [m Hm]. rewrite Hm in Ht.
      apply (f_equal length) in Ht. rewrite length_take, length_drop in Ht.
      destruct (tokens (bytes s)); [by rewrite drop_nil|]. cbn [length] in Ht.
      by replace n with 0%nat by lia.
    - intros [H1 H2]. unfold trim_space. rewrite H1, H2, tokens_join. apply of_bytes_bytes. }
  rewrite Hiff, drop_while_id, drop_while_end_id. unfold runes, space_token.
  rewrite head_map, fmap_last. split; (intros [H1 H2]; split; intros x Hx).
  - apply fmap_Some in Hx as (t&Ht&->). by apply H1.
  - apply fmap_Some in Hx as (t&Ht&->). by apply H2.
  - apply H1. by rewrite Hx.
  - apply H2. by rewrite Hx.
Qed.

Lemma trim_space_lower s : trim_space s = s → trim_space (to_lower s) = to_lower s.
Proof.
  rewrite !trim_space_fix, runes_to_lower, head_map, fmap_last. intros [H1 H2].
  assert (Hl : ∀ r, is_space r = false → is_space (rune_lower r) = false).
  { intros r Hr. destruct (is_space (rune_lower r)) eqn:E; [|done]. apply is_space_lower in E. congruence. }
  split; intros x (r&Hr&->)%fmap_Some; auto.
Qed.

Lemma trim_space_id s : forallb (λ r, negb (is_space r)) (runes s) = true → trim_space s = s.
Proof.
  intros H. unfold trim_space.
  assert (Ht : forallb (λ t, negb (space_token t)) (tokens (bytes s)) = true).
  { unfold runes in H. rewrite forallb_forall in *. intros t Ht. apply H.
    apply list_elem_of_In, list_elem_of_fmap. exists t. split; [done|].
    by apply list_elem_of_In. }
  rewrite drop_while_none by done. rewrite drop_while_end_none by done.
  rewrite tokens_join. apply of_bytes_bytes.
Qed.

(** The result is a substring of the argument, and trims no inner rune. *)
Lemma trim_space_runes s :
  runes (trim_space s) = (trimmed_tokens s).*1.
Proof. unfold runes. by rewrite tokens_trim_space. Qed.

Lemma trim_space_sub s : ∃ n k, runes (trim_space s) = take k (drop n (runes s)).
Proof.
  rewrite trim_space_runes. unfold trimmed_tokens, runes.
  destruct (drop_while_drop space_token (tokens (bytes s))) as [n ->].
  destruct (drop_while_end_take space_token (drop n (tokens (bytes s)))) as [k ->].
  exists n, k. by rewrite fmap_take, fmap_drop.
Qed.

Lemma runes_empty s : runes s = [] ↔ s = "".
Proof.
  split; [|by intros ->]. intros H. apply bytes_inj.
  pose proof (tokens_join (bytes s)) as Hj. unfold runes in H.
  apply fmap_nil_inv in H. rewrite H in Hj. by rewrite <- Hj.
Qed.

Lemma rune_count_pos s : s ≠ "" → 1 <= rune_count s.
Proof.
  intros H. unfold rune_count. destruct (runes s) as [|r rs] eqn:He; [|simpl; lia].
  by apply runes_empty in He.
Qed.

Lemma rune_count_trim s : rune_count (trim_space s) <= rune_count s.
Proof.
  destruct (trim_space_sub s) as (n&k&H). unfold rune_count. rewrite H.
  rewrite length_take, length_drop. lia.
Qed.

(** ** Valid UTF-8 *)

(** Every token is the encoding of its rune. *)
Definition utf8 (s : string) : Prop := Forall (λ t, encode_rune t.1 = t.2) (tokens (bytes s)).

Lemma utf8_string_of_runes s : utf8 s → string_of_runes (runes s) = s.
Proof.
  unfold utf8, string_of_runes, runes. intros H. rewrite <- (of_bytes_bytes s) at 2. f_equal.
  rewrite <- (tokens_join (bytes s)) at 2. f_equal. rewrite <- list_fmap_compose.
  apply list_fmap_ext. intros i t Ht. rewrite Forall_forall in H. apply H.
  by eapply list_elem_of_lookup_2.
Qed.

(** What is encoded from runes is valid, invalid runes being replaced. *)
Lemma tokens_of_runes rs :
  Forall (λ t, encode_rune t.1 = t.2) (tokens (mjoin (encode_rune <$> rs))).
Proof.
  assert (He : ∀ r, ∃ r', valid_rune r' = true ∧ encode_rune r = encode_rune r').
  { intros r. destruct (valid_rune r) eqn:Hv; [by exists r|].
    exists RuneError. split; [done|]. unfold encode_rune. by rewrite Hv. }
  induction rs as [|r rs IH]; [constructor|]. csimpl. destruct (He r) as (r'&Hv&->).
  rewrite tokens_encode by done. by constructor.
Qed.

Lemma join_encode_bytes rs : forallb is_byte (mjoin (encode_rune <$> rs)) = true.
Proof.
  induction rs as [|r rs IH]; [done|]. csimpl. by rewrite forallb_app, encode_rune_bytes.
Qed.

Lemma utf8_of_runes rs : utf8 (string_of_runes rs).
Proof.
  unfold utf8, string_of_runes. rewrite bytes_of_bytes by apply join_encode_bytes.
  apply tokens_of_runes.
Qed.

Lemma utf8_trim_space s : utf8 s → utf8 (trim_space s).
Proof.
  unfold utf8. rewrite tokens_trim_space. unfold trimmed_tokens. intros H.
  destruct (drop_while_drop space_token (tokens (bytes s))) as [n ->].
  destruct (drop_while_end_take space_token (drop n (tokens (bytes s)))) as [k ->].
  by apply Forall_take, Forall_drop.
Qed.

(** ** Splitting at a byte *)

(** [strings.Split] with a one-byte separator: the bytes between them. *)
Fixpoint split_on (sep : Z) (bs : list Z) : list (list Z) :=
  match bs with
  | [] => [[]]
  | b :: bs =>
    if b =? sep then [] :: split_on sep bs
    else match split_on sep bs with p :: ps => (b :: p) :: ps | [] => [[b]] end
  end.

(** [strings.Join] *)
Definition join_with (sep : Z) (ps : list (list Z)) : list Z :=
  match ps with [] => [] | p :: ps => p ++ mjoin ((λ q, sep :: q) <$> ps) end.

Lemma split_on_cons sep bs : ∃ q qs, split_on sep bs = q :: qs.
Proof.
  destruct bs as [|b bs]; cbn [split_on]; [by do 2 eexists|].
  destruct (_ =? _); [by do 2 eexists|]. destruct (split_on sep bs); by do 2 eexists.
Qed.

Lemma split_on_app sep p bs :
  sep ∉ p → split_on sep (p ++ bs) = match split_on sep bs with q :: qs => (p ++ q) :: qs | [] => [] end.
Proof.
  induction p as [|b p IH]; intros Hp; cbn [app].
  { destruct (split_on_cons sep bs) as (q&qs&->). done. }
  apply not_elem_of_cons in Hp as [Hb Hp]. cbn [split_on].
  replace (b =? sep) with false by lia. rewrite IH by done.
  by destruct (split_on_cons sep bs) as (q&qs&->).
Qed.

Lemma split_on_sep sep p bs : sep ∉ p → split_on sep (p ++ sep :: bs) = p :: split_on sep bs.
Proof. intros Hp. rewrite split_on_app by done. cbn [split_on]. by rewrite Z.eqb_refl, app_nil_r. Qed.

Lemma split_join sep ps :
  ps ≠ [] → Forall (λ p, sep ∉ p) ps → split_on sep (join_with sep ps) = ps.
Proof.
  destruct ps as [|p ps]; [done|]. intros _ [Hp Hps]%Forall_cons. cbn [join_with].
  revert p Hp. induction Hps as [|q qs Hq Hqs IH]; intros p Hp.
  { cbn. rewrite split_on_app by done. cbn. by rewrite app_nil_r. }
  change (mjoin _) with (sep :: (q ++ mjoin ((λ q, sep :: q) <$> qs))).
  rewrite split_on_sep by done. f_equal. by apply IH.
Qed.

Lemma split_on_free sep bs : Forall (λ p, sep ∉ p) (split_on sep bs).
Proof.
  induction bs as [|b bs IH]; cbn [split_on]; [repeat constructor; apply not_elem_of_nil|].
  destruct (b =? sep) eqn:Hb; [constructor; [apply not_elem_of_nil|done]|].
  destruct (split_on_cons sep bs) as (q&qs&E). rewrite E in *.
  apply Forall_cons in IH as [Hq Hqs]. constructor; [|done]. rewrite not_elem_of_cons. split; [lia|done].
Qed.

Lemma split_on_two sep bs bs' :
  split_on sep (bs ++ sep :: bs') = split_on sep bs ++ split_on sep bs'.
Proof.
  induction bs as [|b bs IH]; cbn [app split_on]; [by rewrite Z.eqb_refl|].
  destruct (b =? sep); [by rewrite IH|].
  rewrite IH. by destruct (split_on_cons sep bs) as (q&qs&->).
Qed.
