(* ===== verification/GoPath.v ===== *)
(** [path/filepath] on Unix: lexical paths.

    [lex] is the meaning of a path: whether it is rooted, and its elements after
    the rules of [Clean] ("." and empty elements vanish, ".." removes the element
    before it, and vanishes at the root).  [Clean] prints that meaning. *)
From S2P Require Import Prelude.
From S2P Require Import GoUnicode.
From S2P Require Import GoString.
Open Scope Z_scope.

Definition slash : Z := chr "/".
Definition dot : list Z := [chr "."].
Definition dotdot : list Z := [chr "."; chr "."].

(** One element, on the stack of the elements so far. *)
Definition clean_step (rooted : bool) (stack : list (list Z)) (e : list Z) : list (list Z) :=
  if bool_decide (e = []) || bool_decide (e = dot) then stack
  else if bool_decide (e = dotdot) then
    match stack with
    | [] => if rooted then [] else [dotdot]
    | top :: stack' => if bool_decide (top = dotdot) then dotdot :: stack else stack'
    end
  else e :: stack.

Definition rooted (bs : list Z) : bool := bool_decide (head bs = Some slash).

Definition lex (bs : list Z) : bool * list (list Z) :=
  (rooted bs, reverse (foldl (clean_step (rooted bs)) [] (split_on slash bs))).

Definition render (p : bool * list (list Z)) : list Z :=
  if p.1 then slash :: join_with slash p.2
  else if bool_decide (p.2 = []) then dot else join_with slash p.2.

(** [filepath.Clean], and [filepath.Join] of two elements. *)
Definition clean (path : string) : string := of_bytes (render (lex (bytes path))).
Definition join_path (a b : string) : string :=
  if bool_decide (a = "") then (if bool_decide (b = "") then "" else clean b)
  else clean (a +:+ "/" +:+ b).

Example clean_root : clean "/../a//./b/../c/" = "/a/c".
Proof. reflexivity. Qed.
Example clean_relative : clean "a/../../b" = "../b".
Proof. reflexivity. Qed.
Example clean_empty : clean "" = ".".
Proof. reflexivity. Qed.
Example join_dirs : join_path "./static" "/../../etc/passwd" = "../etc/passwd".
Proof. reflexivity. Qed.

(** ** Normal forms *)

(** An element that names a file below its parent. *)
Definition normal (e : list Z) : Prop := e ≠ [] ∧ e ≠ dot ∧ e ≠ dotdot ∧ slash ∉ e.

(** The elements of a cleaned path: only a relative path starts with "..". *)
Definition clean_elems (r : bool) (es : list (list Z)) : Prop :=
  ∃ k ns, es = replicate k dotdot ++ ns ∧ Forall normal ns ∧ (r = true → k = 0%nat).

Lemma clean_step_normal r st e : normal e → clean_step r st e = e :: st.
Proof.
  intros (H0&H1&H2&_). unfold clean_step. by rewrite !bool_decide_false by done.
Qed.

Lemma fold_normal r st es : Forall normal es → foldl (clean_step r) st es = reverse es ++ st.
Proof.
  intros Hes. revert st. induction Hes as [|e es He Hes IH]; intros st; [done|].
  cbn [foldl]. rewrite clean_step_normal, IH by done. by rewrite reverse_cons, <- app_assoc.
Qed.

Lemma fold_dotdots k st :
  Forall (λ e, e = dotdot) st →
  foldl (clean_step false) st (replicate k dotdot) = replicate k dotdot ++ st.
Proof.
  revert st. induction k as [|k IH]; intros st Hst; [done|]. cbn [replicate foldl app].
  assert (E : clean_step false st dotdot = dotdot :: st).
  { destruct st as [|t st]; [done|]. apply Forall_cons in Hst as [-> _]. done. }
  rewrite E, IH by by constructor. clear. induction k as [|k IH]; [done|]. cbn. by rewrite IH.
Qed.

(** The stack of [lex], bottom last. *)
Definition clean_stack (r : bool) (st : list (list Z)) : Prop := clean_elems r (reverse st).

Lemma clean_step_stack r st e : slash ∉ e → clean_stack r st → clean_stack r (clean_step r st e).
Proof.
  unfold clean_stack, clean_elems. intros Hs (k&ns&E&Hns&Hk). unfold clean_step.
  case_bool_decide as H0; [by eauto|]. case_bool_decide as H1; [by eauto|]. cbn [orb].
  apply (f_equal reverse) in E. rewrite reverse_involutive, reverse_app, reverse_replicate in E.
  case_bool_decide as H2.
  - destruct ns as [|n ns _] using rev_ind.
    + rewrite reverse_nil in E. cbn [app] in E. subst st. destruct k as [|k]; cbn [replicate].
      * destruct r; [exists 0%nat, []; by split|].
        exists 1%nat, []. split_and!; [done|constructor|done].
      * rewrite bool_decide_true by done. exists (S (S k)), [].
        change (dotdot :: dotdot :: replicate k dotdot) with (replicate (S (S k)) dotdot).
        rewrite reverse_replicate, app_nil_r. split_and!; [done|constructor|].
        intros Hr. by specialize (Hk Hr).
    + apply Forall_app in Hns as [Hns Hn]. apply Forall_cons in Hn as [(_&_&Hn&_) _].
      rewrite reverse_app in E. cbn [reverse rev_append app] in E. subst st.
      rewrite bool_decide_false by done. exists k, ns.
      by rewrite reverse_app, reverse_replicate, reverse_involutive.
  - exists k, (ns ++ [e]). rewrite reverse_cons, E, reverse_app, reverse_involutive, reverse_replicate.
    rewrite <- app_assoc. split_and!; [done| |done]. apply Forall_app. by repeat constructor.
Qed.

Lemma lex_clean bs : clean_elems (rooted bs) (lex bs).2.
Proof.
  unfold lex. cbn [snd]. fold (clean_stack (rooted bs) (foldl (clean_step (rooted bs)) [] (split_on slash bs))).
  assert (H0 : clean_stack (rooted bs) []) by by exists 0%nat, [].
  revert H0. generalize (@nil (list Z)) (split_on_free slash bs).
  induction (split_on slash bs) as [|e es IH]; intros st Hes Hst; [done|].
  apply Forall_cons in Hes as [He Hes]. cbn [foldl]. apply IH; [done|]. by apply clean_step_stack.
Qed.

(** ** Printing and reading back *)

Lemma slash_dotdot : slash ∉ dotdot.
Proof. intros Hin. repeat (apply elem_of_cons in Hin as [Hin|Hin]; [done|]). by apply not_elem_of_nil in Hin. Qed.

Lemma clean_elems_free r es : clean_elems r es → Forall (λ e, slash ∉ e) es.
Proof.
  intros (k&ns&->&Hns&_). apply Forall_app. split.
  - apply Forall_replicate, slash_dotdot.
  - eapply Forall_impl; [done|]. by intros e (_&_&_&?).
Qed.

Lemma clean_elems_nonempty r e es : clean_elems r (e :: es) → e ≠ [].
Proof.
  intros ([|k]&ns&E&Hns&_); cbn in E; [subst ns|simplify_eq; done].
  apply Forall_cons in Hns as [[? _] _]. done.
Qed.

Lemma fold_clean_elems r es :
  clean_elems r es → foldl (clean_step r) [] es = reverse es.
Proof.
  intros (k&ns&->&Hns&Hk). rewrite foldl_app. destruct r.
  - rewrite Hk by done. cbn. by rewrite fold_normal, app_nil_r.
  - rewrite fold_dotdots, app_nil_r, fold_normal by done || constructor.
    by rewrite reverse_app, reverse_replicate.
Qed.

(** The head of a joined list. *)
Lemma head_join e es : e ≠ [] → head (join_with slash (e :: es)) = head e.
Proof. by destruct e. Qed.

Lemma lex_render r es : clean_elems r es → lex (render (r, es)) = (r, es).
Proof.
  intros Hes. pose proof (clean_elems_free _ _ Hes) as Hf. unfold render. cbn [fst snd].
  destruct r.
  - unfold lex, rooted. cbn [head]. rewrite bool_decide_true by done.
    change (slash :: join_with slash es) with ([] ++ slash :: join_with slash es).
    rewrite split_on_sep by apply not_elem_of_nil. cbn [foldl]. unfold clean_step at 2.
    rewrite bool_decide_true by done. cbn [orb]. destruct es as [|e es]; [done|].
    rewrite split_join by done. by rewrite fold_clean_elems, reverse_involutive.
  - case_bool_decide as He; [by subst|]. destruct es as [|e es]; [done|]. unfold lex.
    assert (Hr : rooted (join_with slash (e :: es)) = false).
    { unfold rooted. rewrite head_join by by eapply clean_elems_nonempty.
      apply bool_decide_eq_false. intros Hh. apply Forall_cons in Hf as [Hf _].
      destruct e as [|b e]; [done|]. injection Hh as ->. apply Hf. by left. }
    by rewrite Hr, split_join, fold_clean_elems, reverse_involutive.
Qed.

(** Bytes stay bytes. *)
Notation byte_elem := (λ e, forallb is_byte e = true).

Lemma clean_step_bytes r st e :
  forallb is_byte e = true → Forall byte_elem st → Forall byte_elem (clean_step r st e).
Proof.
  intros He Hst. unfold clean_step. repeat case_match; try done; try by constructor.
  by apply Forall_cons in Hst as [_ Hst].
Qed.

Lemma split_bytes sep bs : forallb is_byte bs = true → Forall byte_elem (split_on sep bs).
Proof.
  induction bs as [|b bs IH]; cbn [split_on forallb]; [by repeat constructor|].
  intros [Hb Hbs]%andb_true_iff. specialize (IH Hbs). destruct (b =? sep); [by constructor|].
  destruct (split_on_cons sep bs) as (q&qs&E). rewrite E in *.
  apply Forall_cons in IH as [Hq Hqs]. constructor; [|done]. cbn [forallb]. by rewrite Hb, Hq.
Qed.

Lemma join_bytes es : Forall byte_elem es → forallb is_byte (join_with slash es) = true.
Proof.
  destruct es as [|e es]; [done|]. intros [He Hes]%Forall_cons. cbn [join_with].
  rewrite forallb_app, He. cbn [andb]. induction Hes as [|q qs Hq Hqs IH]; [done|].
  change (mjoin _) with (slash :: (q ++ mjoin ((λ q, slash :: q) <$> qs))).
  cbn [forallb]. rewrite forallb_app, Hq. exact IH.
Qed.

Lemma render_bytes bs : forallb is_byte bs = true → forallb is_byte (render (lex bs)) = true.
Proof.
  intros Hbs.
  assert (Hes : Forall byte_elem (lex bs).2).
  { unfold lex. cbn [snd]. apply Forall_reverse. generalize (split_bytes slash bs Hbs).
    assert (H0 : Forall byte_elem (@nil (list Z))) by constructor. revert H0.
    generalize (@nil (list Z)). induction (split_on slash bs) as [|e es IH]; intros st Hst Hes; [done|].
    apply Forall_cons in Hes as [He Hes]. cbn [foldl]. apply IH; [by apply clean_step_bytes|done]. }
  unfold render. destruct (lex bs).1; [cbn [forallb]; by apply join_bytes|].
  case_bool_decide; [done|by apply join_bytes].
Qed.

Lemma bytes_clean p : bytes (clean p) = render (lex (bytes p)).
Proof. unfold clean. apply bytes_of_bytes, render_bytes, bytes_are_bytes. Qed.

(** What a cleaned path means; so cleaning is idempotent. *)
Lemma lex_clean_path p : lex (bytes (clean p)) = lex (bytes p).
Proof.
  rewrite bytes_clean. rewrite (surjective_pairing (lex (bytes p))) at 1. apply lex_render.
  apply lex_clean.
Qed.

Lemma clean_idemp p : clean (clean p) = clean p.
Proof. unfold clean at 1. by rewrite lex_clean_path. Qed.

(** ** Containment *)

(** [file] is [dir] itself or below it. *)
Definition beneath (dir file : string) : Prop :=
  ∃ es, Forall normal es
    ∧ lex (bytes file) = ((lex (bytes dir)).1, (lex (bytes dir)).2 ++ es).

Lemma lex_rooted_normal bs : rooted bs = true → Forall normal (lex bs).2.
Proof.
  intros Hr. destruct (lex_clean bs) as (k&ns&->&Hns&Hk). by rewrite Hk.
Qed.

(** Joining a path whose elements are [es]. *)
Lemma lex_join dir p es :
  dir ≠ "" →
  (∀ r st, foldl (clean_step r) st (split_on slash (bytes p)) = reverse es ++ st) →
  lex (bytes (join_path dir p)) = ((lex (bytes dir)).1, (lex (bytes dir)).2 ++ es).
Proof.
  intros Hd Hp. unfold join_path. rewrite bool_decide_false by done.
  rewrite lex_clean_path, !bytes_app. change (bytes "/") with [slash]. cbn [app].
  assert (Hb : bytes dir ≠ []) by (intros E; apply Hd; by apply bytes_inj).
  assert (Hr : rooted (bytes dir ++ slash :: bytes p) = rooted (bytes dir)).
  { unfold rooted. by destruct (bytes dir). }
  unfold lex at 1. rewrite Hr, split_on_two, foldl_app, Hp.
  f_equal. by rewrite reverse_app, reverse_involutive.
Qed.

Lemma fold_rooted p r st :
  rooted (bytes p) = true →
  foldl (clean_step r) st (split_on slash (bytes (clean p))) = reverse (lex (bytes p)).2 ++ st.
Proof.
  intros Hp. pose proof (lex_rooted_normal _ Hp) as Hn. rewrite bytes_clean. unfold render.
  change (lex (bytes p)).1 with (rooted (bytes p)). rewrite Hp.
  change (slash :: join_with slash (lex (bytes p)).2) with ([] ++ slash :: join_with slash (lex (bytes p)).2).
  rewrite split_on_sep by apply not_elem_of_nil. cbn [foldl]. unfold clean_step at 2.
  rewrite bool_decide_true by done. cbn [orb]. destruct (lex (bytes p)).2 as [|e es] eqn:E; [done|].
  rewrite split_join; [by apply fold_normal|done|].
  eapply Forall_impl; [done|]. by intros x (_&_&_&?).
Qed.

(** Joining a rooted path, however many ".." it has, stays beneath. *)
Lemma join_rooted dir p :
  dir ≠ "" → rooted (bytes p) = true →
  lex (bytes (join_path dir (clean p))) = ((lex (bytes dir)).1, (lex (bytes dir)).2 ++ (lex (bytes p)).2).
Proof. intros Hd Hp. apply lex_join; [done|]. intros r st. by apply fold_rooted. Qed.

Lemma join_rooted_beneath dir p :
  dir ≠ "" → rooted (bytes p) = true → beneath dir (join_path dir (clean p)).
Proof. intros Hd Hp. eexists. split; [by apply lex_rooted_normal|by apply join_rooted]. Qed.

Lemma join_name_beneath dir name :
  dir ≠ "" → normal (bytes name) → beneath dir (join_path dir name).
Proof.
  intros Hd Hn. exists [bytes name]. split; [constructor; [done|constructor]|]. apply lex_join; [done|].
  intros r st. rewrite <- (app_nil_r (bytes name)) at 1. rewrite split_on_app by apply Hn.
  cbn [split_on]. rewrite app_nil_r. cbn [foldl]. by rewrite clean_step_normal.
Qed.

(** A second leading slash changes nothing. *)
Lemma clean_slash p : rooted (bytes p) = true → clean ("/" +:+ p) = clean p.
Proof.
  intros Hp. unfold clean. do 2 f_equal. rewrite bytes_app. change (bytes "/") with [slash]. cbn [app].
  unfold lex. rewrite Hp. unfold rooted. cbn [head]. rewrite bool_decide_true by done.
  cbn [split_on]. by rewrite Z.eqb_refl.
Qed.
