(* ===== verification/GoFloat.v ===== *)
(** [float64] arithmetic on finite numbers.

    A finite float is the rational it stands for, in lowest terms.  Every
    operation is the exact one on rationals followed by [round64], the rounding of
    IEEE 754 to the nearest of 53 significant bits, ties to even.  The exponents
    are not bounded: the numbers computed here stay far inside the range. *)
From Stdlib Require Import QArith Qcanon.
From S2P Require Import Prelude.
Open Scope Z_scope.

(** [u / v] rounded to an integer. *)
Definition half_even (u v : Z) : Z :=
  let q := u / v in
  let r := u mod v in
  if 2 * r <? v then q else if v <? 2 * r then q + 1 else if Z.even q then q else q + 1.

(** Numerator and denominator of [n / d / 2 ^ e]. *)
Definition scale (e n d : Z) : Z * Z := if 0 <=? e then (n, d * 2 ^ e) else (n * 2 ^ (- e), d).

(** The exponent that leaves 53 bits before the point. *)
Definition exponent (n d : Z) : Z :=
  let e := Z.log2 n - Z.log2 d - 53 in
  let '(u, v) := scale e n d in
  if 2 ^ 53 * v <=? u then e + 1 else e.

(** [m * 2 ^ e] *)
Definition dyadic (m e : Z) : Q :=
  if 0 <=? e then inject_Z (m * 2 ^ e) else Qmake m (Z.to_pos (2 ^ (- e))).

Definition round_ratio (n d : Z) : Q :=
  let e := exponent n d in
  let '(u, v) := scale e n d in
  dyadic (half_even u v) e.

Definition round64 (q : Q) : Q :=
  Qred match Qnum q with
       | Z0 => 0%Q
       | Zpos _ => round_ratio (Qnum q) (QDen q)
       | Zneg _ => Qopp (round_ratio (- Qnum q) (QDen q))
       end.

(** Conversion from and to integers ([int(f)] truncates), product, quotient. *)
Definition of_int (n : Z) : Q := round64 (inject_Z n).
Definition to_int (f : Q) : Z := Z.quot (Qnum f) (QDen f).
Definition fmul (a b : Q) : Q := round64 (a * b).
Definition fdiv (a b : Q) : Q := round64 (a / b).
Definition fadd (a b : Q) : Q := round64 (a + b).

Example tenth : round64 (1 # 10) = (3602879701896397 # 36028797018963968)%Q.
Proof. vm_compute. reflexivity. Qed.
Example tie_to_even : of_int (2 ^ 53 + 1) = inject_Z (2 ^ 53).
Proof. vm_compute. reflexivity. Qed.
Example tie_up : of_int (2 ^ 53 + 3) = inject_Z (2 ^ 53 + 4).
Proof. vm_compute. reflexivity. Qed.

(** ** Facts *)

Lemma half_even_near u v : 0 < v → 2 * Z.abs (half_even u v * v - u) <= v.
Proof.
  intros Hv. unfold half_even. pose proof (Z.mod_pos_bound u v Hv).
  pose proof (Z.div_mod u v ltac:(lia)). repeat case_match; nia.
Qed.

(** Powers of two in a comparison, whatever the sign of the exponent. *)
Definition pw (x : Z) : Z := 2 ^ Z.max 0 x.

Lemma pw_pos x : 0 < pw x.
Proof. unfold pw. apply Z.pow_pos_nonneg; lia. Qed.

Lemma scale_compare k e n d u v :
  0 <= k → scale e n d = (u, v) →
  (2 ^ k * v <= u ↔ d * pw (k + e) <= n * pw (- (k + e))).
Proof.
  intros Hk. unfold scale, pw. case_match; intros [= <- <-].
  - rewrite Z.max_r, Z.max_l by lia. rewrite Z.pow_add_r by lia. simpl (2 ^ 0).
    replace (2 ^ k * (d * 2 ^ e)) with (d * (2 ^ k * 2 ^ e)) by ring. by rewrite Z.mul_1_r.
  - destruct (decide (0 <= k + e)).
    + rewrite Z.max_r, Z.max_l by lia. simpl (2 ^ 0).
      replace (2 ^ k) with (2 ^ (k + e) * 2 ^ (- e)) by (rewrite <- Z.pow_add_r by lia; f_equal; lia).
      pose proof (Z.pow_pos_nonneg 2 (- e) ltac:(lia) ltac:(lia)). nia.
    + rewrite Z.max_l, Z.max_r by lia. simpl (2 ^ 0).
      replace (2 ^ (- e)) with (2 ^ (- (k + e)) * 2 ^ k) by (rewrite <- Z.pow_add_r by lia; f_equal; lia).
      pose proof (Z.pow_pos_nonneg 2 k ltac:(lia) ltac:(lia)). nia.
Qed.

Lemma pow2_eq x y z : 0 <= y → 0 <= z → x = y + z → 2 ^ x = 2 ^ y * 2 ^ z.
Proof. intros ? ? ->. by apply Z.pow_add_r. Qed.

Lemma log2_ratio n d :
  0 < n → 0 < d →
  let l := Z.log2 n - Z.log2 d in
  d * pw (l - 1) <= n * pw (- (l - 1)) ∧ ¬ d * pw (l + 1) <= n * pw (- (l + 1)).
Proof.
  intros Hn Hd l. unfold l, pw. pose proof (Z.log2_spec n Hn) as [Hn1 Hn2].
  pose proof (Z.log2_spec d Hd) as [Hd1 Hd2]. pose proof (Z.log2_nonneg n). pose proof (Z.log2_nonneg d).
  set (a := Z.log2 n) in *. set (b := Z.log2 d) in *.
  rewrite Z.pow_succ_r in Hn2, Hd2 by lia. split.
  - destruct (decide (0 <= a - b - 1)).
    + rewrite Z.max_r, Z.max_l by lia. simpl (2 ^ 0).
      assert (E : 2 ^ a = 2 * 2 ^ b * 2 ^ (a - b - 1)).
      { rewrite <- (Z.pow_succ_r 2) by lia. apply pow2_eq; lia. }
      pose proof (Z.pow_pos_nonneg 2 (a - b - 1) ltac:(lia) ltac:(lia)). nia.
    + rewrite Z.max_l, Z.max_r by lia. simpl (2 ^ 0).
      assert (E : 2 * 2 ^ b = 2 ^ a * 2 ^ (- (a - b - 1))).
      { rewrite <- (Z.pow_succ_r 2) by lia. apply pow2_eq; lia. }
      pose proof (Z.pow_pos_nonneg 2 (- (a - b - 1)) ltac:(lia) ltac:(lia)). nia.
  - apply Z.lt_nge. destruct (decide (0 <= a - b + 1)).
    + rewrite Z.max_l, Z.max_r by lia. simpl (2 ^ 0).
      assert (E : 2 * 2 ^ a = 2 ^ b * 2 ^ (a - b + 1)).
      { rewrite <- (Z.pow_succ_r 2) by lia. apply pow2_eq; lia. }
      pose proof (Z.pow_pos_nonneg 2 (a - b + 1) ltac:(lia) ltac:(lia)). nia.
    + rewrite Z.max_r, Z.max_l by lia. simpl (2 ^ 0).
      assert (E : 2 ^ b = 2 * 2 ^ a * 2 ^ (- (a - b + 1))).
      { rewrite <- (Z.pow_succ_r 2) by lia. apply pow2_eq; lia. }
      pose proof (Z.pow_pos_nonneg 2 (- (a - b + 1)) ltac:(lia) ltac:(lia)). nia.
Qed.

(** 53 bits before the point. *)
Lemma exponent_spec n d u v :
  0 < n → 0 < d → scale (exponent n d) n d = (u, v) → 0 < v ∧ 2 ^ 52 * v <= u < 2 ^ 53 * v.
Proof.
  intros Hn Hd E. assert (Hv : 0 < v).
  { revert E. unfold scale. case_match; intros [= <- <-]; [|done].
    pose proof (Z.pow_pos_nonneg 2 (exponent n d) ltac:(lia) ltac:(lia)). nia. }
  split; [done|]. pose proof (log2_ratio n d Hn Hd) as [Hlo Hhi]. cbv zeta in *.
  pose proof (scale_compare 52 _ n d u v ltac:(lia) E) as H52.
  pose proof (scale_compare 53 _ n d u v ltac:(lia) E) as H53.
  unfold exponent in *. set (l := Z.log2 n - Z.log2 d) in *.
  destruct (scale (l - 53) n d) as [u0 v0] eqn:E0.
  pose proof (scale_compare 53 _ n d u0 v0 ltac:(lia) E0) as H0.
  destruct (2 ^ 53 * v0 <=? u0) eqn:Hbig.
  - replace (52 + (l - 53 + 1)) with l in H52 by lia. replace (53 + (l - 53 + 1)) with (l + 1) in H53 by lia.
    replace (53 + (l - 53)) with l in H0 by lia. split; [apply H52, H0; lia|].
    apply Z.lt_nge. intros Hc. apply Hhi. by apply H53.
  - replace (52 + (l - 53)) with (l - 1) in H52 by lia. replace (53 + (l - 53)) with l in H0, H53 by lia.
    split; [by apply H52|]. apply Z.lt_nge. intros Hc%H53. apply H0 in Hc. lia.
Qed.

(** A number below [2 ^ 53] has no bits to shift out. *)
Lemma round_ratio_small n d :
  0 < n → 0 < d → n < 2 ^ 53 * d →
  ∃ s, 0 < s ∧ 2 ^ 52 * d <= n * s < 2 ^ 53 * d
       ∧ (round_ratio n d == Qmake (half_even (n * s) d) (Z.to_pos s))%Q.
Proof.
  intros Hn Hd Hb. unfold round_ratio. set (e := exponent n d).
  destruct (scale e n d) as [u v] eqn:E.
  pose proof (exponent_spec n d u v Hn Hd E) as (Hv&Hlo&Hhi). unfold scale in E.
  assert (He : e <= 0).
  { destruct (decide (e <= 0)) as [|He]; [done|]. replace (0 <=? e) with true in E by lia.
    injection E as <- <-. pose proof (Z.pow_le_mono_r 2 1 e ltac:(lia) ltac:(lia)). nia. }
  exists (2 ^ (- e)). pose proof (Z.pow_pos_nonneg 2 (- e) ltac:(lia) ltac:(lia)).
  destruct (0 <=? e) eqn:E0.
  - assert (He0 : e = 0) by lia. rewrite He0 in *. injection E as E1 E2.
    assert (u = n ∧ v = d) as [-> ->] by lia. change (2 ^ (- 0)) with 1.
    split_and!; [done|lia..|]. unfold dyadic. cbn [Z.leb Z.compare]. by rewrite !Z.mul_1_r.
  - injection E as <- <-. split_and!; try done. unfold dyadic. by rewrite E0.
Qed.

Lemma half_even_exact k v : 0 < v → half_even (k * v) v = k.
Proof. intros Hv. pose proof (half_even_near (k * v) v Hv). nia. Qed.

(** Integers of 53 bits are exact. *)
Lemma of_int_exact n : 0 <= n < 2 ^ 53 → of_int n = inject_Z n.
Proof.
  intros Hn. unfold of_int, round64. cbn [Qnum inject_Z Qden].
  assert (Hr : Qred (inject_Z n) = inject_Z n) by (apply Qred_identity, Z.gcd_1_r).
  destruct n as [|p|p]; [done| |lia]. rewrite <- Hr. apply Qred_complete.
  destruct (round_ratio_small (Zpos p) 1) as (s&Hs&_&->); [lia..|].
  rewrite <- (Z.mul_1_r (Zpos p * s)) at 1. rewrite half_even_exact by lia.
  unfold Qeq. cbn [Qnum Qden inject_Z]. rewrite Z2Pos.id by done. lia.
Qed.

Lemma to_int_round n d k :
  0 < n → n < 2 ^ 53 * Zpos d →
  (∀ s m, 0 < s → 2 ^ 52 * Zpos d <= n * s < 2 ^ 53 * Zpos d →
          2 * Z.abs (m * Zpos d - n * s) <= Zpos d → k * s <= m < (k + 1) * s) →
  0 <= k → to_int (round64 (Qmake n d)) = k.
Proof.
  intros Hn Hb Hk Hk0. destruct n as [|p|p]; [lia| |lia]. cbn [round64 Qnum Qden].
  unfold round64. cbn [Qnum Qden].
  destruct (round_ratio_small (Zpos p) (Zpos d)) as (s&Hs&Hu&Hr); [lia..|].
  specialize (Hk s (half_even (Zpos p * s) (Zpos d)) Hs Hu (half_even_near (Zpos p * s) (Zpos d) ltac:(lia))).
  set (m := half_even _ _) in *. set (q := Qred _).
  assert (Hq : (q == Qmake m (Z.to_pos s))%Q) by (unfold q; by rewrite Qred_correct).
  unfold Qeq in Hq. cbn [Qnum Qden] in Hq. rewrite Z2Pos.id in Hq by done.
  assert (0 <= Qnum q) by nia. unfold to_int. rewrite Z.quot_div_nonneg by lia.
  symmetry. apply (Z.div_unique_pos _ _ _ (Qnum q - k * QDen q)); [|ring].
  assert (0 < QDen q) by lia. nia.
Qed.

(** The per cent constants are below what they stand for ([100 * c] is [P * d]
    less a little): the rounding of a product puts it back on the integer. *)
Lemma percent_exact P c d δ n :
  0 <= P <= 100 → 0 <= δ → 100 * c = P * Zpos d - δ → 2 ^ 54 * δ <= P * Zpos d - δ →
  0 <= n <= 2 ^ 45 → to_int (fmul (Qmake c d) (of_int n)) = P * n / 100.
Proof.
  intros HP Hδ Hc Hsmall Hn. rewrite of_int_exact by lia. unfold fmul, Qmult, inject_Z.
  cbn [Qnum Qden]. rewrite Pos.mul_1_r.
  destruct (decide (c * n = 0)) as [H0|H0].
  { rewrite H0. cbn. symmetry. destruct (decide (n = 0)) as [->|]; [by rewrite Z.mul_0_r|].
    assert (P = 0) as -> by nia. done. }
  pose proof (Z.div_mod (P * n) 100 ltac:(lia)) as Hdm.
  pose proof (Z.mod_pos_bound (P * n) 100 ltac:(lia)) as Hr.
  set (k := P * n / 100) in *. set (r := (P * n) mod 100) in *.
  assert (Hexact : 100 * (c * n) = (100 * k + r) * Zpos d - n * δ) by nia.
  assert (c * n <= Zpos d * 2 ^ 45) by nia.
  apply to_int_round; [nia|nia| |unfold k; apply Z.div_pos; lia].
  intros s m Hs Hu Hm. assert (Hsbig : 128 <= s) by nia.
  assert (Hnδ : 2 ^ 9 * (n * δ) <= 100 * Zpos d) by nia.
  assert (Hms : 200 * (m * Zpos d) <= 200 * (c * n * s) + 100 * Zpos d
                ∧ 200 * (c * n * s) - 100 * Zpos d <= 200 * (m * Zpos d)) by lia.
  assert (Hcs : 100 * (c * n * s) = (100 * k + r) * Zpos d * s - n * δ * s) by nia.
  generalize dependent (Zpos d). intros D HD. intros. clearbody k r.
  assert (Hds : 128 * D <= D * s) by nia.
  assert (Hss : 2 ^ 9 * (n * δ * s) <= 100 * (D * s)) by nia.
  split.
  - apply Z.lt_succ_r, (Z.mul_lt_mono_pos_r D); [lia|]. destruct (decide (r = 0)) as [E|E].
    + assert (2 ^ 54 * (n * δ * s) < 100 * (2 ^ 53 * D)) by nia. subst r. nia.
    + assert (D * s <= r * (D * s)) by nia. nia.
  - apply (Z.mul_lt_mono_pos_r D); [lia|]. assert (r * (D * s) <= 99 * (D * s)) by nia. nia.
Qed.
