(* ===== verification/GoTime.v ===== *)
(** Go's [time] package as far as the backend uses it.

    An instant is a number of nanoseconds since the zero time (1 January of
    year 1, UTC) with the location it is displayed in.  The calendar is the
    proleptic Gregorian one; [parse] interprets a layout chunk by chunk the way
    [time.Parse] does, and [format_rfc3339nano] is [Time.Format] for
    [time.RFC3339Nano].  The process time zone is an argument: [zone]
    is the [Location.lookup] of [time.Local]. *)
From S2P Require Import Prelude.
From S2P Require Import GoUnicode.
From S2P Require Import GoString.
Open Scope Z_scope.

(** ** Instants *)

Inductive location := UTC | Local | FixedZone (offset : Z).

#[export] Instance location_eq_dec : EqDecision location.
Proof. solve_decision. Defined.

Record time := mk_time { t_ns : Z; t_loc : location }.

#[export] Instance time_eq_dec : EqDecision time.
Proof. solve_decision. Defined.

Definition Nanosecond : Z := 1.
Definition Second : Z := 1000000000.
Definition Minute : Z := 60 * Second.
Definition Hour : Z := 60 * Minute.

Definition zero_time : time := mk_time 0 UTC.

(** [Time.UTC], [Time.IsZero], [Time.Before], [Time.After], [Time.Equal],
    [Time.Add] and [Time.Sub]. *)
Definition utc (t : time) : time := mk_time (t_ns t) UTC.
Definition is_zero (t : time) : bool := t_ns t =? 0.
Definition before (t u : time) : bool := t_ns t <? t_ns u.
Definition after (t u : time) : bool := t_ns u <? t_ns t.
Definition time_equal (t u : time) : bool := t_ns t =? t_ns u.
Definition add (t : time) (d : Z) : time := mk_time (t_ns t + d) (t_loc t).
Definition sub (t u : time) : Z := t_ns t - t_ns u.

(** ** Calendar *)

(** Days from 0000-03-01 to a civil date, and back. *)
Definition days_from_civil (y m d : Z) : Z :=
  let y := if m <=? 2 then y - 1 else y in
  let era := y / 400 in
  let yoe := y - era * 400 in
  let doy := (153 * (if 2 <? m then m - 3 else m + 9) + 2) / 5 + d - 1 in
  era * 146097 + (yoe * 365 + yoe / 4 - yoe / 100 + doy).

Definition civil_from_days (z : Z) : Z * Z * Z :=
  let era := z / 146097 in
  let doe := z - era * 146097 in
  let yoe := (doe - doe / 1460 + doe / 36524 - doe / 146096) / 365 in
  let doy := doe - (365 * yoe + yoe / 4 - yoe / 100) in
  let mp := (5 * doy + 2) / 153 in
  let d := doy - (153 * mp + 2) / 5 + 1 in
  let m := if mp <? 10 then mp + 3 else mp - 9 in
  let y := yoe + era * 400 in
  (if m <=? 2 then y + 1 else y, m, d).

(** 0001-01-01 is day 306 of that count. *)
Definition epoch_day : Z := 306.

Definition is_leap (y : Z) : bool :=
  (y mod 4 =? 0) && (negb (y mod 100 =? 0) || (y mod 400 =? 0)).

Definition days_in (m y : Z) : Z :=
  if m =? 2 then (if is_leap y then 29 else 28)
  else if (m =? 4) || (m =? 6) || (m =? 9) || (m =? 11) then 30 else 31.

(** Seconds from the zero time of a civil date and clock. *)
Definition civil_seconds (y mo d h mi s : Z) : Z :=
  (days_from_civil y mo d - epoch_day) * 86400 + h * 3600 + mi * 60 + s.

(** ** Formatting *)

Definition digit (n : Z) : Z := chr "0" + n.
Definition pad2 (n : Z) : list Z := [digit (n / 10 mod 10); digit (n mod 10)].
Definition pad4 (n : Z) : list Z := pad2 (n / 100) ++ pad2 n.

(** The [k] low decimal digits of [n], most significant first. *)
Fixpoint digits (k : nat) (n : Z) : list Z :=
  match k with
  | O => []
  | S k => digits k (n / 10) ++ [digit (n mod 10)]
  end.

(** The fraction of [.999999999]: trailing zeros and an empty fraction are
    dropped. *)
Definition format_frac (ns : Z) : list Z :=
  match drop_while_end (λ b, b =? chr "0") (digits 9 ns) with
  | [] => []
  | ds => chr "." :: ds
  end.

Definition format_offset (offset : Z) : list Z :=
  if offset =? 0 then [chr "Z"]
  else (if offset <? 0 then chr "-" else chr "+")
       :: pad2 (Z.abs offset / 60 / 60) ++ [chr ":"] ++ pad2 (Z.abs offset / 60 mod 60).

Section zone.
(** [lookup sec] is the offset of the process time zone at [sec] (seconds since
    the zero time) with the bounds of the interval the offset is valid in. *)
Context (lookup : Z → Z * Z * Z).

Definition offset_at (l : location) (sec : Z) : Z :=
  match l with
  | UTC => 0
  | Local => (lookup sec).1.1
  | FixedZone o => o
  end.

Definition format_rfc3339nano (t : time) : string :=
  let sec := t_ns t / Second in
  let ns := t_ns t mod Second in
  let offset := offset_at (t_loc t) sec in
  let abs := sec + offset in
  let '(y, mo, d) := civil_from_days (abs / 86400 + epoch_day) in
  let clock := abs mod 86400 in
  of_bytes (pad4 y ++ [chr "-"] ++ pad2 mo ++ [chr "-"] ++ pad2 d ++ [chr "T"]
    ++ pad2 (clock / 3600) ++ [chr ":"] ++ pad2 (clock / 60 mod 60) ++ [chr ":"]
    ++ pad2 (clock mod 60) ++ format_frac ns ++ format_offset offset).

(** ** Parsing *)

(** The layout chunks of [nextStdChunk] that occur in the layouts in use. *)
Inductive chunk :=
| CLongYear | CZeroMonth | CZeroDay | CHour | CZeroMinute | CZeroSecond
| CFrac9 | CISO8601ColonTZ | CNumColonTZ | CLit (b : Z).

Definition layout_date : list chunk :=
  [CLongYear; CLit chr "-"; CZeroMonth; CLit chr "-"; CZeroDay].
Definition layout_clock : list chunk :=
  [CHour; CLit chr ":"; CZeroMinute; CLit chr ":"; CZeroSecond].

Definition RFC3339 : list chunk :=
  layout_date ++ [CLit chr "T"] ++ layout_clock ++ [CISO8601ColonTZ].
Definition RFC3339Nano : list chunk :=
  layout_date ++ [CLit chr "T"] ++ layout_clock ++ [CFrac9; CISO8601ColonTZ].
(** "2006-01-02 15:04:05" and "2006-01-02 15:04:05.999999999-07:00" *)
Definition DateTime : list chunk :=
  layout_date ++ [CLit chr " "] ++ layout_clock.
Definition DateTimeNanoZone : list chunk :=
  layout_date ++ [CLit chr " "] ++ layout_clock ++ [CFrac9; CNumColonTZ].

Record fields := mk_fields {
  f_year : Z; f_month : Z; f_day : Z; f_hour : Z; f_min : Z; f_sec : Z; f_nsec : Z;
  f_utc : bool; f_offset : option Z
}.

Definition no_fields : fields := mk_fields 0 (-1) (-1) 0 0 0 0 false None.

Definition is_digit (b : Z) : bool := (chr "0" <=? b) && (b <=? chr "9").

(** [getnum]: one or two digits, two when [fixed]. *)
Definition getnum (value : list Z) (fixed : bool) : option (Z * list Z) :=
  match value with
  | [] => None
  | a :: t =>
    if negb (is_digit a) then None
    else match t with
    | b :: t' =>
      if is_digit b then Some ((a - chr "0") * 10 + (b - chr "0"), t')
      else if fixed then None else Some (a - chr "0", t)
    | [] => if fixed then None else Some (a - chr "0", t)
    end
  end.

(** The value of a run of digits. *)
Definition digits_val (ds : list Z) : Z := foldl (λ acc b, acc * 10 + (b - chr "0")) 0 ds.

Fixpoint take_digits (value : list Z) : list Z * list Z :=
  match value with
  | b :: t => if is_digit b then let '(ds, r) := take_digits t in (b :: ds, r) else ([], value)
  | [] => ([], [])
  end.

(** [parseNanoseconds] of a separator and the digits [ds]. *)
Definition parse_nanos (ds : list Z) : Z :=
  let ds := take 9 ds in
  digits_val ds * 10 ^ (9 - Z.of_nat (length ds)).

Definition comma_or_period (b : Z) : bool := (b =? chr ".") || (b =? chr ",").

(** A fraction at the head of the input, if there is one. *)
Definition take_frac (value : list Z) : option (Z * list Z) :=
  match value with
  | a :: b :: _ =>
    if comma_or_period a && is_digit b then
      let '(ds, rest) := take_digits (tail value) in Some (parse_nanos ds, rest)
    else None
  | _ => None
  end.

Definition set_nsec (ns : Z) (f : fields) : fields :=
  mk_fields (f_year f) (f_month f) (f_day f) (f_hour f) (f_min f) (f_sec f) ns (f_utc f) (f_offset f).

(** The numeric zone [-07:00]. *)
Definition parse_num_zone (f : fields) (value : list Z) : option (fields * list Z) :=
  match value with
  | sign :: h1 :: h2 :: colon :: m1 :: m2 :: rest =>
    if negb (colon =? chr ":") then None
    else match getnum [h1; h2] true, getnum [m1; m2] true with
    | Some (hr, _), Some (mm, _) =>
      if (24 <? hr) || (60 <? mm) then None
      else
        let off := (hr * 60 + mm) * 60 in
        let mk o := Some (mk_fields (f_year f) (f_month f) (f_day f) (f_hour f)
                            (f_min f) (f_sec f) (f_nsec f) (f_utc f) (Some o), rest) in
        if sign =? chr "+" then mk off
        else if sign =? chr "-" then mk (- off) else None
    | _, _ => None
    end
  | _ => None
  end.

(** One iteration of the loop of [parse]; [next] is the rest of the layout. *)
Definition parse_chunk (c : chunk) (next : list chunk) (f : fields) (value : list Z) :
    option (fields * list Z) :=
  let '(mk_fields y mo d h mi s ns z off) := f in
  match c with
  | CLit b =>
    if b =? chr " " then
      match value with
      | a :: _ => if a =? chr " " then Some (f, drop_while (λ x, x =? chr " ") value) else None
      | [] => Some (f, [])
      end
    else match value with
    | a :: t => if a =? b then Some (f, t) else None
    | [] => None
    end
  | CLongYear =>
    let p := take 4 value in
    if (length p =? 4)%nat && forallb is_digit p
    then Some (mk_fields (digits_val p) mo d h mi s ns z off, drop 4 value) else None
  | CZeroMonth =>
    '(n, t) ← getnum value true;
    if (n <=? 0) || (12 <? n) then None else Some (mk_fields y n d h mi s ns z off, t)
  | CZeroDay =>
    '(n, t) ← getnum value true; Some (mk_fields y mo n h mi s ns z off, t)
  | CHour =>
    '(n, t) ← getnum value false;
    if 24 <=? n then None else Some (mk_fields y mo d n mi s ns z off, t)
  | CZeroMinute =>
    '(n, t) ← getnum value true;
    if 60 <=? n then None else Some (mk_fields y mo d h n s ns z off, t)
  | CZeroSecond =>
    '(n, t) ← getnum value true;
    if 60 <=? n then None
    else
      let f := mk_fields y mo d h mi n ns z off in
      match next with
      | CFrac9 :: _ => Some (f, t)
      | _ => match take_frac t with
             | Some (ns, t) => Some (set_nsec ns f, t)
             | None => Some (f, t)
             end
      end
  | CFrac9 =>
    match take_frac value with
    | Some (ns, t) => Some (set_nsec ns f, t)
    | None => Some (f, value)
    end
  | CISO8601ColonTZ =>
    match value with
    | a :: t => if a =? chr "Z" then Some (mk_fields y mo d h mi s ns true off, t)
                else parse_num_zone f value
    | [] => None
    end
  | CNumColonTZ => parse_num_zone f value
  end.

Fixpoint parse_chunks (layout : list chunk) (f : fields) (value : list Z) : option fields :=
  match layout with
  | [] => match value with [] => Some f | _ => None end
  | c :: next => '(f, value) ← parse_chunk c next f value; parse_chunks next f value
  end.

(** [time.Date] in the process time zone. *)
Definition local_seconds (sec : Z) : Z :=
  let '(offset, start, stop) := lookup sec in
  if offset =? 0 then sec
  else
    let u := sec - offset in
    if u <? start then sec - (lookup (start - 1)).1.1
    else if stop <=? u then sec - (lookup stop).1.1
    else u.

(** [time.Parse] and [time.ParseInLocation]: [default] is the location of a
    value without a zone. *)
Definition parse (layout : list chunk) (value : string) (default : location) : option time :=
  f ← parse_chunks layout no_fields (bytes value);
  if (f_day f <? 1) || (days_in (f_month f) (f_year f) <? f_day f) then None
  else
    let sec := civil_seconds (f_year f) (f_month f) (f_day f) (f_hour f) (f_min f) (f_sec f) in
    if f_utc f then Some (mk_time (sec * Second + f_nsec f) UTC)
    else match f_offset f with
    | Some o =>
      let u := sec - o in
      Some (mk_time (u * Second + f_nsec f)
              (if (lookup u).1.1 =? o then Local else FixedZone o))
    | None =>
      match default with
      | Local => Some (mk_time (local_seconds sec * Second + f_nsec f) Local)
      | l => Some (mk_time ((sec - offset_at l sec) * Second + f_nsec f) l)
      end
    end.
End zone.

(** ** The calendar round trip *)

(** The decomposition is checked on the years of one 400-year era and on the
    days of one year, then shifted to every era. *)
Fixpoint check_from (f : Z → bool) (k : nat) (z : Z) : bool :=
  match k with O => true | S k => f z && check_from f k (z + 1) end.

Lemma check_from_spec f k z i :
  check_from f k z = true → z <= i < z + Z.of_nat k → f i = true.
Proof.
  revert z. induction k as [|k IH]; intros z H Hi; [lia|].
  simpl in H. unbool. destruct (decide (i = z)) as [->|]; [done|]. apply (IH (z + 1)); [done|lia].
Qed.

(** The year of a day of the era, its first day, and the first day behind it
    (years start in March, so the leap day is the last day of a year). *)
Definition yoe_of (doe : Z) : Z := (doe - doe / 1460 + doe / 36524 - doe / 146096) / 365.
Definition year_start (yoe : Z) : Z := 365 * yoe + yoe / 4 - yoe / 100.
Definition year_stop (yoe : Z) : Z := if yoe =? 399 then 146097 else year_start (yoe + 1).

Definition year_ok (yoe : Z) : bool :=
  (yoe_of (year_start yoe) =? yoe) && (yoe_of (year_stop yoe - 1) =? yoe)
  && ((year_stop yoe - year_start yoe <=? 365)
      || ((year_stop yoe - year_start yoe =? 366) && is_leap (yoe + 1))).

Definition month_of (doy : Z) : Z * Z :=
  let mp := (5 * doy + 2) / 153 in
  (if mp <? 10 then mp + 3 else mp - 9, doy - (153 * mp + 2) / 5 + 1).

Definition doy_ok (doy : Z) : bool :=
  let '(m, d) := month_of doy in
  ((153 * (if 2 <? m then m - 3 else m + 9) + 2) / 5 + d - 1 =? doy)
  && (1 <=? m) && (m <=? 12) && (1 <=? d)
  && (d <=? (if m =? 2 then (if doy =? 365 then 29 else 28) else days_in m 0))
  && Bool.eqb (m <=? 2) (306 <=? doy).

Lemma years_ok : check_from year_ok 400 0 = true.
Proof. vm_compute. reflexivity. Qed.

Lemma doys_ok : check_from doy_ok 366 0 = true.
Proof. vm_compute. reflexivity. Qed.

Lemma yoe_of_mono a b : 0 <= a <= b → b < 146097 → yoe_of a <= yoe_of b.
Proof.
  intros Hab Hb. unfold yoe_of. apply Z.div_le_mono; [lia|].
  assert (a / 36524 <= b / 36524) by (apply Z.div_le_mono; lia).
  destruct (decide (a = 146096)) as [->|]; [by replace b with 146096 by lia|].
  assert (a / 146096 = 0) by (apply Z.div_small; lia).
  destruct (decide (b = 146096)) as [->|].
  - change (146096 / 146096) with 1. change (146096 / 1460) with 100. lia_div.
  - assert (b / 146096 = 0) by (apply Z.div_small; lia). lia_div.
Qed.

(** Every day of the era lies in the year [yoe_of] gives. *)
Lemma yoe_of_bounds doe :
  0 <= doe < 146097 →
  0 <= yoe_of doe < 400 ∧ year_start (yoe_of doe) <= doe < year_stop (yoe_of doe).
Proof.
  intros Hdoe. set (y := yoe_of doe).
  assert (Hy : 0 <= y < 400).
  { pose proof (yoe_of_mono 0 doe ltac:(lia) ltac:(lia)) as H0.
    pose proof (yoe_of_mono doe 146096 ltac:(lia) ltac:(lia)) as H1.
    change (yoe_of 0) with 0 in H0. change (yoe_of 146096) with 399 in H1. lia. }
  assert (Hok : ∀ k, 0 <= k < 400 → year_ok k = true).
  { intros k Hk. apply (check_from_spec _ _ _ k years_ok). lia. }
  split; [done|]. split.
  - destruct (decide (y = 0)) as [E0|]; [rewrite E0; change (year_start 0) with 0; lia|].
    pose proof (Hok (y - 1) ltac:(lia)) as Hp. unfold year_ok, year_stop in Hp.
    destruct (decide (year_start y <= doe)) as [|Hn]; [done|]. exfalso.
    destruct (y - 1 =? 399) eqn:E; [lia|]. replace (y - 1 + 1) with y in Hp by lia.
    pose proof (yoe_of_mono doe (year_start y - 1) ltac:(lia)) as Hm.
    assert (year_start y <= 146096) by (unfold year_start; lia_div).
    unfold y in *. lia.
  - destruct (decide (doe < year_stop y)) as [|Hn]; [done|]. exfalso.
    unfold year_stop in Hn. destruct (y =? 399) eqn:E; [lia|].
    pose proof (Hok (y + 1) ltac:(lia)) as Hp. unfold year_ok in Hp.
    pose proof (yoe_of_mono (year_start (y + 1)) doe) as Hm.
    assert (0 <= year_start (y + 1)) by (unfold year_start; lia_div).
    unfold y in *. lia.
Qed.

Lemma civil_from_days_shift era doe :
  0 <= doe < 146097 →
  civil_from_days (era * 146097 + doe) =
    let '(y, m, d) := civil_from_days doe in (y + 400 * era, m, d).
Proof.
  intros H. unfold civil_from_days.
  assert (Hd : (era * 146097 + doe) / 146097 = era) by lia_div.
  assert (Hd0 : doe / 146097 = 0) by lia_div.
  rewrite Hd, Hd0.
  replace (era * 146097 + doe - era * 146097) with doe by lia.
  replace (doe - 0 * 146097) with doe by lia.
  repeat case_match; apply pair_equal_spec; split; try done;
    apply pair_equal_spec; split; try done; lia.
Qed.

Lemma days_from_civil_shift era y m d :
  days_from_civil (y + 400 * era) m d = days_from_civil y m d + era * 146097.
Proof.
  unfold days_from_civil.
  set (y' := if m <=? 2 then y - 1 else y).
  replace (if m <=? 2 then y + 400 * era - 1 else y + 400 * era) with (y' + 400 * era)
    by (unfold y'; case_match; lia).
  replace ((y' + 400 * era) / 400) with (y' / 400 + era)
    by (rewrite Z.mul_comm, Z.div_add; lia).
  replace (y' + 400 * era - (y' / 400 + era) * 400) with (y' - y' / 400 * 400) by lia.
  lia.
Qed.

Lemma is_leap_shift era y : is_leap (y + 400 * era) = is_leap y.
Proof.
  unfold is_leap.
  replace ((y + 400 * era) mod 4) with (y mod 4) by lia_div.
  replace ((y + 400 * era) mod 100) with (y mod 100) by lia_div.
  replace ((y + 400 * era) mod 400) with (y mod 400) by lia_div. done.
Qed.

Lemma civil_era doe :
  0 <= doe < 146097 →
  let '(y, m, d) := civil_from_days doe in
  days_from_civil y m d = doe ∧ 1 <= m <= 12 ∧ 1 <= d <= days_in m y.
Proof.
  intros Hdoe. destruct (yoe_of_bounds doe Hdoe) as [Hy Hb].
  unfold civil_from_days. rewrite (Z.div_small doe) by done.
  replace (doe - 0 * 146097) with doe by lia. fold (yoe_of doe).
  set (yoe := yoe_of doe) in *.
  change (365 * yoe + yoe / 4 - yoe / 100) with (year_start yoe).
  set (doy := doe - year_start yoe).
  pose proof (check_from_spec _ _ _ yoe years_ok ltac:(lia)) as Hyear. unfold year_ok in Hyear.
  pose proof (check_from_spec _ _ _ doy doys_ok ltac:(lia)) as Hdoy.
  unfold doy_ok, month_of in Hdoy. fold doy. replace (yoe + 0 * 400) with yoe by lia.
  set (mp := (5 * doy + 2) / 153) in *. set (m := if mp <? 10 then mp + 3 else mp - 9) in *.
  set (d := doy - (153 * mp + 2) / 5 + 1) in *. unbool. split_and!; [|lia..|].
  - unfold days_from_civil.
    replace (if m <=? 2 then (if m <=? 2 then yoe + 1 else yoe) - 1
             else (if m <=? 2 then yoe + 1 else yoe)) with yoe by (destruct (m <=? 2); lia).
    rewrite (Z.div_small yoe) by lia. replace (yoe - 0 * 400) with yoe by lia.
    unfold year_start in *. lia.
  - unfold days_in in *. destruct (m =? 2) eqn:Hm; [|repeat case_match; lia].
    destruct (doy =? 365) eqn:Hd; 
      [|match goal with |- _ <= (if ?b then _ else _) => destruct b end; lia].
    replace (m <=? 2) with true by lia. replace (is_leap (yoe + 1)) with true by lia. lia.
Qed.

Lemma civil_round_trip z y m d :
  civil_from_days z = (y, m, d) →
  days_from_civil y m d = z ∧ 1 <= m <= 12 ∧ 1 <= d <= days_in m y.
Proof.
  set (era := z / 146097). set (doe := z mod 146097).
  assert (Hz : z = era * 146097 + doe) by (unfold era, doe; lia_div).
  assert (Hdoe : 0 <= doe < 146097) by (apply Z.mod_pos_bound; lia).
  rewrite Hz at 1. rewrite civil_from_days_shift by done.
  pose proof (civil_era doe Hdoe) as Hok.
  destruct (civil_from_days doe) as [[y0 m0] d0]. intros [= <- <- <-].
  rewrite days_from_civil_shift. unfold days_in in *. rewrite is_leap_shift.
  split; [lia|]. split; [lia|]. destruct (m0 =? 2), (is_leap y0); lia.
Qed.

(** ** Digits *)

Lemma is_digit_digit n : 0 <= n < 10 → is_digit (digit n) = true.
Proof. unfold is_digit, digit. lia. Qed.

Lemma getnum_pad2 n fixed rest :
  0 <= n < 100 → getnum (pad2 n ++ rest) fixed = Some (n, rest).
Proof.
  intros Hn. unfold pad2. simpl.
  rewrite !is_digit_digit by (apply Z.mod_pos_bound; lia). simpl. unfold digit.
  do 2 f_equal. rewrite (Z.mod_small (n / 10)) by lia_div. lia_div.
Qed.

Lemma digits_length k n : length (digits k n) = k.
Proof. revert n. induction k as [|k IH]; intros n; [done|]. simpl. rewrite length_app, IH. simpl. lia. Qed.

Lemma digits_are_digits k n : forallb is_digit (digits k n) = true.
Proof.
  revert n. induction k as [|k IH]; intros n; [done|]. simpl.
  rewrite forallb_app, IH. simpl. rewrite is_digit_digit; [done|]. apply Z.mod_pos_bound. lia.
Qed.

Lemma digits_val_app a b :
  digits_val (a ++ b) = digits_val a * 10 ^ Z.of_nat (length b) + digits_val b.
Proof.
  unfold digits_val. rewrite foldl_app. generalize (foldl (λ acc b0, acc * 10 + (b0 - 48)) 0 a).
  induction b as [|x b IH] using rev_ind; intros z; [simpl; lia|].
  rewrite !foldl_app, IH, length_app. simpl.
  replace (Z.of_nat (length b + 1)) with (Z.of_nat (length b) + 1) by lia.
  rewrite Z.pow_add_r by lia. lia.
Qed.

Lemma digits_val_digits k n :
  0 <= n < 10 ^ Z.of_nat k → digits_val (digits k n) = n.
Proof.
  revert n. induction k as [|k IH]; intros n Hn.
  { change (10 ^ Z.of_nat 0) with 1 in Hn. unfold digits_val. simpl. lia. }
  simpl digits. rewrite digits_val_app. replace (Z.of_nat (S k)) with (Z.of_nat k + 1) in Hn by lia.
  rewrite Z.pow_add_r in Hn by lia. change (10 ^ 1) with 10 in Hn.
  rewrite IH by lia_div. unfold digits_val, digit. simpl. lia_div.
Qed.

Lemma digits_val_zeros k : digits_val (replicate k (chr "0")) = 0.
Proof.
  unfold digits_val. induction k as [|k IH] using nat_ind; [done|].
  rewrite replicate_S_end, foldl_app, IH. done.
Qed.

Lemma take_digits_app ds rest :
  forallb is_digit ds = true →
  match rest with [] => True | b :: _ => is_digit b = false end →
  take_digits (ds ++ rest) = (ds, rest).
Proof.
  intros Hd Hr. induction ds as [|d ds IH]; simpl in *.
  - destruct rest as [|b rest]; [done|]. simpl. by rewrite Hr.
  - unbool. by rewrite H, IH.
Qed.

(** Trailing zeros do not change the parsed fraction. *)
Lemma drop_zeros_val ds :
  ∃ k, ds = drop_while_end (λ b, b =? chr "0") ds ++ replicate k (chr "0").
Proof.
  unfold drop_while_end. induction ds as [|d ds IH] using rev_ind; [by exists 0%nat|].
  rewrite reverse_snoc. cbn [drop_while]. destruct (d =? 48) eqn:Hd.
  - destruct IH as [k IH]. exists (S k). rewrite replicate_S_end, app_assoc, <- IH.
    f_equal. f_equal. lia.
  - exists 0%nat. by rewrite reverse_cons, reverse_involutive, app_nil_r.
Qed.

Lemma parse_nanos_format ns :
  0 <= ns < Second →
  parse_nanos (drop_while_end (λ b, b =? chr "0") (digits 9 ns)) = ns.
Proof.
  intros Hns. destruct (drop_zeros_val (digits 9 ns)) as [k Hk].
  set (ds := drop_while_end _ _) in *.
  assert (Hl : (length ds + k = 9)%nat).
  { pose proof (digits_length 9 ns) as Hl. rewrite Hk, length_app, length_replicate in Hl. done. }
  unfold parse_nanos. rewrite take_ge by lia.
  pose proof (digits_val_digits 9 ns ltac:(unfold Second in Hns; simpl; lia)) as Hv.
  rewrite Hk, digits_val_app, length_replicate, digits_val_zeros in Hv.
  replace (9 - Z.of_nat (length ds)) with (Z.of_nat k) by lia. lia.
Qed.

(** ** Formatting and parsing *)

Lemma parse_chunks_cons c next f v f' v' :
  parse_chunk c next f v = Some (f', v') →
  parse_chunks (c :: next) f v = parse_chunks next f' v'.
Proof. intros H. cbn [parse_chunks]. by rewrite H. Qed.

Lemma parse_lit next f b rest :
  b <> 32 → parse_chunk (CLit b) next f (b :: rest) = Some (f, rest).
Proof.
  intros Hb. destruct f. cbn [parse_chunk]. destruct (b =? 32) eqn:E; [lia|].
  by rewrite Z.eqb_refl.
Qed.

Lemma parse_year next mo d h mi s ns z off y0 y rest :
  0 <= y <= 9999 →
  parse_chunk CLongYear next (mk_fields y0 mo d h mi s ns z off) (pad4 y ++ rest)
  = Some (mk_fields y mo d h mi s ns z off, rest).
Proof.
  intros Hy. unfold pad4, pad2. cbn [parse_chunk app take drop length forallb].
  rewrite !is_digit_digit by (apply Z.mod_pos_bound; lia). simpl.
  unfold digits_val, digit. simpl. do 3 f_equal. lia_div.
Qed.

(** A formatted fraction in front of a zone designator is read back. *)
Lemma take_frac_format ns rest :
  0 < ns < Second →
  match rest with [] => True | b :: _ => is_digit b = false end →
  take_frac (format_frac ns ++ rest) = Some (ns, rest).
Proof.
  intros Hns Hr. unfold format_frac. set (ds := drop_while_end _ _).
  pose proof (parse_nanos_format ns ltac:(lia)) as Hv. fold ds in Hv.
  assert (Hd : forallb is_digit ds = true).
  { destruct (drop_while_end_take (λ b, b =? chr "0") (digits 9 ns)) as [k Hk].
    unfold ds. rewrite Hk. apply forallb_take, digits_are_digits. }
  pose proof (take_digits_app ds rest Hd Hr) as Ht.
  destruct ds as [|d ds]; [by change (parse_nanos []) with 0 in Hv; lia|].
  cbn [app take_frac tail]. simpl in Hd. unbool.
  change (comma_or_period 46) with true. rewrite H. cbn [andb].
  change (d :: ds ++ rest) with ((d :: ds) ++ rest). by rewrite Ht, Hv.
Qed.

Lemma parse_frac next f ns rest :
  0 <= ns < Second → f_nsec f = 0 →
  match rest with [] => True | b :: _ => is_digit b = false ∧ comma_or_period b = false end →
  parse_chunk CFrac9 next f (format_frac ns ++ rest) = Some (set_nsec ns f, rest).
Proof.
  intros Hns Hf Hr. destruct f as [y mo d h mi s n0 z off]. simpl in Hf. subst n0.
  cbn [parse_chunk]. destruct (decide (ns = 0)) as [->|].
  - change (format_frac 0) with (@nil Z). simpl.
    destruct rest as [|a [|b t]]; [done..|]. cbn [take_frac]. destruct Hr as [_ Hp]. by rewrite Hp.
  - rewrite take_frac_format; [done|lia|]. destruct rest; [done|]. by destruct Hr.
Qed.

Lemma civil_year_of sec y mo d :
  civil_from_days (sec / 86400 + epoch_day) = (y, mo, d) →
  civil_seconds y mo d (sec mod 86400 / 3600) (sec mod 86400 / 60 mod 60) (sec mod 86400 mod 60)
  = sec ∧ 1 <= mo <= 12 ∧ 1 <= d <= days_in mo y.
Proof.
  intros H%civil_round_trip. destruct H as (H&?&?). split; [|lia].
  unfold civil_seconds. rewrite H. lia_div.
Qed.

Lemma pad2_bytes n : forallb is_byte (pad2 n) = true.
Proof. unfold pad2, digit, is_byte. simpl. lia_div. Qed.

Lemma format_frac_bytes ns : forallb is_byte (format_frac ns) = true.
Proof.
  unfold format_frac.
  destruct (drop_while_end_take (λ b, b =? chr "0") (digits 9 ns)) as [k ->].
  assert (H : forallb is_byte (take k (digits 9 ns)) = true).
  { pose proof (forallb_take _ k _ (digits_are_digits 9 ns)) as H.
    rewrite forallb_forall in *. intros x Hx. specialize (H x Hx).
    unfold is_digit, is_byte in *. lia. }
  destruct (take k (digits 9 ns)); [done|]. cbn [forallb] in *. by rewrite H.
Qed.

(** The calendar year an instant falls in, in UTC. *)
Definition year (t : time) : Z :=
  (civil_from_days (t_ns t / Second / 86400 + epoch_day)).1.1.

(** A timestamp with a four-digit year. *)
Definition four_digit_year (t : time) : Prop := 0 <= year t <= 9999.

(** Date and time of day up to the seconds, which the RFC 3339 layouts share. *)
Definition rfc3339_prefix : list chunk :=
  layout_date ++ [CLit chr "T"; CHour; CLit chr ":"; CZeroMinute; CLit chr ":"].

Lemma parse_rfc3339_prefix y mo d h mi next rest :
  0 <= y <= 9999 → 1 <= mo <= 12 → 0 <= d <= 31 → 0 <= h < 24 → 0 <= mi < 60 →
  parse_chunks (rfc3339_prefix ++ next) no_fields
    (pad4 y ++ [chr "-"] ++ pad2 mo ++ [chr "-"] ++ pad2 d ++ [chr "T"]
     ++ pad2 h ++ [chr ":"] ++ pad2 mi ++ [chr ":"] ++ rest)
  = parse_chunks next (mk_fields y mo d h mi 0 0 false None) rest.
Proof.
  intros Hy Hmo Hd Hh Hmi. unfold rfc3339_prefix, layout_date, no_fields. cbn [app].
  rewrite (parse_chunks_cons _ _ _ _ _ _ (parse_year _ _ _ _ _ _ _ _ _ _ _ _ Hy)).
  erewrite parse_chunks_cons by by apply parse_lit.
  erewrite parse_chunks_cons
    by (cbn [parse_chunk]; rewrite getnum_pad2 by lia; cbn [mbind option_bind];
        replace ((mo <=? 0) || (12 <? mo)) with false by lia; done).
  erewrite parse_chunks_cons by by apply parse_lit.
  erewrite parse_chunks_cons by (cbn [parse_chunk]; rewrite getnum_pad2 by lia; done).
  erewrite parse_chunks_cons by by apply parse_lit.
  erewrite parse_chunks_cons
    by (cbn [parse_chunk]; rewrite getnum_pad2 by lia; cbn [mbind option_bind];
        replace (24 <=? h) with false by lia; done).
  erewrite parse_chunks_cons by by apply parse_lit.
  erewrite parse_chunks_cons
    by (cbn [parse_chunk]; rewrite getnum_pad2 by lia; cbn [mbind option_bind];
        replace (60 <=? mi) with false by lia; done).
  by erewrite parse_chunks_cons by by apply parse_lit.
Qed.

(** Seconds, fraction and a [Z], with the fraction in the layout or not. *)
Lemma parse_rfc3339_seconds (frac : bool) y mo d h mi s ns :
  0 <= s < 60 → 0 <= ns < Second →
  parse_chunks (CZeroSecond :: (if frac then [CFrac9] else []) ++ [CISO8601ColonTZ])
    (mk_fields y mo d h mi 0 0 false None) (pad2 s ++ format_frac ns ++ [chr "Z"])
  = Some (mk_fields y mo d h mi s ns true None).
Proof.
  intros Hs Hns. destruct frac; cbn [app].
  - erewrite parse_chunks_cons
      by (cbn [parse_chunk]; rewrite getnum_pad2 by lia; cbn [mbind option_bind];
          replace (60 <=? s) with false by lia; done).
    by erewrite parse_chunks_cons by by apply parse_frac.
  - destruct (decide (ns = 0)) as [->|Hne].
    + change (format_frac 0) with (@nil Z).
      erewrite parse_chunks_cons
        by (cbn [parse_chunk]; rewrite getnum_pad2 by lia; cbn [mbind option_bind app];
            replace (60 <=? s) with false by lia; done). done.
    + erewrite parse_chunks_cons
        by (cbn [parse_chunk]; rewrite getnum_pad2 by lia; cbn [mbind option_bind];
            replace (60 <=? s) with false by lia; rewrite take_frac_format by (done || lia); done).
      done.
Qed.

Definition rfc3339_layout (frac : bool) : list chunk := if frac then RFC3339Nano else RFC3339.

(** What [Format] writes for a UTC instant of a four-digit year, [Parse] reads
    back with the nanosecond layout and with the plain one, in every process
    time zone. *)
Lemma parse_format_layout lookup (frac : bool) t default :
  0 <= year t <= 9999 →
  parse lookup (rfc3339_layout frac) (format_rfc3339nano lookup (utc t)) default = Some (utc t).
Proof.
  intros Hy. unfold format_rfc3339nano, year, utc in *. cbn [t_ns t_loc offset_at].
  set (sec := t_ns t / Second) in *. rewrite Z.add_0_r.
  set (ns := t_ns t mod Second).
  assert (Hns : 0 <= ns < Second) by (apply Z.mod_pos_bound; done).
  destruct (civil_from_days (sec / 86400 + epoch_day)) as [[y mo] d] eqn:Hc. simpl in Hy.
  apply civil_year_of in Hc as (Hsec&Hmo&Hd).
  assert (d <= 31) by (unfold days_in in Hd; repeat case_match; lia).
  assert (0 <= sec mod 86400 < 86400) by (apply Z.mod_pos_bound; lia).
  set (clock := sec mod 86400) in *.
  change (format_offset 0) with [chr "Z"].
  unfold parse. rewrite bytes_of_bytes.
  2:{ unfold pad4. rewrite !forallb_app, !pad2_bytes, format_frac_bytes. done. }
  replace (rfc3339_layout frac)
    with (rfc3339_prefix ++ CZeroSecond :: (if frac then [CFrac9] else []) ++ [CISO8601ColonTZ])
    by by destruct frac.
  rewrite parse_rfc3339_prefix by lia_div. rewrite parse_rfc3339_seconds by (done || lia_div).
  cbn [mbind option_bind f_day f_month f_year f_hour f_min f_sec f_utc f_nsec]. rewrite Hsec.
  replace ((d <? 1) || (days_in mo y <? d)) with false by lia.
  do 2 f_equal. unfold sec, ns. rewrite (Z.div_mod (t_ns t) Second) at 3 by done. lia.
Qed.

Lemma parse_format lookup t default :
  0 <= year t <= 9999 →
  parse lookup RFC3339Nano (format_rfc3339nano lookup (utc t)) default = Some (utc t).
Proof. apply (parse_format_layout lookup true). Qed.

(** The characters of a formatted UTC instant, and how many there are. *)
Lemma pad2_chars n : Forall (λ b, 45 <= b <= 90) (pad2 n).
Proof. unfold pad2, digit. repeat constructor; lia_div. Qed.

Lemma format_frac_chars ns :
  Forall (λ b, 45 <= b <= 90) (format_frac ns) ∧ (length (format_frac ns) <= 10)%nat.
Proof.
  unfold format_frac.
  destruct (drop_while_end_take (λ b, b =? chr "0") (digits 9 ns)) as [k ->].
  assert (H : Forall (λ b, 45 <= b <= 90) (take k (digits 9 ns))).
  { apply Forall_take, Forall_forall. intros x Hx%list_elem_of_In.
    pose proof (digits_are_digits 9 ns) as Hd. rewrite forallb_forall in Hd.
    specialize (Hd x Hx). unfold is_digit in Hd. lia. }
  assert (Hl : (length (take k (digits 9 ns)) <= 9)%nat).
  { rewrite length_take, digits_length. lia. }
  destruct (take k (digits 9 ns)); [split; [constructor|simpl; lia]|].
  split; [constructor; [lia|done]|simpl in *; lia].
Qed.

Lemma format_utc_chars lookup t :
  Forall (λ b, 45 <= b <= 90) (bytes (format_rfc3339nano lookup (utc t)))
  ∧ (length (bytes (format_rfc3339nano lookup (utc t))) <= 30)%nat.
Proof.
  unfold format_rfc3339nano. cbn [t_ns t_loc utc offset_at].
  destruct (civil_from_days _) as [[y mo] d].
  change (format_offset 0) with [chr "Z"].
  destruct (format_frac_chars (t_ns t mod Second)) as [Hf Hl].
  rewrite bytes_of_bytes.
  2:{ unfold pad4. rewrite !forallb_app, !pad2_bytes, format_frac_bytes. done. }
  split.
  - unfold pad4. rewrite !Forall_app. split_and!; try apply pad2_chars; try done;
      repeat constructor; lia.
  - rewrite !length_app. unfold pad4. rewrite !length_app. simpl in *. lia.
Qed.

(** ** Unix time, durations *)

(** 64-bit wrap-around. *)
Definition wrap64 (z : Z) : Z := (z + 2 ^ 63) mod 2 ^ 64 - 2 ^ 63.

Lemma wrap64_id z : -2 ^ 63 <= z < 2 ^ 63 → wrap64 z = z.
Proof. intros. unfold wrap64. rewrite Z.mod_small by lia. lia. Qed.

(** Seconds from the zero time to 1970. *)
Definition unixToInternal : Z := 62135596800.

(** [Time.Unix], [time.Unix(sec, 0)], [Time.Truncate(time.Second)] and
    [Time.Sub], whose result saturates. *)
Definition unix (t : time) : Z := wrap64 (t_ns t / Second - unixToInternal).
Definition from_unix (sec : Z) : time := mk_time (wrap64 (sec + unixToInternal) * Second) Local.
Definition truncate_second (t : time) : time := mk_time (t_ns t / Second * Second) (t_loc t).
Definition sub_saturated (t u : time) : Z :=
  Z.max (- 2 ^ 63) (Z.min (2 ^ 63 - 1) (t_ns t - t_ns u)).

(** An instant behind 1970 and before the year 73 billion: every clock reading. *)
Definition clock_range (t : time) : Prop :=
  (unixToInternal + 1) * Second <= t_ns t < 2 ^ 61 * Second.

Lemma from_unix_unix t :
  0 <= t_ns t < 2 ^ 62 * Second → t_ns (from_unix (unix t)) = t_ns t / Second * Second.
Proof.
  intros Ht. unfold from_unix, unix. cbn [t_ns].
  assert (0 <= t_ns t / Second < 2 ^ 62) by (unfold Second in *; lia_div).
  unfold unixToInternal. rewrite (wrap64_id (_ - _)) by lia. rewrite wrap64_id by lia.
  f_equal. lia.
Qed.
