(* ===== verification/Base64.v ===== *)
(** [encoding/base64]'s [RawURLEncoding], the text form of history cursors and
    session cookies. *)
From S2P Require Import Prelude.
From S2P Require Import GoUnicode.
From S2P Require Import GoString.
Open Scope Z_scope.

(** The URL-safe alphabet, as arithmetic. *)
Definition enc_digit (d : Z) : Z :=
  if d <? 26 then chr "A" + d
  else if d <? 52 then chr "a" + (d - 26)
  else if d <? 62 then chr "0" + (d - 52)
  else if d =? 62 then chr "-" else chr "_".

Definition dec_digit (c : Z) : option Z :=
  if (chr "A" <=? c) && (c <=? chr "Z") then Some (c - chr "A")
  else if (chr "a" <=? c) && (c <=? chr "z") then Some (c - chr "a" + 26)
  else if (chr "0" <=? c) && (c <=? chr "9") then Some (c - chr "0" + 52)
  else if c =? chr "-" then Some 62
  else if c =? chr "_" then Some 63
  else None.

(** [EncodeToString]: three bytes become four digits, a rest of one or two
    bytes two or three digits, without padding. *)
Fixpoint base64_encode (bs : list Z) : list Z :=
  match bs with
  | b0 :: b1 :: b2 :: bs =>
    enc_digit (b0 / 4) :: enc_digit (b0 mod 4 * 16 + b1 / 16)
    :: enc_digit (b1 mod 16 * 4 + b2 / 64) :: enc_digit (b2 mod 64) :: base64_encode bs
  | [b0; b1] =>
    [enc_digit (b0 / 4); enc_digit (b0 mod 4 * 16 + b1 / 16); enc_digit (b1 mod 16 * 4)]
  | [b0] => [enc_digit (b0 / 4); enc_digit (b0 mod 4 * 16)]
  | [] => []
  end.

(** [DecodeString]: the decoder skips line breaks, refuses a single left-over
    digit and, not being strict, ignores the unused bits of the last one. *)
Definition line_break (c : Z) : bool := (c =? 10) || (c =? 13).

Fixpoint decode_digits (cs : list Z) : option (list Z) :=
  match cs with
  | c0 :: c1 :: c2 :: c3 :: cs =>
    d0 ← dec_digit c0; d1 ← dec_digit c1; d2 ← dec_digit c2; d3 ← dec_digit c3;
    bs ← decode_digits cs;
    Some (d0 * 4 + d1 / 16 :: d1 mod 16 * 16 + d2 / 4 :: d2 mod 4 * 64 + d3 :: bs)
  | [c0; c1; c2] =>
    d0 ← dec_digit c0; d1 ← dec_digit c1; d2 ← dec_digit c2;
    Some [d0 * 4 + d1 / 16; d1 mod 16 * 16 + d2 / 4]
  | [c0; c1] =>
    d0 ← dec_digit c0; d1 ← dec_digit c1; Some [d0 * 4 + d1 / 16]
  | [_] => None
  | [] => Some []
  end.

Definition base64_decode (cs : list Z) : option (list Z) :=
  decode_digits (List.filter (λ c, negb (line_break c)) cs).

(** ** Lemmas *)

Lemma dec_enc_digit d : 0 <= d < 64 → dec_digit (enc_digit d) = Some d.
Proof.
  intros Hd. unfold enc_digit, dec_digit. repeat case_match; f_equal; lia.
Qed.

Lemma enc_digit_char d :
  0 <= d < 64 → line_break (enc_digit d) = false ∧ is_byte (enc_digit d) = true
                ∧ enc_digit d <> chr "." ∧ enc_digit d < 128.
Proof.
  intros Hd. unfold enc_digit, line_break, is_byte. repeat case_match; lia.
Qed.

(** Induction three bytes at a time. *)
Lemma triple_ind (P : list Z → Prop) :
  P [] → (∀ a, P [a]) → (∀ a b, P [a; b]) →
  (∀ a b c l, P l → P (a :: b :: c :: l)) → ∀ l, P l.
Proof.
  intros H0 H1 H2 H3 l. remember (length l) as n eqn:Hn. revert l Hn.
  induction n as [n IH] using lt_wf_ind. intros [|a [|b [|c l]]] ->; auto.
  apply H3. eapply IH; [|done]. simpl. lia.
Qed.

Lemma is_byte_range b : is_byte b = true → 0 <= b < 256.
Proof. unfold is_byte. lia. Qed.

Lemma Forall_encode (Q : Z → Prop) bs :
  forallb is_byte bs = true → (∀ d, 0 <= d < 64 → Q (enc_digit d)) → Forall Q (base64_encode bs).
Proof.
  intros Hbs HQ. revert Hbs. induction bs as [|a|a b|a b c l IH] using triple_ind; intros Hbs;
    cbn [base64_encode forallb] in *; unbool;
    repeat match goal with H : is_byte _ = true |- _ => apply is_byte_range in H end;
    repeat constructor; try (apply HQ; lia_div); try by apply IH.
Qed.

Lemma decode_digits_encode bs :
  forallb is_byte bs = true → decode_digits (base64_encode bs) = Some bs.
Proof.
  induction bs as [|a|a b|a b c l IH] using triple_ind; intros Hbs;
    cbn [base64_encode forallb decode_digits] in *; unbool;
    repeat match goal with H : is_byte _ = true |- _ => apply is_byte_range in H end;
    rewrite ?dec_enc_digit by lia_div; cbn [mbind option_bind]; rewrite ?IH by done;
    cbn [mbind option_bind]; [done|..]; repeat f_equal; lia_div.
Qed.

(** What is encoded is decoded. *)
Lemma decode_encode_bytes bs : forallb is_byte bs = true → base64_decode (base64_encode bs) = Some bs.
Proof.
  intros Hbs. unfold base64_decode. rewrite filter_all; [by apply decode_digits_encode|].
  intros x Hx. assert (HQ : Forall (λ c, line_break c = false) (base64_encode bs)).
  { apply Forall_encode; [done|]. intros d Hd. by apply enc_digit_char. }
  by rewrite (proj1 (Forall_forall _ _) HQ x Hx).
Qed.

Lemma encode_is_bytes bs : forallb is_byte bs = true → forallb is_byte (base64_encode bs) = true.
Proof.
  intros Hbs. apply forallb_forall. intros x Hx.
  assert (HQ : Forall (λ c, is_byte c = true) (base64_encode bs)).
  { apply Forall_encode; [done|]. intros d Hd. by apply enc_digit_char. }
  by apply (proj1 (List.Forall_forall _ _) HQ).
Qed.

Lemma length_encode bs :
  Z.of_nat (length (base64_encode bs)) = (4 * Z.of_nat (length bs) + 2) / 3.
Proof.
  induction bs as [|a|a b|a b c l IH] using triple_ind; cbn [base64_encode length]; [done..|].
  rewrite !Nat2Z.inj_succ, IH. lia_div.
Qed.

Example decode_hello : base64_decode (bytes "aGVsbG8") = Some (bytes "hello").
Proof. reflexivity. Qed.
