(* ===== verification/Json.v ===== *)
(** [encoding/json] as far as the backend uses it: a parser and a printer of
    JSON text, string escapes, and the decoding of the field types the structs
    have.  A string token keeps its raw bytes, as [UnmarshalJSON] sees them;
    [unquote] is its value.  [unmarshal_value] has the decoder's nesting limit; the
    decoders of cursors and sessions read inputs too short to reach it. *)
From S2P Require Import Prelude.
From S2P Require Import GoUnicode.
From S2P Require Import GoString.
From S2P Require Import GoTime.
Open Scope Z_scope.

Inductive json :=
| JNull
| JBool (b : bool)
| JNum (literal : list Z)
| JStr (raw : list Z)
| JArr (elements : list json)
| JObj (members : list (list Z * json)).

(** ** Lexical structure *)

Definition json_space (c : Z) : bool := (c =? 32) || (c =? 9) || (c =? 10) || (c =? 13).
Definition skip_space (s : list Z) : list Z := drop_while json_space s.

Definition hex_value (c : Z) : option Z :=
  if (chr "0" <=? c) && (c <=? chr "9") then Some (c - chr "0")
  else if (chr "a" <=? c) && (c <=? chr "f") then Some (c - chr "a" + 10)
  else if (chr "A" <=? c) && (c <=? chr "F") then Some (c - chr "A" + 10)
  else None.

Definition hex4 (a b c d : Z) : option Z :=
  a ← hex_value a; b ← hex_value b; c ← hex_value c; d ← hex_value d;
  Some (((a * 16 + b) * 16 + c) * 16 + d).

Definition quote : Z := 34.
Definition backslash : Z := 92.

Definition simple_escape (c : Z) : option Z :=
  if c =? chr "b" then Some 8 else if c =? chr "f" then Some 12
  else if c =? chr "n" then Some 10 else if c =? chr "r" then Some 13
  else if c =? chr "t" then Some 9
  else if (c =? quote) || (c =? backslash) || (c =? chr "/") then Some c
  else None.

(** A string token behind its opening quote: its raw bytes, and what follows
    the closing quote.  Control characters and unknown escapes are errors. *)
Fixpoint scan_string (s : list Z) : option (list Z * list Z) :=
  match s with
  | [] => None
  | c :: s =>
    if c =? quote then Some ([], s)
    else if c =? backslash then
      match s with
      | [] => None
      | e :: s =>
        if e =? chr "u" then
          match s with
          | h0 :: h1 :: h2 :: h3 :: s =>
            _ ← hex4 h0 h1 h2 h3; '(raw, rest) ← scan_string s;
            Some (c :: e :: h0 :: h1 :: h2 :: h3 :: raw, rest)
          | _ => None
          end
        else
          _ ← simple_escape e; '(raw, rest) ← scan_string s; Some (c :: e :: raw, rest)
      end
    else if c <? 32 then None
    else '(raw, rest) ← scan_string s; Some (c :: raw, rest)
  end.

(** A non-empty maximal run of digits. *)
Definition scan_digits1 (s : list Z) : option (list Z * list Z) :=
  match take_digits s with ([], _) => None | r => Some r end.

Definition scan_int (s : list Z) : option (list Z * list Z) :=
  match s with
  | c :: t => if c =? chr "0" then Some ([c], t) else scan_digits1 s
  | [] => None
  end.

Definition scan_frac (s : list Z) : option (list Z * list Z) :=
  match s with
  | c :: t =>
    if c =? chr "." then '(ds, rest) ← scan_digits1 t; Some (c :: ds, rest) else Some ([], s)
  | [] => Some ([], [])
  end.

Definition scan_exp (s : list Z) : option (list Z * list Z) :=
  match s with
  | c :: t =>
    if (c =? chr "e") || (c =? chr "E") then
      match t with
      | g :: t' =>
        if (g =? chr "+") || (g =? chr "-")
        then '(ds, rest) ← scan_digits1 t'; Some (c :: g :: ds, rest)
        else '(ds, rest) ← scan_digits1 t; Some (c :: ds, rest)
      | [] => None
      end
    else Some ([], s)
  | [] => Some ([], [])
  end.

Definition scan_number (s : list Z) : option (list Z * list Z) :=
  let '(sign, s) :=
    match s with c :: t => if c =? chr "-" then ([c], t) else ([], s) | [] => ([], []) end in
  '(int, s) ← scan_int s; '(frac, s) ← scan_frac s; '(exp, s) ← scan_exp s;
  Some (sign ++ int ++ frac ++ exp, s).

(** A keyword. *)
Fixpoint scan_word (w s : list Z) : option (list Z) :=
  match w, s with
  | [], _ => Some s
  | a :: w, b :: s => if a =? b then scan_word w s else None
  | _ :: _, [] => None
  end.

(** ** Values

    Leading white space is skipped; [fuel] bounds the number of nested calls,
    the length of the input is enough. *)
Fixpoint parse_value (fuel : nat) (s : list Z) : option (json * list Z) :=
  match fuel with
  | O => None
  | S fuel =>
    match skip_space s with
    | [] => None
    | c :: t =>
      if c =? quote then '(raw, rest) ← scan_string t; Some (JStr raw, rest)
      else if c =? chr "{" then '(ms, rest) ← parse_object fuel t; Some (JObj ms, rest)
      else if c =? chr "[" then '(vs, rest) ← parse_array fuel t; Some (JArr vs, rest)
      else if c =? chr "t" then rest ← scan_word (bytes "rue") t; Some (JBool true, rest)
      else if c =? chr "f" then rest ← scan_word (bytes "alse") t; Some (JBool false, rest)
      else if c =? chr "n" then rest ← scan_word (bytes "ull") t; Some (JNull, rest)
      else '(lit, rest) ← scan_number (c :: t); Some (JNum lit, rest)
    end
  end
with parse_object (fuel : nat) (s : list Z) : option (list (list Z * json) * list Z) :=
  match fuel with
  | O => None
  | S fuel =>
    match skip_space s with
    | c :: t => if c =? chr "}" then Some ([], t) else parse_members fuel s
    | [] => None
    end
  end
with parse_members (fuel : nat) (s : list Z) : option (list (list Z * json) * list Z) :=
  match fuel with
  | O => None
  | S fuel =>
    match skip_space s with
    | c :: t =>
      if negb (c =? quote) then None
      else
        '(key, s) ← scan_string t;
        match skip_space s with
        | c :: s =>
          if negb (c =? chr ":") then None
          else
            '(v, s) ← parse_value fuel s;
            match skip_space s with
            | c :: s =>
              if c =? chr "," then '(ms, rest) ← parse_members fuel s; Some ((key, v) :: ms, rest)
              else if c =? chr "}" then Some ([(key, v)], s)
              else None
            | [] => None
            end
        | [] => None
        end
    | [] => None
    end
  end
with parse_array (fuel : nat) (s : list Z) : option (list json * list Z) :=
  match fuel with
  | O => None
  | S fuel =>
    match skip_space s with
    | c :: t => if c =? chr "]" then Some ([], t) else parse_elements fuel s
    | [] => None
    end
  end
with parse_elements (fuel : nat) (s : list Z) : option (list json * list Z) :=
  match fuel with
  | O => None
  | S fuel =>
    '(v, s) ← parse_value fuel s;
    match skip_space s with
    | c :: s =>
      if c =? chr "," then '(vs, rest) ← parse_elements fuel s; Some (v :: vs, rest)
      else if c =? chr "]" then Some ([v], s)
      else None
    | [] => None
    end
  end.

(** [json.Decoder.Decode] of the first value of the input, and the rest. *)
Definition decode_value (s : list Z) : option (json * list Z) := parse_value (S (4 * length s)) s.

(** A first value followed by nothing but white space: [Decode] of the value and
    a second [Decode] that reports [io.EOF]. *)
Definition decode_single (s : list Z) : option json :=
  '(v, rest) ← decode_value s;
  match skip_space rest with [] => Some v | _ :: _ => None end.

(** ** String values *)

Definition is_surrogate (r : Z) : bool := (0xD800 <=? r) && (r <? 0xE000).

(** [utf16.DecodeRune] of a surrogate pair. *)
Definition decode_surrogates (r1 r2 : Z) : option Z :=
  if (0xD800 <=? r1) && (r1 <? 0xDC00) && (0xDC00 <=? r2) && (r2 <? 0xE000)
  then Some ((r1 - 0xD800) * 1024 + (r2 - 0xDC00) + 0x10000) else None.

(** The value of a raw string token: escapes are resolved, lone surrogates and
    invalid UTF-8 become [RuneError].  [skip] counts bytes already consumed. *)
Fixpoint unquote_from (skip : nat) (raw : list Z) : list Z :=
  match raw with
  | [] => []
  | c :: t =>
    match skip with
    | S k => unquote_from k t
    | O =>
      if c =? backslash then
        match t with
        | [] => []
        | e :: t =>
          if e =? chr "u" then
            match t with
            | h0 :: h1 :: h2 :: h3 :: t =>
              let r := default RuneError (hex4 h0 h1 h2 h3) in
              if is_surrogate r then
                match t with
                | b :: u :: g0 :: g1 :: g2 :: g3 :: t' =>
                  match
                    (if (b =? backslash) && (u =? chr "u")
                     then r2 ← hex4 g0 g1 g2 g3; decode_surrogates r r2 else None)
                  with
                  | Some r => encode_rune r ++ unquote_from 0 t'
                  | None => encode_rune RuneError ++ unquote_from 0 t
                  end
                | _ => encode_rune RuneError ++ unquote_from 0 t
                end
              else encode_rune r ++ unquote_from 0 t
            | _ => []
            end
          else option_list (simple_escape e) ++ unquote_from 0 t
        end
      else
        let '(r, w) := decode_rune raw in encode_rune r ++ unquote_from (pred w) t
    end
  end.

Definition unquote (raw : list Z) : string := of_bytes (unquote_from 0 raw).

(** ** Printing *)

Definition hex_digit (n : Z) : Z := if n <? 10 then chr "0" + n else chr "a" + (n - 10).

(** A rune of a Go string as [json.Marshal] writes it, HTML characters
    escaped. *)
Definition escape_token (t : Z * list Z) : list Z :=
  let '(r, bs) := t in
  if (r =? quote) || (r =? backslash) then [backslash; r]
  else if r =? 8 then [backslash; chr "b"]
  else if r =? 12 then [backslash; chr "f"]
  else if r =? 10 then [backslash; chr "n"]
  else if r =? 13 then [backslash; chr "r"]
  else if r =? 9 then [backslash; chr "t"]
  else if (r <? 32) || (r =? chr "<") || (r =? chr ">") || (r =? chr "&") then
    [backslash; chr "u"; chr "0"; chr "0"; hex_digit (r / 16); hex_digit (r mod 16)]
  else if (r =? RuneError) && (length bs =? 1)%nat then
    [backslash; chr "u"; chr "f"; chr "f"; chr "f"; chr "d"]
  else if (r =? 0x2028) || (r =? 0x2029) then
    [backslash; chr "u"; chr "2"; chr "0"; chr "2"; hex_digit (r mod 16)]
  else bs.

Definition escape (s : string) : list Z := mjoin (escape_token <$> tokens (bytes s)).

(** A value as compact text. *)
Fixpoint print (v : json) : list Z :=
  match v with
  | JNull => bytes "null"
  | JBool true => bytes "true"
  | JBool false => bytes "false"
  | JNum lit => lit
  | JStr raw => quote :: raw ++ [quote]
  | JArr vs =>
    chr "[" ::
    (fix go (first : bool) (vs : list json) : list Z :=
       match vs with
       | [] => [chr "]"]
       | v :: vs => (if first then [] else [chr ","]) ++ print v ++ go false vs
       end) true vs
  | JObj ms =>
    chr "{" ::
    (fix go (first : bool) (ms : list (list Z * json)) : list Z :=
       match ms with
       | [] => [chr "}"]
       | (k, v) :: ms =>
         (if first then [] else [chr ","]) ++ quote :: k ++ quote :: chr ":" :: print v ++ go false ms
       end) true ms
  end.

(** A decimal number. *)
Fixpoint decimal_digits (fuel : nat) (n : Z) : list Z :=
  match fuel with
  | O => []
  | S fuel => (if n <? 10 then [] else decimal_digits fuel (n / 10)) ++ [chr "0" + n mod 10]
  end.

Definition print_int (n : Z) : list Z :=
  if n <? 0 then chr "-" :: decimal_digits 20 (- n) else decimal_digits 20 n.

Definition json_string (s : string) : json := JStr (escape s).
Definition json_int (n : Z) : json := JNum (print_int n).

(** [strconv.ParseInt(literal, 10, 64)] of a number token. *)
Definition int64_of (lit : list Z) : option Z :=
  let '(neg, ds) :=
    match lit with c :: t => if c =? chr "-" then (true, t) else (false, lit) | [] => (false, []) end in
  if bool_decide (ds = []) || negb (forallb is_digit ds) then None
  else
    let n := if neg then - digits_val ds else digits_val ds in
    if (- 2 ^ 63 <=? n) && (n <? 2 ^ 63) then Some n else None.

(** ** Strings: escaping and unescaping *)

Lemma unquote_from_drop k raw : unquote_from k raw = unquote_from 0 (drop k raw).
Proof.
  revert k. induction raw as [|c t IH]; intros k; [by destruct k|].
  destruct k; [done|]. cbn [unquote_from drop]. apply IH.
Qed.

(** A decoded rune is one ASCII byte or a run of bytes above ASCII. *)
Lemma token_shape b t r w :
  is_byte b = true → decode_rune (b :: t) = (r, w) →
  (b < 128 ∧ r = b ∧ w = 1%nat)
  ∨ (128 <= b ∧ 128 <= r ∧ Forall (λ x, 128 <= x) (take w (b :: t))).
Proof.
  unfold decode_rune, is_byte, accept_lo, accept_hi, cont, RuneError.
  split_decode; intros Hb [= <- <-]; cbn [take]; repeat case_match;
    first [left; lia | right; split; [lia|]; split; [lia|]; repeat constructor; lia].
Qed.

Lemma scan_plain bs x :
  Forall (λ b, 32 <= b ∧ b ≠ quote ∧ b ≠ backslash) bs →
  scan_string (bs ++ x) = '(raw, rest) ← scan_string x; Some (bs ++ raw, rest).
Proof.
  induction 1 as [|b bs (Hb&Hq&Hs) Hbs IH]; cbn [app scan_string].
  { by destruct (scan_string x) as [[]|]. }
  rewrite (proj2 (Z.eqb_neq b quote)), (proj2 (Z.eqb_neq b backslash)) by done.
  replace (b <? 32) with false by lia. rewrite IH. by destruct (scan_string x) as [[]|].
Qed.

Lemma hex_value_digit n : 0 <= n < 16 → hex_value (hex_digit n) = Some n.
Proof. intros. unfold hex_value, hex_digit. repeat case_match; f_equal; lia. Qed.

(** What an escaped rune contributes to the token and to its value. *)
Definition escapes (e : list Z) (r : Z) : Prop :=
  ∀ x,
  scan_string (e ++ x) = ('(raw, rest) ← scan_string x; Some (e ++ raw, rest))
  ∧ unquote_from 0 (e ++ x) = encode_rune r ++ unquote_from 0 x.

Lemma escapes_simple c r :
  simple_escape c = Some r → 0 <= r < 128 → (c =? chr "u") = false → escapes [backslash; c] r.
Proof.
  intros Hs Hr Hu x. cbn [app scan_string unquote_from]. rewrite Hu, Hs.
  change (backslash =? quote) with false. change (backslash =? backslash) with true.
  cbn [mbind option_bind]. split; [by destruct (scan_string x) as [[]|]|].
  unfold encode_rune, valid_rune. repeat case_match; try done; lia.
Qed.

Lemma escapes_hex a b c d r :
  hex4 a b c d = Some r → is_surrogate r = false → escapes [backslash; chr "u"; a; b; c; d] r.
Proof.
  intros Hh Hs x. cbn [app scan_string unquote_from].
  change (backslash =? quote) with false. change (backslash =? backslash) with true.
  change (chr "u" =? chr "u") with true. cbn iota. rewrite Hh. cbn [mbind option_bind from_option id].
  rewrite Hs. by destruct (scan_string x) as [[]|].
Qed.

Lemma escapes_plain b t r w :
  decode_rune (b :: t) = (r, w) →
  b ≠ backslash → Forall (λ b, 32 <= b ∧ b ≠ quote ∧ b ≠ backslash) (take w (b :: t)) →
  (1 < w)%nat ∨ r ≠ RuneError → escapes (take w (b :: t)) r.
Proof.
  intros Hd Hb Hplain Hw x. split; [by apply scan_plain|].
  pose proof (decode_rune_width b t) as Hlen. rewrite Hd in Hlen. simpl in Hlen.
  assert (Hd' : decode_rune (take w (b :: t) ++ x) = (r, w)).
  { apply decode_rune_app; [|destruct Hw; [by left|right; split; [lia|done]]].
    eapply decode_rune_prefix with (q := drop w (b :: t)); [by rewrite take_drop| |].
    - destruct w; [lia|done].
    - rewrite length_take. simpl. lia. }
  destruct w as [|w]; [lia|]. cbn [take app] in *. cbn [unquote_from].
  rewrite (proj2 (Z.eqb_neq b backslash)), Hd' by done. f_equal.
  rewrite unquote_from_drop. f_equal. cbn [pred].
  apply drop_app_length'. rewrite length_take. lia.
Qed.

Lemma escape_token_spec b t r w :
  is_byte b = true → decode_rune (b :: t) = (r, w) → escapes (escape_token (r, take w (b :: t))) r.
Proof.
  intros Hb Hd. pose proof (token_shape b t r w Hb Hd) as Hshape.
  assert (Hr0 : 0 <= r) by (unfold is_byte in Hb; lia).
  unfold escape_token.
  destruct ((r =? quote) || _) eqn:E1.
  { apply escapes_simple; [|unfold quote, backslash in *; lia|unfold quote, backslash in *; lia].
    unfold simple_escape, quote, backslash in *. repeat case_match; try done; lia. }
  destruct (r =? 8) eqn:E2; [apply Z.eqb_eq in E2 as ->; by apply escapes_simple|].
  destruct (r =? 12) eqn:E3; [apply Z.eqb_eq in E3 as ->; by apply escapes_simple|].
  destruct (r =? 10) eqn:E4; [apply Z.eqb_eq in E4 as ->; by apply escapes_simple|].
  destruct (r =? 13) eqn:E5; [apply Z.eqb_eq in E5 as ->; by apply escapes_simple|].
  destruct (r =? 9) eqn:E6; [apply Z.eqb_eq in E6 as ->; by apply escapes_simple|].
  destruct ((r <? 32) || _ || _ || _) eqn:E7.
  { assert (r < 128) by lia. apply escapes_hex; [|unfold is_surrogate; lia].
    unfold hex4. change (hex_value (chr "0")) with (Some 0). cbn [mbind option_bind].
    rewrite !hex_value_digit by lia_div. cbn [mbind option_bind]. f_equal. lia_div. }
  destruct ((r =? RuneError) && _) eqn:E8.
  { unbool. match goal with H : (r =? _) = true |- _ => apply Z.eqb_eq in H as -> end.
    by apply escapes_hex. }
  destruct ((r =? 0x2028) || _) eqn:E9.
  { apply orb_true_iff in E9 as [->%Z.eqb_eq| ->%Z.eqb_eq]; by apply escapes_hex. }
  apply escapes_plain; [done|..].
  - unfold quote, backslash in *. lia.
  - destruct Hshape as [(?&->&->)|(?&?&Hbs)].
    + unfold quote, backslash in *. repeat constructor; lia.
    + eapply Forall_impl; [exact Hbs|]. unfold quote, backslash. simpl. intros y Hy. lia.
  - destruct Hshape as [(?&->&->)|(?&?&Hbs)]; [right; unfold RuneError; lia|].
    apply andb_false_iff in E8 as [?|E8]; [right; lia|]. apply Nat.eqb_neq in E8.
    pose proof (decode_rune_width b t) as Hlen. rewrite Hd in Hlen. cbn [snd] in Hlen.
    rewrite length_take in E8. cbn [length] in E8. left. lia.
Qed.

Lemma escapes_nil_app es rs x :
  Forall2 escapes es rs →
  scan_string (mjoin es ++ x) = ('(raw, rest) ← scan_string x; Some (mjoin es ++ raw, rest))
  ∧ unquote_from 0 (mjoin es ++ x) = mjoin (encode_rune <$> rs) ++ unquote_from 0 x.
Proof.
  induction 1 as [|e r es rs He Hes IH]; csimpl.
  { split; [by destruct (scan_string x) as [[]|]|done]. }
  destruct (He (mjoin es ++ x)) as [Hs Hu], IH as [IHs IHu]. rewrite <- !app_assoc. split.
  - rewrite Hs, IHs. by destruct (scan_string x) as [[raw rest]|]; csimpl; rewrite <- ?app_assoc.
  - by rewrite Hu, IHu.
Qed.

Lemma escape_escapes bs :
  forallb is_byte bs = true → Forall2 escapes (escape_token <$> tokens bs) (tokens bs).*1.
Proof.
  induction bs as [|b t r w Hd IH] using tokens_ind; intros Hb; [constructor|].
  rewrite (tokens_cons _ _ _ _ Hd). csimpl. simpl in Hb. unbool. constructor.
  - by apply escape_token_spec.
  - apply IH. apply forallb_forall. intros y Hy.
    assert (Hin : In y (b :: t)).
    { rewrite <- (take_drop w (b :: t)). apply in_or_app. by right. }
    destruct Hin as [<-|Hin]; [done|]. by apply (proj1 (forallb_forall _ t)).
Qed.

(** A printed string scans as one token, whose value is the string with its
    invalid bytes replaced. *)
Lemma scan_escape s x :
  scan_string (escape s ++ quote :: x) = Some (escape s, x).
Proof.
  destruct (escapes_nil_app _ _ (quote :: x) (escape_escapes (bytes s) (bytes_are_bytes s))) as [Hs _].
  unfold escape. rewrite Hs. cbn. by rewrite app_nil_r.
Qed.

Lemma unquote_escape s : unquote (escape s) = string_of_runes (runes s).
Proof.
  destruct (escapes_nil_app _ _ [] (escape_escapes (bytes s) (bytes_are_bytes s))) as [_ Hu].
  unfold unquote, escape, string_of_runes, runes. rewrite !app_nil_r in Hu. simpl in Hu.
  by rewrite Hu.
Qed.

(** ** Numbers *)

(** What may follow a value. *)
Definition ends (rest : list Z) : Prop :=
  match rest with
  | [] => True
  | c :: _ => c = chr "," ∨ c = chr "]" ∨ c = chr "}"
  end.

Lemma decimal_digits_spec f n :
  0 <= n < 10 ^ Z.of_nat f → (0 < f)%nat →
  forallb is_digit (decimal_digits f n) = true ∧ digits_val (decimal_digits f n) = n
  ∧ decimal_digits f n ≠ []
  ∧ (n = 0 ∧ decimal_digits f n = [chr "0"]
     ∨ ∃ c t, decimal_digits f n = c :: t ∧ is_digit c = true ∧ (c =? chr "0") = false).
Proof.
  revert n. induction f as [|f IH]; intros n Hn Hf; [lia|]. cbn [decimal_digits].
  replace (Z.of_nat (S f)) with (Z.of_nat f + 1) in Hn by lia. rewrite Z.pow_add_r in Hn by lia.
  destruct (n <? 10) eqn:E; cbn [app].
  - replace (n mod 10) with n by lia_div. split_and!.
    + cbn [forallb]. unfold is_digit. lia.
    + unfold digits_val. simpl. lia.
    + done.
    + destruct (decide (n = 0)) as [->|]; [by left|]. right. do 2 eexists. split; [done|].
      unfold is_digit. lia.
  - destruct f as [|f]; [simpl in Hn; lia|].
    destruct (IH (n / 10)) as (Hd&Hv&Hne&Hh); [lia_div|lia|]. split_and!.
    + rewrite forallb_app, Hd. cbn [forallb]. unfold is_digit. lia_div.
    + rewrite digits_val_app, Hv. unfold digits_val. simpl. lia_div.
    + by destruct (decimal_digits (S f) (n / 10)).
    + right. destruct Hh as [[? _]|(c&t&->&Hc&H0)]; [lia_div|]. eauto.
Qed.

Lemma int_range n : -2 ^ 63 <= n < 2 ^ 63 → 0 <= Z.abs n < 10 ^ Z.of_nat 20.
Proof. lia. Qed.

Lemma scan_number_int n rest :
  -2 ^ 63 <= n < 2 ^ 63 → ends rest → scan_number (print_int n ++ rest) = Some (print_int n, rest).
Proof.
  intros Hn Hrest.
  assert (Htail : scan_frac rest = Some ([], rest) ∧ scan_exp rest = Some ([], rest)
    ∧ match rest with [] => True | b :: _ => is_digit b = false end).
  { destruct rest as [|c rest]; [done|]. by destruct Hrest as [->|[->| ->]]. }
  destruct Htail as (Hfr&Hex&Hnd).
  assert (Hint : ∀ m, 0 <= m < 10 ^ Z.of_nat 20 →
    scan_int (decimal_digits 20 m ++ rest) = Some (decimal_digits 20 m, rest)
    ∧ ∃ c t, decimal_digits 20 m = c :: t ∧ (c =? chr "-") = false).
  { intros m Hm. destruct (decimal_digits_spec 20 m Hm ltac:(lia)) as (Hd&_&Hne&Hh).
    destruct Hh as [[_ ->]|(c&t&Hc&Hcd&H0)].
    - split; [done|]. by do 2 eexists.
    - split; [|do 2 eexists; split; [exact Hc|unfold is_digit in Hcd; lia]].
      pose proof (take_digits_app _ rest Hd Hnd) as Ht. rewrite Hc in *. cbn [app] in *.
      unfold scan_int, scan_digits1. by rewrite H0, Ht. }
  unfold scan_number, print_int. destruct (n <? 0) eqn:E.
  - destruct (Hint (- n)) as [Hs _]; [lia|]. cbn [app]. change (chr "-" =? chr "-") with true.
    cbv iota beta. rewrite Hs. cbn [mbind option_bind]. rewrite Hfr. cbn [mbind option_bind]. rewrite Hex.
    cbn [mbind option_bind]. by rewrite !app_nil_r.
  - destruct (Hint n) as [Hs (c&t&Hc&Hm)]; [lia|]. rewrite Hc in *. cbn [app] in *. rewrite Hm.
    cbv iota beta. rewrite Hs.
    cbn [mbind option_bind]. rewrite Hfr. cbn [mbind option_bind]. rewrite Hex.
    cbn [mbind option_bind app]. by rewrite !app_nil_r.
Qed.

Lemma int64_of_print n : -2 ^ 63 <= n < 2 ^ 63 → int64_of (print_int n) = Some n.
Proof.
  intros Hn. unfold int64_of, print_int. destruct (n <? 0) eqn:E.
  - destruct (decimal_digits_spec 20 (- n)) as (Hd&Hv&Hne&_); [lia|lia|].
    change (chr "-" =? chr "-") with true. cbv iota beta.
    rewrite bool_decide_false, Hd, Hv by done. cbn [negb orb].
    replace ((- 2 ^ 63 <=? - - n) && (- - n <? 2 ^ 63)) with true by lia. f_equal. lia.
  - destruct (decimal_digits_spec 20 n) as (Hd&Hv&Hne&Hh); [lia|lia|].
    assert (Hc : ∃ c t, decimal_digits 20 n = c :: t ∧ (c =? chr "-") = false).
    { destruct Hh as [[_ ->]|(c&t&->&Hcd&_)]; do 2 eexists; (split; [done|]); [done|].
      unfold is_digit in Hcd. lia. }
    destruct Hc as (c&t&Hc&Hm). rewrite Hc in *. rewrite Hm, Hd, Hv. simpl.
    by replace ((- 2 ^ 63 <=? n) && (n <? 2 ^ 63)) with true by lia.
Qed.

(** ** Values *)

Definition print_elements : bool → list json → list Z :=
  fix go (first : bool) (vs : list json) : list Z :=
    match vs with
    | [] => [chr "]"]
    | v :: vs => (if first then [] else [chr ","]) ++ print v ++ go false vs
    end.

Definition print_members : bool → list (list Z * json) → list Z :=
  fix go (first : bool) (ms : list (list Z * json)) : list Z :=
    match ms with
    | [] => [chr "}"]
    | (k, v) :: ms =>
      (if first then [] else [chr ","]) ++ quote :: k ++ quote :: chr ":" :: print v ++ go false ms
    end.

Definition raw_ok (raw : list Z) : Prop := ∀ x, scan_string (raw ++ quote :: x) = Some (raw, x).

Definition number_ok (lit : list Z) : Prop :=
  (∀ rest, ends rest → scan_number (lit ++ rest) = Some (lit, rest))
  ∧ ∃ c t, lit = c :: t ∧ (is_digit c = true ∨ c = chr "-").

(** The values the printer is the inverse of the parser on. *)
Fixpoint printable (v : json) : Prop :=
  match v with
  | JNull | JBool _ => True
  | JNum lit => number_ok lit
  | JStr raw => raw_ok raw
  | JArr vs => (fix go vs := match vs with [] => True | v :: vs => printable v ∧ go vs end) vs
  | JObj ms =>
    (fix go ms := match ms with [] => True | (k, v) :: ms => raw_ok k ∧ printable v ∧ go ms end) ms
  end.

Definition printable_list : list json → Prop :=
  fix go vs := match vs with [] => True | v :: vs => printable v ∧ go vs end.
Definition printable_members : list (list Z * json) → Prop :=
  fix go ms := match ms with [] => True | (k, v) :: ms => raw_ok k ∧ printable v ∧ go ms end.

(** The nested calls a value needs. *)
Fixpoint cost (v : json) : nat :=
  match v with
  | JArr vs => 3 + (fix go vs := match vs with [] => 0 | v :: vs => S (cost v + go vs) end) vs
  | JObj ms => 3 + (fix go ms := match ms with [] => 0 | (_, v) :: ms => S (cost v + go ms) end) ms
  | _ => 1
  end%nat.
Definition cost_list : list json → nat :=
  fix go vs := match vs with [] => 0 | v :: vs => S (cost v + go vs) end%nat.
Definition cost_members : list (list Z * json) → nat :=
  fix go ms := match ms with [] => 0 | (_, v) :: ms => S (cost v + go ms) end%nat.

Lemma skip_space_cons c t : json_space c = false → skip_space (c :: t) = c :: t.
Proof. intros Hc. unfold skip_space. cbn [drop_while]. by rewrite Hc. Qed.

Lemma print_head v : printable v → ∃ c t, print v = c :: t ∧ json_space c = false ∧ (c =? chr "]") = false
  ∧ (c =? chr "}") = false.
Proof.
  destruct v as [|[]|lit|raw|vs|ms]; simpl; intros Hp; try by do 2 eexists.
  destruct Hp as [_ (c&t&->&Hc)]. do 2 eexists. split; [done|].
  unfold json_space, is_digit in *. destruct Hc as [Hc| ->]; [lia|done].
Qed.

Lemma ends_space rest c t : ends rest → rest = c :: t → json_space c = false.
Proof. intros He ->. by destruct He as [->|[->| ->]]. Qed.

(** The parser reads back what the printer writes, whatever delimiter follows:
    for each of the three recursive functions, given the fuel it needs. *)
Definition value_prints (f : nat) : Prop := ∀ v rest,
  (cost v <= f)%nat → printable v → ends rest → parse_value f (print v ++ rest) = Some (v, rest).
Definition members_print (f : nat) : Prop := ∀ k v ms rest,
  (cost_members ((k, v) :: ms) <= f)%nat → printable_members ((k, v) :: ms) →
  parse_members f (print_members true ((k, v) :: ms) ++ rest) = Some ((k, v) :: ms, rest).
Definition elements_print (f : nat) : Prop := ∀ v vs rest,
  (cost_list (v :: vs) <= f)%nat → printable_list (v :: vs) →
  parse_elements f (print_elements true (v :: vs) ++ rest) = Some (v :: vs, rest).

Lemma members_print_step f : value_prints f → members_print f → members_print (S f).
Proof.
  intros IHv IHm k v ms rest Hcost (Hk&Hv&Hms). cbn [print_members app parse_members].
  rewrite skip_space_cons by done. change (negb (quote =? quote)) with false. cbv iota.
  rewrite <- !app_assoc. cbn [app]. rewrite Hk. cbn [mbind option_bind].
  rewrite skip_space_cons by done. change (negb (chr ":" =? chr ":")) with false. cbv iota.
  cbn [cost_members] in Hcost. rewrite <- app_assoc. destruct ms as [|[k' v'] ms].
  - change (print_members false [] ++ rest) with (chr "}" :: rest).
    rewrite IHv; [|lia|done|simpl; auto]. cbn [mbind option_bind].
    by rewrite skip_space_cons by done.
  - change (print_members false ((k', v') :: ms) ++ rest)
      with (chr "," :: print_members true ((k', v') :: ms) ++ rest).
    rewrite IHv; [|lia|done|by left]. cbn [mbind option_bind].
    rewrite skip_space_cons by done. change (chr "," =? chr ",") with true. cbv iota.
    rewrite IHm; [done|cbn [cost_members] in *; lia|done].
Qed.

Lemma elements_print_step f : value_prints f → elements_print f → elements_print (S f).
Proof.
  intros IHv IHe v vs rest Hcost (Hv&Hvs). cbn [print_elements app parse_elements].
  cbn [cost_list] in Hcost. rewrite <- app_assoc. destruct vs as [|v' vs].
  - change (print_elements false [] ++ rest) with (chr "]" :: rest).
    rewrite IHv; [|lia|done|simpl; auto]. cbn [mbind option_bind].
    by rewrite skip_space_cons by done.
  - change (print_elements false (v' :: vs) ++ rest)
      with (chr "," :: print_elements true (v' :: vs) ++ rest).
    rewrite IHv; [|lia|done|by left]. cbn [mbind option_bind].
    rewrite skip_space_cons by done. change (chr "," =? chr ",") with true. cbv iota.
    rewrite IHe; [done|cbn [cost_list] in *; lia|done].
Qed.

Lemma object_prints f ms rest :
  members_print f → (cost_members ms <= f)%nat → printable_members ms →
  parse_object (S f) (print_members true ms ++ rest) = Some (ms, rest).
Proof.
  intros IHm Hcost Hp. destruct ms as [|[k v] ms]; [done|]. cbn [parse_object].
  assert (Hs : ∃ t, print_members true ((k, v) :: ms) ++ rest = quote :: t) by by eexists.
  destruct Hs as [t Hs]. rewrite Hs, skip_space_cons by done.
  change (quote =? chr "}") with false. cbv iota. rewrite <- Hs. by apply IHm.
Qed.

Lemma array_prints f vs rest :
  elements_print f → (cost_list vs <= f)%nat → printable_list vs →
  parse_array (S f) (print_elements true vs ++ rest) = Some (vs, rest).
Proof.
  intros IHe Hcost Hp. destruct vs as [|v vs]; [done|]. cbn [parse_array].
  destruct (print_head v (proj1 Hp)) as (c&t&Hh&Hsp&Hb&_).
  assert (Hs : print_elements true (v :: vs) ++ rest = c :: (t ++ print_elements false vs) ++ rest).
  { cbn [print_elements app]. by rewrite Hh. }
  rewrite Hs, skip_space_cons by done. rewrite Hb, <- Hs. by apply IHe.
Qed.

Lemma value_prints_step f :
  (∀ f', (f' < f)%nat → members_print f' ∧ elements_print f') → value_prints (S f).
Proof.
  intros IH v rest Hcost Hp Hends. destruct v as [|[]|lit|raw|vs|ms]; cbn [printable] in Hp;
    [reflexivity|reflexivity|reflexivity|..].
  - destruct Hp as [Hscan (c&t&->&Hc)]. cbn [print app parse_value].
    rewrite skip_space_cons by (unfold json_space, is_digit in *; lia).
    specialize (Hscan rest Hends). cbn [app] in Hscan. unfold quote, is_digit in *.
    repeat match goal with |- context [if c =? ?n then _ else _] =>
      replace (c =? n) with false by lia end.
    by rewrite Hscan.
  - cbn [print app parse_value]. rewrite skip_space_cons by done.
    change (quote =? quote) with true. cbv iota. rewrite <- app_assoc. cbn [app]. by rewrite Hp.
  - change (print (JArr vs)) with (chr "[" :: print_elements true vs).
    change (cost (JArr vs)) with (3 + cost_list vs)%nat in Hcost. change (printable_list vs) in Hp.
    cbn [app parse_value]. rewrite skip_space_cons by done.
    destruct f as [|f]; [lia|]. cbn -[parse_array print_elements app].
    rewrite array_prints; [done|apply IH; lia|lia|done].
  - change (print (JObj ms)) with (chr "{" :: print_members true ms).
    change (cost (JObj ms)) with (3 + cost_members ms)%nat in Hcost.
    change (printable_members ms) in Hp.
    cbn [app parse_value]. rewrite skip_space_cons by done.
    destruct f as [|f]; [lia|]. cbn -[parse_object print_members app].
    rewrite object_prints; [done|apply IH; lia|lia|done].
Qed.

Lemma parse_print_fuel f : value_prints f ∧ members_print f ∧ elements_print f.
Proof.
  induction f as [f IH] using lt_wf_ind. destruct f as [|f].
  { split; [intros [] ? ?; simpl in *; lia|split; intros ? **; simpl in *; lia]. }
  destruct (IH f ltac:(lia)) as (IHv&IHm&IHe).
  split; [|split; [by apply members_print_step|by apply elements_print_step]].
  apply value_prints_step. intros f' Hf'. apply IH. lia.
Qed.

(** The fuel of [decode_value] is enough for anything printed. *)
Lemma cost_print v : (cost v <= 4 * length (print v) + 1)%nat.
Proof.
  assert (H : ∀ n v, (cost v <= n)%nat → (cost v <= 4 * length (print v) + 1)%nat); [|by eapply H].
  clear v. induction n as [|n IH]; intros v Hn; [destruct v; simpl in Hn; lia|].
  assert (Hl : ∀ (b : bool) vs, (cost_list vs <= n)%nat →
    (cost_list vs + (if b then 0 else 2) <= 4 * length (print_elements b vs))%nat).
  { intros b vs. revert b. induction vs as [|v' vs IHvs]; intros b Hc; cbn [cost_list] in *.
    - destruct b; cbn [print_elements length]; lia.
    - cbn [print_elements]. rewrite !length_app. specialize (IHvs false ltac:(lia)).
      specialize (IH v' ltac:(lia)). destruct b; cbn [length] in *; lia. }
  assert (Hm : ∀ b ms, (cost_members ms <= n)%nat →
    (cost_members ms + 2 <= 4 * length (print_members b ms))%nat).
  { intros b ms. revert b. induction ms as [|[k v'] ms IHms]; intros b Hc; cbn [cost_members] in *.
    - simpl. lia.
    - cbn [print_members]. rewrite !length_app. cbn [length]. rewrite !length_app. cbn [length].
      rewrite length_app. specialize (IHms false ltac:(lia)). specialize (IH v' ltac:(lia)).
      destruct b; cbn [length] in *; lia. }
  destruct v as [|[]|lit|raw|vs|ms]; try (simpl; lia).
  - change (cost (JArr vs)) with (3 + cost_list vs)%nat in *.
    change (print (JArr vs)) with (chr "[" :: print_elements true vs).
    specialize (Hl true vs ltac:(lia)). cbn [length]. cbv iota in Hl. lia.
  - change (cost (JObj ms)) with (3 + cost_members ms)%nat in *.
    change (print (JObj ms)) with (chr "{" :: print_members true ms).
    specialize (Hm true ms ltac:(lia)). cbn [length]. lia.
Qed.

(** Printing and decoding, the delimiter being the end of the input. *)
Lemma decode_print v : printable v → decode_single (print v) = Some v.
Proof.
  intros Hp. unfold decode_single, decode_value.
  pose proof (proj1 (parse_print_fuel (S (4 * length (print v)))) v []) as Hv.
  rewrite app_nil_r in Hv. rewrite Hv; [done|pose proof (cost_print v); lia|done|done].
Qed.

Lemma printable_string s : printable (json_string s).
Proof. intros x. apply scan_escape. Qed.

Lemma printable_int n : -2 ^ 63 <= n < 2 ^ 63 → printable (json_int n).
Proof.
  intros Hn. split; [intros rest Hr; by apply scan_number_int|].
  unfold print_int. destruct (n <? 0) eqn:E; [by do 2 eexists; split; [done|right]|].
  destruct (decimal_digits_spec 20 n) as (_&_&_&Hh); [lia|lia|].
  destruct Hh as [[_ ->]|(c&t&->&Hc&_)]; do 2 eexists; (split; [done|]); by left.
Qed.

(** Keys of struct fields are printed as they are. *)
Lemma raw_ok_plain k :
  Forall (λ b, 32 <= b ∧ b ≠ quote ∧ b ≠ backslash) k → raw_ok k.
Proof. intros Hk x. rewrite scan_plain by done. simpl. by rewrite app_nil_r. Qed.

(** ** Fuel

    Every call leaves less input than it was given, so that the fuel of
    [decode_value] is never what makes it fail: more of it changes nothing. *)
Lemma length_skip_space s : (length (skip_space s) <= length s)%nat.
Proof.
  unfold skip_space. induction s as [|c s IH]; [done|]. cbn [drop_while].
  destruct (json_space c); cbn [length]; lia.
Qed.

Lemma skip_space_shorter s c t : skip_space s = c :: t → (length t < length s)%nat.
Proof. intros H. pose proof (length_skip_space s) as Hl. rewrite H in Hl. simpl in Hl. lia. Qed.

Lemma scan_string_shorter s raw rest : scan_string s = Some (raw, rest) → (length rest < length s)%nat.
Proof.
  revert raw rest. induction s as [s IH] using (induction_ltof1 _ length). intros raw rest.
  assert (Hsub : ∀ t raw rest, (length t < length s)%nat → scan_string t = Some (raw, rest) →
    (length rest < length s)%nat).
  { intros t raw' rest' Ht H. apply IH in H; [|done]. lia. }
  destruct s as [|c s]; [done|]. cbn [scan_string].
  destruct (c =? quote); [intros [= <- <-]; simpl; lia|].
  destruct (c =? backslash); [destruct s as [|e s]; [done|]; destruct (e =? chr "u")|].
  - destruct s as [|h0 [|h1 [|h2 [|h3 s]]]]; try done.
    intros (?&_&([raw' rest']&Hs&?)%bind_Some)%bind_Some. simplify_eq/=.
    eapply Hsub; [|exact Hs]. lia.
  - intros (?&_&([raw' rest']&Hs&?)%bind_Some)%bind_Some. simplify_eq/=.
    eapply Hsub; [|exact Hs]. lia.
  - destruct (c <? 32); [done|]. intros ([raw' rest']&Hs&?)%bind_Some. simplify_eq/=.
    eapply Hsub; [|exact Hs]. lia.
Qed.

Lemma take_digits_shorter s : (length (take_digits s).2 + length (take_digits s).1 = length s)%nat.
Proof.
  induction s as [|c s IH]; [done|]. cbn [take_digits]. destruct (is_digit c); [|done].
  destruct (take_digits s). simpl in *. lia.
Qed.

Lemma scan_digits1_shorter s ds rest :
  scan_digits1 s = Some (ds, rest) → (length rest < length s)%nat.
Proof.
  unfold scan_digits1. pose proof (take_digits_shorter s) as Hl.
  destruct (take_digits s) as [[|d ds'] r]; [done|]. intros [= <- <-]. simpl in *. lia.
Qed.

Lemma scan_int_shorter s ds rest : scan_int s = Some (ds, rest) → (length rest < length s)%nat.
Proof.
  destruct s as [|c t]; [done|]. cbn [scan_int].
  destruct (c =? chr "0"); [intros [= <- <-]; simpl; lia|apply scan_digits1_shorter].
Qed.

Lemma scan_frac_shorter s ds rest : scan_frac s = Some (ds, rest) → (length rest <= length s)%nat.
Proof.
  destruct s as [|c t]; [intros [= <- <-]; done|]. cbn [scan_frac].
  destruct (c =? chr "."); [|intros [= <- <-]; done].
  intros ([? ?]&H&?)%bind_Some. simplify_eq/=. apply scan_digits1_shorter in H. lia.
Qed.

Lemma scan_exp_shorter s ds rest : scan_exp s = Some (ds, rest) → (length rest <= length s)%nat.
Proof.
  destruct s as [|c t]; [intros [= <- <-]; done|]. cbn [scan_exp].
  destruct ((c =? chr "e") || _); [|intros [= <- <-]; done]. destruct t as [|g t]; [done|].
  destruct ((g =? chr "+") || _); intros ([? ?]&H&?)%bind_Some; simplify_eq/=;
    apply scan_digits1_shorter in H; simpl in *; lia.
Qed.

Lemma scan_number_shorter s lit rest :
  scan_number s = Some (lit, rest) → (length rest < length s)%nat.
Proof.
  unfold scan_number. intros H.
  destruct (match s with [] => _ | _ => _ end) as [sign s'] eqn:Es.
  assert (Hs' : (length s' <= length s)%nat) by (destruct s; repeat case_match; simplify_eq/=; lia).
  apply bind_Some in H as ([i s1]&Hi&H). apply bind_Some in H as ([fr s2]&Hf&H).
  apply bind_Some in H as ([e s3]&He&H). simplify_eq/=.
  apply scan_int_shorter in Hi. apply scan_frac_shorter in Hf. apply scan_exp_shorter in He. lia.
Qed.

Lemma scan_word_shorter w s rest : scan_word w s = Some rest → (length rest <= length s)%nat.
Proof.
  revert s. induction w as [|a w IH]; intros [|b s]; simpl; intros H; simplify_eq/=; try lia.
  case_match; [|done]. apply IH in H. lia.
Qed.

(** The rest of the input after a parse is strictly shorter. *)
Definition shortens {A} (p : list Z → option (A * list Z)) : Prop :=
  ∀ s x rest, p s = Some (x, rest) → (length rest < length s)%nat.

(** [p] and [q] agree on inputs of at most [n] bytes. *)
Definition agree {A} (n : nat) (p q : list Z → option A) : Prop :=
  ∀ s, (length s <= n)%nat → p s = q s.

Lemma agree_mono {A} n m (p q : list Z → option A) : (m <= n)%nat → agree n p q → agree m p q.
Proof. intros ? H s ?. apply H. lia. Qed.

Lemma parsers_shorten f :
  shortens (parse_value f) ∧ shortens (parse_object f) ∧ shortens (parse_members f)
  ∧ shortens (parse_array f) ∧ shortens (parse_elements f).
Proof.
  induction f as [|f (IHv&IHo&IHm&IHa&IHe)]; [by repeat split; intros ????|].
  split_and!; intros s x rest.
  - cbn [parse_value]. destruct (skip_space s) as [|c t] eqn:Hs; [done|].
    pose proof (length_skip_space s) as Hl. rewrite Hs in Hl. cbn [length] in Hl.
    repeat match goal with |- (if ?b then _ else _) = _ → _ => destruct b end;
      intros (y&H&?)%bind_Some; try destruct y as [y r];
      first [apply scan_word_shorter in H | apply scan_string_shorter in H
            | apply IHo in H | apply IHa in H | apply scan_number_shorter in H];
      simplify_eq/=; lia.
  - cbn [parse_object]. destruct (skip_space s) as [|c t] eqn:Hs; [done|].
    destruct (c =? chr "}"); [|by apply IHm]. intros [= <- <-]. by eapply skip_space_shorter.
  - cbn [parse_members]. destruct (skip_space s) as [|c t] eqn:Hs; [done|].
    apply skip_space_shorter in Hs. destruct (negb _); [done|].
    intros ([key s1]&H1&H)%bind_Some. apply scan_string_shorter in H1.
    destruct (skip_space s1) as [|c1 t1] eqn:Hs1; [done|]. apply skip_space_shorter in Hs1.
    destruct (negb _) in H; [done|]. apply bind_Some in H as ([v s2]&H2&H). apply IHv in H2.
    destruct (skip_space s2) as [|c2 t2] eqn:Hs2; [done|]. apply skip_space_shorter in Hs2.
    destruct (c2 =? chr ","); [|destruct (c2 =? chr "}"); simplify_eq/=; lia].
    apply bind_Some in H as ([ms s3]&H3&?). simplify_eq/=. apply IHm in H3. lia.
  - cbn [parse_array]. destruct (skip_space s) as [|c t] eqn:Hs; [done|].
    destruct (c =? chr "]"); [|by apply IHe]. intros [= <- <-]. by eapply skip_space_shorter.
  - cbn [parse_elements]. intros ([v s1]&H1&H)%bind_Some. apply IHv in H1.
    destruct (skip_space s1) as [|c t] eqn:Hs; [done|]. apply skip_space_shorter in Hs.
    destruct (c =? chr ","); [|destruct (c =? chr "]"); simplify_eq/=; lia].
    apply bind_Some in H as ([vs s2]&H2&?). simplify_eq/=. apply IHe in H2. lia.
Qed.

(** With fuel [f] for [n] bytes, the fuel [g] gives the same results on such
    inputs. *)
Definition stable (g f : nat) : Prop := ∀ n,
  ((4 * n + 1 <= f)%nat → agree n (parse_value g) (parse_value f))
  ∧ ((4 * n + 4 <= f)%nat → agree n (parse_object g) (parse_object f))
  ∧ ((4 * n + 3 <= f)%nat → agree n (parse_members g) (parse_members f))
  ∧ ((4 * n + 4 <= f)%nat → agree n (parse_array g) (parse_array f))
  ∧ ((4 * n + 3 <= f)%nat → agree n (parse_elements g) (parse_elements f)).

Lemma stable_value g f n :
  stable g f → (4 * n + 1 <= S f)%nat → agree n (parse_value (S g)) (parse_value (S f)).
Proof.
  intros IH Hf s Hn. cbn [parse_value].
  destruct (skip_space s) as [|c t] eqn:Hs; [done|]. apply skip_space_shorter in Hs.
  destruct n as [|n]; [lia|]. destruct (IH n) as (_&Ho&_&Ha&_).
  rewrite Ho, Ha by lia. done.
Qed.

Lemma stable_members g f n :
  stable g f → (4 * n + 3 <= S f)%nat → agree n (parse_members (S g)) (parse_members (S f)).
Proof.
  intros IH Hf s Hn. cbn [parse_members].
  destruct (skip_space s) as [|c t] eqn:Hs; [done|]. apply skip_space_shorter in Hs.
  destruct (negb _); [done|]. destruct n as [|n]; [lia|]. destruct (IH n) as (Hv&_&Hm&_).
  destruct (scan_string t) as [[key s1]|] eqn:H1; [|done]. cbn [mbind option_bind].
  apply scan_string_shorter in H1. destruct (skip_space s1) as [|c1 t1] eqn:Hs1; [done|].
  apply skip_space_shorter in Hs1. destruct (negb _); [done|]. rewrite Hv by lia.
  destruct (parse_value f t1) as [[v s2]|] eqn:H2; [|done]. cbn [mbind option_bind].
  apply parsers_shorten in H2. destruct (skip_space s2) as [|c2 t2] eqn:Hs2; [done|].
  apply skip_space_shorter in Hs2. by rewrite Hm by lia.
Qed.

Lemma stable_elements g f n :
  stable g f → (4 * n + 3 <= S f)%nat → agree n (parse_elements (S g)) (parse_elements (S f)).
Proof.
  intros IH Hf s Hn. cbn [parse_elements].
  destruct (IH n) as (Hv&_). rewrite Hv by lia.
  destruct (parse_value f s) as [[v s1]|] eqn:H1; [|done]. cbn [mbind option_bind].
  apply parsers_shorten in H1. destruct (skip_space s1) as [|c t] eqn:Hs; [done|].
  apply skip_space_shorter in Hs. destruct n as [|n]; [lia|].
  destruct (IH n) as (_&_&_&_&He). by rewrite He by lia.
Qed.

Lemma stable_step g f : stable g f → stable (S g) (S f).
Proof.
  intros IH n. split_and!; intros Hf.
  - by apply stable_value.
  - intros s Hn. cbn [parse_object].
    destruct (skip_space s); [done|]. destruct (_ =? _); [done|]. apply (IH n); lia.
  - by apply stable_members.
  - intros s Hn. cbn [parse_array].
    destruct (skip_space s); [done|]. destruct (_ =? _); [done|]. apply (IH n); lia.
  - by apply stable_elements.
Qed.

Lemma parsers_stable f : stable (S f) f.
Proof.
  induction f as [|f IH]; [intros n; split_and!; intros; lia|by apply stable_step].
Qed.

Lemma decode_value_fuel f s : (4 * length s + 1 <= f)%nat → parse_value f s = decode_value s.
Proof.
  unfold decode_value. replace (S (4 * length s)) with (4 * length s + 1)%nat by lia.
  induction 1 as [|f Hf IH]; [done|]. rewrite <- IH. by apply (parsers_stable f (length s)).
Qed.

(** ** Decoding into Go values

    [Decode] writes into a variable: each decoder takes the value the variable
    has and returns the one it gets, or nothing for a type error.  A [null] is a
    no-op, except for slices. *)
Definition decode_string (old : string) (v : json) : option string :=
  match v with JNull => Some old | JStr raw => Some (unquote raw) | _ => None end.

Definition decode_int64 (old : Z) (v : json) : option Z :=
  match v with JNull => Some old | JNum lit => int64_of lit | _ => None end.

(** [Time.UnmarshalJSON]: the raw token, parsed as RFC 3339. *)
Definition decode_time (zone : Z → Z * Z * Z) (old : time) (v : json) : option time :=
  match v with JNull => Some old | JStr raw => parse zone RFC3339 (of_bytes raw) UTC | _ => None end.

(** A slice is its backing array with its length: an element is decoded into
    what the array holds at its place (zero values behind its end), and an empty
    JSON array allocates anew. *)
Section slices.
Context {A : Type} (zero : A) (decode : A → json → option A).

Fixpoint decode_elements (backing : list A) (vs : list json) : option (list A) :=
  match vs with
  | [] => Some []
  | v :: vs =>
    x ← decode (default zero (head backing)) v;
    xs ← decode_elements (tail backing) vs; Some (x :: xs)
  end.

Definition decode_slice (old : list A * nat) (v : json) : option (list A * nat) :=
  match v with
  | JNull | JArr [] => Some ([], 0%nat)
  | JArr vs => xs ← decode_elements old.1 vs; Some (xs ++ drop (length vs) old.1, length vs)
  | _ => None
  end.
End slices.

Definition slice_value {A} (s : list A * nat) : list A := take s.2 s.1.

(** The field a key selects: by its exact name, else by case folding. *)
Definition field_of (names : list string) (key : string) : option string :=
  if bool_decide (key ∈ names) then Some key else List.find (equal_fold key) names.

(** An object into a struct, its members in order; [DisallowUnknownFields]. *)
Section structs.
Context {A : Type} (names : list string) (set : string → json → A → option A).

Definition set_member (x : A) (m : list Z * json) : option A :=
  name ← field_of names (unquote m.1); set name m.2 x.

Fixpoint set_members (x : A) (ms : list (list Z * json)) : option A :=
  match ms with
  | [] => Some x
  | m :: ms => x ← set_member x m; set_members x ms
  end.

Definition decode_struct (old : A) (v : json) : option A :=
  match v with JNull => Some old | JObj ms => set_members old ms | _ => None end.
End structs.

(** [json.Unmarshal] into a struct without [DisallowUnknownFields]: members that
    select no field are skipped. *)
Section open_structs.
Context {A : Type} (names : list string) (set : string → json → A → option A).

Definition set_known_member (x : A) (m : list Z * json) : option A :=
  match field_of names (unquote m.1) with Some name => set name m.2 x | None => Some x end.

Fixpoint set_known_members (x : A) (ms : list (list Z * json)) : option A :=
  match ms with
  | [] => Some x
  | m :: ms => x ← set_known_member x m; set_known_members x ms
  end.

Definition decode_open_struct (old : A) (v : json) : option A :=
  match v with JNull => Some old | JObj ms => set_known_members old ms | _ => None end.
End open_structs.

(** The depth of nested arrays and objects, which the scanner limits. *)
Fixpoint nesting (v : json) : Z :=
  match v with
  | JArr vs => 1 + (fix go vs := match vs with [] => 0 | v :: vs => Z.max (nesting v) (go vs) end) vs
  | JObj ms => 1 + (fix go ms := match ms with [] => 0 | (_, v) :: ms => Z.max (nesting v) (go ms) end) ms
  | _ => 0
  end.
Definition maxNestingDepth : Z := 10000.

(** What [json.Unmarshal] decodes: the whole input is one value. *)
Definition unmarshal_value (s : list Z) : option json :=
  v ← decode_single s; if nesting v <=? maxNestingDepth then Some v else None.

(** *** What is printed decodes to the value *)

Lemma set_members_cons {A} names (set : string → json → A → option A) k x v ms :
  field_of names (unquote (bytes k)) = Some k →
  set_members names set x ((bytes k, v) :: ms) = (y ← set k v x; set_members names set y ms).
Proof. intros Hk. cbn [set_members]. unfold set_member. cbn [fst snd]. by rewrite Hk. Qed.

Lemma set_known_members_cons {A} names (set : string → json → A → option A) k x v ms :
  field_of names (unquote (bytes k)) = Some k →
  set_known_members names set x ((bytes k, v) :: ms)
  = (y ← set k v x; set_known_members names set y ms).
Proof. intros Hk. cbn [set_known_members]. unfold set_known_member. cbn [fst snd]. by rewrite Hk. Qed.

Lemma decode_json_string old s : decode_string old (json_string s) = Some (string_of_runes (runes s)).
Proof. cbn. by rewrite unquote_escape. Qed.

Lemma decode_json_int old n : -2 ^ 63 <= n < 2 ^ 63 → decode_int64 old (json_int n) = Some n.
Proof. apply int64_of_print. Qed.

Lemma decode_json_strings (ss : list string) :
  ss ≠ [] → Forall (λ s, string_of_runes (runes s) = s) ss →
  decode_slice "" decode_string ([], 0%nat) (JArr (json_string <$> ss)) = Some (ss, length ss).
Proof.
  intros Hne Hss.
  assert (He : ∀ b, decode_elements "" decode_string b (json_string <$> ss) = Some ss).
  { clear Hne. induction Hss as [|s ss Hs Hss IH]; intros b; [done|]. rewrite !fmap_cons.
    cbn [decode_elements]. rewrite decode_json_string, Hs. cbn [mbind option_bind]. by rewrite IH. }
  unfold decode_slice. rewrite He. destruct ss as [|s ss]; [done|]. rewrite fmap_cons at 1.
  cbn [mbind option_bind fst]. by rewrite drop_nil, app_nil_r, length_fmap.
Qed.

(** [Time.MarshalJSON] of a UTC time: an error outside the years 0 to 9999. *)
Definition marshal_utc_time (zone : Z → Z * Z * Z) (t : time) : option json :=
  if (0 <=? year t) && (year t <=? 9999)
  then Some (JStr (bytes (format_rfc3339nano zone (utc t)))) else None.

Lemma decode_marshal_time zone old t v :
  marshal_utc_time zone t = Some v → printable v ∧ decode_time zone old v = Some (utc t).
Proof.
  unfold marshal_utc_time. destruct ((0 <=? year t) && _) eqn:Hy; [|done]. intros Hv.
  assert (v = JStr (bytes (format_rfc3339nano zone (utc t)))) as -> by congruence. clear Hv.
  unbool. split.
  - apply raw_ok_plain. apply (Forall_impl _ _ _ (proj1 (format_utc_chars zone t))).
    unfold quote, backslash. simpl. intros b Hb. lia.
  - cbn [decode_time]. rewrite of_bytes_bytes. apply (parse_format_layout zone false). lia.
Qed.

(** *** Sizes *)

Lemma length_decimal_digits f n : (length (decimal_digits f n) <= f)%nat.
Proof.
  revert n. induction f as [|f IH]; intros n; [done|]. cbn [decimal_digits].
  specialize (IH (n / 10)). rewrite length_app. destruct (n <? 10); simpl; lia.
Qed.

Lemma length_print_int n : (length (print_int n) <= 21)%nat.
Proof.
  unfold print_int. pose proof (length_decimal_digits 20 n).
  pose proof (length_decimal_digits 20 (- n)). destruct (n <? 0); cbn [length]; lia.
Qed.

Lemma length_encode_rune r : (length (encode_rune r) <= 4)%nat.
Proof. unfold encode_rune. repeat case_match; simpl; lia. Qed.

(** A rune is written with at most six bytes. *)
Lemma length_escape_token b t r w :
  decode_rune (b :: t) = (r, w) → (length (escape_token (r, take w (b :: t))) <= 6)%nat.
Proof.
  intros Hd. pose proof (decode_rune_width b t) as Hw. rewrite Hd in Hw. cbn [snd] in Hw.
  assert ((w <= 4)%nat).
  { revert Hd. unfold decode_rune. split_decode; intros [= <- <-]; lia. }
  unfold escape_token. repeat (case_match; [simpl; lia|]). rewrite length_take. lia.
Qed.

Lemma length_escape s : (length (escape s) <= 6 * length (runes s))%nat.
Proof.
  unfold escape, runes. rewrite length_fmap. induction (bytes s) as [|b t r w Hd IH] using tokens_ind; [simpl; lia|].
  rewrite (tokens_cons _ _ _ _ Hd). csimpl. rewrite length_app.
  pose proof (length_escape_token b t r w Hd). simpl in *. lia.
Qed.

(** A string of plain ASCII characters is written as it is. *)
Definition plain_char (b : Z) : bool :=
  (32 <=? b) && (b <? 128) && negb (b =? quote) && negb (b =? backslash)
  && negb (b =? chr "<") && negb (b =? chr ">") && negb (b =? chr "&").

Lemma escape_plain s : forallb plain_char (bytes s) = true → escape s = bytes s.
Proof.
  intros H. unfold escape. rewrite tokens_ascii.
  2:{ unfold ascii_bytes. rewrite forallb_forall in *. intros b Hb. specialize (H b Hb).
      unfold plain_char in H. lia. }
  induction (bytes s) as [|b t IH]; [done|]. csimpl. cbn [forallb] in H. unbool.
  rewrite IH by done. f_equal. unfold plain_char in *.
  unfold escape_token, RuneError. repeat (case_match; [lia|]). done.
Qed.

(** Such a string is valid UTF-8. *)
Lemma plain_utf8 s : forallb plain_char (bytes s) = true → utf8 s.
Proof.
  intros H. assert (Ha : ascii_bytes (bytes s) = true).
  { unfold ascii_bytes. rewrite forallb_forall in *. intros b Hb. specialize (H b Hb).
    unfold plain_char in H. lia. }
  unfold utf8. rewrite tokens_ascii by done. apply Forall_fmap, List.Forall_forall. intros b Hb.
  rewrite forallb_forall in H. specialize (H b Hb). unfold plain_char in H. simpl.
  unfold encode_rune, valid_rune. repeat case_match; try done; lia.
Qed.

(** A struct field's key. *)
Lemma key_ok k : forallb plain_char (bytes k) = true → raw_ok (bytes k).
Proof. intros Hk. rewrite <- escape_plain by done. intros x. apply scan_escape. Qed.

(** Decode the next printed member of a struct: its key is the field [k]. *)
Ltac struct_member k := rewrite (set_members_cons _ _ k) by (vm_compute; reflexivity).

Ltac known_member k := rewrite (set_known_members_cons _ _ k) by (vm_compute; reflexivity).

(** *** The bytes of a printed value *)

Notation is_bytes := (Forall (λ b, is_byte b = true)).

Lemma is_bytes_forallb bs : is_bytes bs → forallb is_byte bs = true.
Proof. intros H. by apply forallb_forall, List.Forall_forall. Qed.

Lemma is_bytes_string s : is_bytes (bytes s).
Proof. apply List.Forall_forall, forallb_forall, bytes_are_bytes. Qed.

Lemma print_int_bytes n : is_bytes (print_int n).
Proof.
  assert (H : ∀ f n, is_bytes (decimal_digits f n)).
  { induction f as [|f IH]; intros m; [constructor|]. cbn [decimal_digits].
    apply Forall_app. split; [destruct (m <? 10); [constructor|apply IH]|].
    repeat constructor. unfold is_byte. lia_div. }
  unfold print_int. destruct (n <? 0); [constructor; [done|]|]; apply H.
Qed.

Lemma escape_bytes s : is_bytes (escape s).
Proof.
  unfold escape. pose proof (is_bytes_string s) as Hb. revert Hb.
  induction (bytes s) as [|b t r w Hd IH] using tokens_ind; intros Hb; [constructor|].
  rewrite (tokens_cons _ _ _ _ Hd). csimpl. apply Forall_app. split.
  - apply Forall_cons in Hb as [Hb Ht]. pose proof (token_shape b t r w Hb Hd) as Hs.
    assert (Htok : is_bytes (take w (b :: t))) by (apply Forall_take; by constructor).
    unfold escape_token. unfold is_byte, quote, backslash, RuneError in *.
    repeat (case_match;
      [repeat constructor; unfold hex_digit; repeat case_match; lia_div|]). done.
  - apply IH. rewrite <- (take_drop w (b :: t)) in Hb. by apply Forall_app in Hb as [_ Hb].
Qed.

Lemma print_obj_bytes ms :
  Forall (λ m, is_bytes m.1 ∧ is_bytes (print m.2)) ms → is_bytes (print (JObj ms)).
Proof.
  intros H. change (print (JObj ms)) with (chr "{" :: print_members true ms).
  constructor; [done|].
  assert (Hgo : ∀ b, is_bytes (print_members b ms)); [|apply Hgo].
  induction H as [|[k v] ms [Hk Hv] Hms IH]; intros b; cbn [print_members]; [by repeat constructor|].
  cbn [fst snd] in *. repeat (apply Forall_app; split); try done.
  - by destruct b; repeat constructor.
  - constructor; [done|]. apply Forall_app. split; [done|]. do 2 (constructor; [done|]).
    apply Forall_app. split; [done|apply IH].
Qed.

Lemma print_arr_bytes vs : Forall (λ v, is_bytes (print v)) vs → is_bytes (print (JArr vs)).
Proof.
  intros H. change (print (JArr vs)) with (chr "[" :: print_elements true vs).
  constructor; [done|].
  assert (Hgo : ∀ b, is_bytes (print_elements b vs)); [|apply Hgo].
  induction H as [|v vs Hv Hvs IH]; intros b; cbn [print_elements]; [by repeat constructor|].
  repeat (apply Forall_app; split); [by destruct b; repeat constructor|done|apply IH].
Qed.

Lemma print_raw_bytes raw : is_bytes raw → is_bytes (print (JStr raw)).
Proof.
  intros Hr. cbn [print]. constructor; [done|].
  apply Forall_app. split; [done|by repeat constructor].
Qed.

Lemma print_string_bytes s : is_bytes (print (json_string s)).
Proof. apply print_raw_bytes, escape_bytes. Qed.

Lemma length_print_raw raw : length (print (JStr raw)) = (2 + length raw)%nat.
Proof. cbn [print length]. rewrite length_app. simpl. lia. Qed.

Lemma length_print_string s : (length (print (json_string s)) <= 6 * length (runes s) + 2)%nat.
Proof.
  cbn [print json_string length]. rewrite length_app. cbn [length].
  pose proof (length_escape s). lia.
Qed.

(** Quotes, a colon and a comma around each member; a comma behind each
    element. *)
Lemma length_print_obj ms :
  (length (print (JObj ms))
   <= 2 + sum_list ((λ m, 4 + length m.1 + length (print m.2)) <$> ms))%nat.
Proof.
  change (print (JObj ms)) with (chr "{" :: print_members true ms). cbn [length].
  generalize true. induction ms as [|[k v] ms IH]; intros b; cbn [print_members]; [simpl; lia|].
  rewrite fmap_cons. cbn [sum_list_with id fst snd]. rewrite length_app. cbn [length]. rewrite length_app. cbn [length]. rewrite length_app.
  specialize (IH false). destruct b; cbn [length]; lia.
Qed.

Lemma length_print_arr vs :
  (length (print (JArr vs)) <= 2 + sum_list ((λ v, 1 + length (print v)) <$> vs))%nat.
Proof.
  change (print (JArr vs)) with (chr "[" :: print_elements true vs). cbn [length].
  generalize true. induction vs as [|v vs IH]; intros b; cbn [print_elements]; [simpl; lia|].
  rewrite fmap_cons. cbn [sum_list_with id]. rewrite !length_app. specialize (IH false).
  destruct b; cbn [length]; lia.
Qed.

(** A decoded string is valid UTF-8. *)
Lemma unquote_from_runes k raw : ∃ rs, unquote_from k raw = mjoin (encode_rune <$> rs).
Proof.
  revert k. induction raw as [raw IH] using (induction_ltof1 _ length). intros k.
  destruct raw as [|c t]; [by exists []|].
  assert (Hstep : ∀ r k t', (length t' < length (c :: t))%nat →
    ∃ rs, encode_rune r ++ unquote_from k t' = mjoin (encode_rune <$> rs)).
  { intros r k' t' Hl. destruct (IH t' Hl k') as [rs ->]. by exists (r :: rs). }
  cbn [unquote_from]. destruct k as [|k]; [|apply IH; unfold ltof; simpl; lia].
  destruct (c =? backslash).
  - destruct t as [|e t]; [by exists []|]. destruct (e =? chr "u").
    + destruct t as [|h0 [|h1 [|h2 [|h3 t]]]]; try by exists [].
      destruct (is_surrogate _); [|apply Hstep; simpl; lia].
      destruct t as [|b [|u [|g0 [|g1 [|g2 [|g3 t']]]]]]; try (apply Hstep; simpl; lia).
      destruct (if (b =? backslash) && (u =? chr "u") then _ else _); apply Hstep; simpl; lia.
    + destruct (simple_escape e) as [r|] eqn:He; cbn [option_list app].
      * assert (Hr : encode_rune r = [r]).
        { unfold simple_escape, quote, backslash in He.
          repeat case_match; simplify_eq; try done;
            match goal with H : _ || _ = true |- _ =>
              apply orb_true_iff in H as [H| ->%Z.eqb_eq]; [|done];
              apply orb_true_iff in H as [->%Z.eqb_eq| ->%Z.eqb_eq]; done end. }
        destruct (Hstep r 0%nat t) as [rs Hrs]; [simpl; lia|]. exists rs. by rewrite <- Hrs, Hr.
      * apply IH. unfold ltof. simpl. lia.
  - destruct (decode_rune (c :: t)) as [r w]. apply Hstep. simpl. lia.
Qed.

Lemma utf8_unquote raw : utf8 (unquote raw).
Proof. unfold unquote. destruct (unquote_from_runes 0 raw) as [rs ->]. apply utf8_of_runes. Qed.

Lemma decode_string_utf8 old v s : utf8 old → decode_string old v = Some s → utf8 s.
Proof. destruct v; simpl; intros ? [= <-]; [done|apply utf8_unquote]. Qed.

(** ** Automation *)
Lemma json_int_bytes n : is_bytes (print (json_int n)).
Proof. apply print_int_bytes. Qed.

Lemma json_raw_bytes s : is_bytes (print (JStr (bytes s))).
Proof. apply print_raw_bytes, is_bytes_string. Qed.

#[export] Hint Resolve is_bytes_string json_int_bytes json_raw_bytes print_int_bytes print_string_bytes print_raw_bytes
  print_obj_bytes print_arr_bytes escape_bytes printable_string is_bytes_forallb : go.
