(* ===== verification/Sha256.v ===== *)
(** [crypto/sha256] and [crypto/hmac] over it, which sign session cookies and
    index access tokens.  Words are 32-bit, held as [Z]. *)
From S2P Require Import Prelude.
From S2P Require Import GoUnicode.
From S2P Require Import GoString.
From S2P Require Import Json.
Open Scope Z_scope.

(** ** The compression function *)

Definition w32 (x : Z) : Z := x mod 2 ^ 32.
Definition add32 (x y : Z) : Z := w32 (x + y).
Definition rotr (n x : Z) : Z := Z.lor (Z.shiftr x n) (w32 (Z.shiftl x (32 - n))).
Definition not32 (x : Z) : Z := 2 ^ 32 - 1 - x.

Definition big_sigma0 (x : Z) : Z := Z.lxor (rotr 2 x) (Z.lxor (rotr 13 x) (rotr 22 x)).
Definition big_sigma1 (x : Z) : Z := Z.lxor (rotr 6 x) (Z.lxor (rotr 11 x) (rotr 25 x)).
Definition small_sigma0 (x : Z) : Z := Z.lxor (rotr 7 x) (Z.lxor (rotr 18 x) (Z.shiftr x 3)).
Definition small_sigma1 (x : Z) : Z := Z.lxor (rotr 17 x) (Z.lxor (rotr 19 x) (Z.shiftr x 10)).
Definition ch (x y z : Z) : Z := Z.lxor (Z.land x y) (Z.land (not32 x) z).
Definition maj (x y z : Z) : Z := Z.lxor (Z.land x y) (Z.lxor (Z.land x z) (Z.land y z)).

(** The constants are the first 32 bits of the fractional parts of the square
    roots of the first 8 primes and of the cube roots of the first 64. *)
Definition is_prime (n : Z) : bool :=
  (2 <=? n) && forallb (λ d, negb (n mod d =? 0)) (seqZ 2 (n - 2)).
Definition primes : list Z := List.filter is_prime (seqZ 2 310).

(** The integer cube root, bit by bit. *)
Fixpoint cube_root (bits : nat) (root n : Z) : Z :=
  match bits with
  | O => root
  | S k =>
    let next := root + 2 ^ Z.of_nat k in
    cube_root k (if next * next * next <=? n then next else root) n
  end.

Definition round_constants : list Z :=
  Eval vm_compute in (λ p, w32 (cube_root 40 0 (p * 2 ^ 96))) <$> primes.

Record words := mk_words { wa : Z; wb : Z; wc : Z; wd : Z; we : Z; wf : Z; wg : Z; wh : Z }.

Definition initial_words : words :=
  Eval vm_compute in
  match (λ p, w32 (Z.sqrt (p * 2 ^ 64))) <$> primes with
  | a :: b :: c :: d :: e :: f :: g :: h :: _ => mk_words a b c d e f g h
  | _ => mk_words 0 0 0 0 0 0 0 0
  end.

(** The rounds, the message schedule kept as a window of its last 16 words. *)
Fixpoint rounds (ks window : list Z) (s : words) : words :=
  match ks, window with
  | k :: ks, w :: window' =>
    let '(mk_words a b c d e f g h) := s in
    let t1 := add32 (add32 (add32 h (big_sigma1 e)) (add32 (ch e f g) k)) w in
    let t2 := add32 (big_sigma0 a) (maj a b c) in
    let next :=
      add32 (add32 (small_sigma1 (nth 14 window 0)) (nth 9 window 0))
            (add32 (small_sigma0 (nth 1 window 0)) w) in
    rounds ks (window' ++ [next]) (mk_words (add32 t1 t2) a b c (add32 d t1) e f g)
  | _, _ => s
  end.

Definition add_words (s t : words) : words :=
  mk_words (add32 (wa s) (wa t)) (add32 (wb s) (wb t)) (add32 (wc s) (wc t)) (add32 (wd s) (wd t))
           (add32 (we s) (we t)) (add32 (wf s) (wf t)) (add32 (wg s) (wg t)) (add32 (wh s) (wh t)).

Definition compress (s : words) (block : list Z) : words :=
  add_words s (rounds round_constants block s).

(** ** Padding and blocks *)

(** [k] bytes of [n], most significant first. *)
Fixpoint be_bytes (k : nat) (n : Z) : list Z :=
  match k with
  | O => []
  | S k => be_bytes k (n / 256) ++ [n mod 256]
  end.

Fixpoint be_words (bs : list Z) : list Z :=
  match bs with
  | a :: b :: c :: d :: bs => ((a * 256 + b) * 256 + c) * 256 + d :: be_words bs
  | _ => []
  end.

Definition pad (bs : list Z) : list Z :=
  let n := Z.of_nat (length bs) in
  bs ++ 128 :: replicate (Z.to_nat ((55 - n) mod 64)) 0 ++ be_bytes 8 (8 * n).

Fixpoint blocks (fuel : nat) (ws : list Z) (s : words) : words :=
  match fuel with
  | O => s
  | S fuel =>
    match ws with
    | [] => s
    | _ => blocks fuel (drop 16 ws) (compress s (take 16 ws))
    end
  end.

Definition words_bytes (s : words) : list Z :=
  be_bytes 4 (wa s) ++ be_bytes 4 (wb s) ++ be_bytes 4 (wc s) ++ be_bytes 4 (wd s)
  ++ be_bytes 4 (we s) ++ be_bytes 4 (wf s) ++ be_bytes 4 (wg s) ++ be_bytes 4 (wh s).

(** [sha256.Sum256]; a block takes 64 bytes, so the length is fuel enough. *)
Definition sha256 (bs : list Z) : list Z :=
  let ws := be_words (pad bs) in words_bytes (blocks (length ws) ws initial_words).

(** [hmac.New(sha256.New, key)], [Write] and [Sum(nil)]. *)
Definition hmac_sha256 (key message : list Z) : list Z :=
  let key := if (64 <? length key)%nat then sha256 key else key in
  let key := key ++ replicate (64 - length key) 0 in
  sha256 ((Z.lxor 0x5c <$> key) ++ sha256 ((Z.lxor 0x36 <$> key) ++ message)).

(** ** Facts *)

Lemma be_bytes_ok k n : length (be_bytes k n) = k ∧ is_bytes (be_bytes k n).
Proof.
  revert n. induction k as [|k IH]; intros n; [split; [done|constructor]|]. cbn [be_bytes].
  destruct (IH (n / 256)) as [Hl Hb]. split; [rewrite length_app; simpl; lia|].
  apply Forall_app. split; [done|]. repeat constructor. unfold is_byte. lia_div.
Qed.

(** A digest is 32 bytes. *)
Lemma sha256_ok bs : length (sha256 bs) = 32%nat ∧ is_bytes (sha256 bs).
Proof.
  unfold sha256. generalize (blocks (length (be_words (pad bs))) (be_words (pad bs)) initial_words).
  intros s. unfold words_bytes. split.
  - rewrite !length_app, !(proj1 (be_bytes_ok 4 _)). done.
  - rewrite !Forall_app. split_and!; apply be_bytes_ok.
Qed.

Lemma hmac_ok key m : length (hmac_sha256 key m) = 32%nat ∧ is_bytes (hmac_sha256 key m).
Proof. apply sha256_ok. Qed.

Definition hex (bs : list Z) : list Z := mjoin ((λ b, [hex_digit (b / 16); hex_digit (b mod 16)]) <$> bs).

(** FIPS 180-4 and RFC 4231 test vectors. *)
Example sha256_abc :
  of_bytes (hex (sha256 (bytes "abc")))
  = "ba7816bf8f01cfea414140de5dae2223b00361a396177a9cb410ff61f20015ad".
Proof. by vm_compute. Qed.
Example sha256_two_blocks :
  of_bytes (hex (sha256 (bytes "abcdbcdecdefdefgefghfghighijhijkijkljklmklmnlmnomnopnopq")))
  = "248d6a61d20638b8e5c026930c3e6039a33ce45964ff2167f6ecedd419db06c1".
Proof. by vm_compute. Qed.
Example hmac_jefe :
  of_bytes (hex (hmac_sha256 (bytes "Jefe") (bytes "what do ya want for nothing?")))
  = "5bdcc146bf60754e6a042426089575c75a003f089d2739839dec58b964ec3843".
Proof. by vm_compute. Qed.
