(* ===== verification/Http.v ===== *)
(** Requests and responses of [net/http], parsed: what the handlers read of a
    request and what they write. *)
From S2P Require Import Prelude.
From S2P Require Import GoUnicode.
From S2P Require Import GoString.
From S2P Require Import GoTime.
Open Scope Z_scope.

(** Header fields and query parameters: the values of a key, in order. *)
Notation values := (gmap string (list string)).

(** [Values.Get] and [Header.Get]: the first value, or the empty string. *)
Definition get (vs : values) (key : string) : string := default "" (vs !! key ≫= head).

Record request := mk_request {
  rq_Method : string;
  rq_Path : string;
  rq_Query : values;
  rq_Header : values;
  rq_Cookies : list (string * string);
  rq_RemoteAddr : string
}.

(** [Request.Cookie]: the first cookie of the name, else [ErrNoCookie]. *)
Definition request_cookie (r : request) (name : string) : option string :=
  snd <$> List.find (λ c, bool_decide (c.1 = name)) (rq_Cookies r).

(** [http.Cookie], with [SameSite: http.SameSiteStrictMode] as the flag. *)
Record cookie := mk_cookie {
  ck_Name : string; ck_Value : string; ck_Path : string; ck_Expires : time; ck_MaxAge : Z;
  ck_HttpOnly : bool; ck_Secure : bool; ck_SameSiteStrict : bool
}.

#[export] Instance cookie_eq_dec : EqDecision cookie.
Proof. solve_decision. Defined.

(** ** Responses, with bodies of type [B] *)
Record response (B : Type) := mk_response {
  rs_Status : Z;
  rs_Header : values;
  rs_Cookie : option cookie;
  rs_Body : B
}.
Arguments mk_response {B} _ _ _ _.
Arguments rs_Status {B} _.
Arguments rs_Header {B} _.
Arguments rs_Cookie {B} _.
Arguments rs_Body {B} _.

Definition StatusOK : Z := 200.
Definition StatusNoContent : Z := 204.
Definition StatusBadRequest : Z := 400.
Definition StatusUnauthorized : Z := 401.
Definition StatusForbidden : Z := 403.
Definition StatusMethodNotAllowed : Z := 405.
Definition StatusConflict : Z := 409.
Definition StatusTooManyRequests : Z := 429.
Definition StatusInternalServerError : Z := 500.
Definition StatusServiceUnavailable : Z := 503.

(** [Header.Set] and [Header.Add]. *)
Definition set_header (key value : string) (h : values) : values := <[key := [value]]> h.
Definition add_header (key value : string) (h : values) : values :=
  <[key := default [] (h !! key) ++ [value]]> h.

(** [net.SplitHostPort], the host. *)
Fixpoint index_byte (c : Z) (bs : list Z) : option nat :=
  match bs with
  | [] => None
  | b :: bs => if b =? c then Some 0%nat else S <$> index_byte c bs
  end.
Fixpoint last_index_byte (c : Z) (bs : list Z) : option nat :=
  match bs with
  | [] => None
  | b :: bs =>
    match last_index_byte c bs with
    | Some i => Some (S i)
    | None => if b =? c then Some 0%nat else None
    end
  end.
Definition has_byte (c : Z) (bs : list Z) : bool := existsb (λ b, b =? c) bs.

Definition split_host (hostport : list Z) : option (list Z) :=
  i ← last_index_byte (chr ":") hostport;
  if bool_decide (head hostport = Some (chr "[")) then
    stop ← index_byte (chr "]") hostport;
    if negb (S stop =? i)%nat then None
    else if has_byte (chr "[") (drop 1 hostport) || has_byte (chr "]") (drop (S stop) hostport)
    then None
    else Some (drop 1 (take stop hostport))
  else
    let host := take i hostport in
    if has_byte (chr ":") host || has_byte (chr "[") hostport || has_byte (chr "]") hostport
    then None
    else Some host.

(** [clientIP] *)
Definition client_ip (r : request) : string :=
  match split_host (bytes (rq_RemoteAddr r)) with
  | Some host => of_bytes host
  | None => rq_RemoteAddr r
  end.

Example client_ip_v4 : client_ip (mk_request "GET" "/ws" ∅ ∅ [] "10.0.0.7:5123") = "10.0.0.7".
Proof. reflexivity. Qed.
Example client_ip_v6 : client_ip (mk_request "GET" "/ws" ∅ ∅ [] "[::1]:80") = "::1".
Proof. reflexivity. Qed.
Example client_ip_bare : client_ip (mk_request "GET" "/ws" ∅ ∅ [] "::1") = "::1".
Proof. reflexivity. Qed.
