(* ===== verification/Metrics.v ===== *)
(** The Prometheus collectors ([internal/metrics/metrics.go]) and the series the
    process writes.

    A series is a collector with one label value (the empty one when it has no
    label); the state of all series is a map to numbers.  A histogram keeps its
    number of observations.  What it costs a Prometheus server is the number of
    series, so no input of a client may become a label value. *)
From Stdlib Require Import QArith_base.
From S2P Require Import Prelude.
From S2P Require Import GoUnicode.
From S2P Require Import GoString.
Open Scope Z_scope.

(** ** Collectors *)

Inductive metric_kind := Gauge | Counter | Histogram.

(** The options of [promauto.New...] and the label names of a vector. *)
Record collector := mk_collector {
  mc_Kind : metric_kind;
  mc_Namespace : string;
  mc_Name : string;
  mc_Help : string;
  mc_Labels : list string;
  mc_Buckets : list Q
}.

(** [prometheus.BuildFQName] *)
Definition fq_name (c : collector) : string := mc_Namespace c +:+ "_" +:+ mc_Name c.

Definition ConnectedClients : collector :=
  mk_collector Gauge "chatster" "websocket_clients_connected"
    "Currently connected WebSocket clients."
    [] [].
Definition WSUpgrades : collector :=
  mk_collector Counter "chatster" "websocket_upgrades_total"
    ("WebSocket upgrade attempts by result (ok, authentication_required, forbidden_room, " +:+
     "denied_origin, rate_limited, upgrade_error, draining).")
    ["result"] [].
Definition WSDrainStarted : collector :=
  mk_collector Counter "chatster" "websocket_drains_started_total"
    "WebSocket hub drain operations started."
    [] [].
Definition WSDrainDuration : collector :=
  mk_collector Histogram "chatster" "websocket_drain_duration_seconds"
    "Duration of WebSocket hub drain operations."
    [] [1 # 1000; 5 # 1000; 1 # 100; 25 # 1000; 5 # 100; 1 # 10; 25 # 100; 5 # 10; 1 # 1; 2 # 1;
      5 # 1; 10 # 1; 30 # 1].
Definition WSDrainClientsRemaining : collector :=
  mk_collector Gauge "chatster" "websocket_drain_clients_remaining"
    "Active WebSocket clients that have not completed a shutdown drain."
    [] [].
Definition WSDrainForcedCloses : collector :=
  mk_collector Counter "chatster" "websocket_drain_forced_closes_total"
    "WebSocket clients still active when the shutdown drain deadline expired."
    [] [].
Definition WSOutboundDrops : collector :=
  mk_collector Counter "chatster" "websocket_outbound_drops_total"
    ("Outbound WebSocket messages dropped by reason (slow_client, write_error, " +:+
     "leave_backpressure).")
    ["reason"] [].
Definition MessagesIngested : collector :=
  mk_collector Counter "chatster" "chat_messages_ingested_total"
    "Validated chat messages accepted for broadcast."
    [] [].
Definition MessagesRejected : collector :=
  mk_collector Counter "chatster" "chat_messages_rejected_total"
    ("Chat messages rejected by reason (invalid_username, invalid_body, identity_override, " +:+
     "rate_limited).")
    ["reason"] [].
Definition MessagesPruned : collector :=
  mk_collector Counter "chatster" "chat_messages_pruned_total"
    "Persisted chat messages removed by the configured retention policy."
    [] [].
Definition ModerationEventsPruned : collector :=
  mk_collector Counter "chatster" "moderation_audit_events_pruned_total"
    "Moderation audit events removed by the configured retention policy."
    [] [].
Definition MessagePersistDuration : collector :=
  mk_collector Histogram "chatster" "chat_message_persist_duration_seconds"
    "Duration of SQLite message persistence by result."
    ["result"] [1 # 1000; 25 # 10000; 5 # 1000; 1 # 100; 25 # 1000; 5 # 100; 1 # 10; 25 # 100;
      5 # 10; 1 # 1].
Definition BroadcastFanoutDuration : collector :=
  mk_collector Histogram "chatster" "websocket_broadcast_fanout_duration_seconds"
    "Duration of hub fanout enqueue work for one broadcast message."
    [] [5 # 10000; 1 # 1000; 25 # 10000; 5 # 1000; 1 # 100; 25 # 1000; 5 # 100; 1 # 10; 25 # 100;
      5 # 10].
Definition RedisConnections : collector :=
  mk_collector Counter "chatster" "redis_connections_total"
    "Redis broker connection attempts by result (ok, error)."
    ["result"] [].
Definition RedisPublishes : collector :=
  mk_collector Counter "chatster" "redis_publishes_total"
    "Redis broker publish attempts by result (ok, error)."
    ["result"] [].
Definition RedisSubscriptions : collector :=
  mk_collector Counter "chatster" "redis_subscriptions_total"
    "Redis broker subscription attempts by result (ok, error)."
    ["result"] [].
Definition RedisDecodes : collector :=
  mk_collector Counter "chatster" "redis_decodes_total"
    "Redis broker payload decodes by result (ok, error)."
    ["result"] [].
Definition RedisDrops : collector :=
  mk_collector Counter "chatster" "redis_drops_total"
    "Redis broker events dropped by reason."
    ["reason"] [].
Definition RedisReconnects : collector :=
  mk_collector Counter "chatster" "redis_reconnects_total"
    "Redis broker subscriber reconnect attempts."
    [] [].

Definition collectors : list collector :=
  [ConnectedClients; WSUpgrades; WSDrainStarted; WSDrainDuration;
   WSDrainClientsRemaining; WSDrainForcedCloses; WSOutboundDrops; MessagesIngested;
   MessagesRejected; MessagesPruned; ModerationEventsPruned; MessagePersistDuration;
   BroadcastFanoutDuration; RedisConnections; RedisPublishes; RedisSubscriptions;
   RedisDecodes; RedisDrops; RedisReconnects].

(** ** Registration

    [promauto] panics at package initialisation when a name is taken or not of
    the form [[a-zA-Z_:][a-zA-Z0-9_:]*], and so does a histogram whose buckets do
    not increase. *)
Definition within (lo hi b : Z) : bool := (lo <=? b) && (b <=? hi).
Definition name_start (b : Z) : bool :=
  within (chr "a") (chr "z") b || within (chr "A") (chr "Z") b || (b =? chr "_") || (b =? chr ":").
Definition valid_name (s : string) : bool :=
  match bytes s with
  | [] => false
  | b :: bs => name_start b && forallb (λ b, name_start b || within (chr "0") (chr "9") b) bs
  end.

Fixpoint increasing (bs : list Q) : bool :=
  match bs with
  | a :: (b :: _) as bs' => negb (Qle_bool b a) && increasing bs'
  | _ => true
  end.

Fixpoint register (names : list string) (cs : list collector) : bool :=
  match cs with
  | [] => true
  | c :: cs =>
    valid_name (fq_name c) && forallb valid_name (mc_Labels c) && increasing (mc_Buckets c)
    && negb (bool_decide (fq_name c ∈ names)) && register (fq_name c :: names) cs
  end.

Example collectors_register : register [] collectors = true.
Proof. vm_compute. reflexivity. Qed.

(** ** Series *)
Notation metrics := (gmap (string * string) Z).

Definition series (c : collector) (label : string) : string * string := (fq_name c, label).

(** [Add] of a counter or gauge, [Observe] of a histogram. *)
Definition add_metric (c : collector) (label : string) (n : Z) (ms : metrics) : metrics :=
  <[series c label := default 0 (ms !! series c label) + n]> ms.
Definition inc (c : collector) (label : string) (ms : metrics) : metrics := add_metric c label 1 ms.

(** [Set] of a gauge. *)
Definition set_metric (c : collector) (label : string) (n : Z) (ms : metrics) : metrics :=
  <[series c label := n]> ms.

Definition metric (c : collector) (label : string) (ms : metrics) : Z :=
  default 0 (ms !! series c label).

(** The label values a help text lists, between parentheses. *)
Fixpoint help_words (help word : list Z) : list string :=
  match help with
  | [] => [of_bytes word]
  | b :: help =>
    if b =? chr ")" then [of_bytes word]
    else if b =? chr "," then of_bytes word :: help_words help []
    else if b =? chr " " then help_words help word
    else help_words help (word ++ [b])
  end.
Fixpoint documented (help : list Z) : list string :=
  match help with
  | [] => []
  | b :: help => if b =? chr "(" then help_words help [] else documented help
  end.

(** The help texts of [RedisDrops] and [MessagePersistDuration] list no values.
    For the second [docs/OBSERVABILITY.md] does; for the first these are the
    reasons in [hub.go].  They are part of the specification, a bound to prove, and
    translate nothing: the operations pass their labels as literals. *)
Definition undocumented_values (c : collector) : list string :=
  if bool_decide (mc_Name c = mc_Name RedisDrops) then
    ["not_persisted"; "invalid_event"; "publish_backpressure"; "loop"; "duplicate"; "draining";
     "client_backpressure"]
  else if bool_decide (mc_Name c = mc_Name MessagePersistDuration) then ["ok"; "error"]
  else [].

(** The values a collector's label may take: those its help text lists. *)
Definition label_values (c : collector) : list string :=
  match mc_Labels c with
  | [] => [""]
  | _ =>
    match documented (bytes (mc_Help c)) with
    | [] => undocumented_values c
    | values => values
    end
  end.

Definition series_of (c : collector) : list (string * string) := series c <$> label_values c.

(** The series of all collectors, and of those that only grow. *)
Definition all_series : list (string * string) := collectors ≫= series_of.
Definition is_gauge (c : collector) : bool := match mc_Kind c with Gauge => true | _ => false end.
Definition growing : list (string * string) :=
  List.filter (λ c, negb (is_gauge c)) collectors ≫= series_of.

Definition declared (ms : metrics) : Prop := ∀ k, is_Some (ms !! k) → k ∈ all_series.

(** ** Facts *)

Lemma inc_changes c label ms : inc c label ms ≠ ms.
Proof.
  intros E. assert (E' : inc c label ms !! series c label = ms !! series c label) by by rewrite E.
  unfold inc, add_metric in E'. rewrite lookup_insert_eq in E'.
  destruct (ms !! series c label); simpl in E'; simplify_eq; lia.
Qed.

Lemma metric_add c l n c' l' ms :
  metric c l (add_metric c' l' n ms)
  = metric c l ms + (if bool_decide (series c l = series c' l') then n else 0).
Proof.
  unfold metric, add_metric. case_bool_decide as E.
  - by rewrite E, lookup_insert_eq.
  - rewrite lookup_insert_ne by congruence. lia.
Qed.

Lemma metric_set c l n c' l' ms :
  metric c l (set_metric c' l' n ms)
  = if bool_decide (series c l = series c' l') then n else metric c l ms.
Proof.
  unfold metric, set_metric. case_bool_decide as E.
  - by rewrite E, lookup_insert_eq.
  - by rewrite lookup_insert_ne by congruence.
Qed.

Lemma declared_set c l n ms : series c l ∈ all_series → declared ms → declared (set_metric c l n ms).
Proof.
  intros Hs Hms k. unfold set_metric. destruct (decide (k = series c l)) as [->|Hne]; [done|].
  rewrite lookup_insert_ne by congruence. apply Hms.
Qed.

Lemma declared_add c l n ms : series c l ∈ all_series → declared ms → declared (add_metric c l n ms).
Proof.
  intros Hs Hms k. unfold add_metric. destruct (decide (k = series c l)) as [->|Hne]; [done|].
  rewrite lookup_insert_ne by congruence. apply Hms.
Qed.

(** Declared series number at most [length all_series]. *)
Lemma declared_size ms : declared ms → (size ms <= length all_series)%nat.
Proof.
  intros Hms. rewrite <- size_dom.
  transitivity (size (list_to_set all_series : gset (string * string))).
  - apply subseteq_size. intros k Hk. apply elem_of_list_to_set, Hms. by apply elem_of_dom.
  - generalize all_series. intros l. induction l as [|x l IH]; [done|]. csimpl.
    rewrite size_union_alt, size_singleton.
    pose proof (subseteq_size (list_to_set l ∖ {[x]}) (list_to_set l : gset (string * string))
      ltac:(set_solver)). lia.
Qed.

(** Counting: any number of [Add]s to series that only grow. *)
Definition counts : metrics → metrics → Prop :=
  rtc (λ ms ms', ∃ c l n, series c l ∈ growing ∧ 0 <= n ∧ ms' = add_metric c l n ms).

#[export] Instance counts_preorder : PreOrder counts.
Proof. apply _. Qed.

Lemma growing_declared k : k ∈ growing → k ∈ all_series.
Proof.
  unfold growing, all_series. rewrite !list_elem_of_bind.
  intros (c&Hk&Hc%elem_of_filter_bool). exists c. tauto.
Qed.

Lemma counts_add c l n ms : series c l ∈ growing → 0 <= n → counts ms (add_metric c l n ms).
Proof. intros. apply rtc_once. by exists c, l, n. Qed.
Lemma counts_inc c l ms : series c l ∈ growing → counts ms (inc c l ms).
Proof. intros. by apply counts_add. Qed.

Lemma counts_declared ms ms' : counts ms ms' → declared ms → declared ms'.
Proof.
  induction 1 as [|m1 m2 m3 (c&l&n&Hs&_&->) _ IH]; [done|]. intros Hd. apply IH.
  by apply declared_add; [apply growing_declared|].
Qed.

(** Counting leaves a gauge alone and never lowers a series. *)
Lemma counts_metric ms ms' c l : counts ms ms' → metric c l ms <= metric c l ms'.
Proof.
  induction 1 as [|m1 m2 m3 (c'&l'&n&_&Hn&->) _ IH]; [done|]. rewrite metric_add in IH.
  case_bool_decide; lia.
Qed.

Lemma counts_gauge ms ms' c l :
  counts ms ms' → series c l ∉ growing → metric c l ms' = metric c l ms.
Proof.
  intros Hc Hg. induction Hc as [|m1 m2 m3 (c'&l'&n&Hs&Hn&->) _ IH]; [done|].
  rewrite IH, metric_add, bool_decide_false by congruence. lia.
Qed.

Lemma empty_declared : declared ∅.
Proof. intros k. rewrite lookup_empty. by intros []. Qed.
