(* ===== verification/Rooms.v ===== *)
(** Room names and text limits of the storage package ([db/database.go]).

    [normalize_room] is [db.NormalizeRoom], the single gate every room name
    passes: the WebSocket upgrade, the history handler, both repositories, the
    event envelope and the session grants all call it.  [truncate_runes] bounds
    the audit preview. *)
From S2P Require Import Prelude.
From S2P Require Import GoUnicode.
From S2P Require Import GoString.
Open Scope Z_scope.

Definition DefaultRoom : string := "general".
Definition maxRoomRunes : Z := 32.

Inductive room_error := RoomTooLong | RoomBadStart | RoomBadChar.

#[export] Instance room_error_eq_dec : EqDecision room_error.
Proof. solve_decision. Defined.

Definition isLetter (r : Z) : bool := (chr "a" <=? r) && (r <=? chr "z").
Definition isDigit (r : Z) : bool := (chr "0" <=? r) && (r <=? chr "9").

(** The loop [for i, r := range runes]. *)
Fixpoint check_room_runes (i : nat) (rs : list Z) : result room_error unit :=
  match rs with
  | [] => Ok tt
  | r :: rs =>
    match i with
    | O =>
      if negb (isLetter r) && negb (isDigit r) then Err RoomBadStart
      else check_room_runes 1 rs
    | S _ =>
      if negb (isLetter r) && negb (isDigit r) && negb (r =? chr "_") && negb (r =? chr "-")
      then Err RoomBadChar
      else check_room_runes (S i) rs
    end
  end.

(** [NormalizeRoom]. *)
Definition normalize_room (room : string) : result room_error string :=
  let room := to_lower (trim_space room) in
  if decide (room = "") then Ok DefaultRoom
  else
    let rs := runes room in
    if maxRoomRunes <? Z.of_nat (length rs) then Err RoomTooLong
    else try _ := check_room_runes 0 rs in Ok room.

(** [truncateRunes]. *)
Definition truncate_runes (s : string) (limit : Z) : string :=
  if (limit <? 1) || (rune_count s <=? limit) then s
  else string_of_runes (take (Z.to_nat limit) (runes s)).

(** ** What a canonical room name is *)

Definition room_char (r : Z) : bool :=
  isLetter r || isDigit r || (r =? chr "_") || (r =? chr "-").

(** Lower-case ASCII letters, digits, hyphens and underscores, starting with a
    letter or digit, at most [maxRoomRunes] bytes. *)
Definition canonical_room (room : string) : bool :=
  match bytes room with
  | [] => false
  | b :: _ =>
    (isLetter b || isDigit b) && forallb room_char (bytes room) && (len room <=? maxRoomRunes)
  end.

Lemma check_room_runes_ok i rs :
  check_room_runes i rs = Ok tt ↔
  forallb room_char rs = true
  ∧ (i = O → match rs with [] => True | r :: _ => (isLetter r || isDigit r) = true end).
Proof.
  revert i. induction rs as [|r rs IH]; intros i; [by destruct i|].
  destruct i; cbn [check_room_runes forallb]; unfold room_char at 1;
    destruct (isLetter r), (isDigit r), (r =? 95), (r =? 45); simpl; rewrite ?IH;
    intuition discriminate.
Qed.

Lemma check_room_runes_err i rs e :
  check_room_runes i rs = Err e → e = RoomBadStart ∨ e = RoomBadChar.
Proof.
  revert i. induction rs as [|r rs IH]; intros i; [done|].
  destruct i; cbn [check_room_runes]; case_match; eauto; intros; simplify_eq; auto.
Qed.

Lemma room_char_ascii r : room_char r = true → 0 <= r < 128 ∧ is_space r = false.
Proof. unfold room_char, isLetter, isDigit, is_space. lia. Qed.

Lemma room_chars_ascii rs : forallb room_char rs = true → ascii_bytes rs = true.
Proof.
  unfold ascii_bytes. rewrite !forallb_forall. intros H r Hr.
  specialize (H r Hr). apply room_char_ascii in H. lia.
Qed.

(** The runes of a string in the room alphabet are its bytes. *)
Lemma room_runes_bytes s :
  forallb room_char (runes s) = true → bytes s = runes s.
Proof. intros H. by apply runes_ascii_bytes, room_chars_ascii. Qed.

Lemma canonical_runes s :
  canonical_room s = true → runes s = bytes s ∧ forallb room_char (bytes s) = true.
Proof.
  unfold canonical_room. destruct (bytes s) as [|b t] eqn:Hb; [done|]. rewrite <- Hb.
  intros H. unbool. split; [|done]. by apply runes_ascii, room_chars_ascii.
Qed.

Lemma room_trim_lower s :
  forallb room_char (runes s) = true → to_lower (trim_space s) = s.
Proof.
  intros H. rewrite trim_space_id.
  - apply to_lower_id. rewrite forallb_forall in *. intros r Hr. specialize (H r Hr).
    revert H. unfold room_char, isLetter, isDigit. lia.
  - rewrite forallb_forall in *. intros r Hr. specialize (H r Hr).
    apply room_char_ascii in H as [_ ->]. done.
Qed.

Lemma normalize_room_ok room r :
  normalize_room room = Ok r → canonical_room r = true.
Proof.
  unfold normalize_room. case_decide as He; [by intros [= <-]|].
  set (s := to_lower (trim_space room)) in *.
  destruct (maxRoomRunes <? _) eqn:Hlen; [done|].
  destruct (check_room_runes 0 (runes s)) as [[]|] eqn:Hc; [|done]. intros [= <-].
  apply check_room_runes_ok in Hc as [Hch Hfirst]. specialize (Hfirst eq_refl).
  pose proof (room_runes_bytes s Hch) as Hb. unfold canonical_room.
  rewrite len_bytes, Hb. destruct (runes s) as [|b t] eqn:Hr.
  { by apply runes_empty in Hr. }
  rewrite Hfirst, Hch. lia.
Qed.

Lemma normalize_room_canonical r :
  canonical_room r = true → normalize_room r = Ok r.
Proof.
  intros Hc. destruct (canonical_runes r Hc) as [Hr Hch].
  unfold canonical_room in Hc. unfold normalize_room.
  rewrite room_trim_lower by by rewrite Hr.
  case_decide as He; [by rewrite He in Hc|].
  rewrite Hr in *. rewrite len_bytes in Hc.
  destruct (bytes r) as [|b t] eqn:Hb; [done|]. rewrite <- Hb in *. unbool.
  destruct (maxRoomRunes <? _) eqn:Hlen; [lia|].
  assert (check_room_runes 0 (bytes r) = Ok tt) as ->; [|done].
  apply check_room_runes_ok. split; [done|]. by rewrite Hb.
Qed.

Lemma canonical_room_iff r : normalize_room r = Ok r ↔ canonical_room r = true.
Proof. split; [apply normalize_room_ok|apply normalize_room_canonical]. Qed.

Lemma runes_truncate s limit :
  1 <= limit → runes (truncate_runes s limit) = take (Z.to_nat limit) (runes s).
Proof.
  intros Hl. unfold truncate_runes, rune_count. case_match eqn:Hc.
  - rewrite take_ge; [done|]. lia.
  - apply runes_string_of_runes, forallb_take, runes_valid.
Qed.

(** ** Properties *)

(** C28: the canonical room names are exactly what [NormalizeRoom] returns, and
    its fixed points: a name is returned unchanged iff it is 1 to 32 lower-case
    letters, digits, hyphens and underscores starting with a letter or digit, and
    every result is such a name, whatever the input, Unicode case mapping and
    invalid UTF-8 included; so normalisation is idempotent. *)
Theorem normalize_room_fixpoint r :
  (normalize_room r = Ok r ↔ canonical_room r = true)
  ∧ ((∃ room, normalize_room room = Ok r) ↔ canonical_room r = true).
Proof.
  split; [apply canonical_room_iff|]. split.
  - by intros [room H%normalize_room_ok].
  - intros H. exists r. by apply canonical_room_iff.
Qed.

(** Which error [NormalizeRoom] returns, on every branch: over-long names
    first, then a bad first rune, then a bad later rune. *)
Lemma normalize_room_error room :
  let s := to_lower (trim_space room) in
  match normalize_room room with
  | Err RoomTooLong => maxRoomRunes < rune_count s
  | Err RoomBadStart => rune_count s <= maxRoomRunes
      ∧ ∃ r, head (runes s) = Some r ∧ isLetter r = false ∧ isDigit r = false
  | Err RoomBadChar => rune_count s <= maxRoomRunes
      ∧ (∃ r, head (runes s) = Some r ∧ isLetter r || isDigit r = true)
      ∧ ∃ r, r ∈ tail (runes s) ∧ room_char r = false
  | Ok r => r = (if decide (s = "") then DefaultRoom else s)
  end.
Proof.
  cbv zeta. unfold normalize_room, rune_count. set (s := to_lower (trim_space room)).
  case_decide as He; [done|]. destruct (maxRoomRunes <? _) eqn:Hlen; [lia|].
  destruct (runes s) as [|r rs] eqn:Hr; [by apply runes_empty in Hr|].
  cbn [check_room_runes]. destruct (negb (isLetter r) && negb (isDigit r)) eqn:Hf.
  { unbool. split; [lia|]. eauto. }
  destruct (check_room_runes 1 rs) as [[]|e] eqn:Hc; [done|].
  assert (e = RoomBadChar ∧ ∃ x, x ∈ rs ∧ room_char x = false) as [-> Hbad].
  { revert Hc. generalize 0%nat. clear. induction rs as [|r rs IH]; intros n; [done|].
    cbn [check_room_runes]. case_match eqn:Hr.
    - intros [= <-]. split; [done|]. exists r. split; [left|]. unfold room_char. lia.
    - intros [-> (x&?&?)]%IH. split; [done|]. exists x. split; [by right|done]. }
  split_and!; [lia| |done]. exists r. split; [done|]. lia.
Qed.

(** The longest prefix, in runes, that fits. *)
Lemma truncate_runes_spec s limit :
  1 <= limit →
  runes (truncate_runes s limit) = take (Z.to_nat limit) (runes s)
  ∧ rune_count (truncate_runes s limit) <= limit.
Proof.
  intros Hl. pose proof (runes_truncate s limit Hl) as Hr. split; [done|].
  unfold rune_count. rewrite Hr, length_take. lia.
Qed.

#[export] Hint Resolve normalize_room_canonical : go.
