(* ===== verification/Events.v ===== *)
(** The cross-instance event contract ([internal/events/envelope.go]).

    [Envelope] is the wire record, [validate] is [Envelope.Validate] with one
    error per return, [new] is [events.New], [channel] and [channel_pattern]
    build the Redis names.  Error messages are represented by their case; their
    texts are not modelled. *)
From S2P Require Import Prelude.
From S2P Require Import GoUnicode.
From S2P Require Import GoString.
From S2P Require Import GoTime.
From S2P Require Import Rooms.
Open Scope Z_scope.

Definition Schema : string := "chatster.room-message".
Definition Version : Z := 1.
Definition maxTokenRunes : Z := 64.
Definition maxEventIDRunes : Z := 128.

(** [events.Message] *)
Record EventMessage := mk_event_message {
  em_ID : Z; em_UserID : string; em_Username : string; em_Content : string; em_Type : string
}.

(** [events.Envelope] *)
Record Envelope := mk_envelope {
  env_Schema : string;
  env_Version : Z;
  env_EventID : string;
  env_Room : string;
  env_OriginInstance : string;
  env_Timestamp : time;
  env_Message : EventMessage
}.

#[export] Instance event_message_eq_dec : EqDecision EventMessage.
Proof. solve_decision. Defined.
#[export] Instance envelope_eq_dec : EqDecision Envelope.
Proof. solve_decision. Defined.

Inductive token_error := TokenRequired | TokenTooLong | TokenBadChar.

#[export] Instance token_error_eq_dec : EqDecision token_error.
Proof. solve_decision. Defined.

Inductive event_error :=
| UnsupportedSchema | UnsupportedVersion
| BadEventID | EventIDTooLong
| TimestampRequired | TimestampNotUTC
| InvalidRoom (e : room_error) | RoomNotCanonical
| InvalidOrigin (e : token_error) | OriginNotCanonical
| BadMessageID | BadUserID | UsernameRequired | ContentRequired | TypeNotDurable.

(** [for _, r := range value] of [normalizeToken]. *)
Fixpoint check_token_runes (rs : list Z) : result token_error unit :=
  match rs with
  | [] => Ok tt
  | r :: rs =>
    if ((chr "a" <=? r) && (r <=? chr "z")) || ((chr "0" <=? r) && (r <=? chr "9"))
       || (r =? chr "_") || (r =? chr "-")
    then check_token_runes rs else Err TokenBadChar
  end.

(** [normalizeToken]. *)
Definition normalize_token (value : string) : result token_error string :=
  let value := to_lower (trim_space value) in
  if decide (value = "") then Err TokenRequired
  else if maxTokenRunes <? Z.of_nat (length (runes value)) then Err TokenTooLong
  else try _ := check_token_runes (runes value) in Ok value.

(** The rune test shared by [validUserID] and [validIdentifier]. *)
Definition user_id_rune (char : Z) : bool :=
  let isLetter := ((chr "a" <=? char) && (char <=? chr "z"))
                  || ((chr "A" <=? char) && (char <=? chr "Z")) in
  let isDigit := (chr "0" <=? char) && (char <=? chr "9") in
  negb (negb isLetter && negb isDigit && negb (char =? chr ".") && negb (char =? chr "_")
        && negb (char =? chr ":") && negb (char =? chr "-")).

(** [validUserID]. *)
Definition valid_user_id (value : string) : bool :=
  if (len value =? 0) || (128 <? len value) then false
  else forallb user_id_rune (runes value).

(** [Envelope.Validate]. *)
Definition validate (e : Envelope) : result event_error unit :=
  if bool_decide (env_Schema e ≠ Schema) then Err UnsupportedSchema
  else if negb (env_Version e =? Version) then Err UnsupportedVersion
  else if bool_decide (env_EventID e = "")
          || bool_decide (env_EventID e ≠ trim_space (env_EventID e)) then Err BadEventID
  else if maxEventIDRunes <? Z.of_nat (length (runes (env_EventID e))) then Err EventIDTooLong
  else if is_zero (env_Timestamp e) then Err TimestampRequired
  else if bool_decide (t_loc (env_Timestamp e) ≠ UTC) then Err TimestampNotUTC
  else match normalize_room (env_Room e) with
  | Err err => Err (InvalidRoom err)
  | Ok room =>
    if bool_decide (room ≠ env_Room e) then Err RoomNotCanonical
    else match normalize_token (env_OriginInstance e) with
    | Err err => Err (InvalidOrigin err)
    | Ok originInstance =>
      let m := env_Message e in
      if bool_decide (originInstance ≠ env_OriginInstance e) then Err OriginNotCanonical
      else if em_ID m <=? 0 then Err BadMessageID
      else if bool_decide (em_UserID m ≠ "")
              && (negb (valid_user_id (em_UserID m))
                  || bool_decide (em_UserID m ≠ trim_space (em_UserID m))) then Err BadUserID
      else if bool_decide (trim_space (em_Username m) = "") then Err UsernameRequired
      else if bool_decide (em_Content m = "") then Err ContentRequired
      else if bool_decide (em_Type m = "") || bool_decide (em_Type m = "username")
      then Err TypeNotDurable
      else Ok tt
    end
  end.

(** [events.New]. *)
Definition new_event (eventID room originInstance : string) (message : EventMessage)
    (timestamp : time) : result event_error Envelope :=
  let envelope := mk_envelope Schema Version eventID room originInstance (utc timestamp) message in
  try _ := validate envelope in Ok envelope.

Inductive channel_error := ChannelNamespace (e : token_error) | ChannelRoom (e : room_error).

(** [events.Channel], [events.ChannelPattern] and [events.ValidateInstanceID]. *)
Definition channel (namespace room : string) : result channel_error string :=
  match normalize_token namespace with
  | Err e => Err (ChannelNamespace e)
  | Ok namespace =>
    match normalize_room room with
    | Err e => Err (ChannelRoom e)
    | Ok room => Ok ("chatster:v1:" +:+ namespace +:+ ":room:" +:+ room)
    end
  end.

Definition channel_pattern (namespace : string) : result token_error string :=
  try namespace := normalize_token namespace in
  Ok ("chatster:v1:" +:+ namespace +:+ ":room:*").

Definition validate_instance_id (instanceID : string) : result token_error unit :=
  try _ := normalize_token instanceID in Ok tt.

(** ** Tokens *)

(** A canonical token: 1 to 64 bytes of the room alphabet. *)
Definition canonical_token (s : string) : bool :=
  negb (len s =? 0) && (len s <=? maxTokenRunes) && forallb room_char (bytes s).

Lemma check_token_runes_ok rs :
  check_token_runes rs = Ok tt ↔ forallb room_char rs = true.
Proof.
  induction rs as [|r rs IH]; [done|]. cbn [check_token_runes forallb].
  unfold room_char at 1, isLetter, isDigit. case_match; [rewrite IH|]; split; intros; (done || lia).
Qed.

Lemma len_zero s : len s = 0 ↔ s = "".
Proof. destruct s; unfold len; simpl; split; intros; (done || lia). Qed.

Lemma canonical_token_spec v :
  normalize_token v = Ok v ↔ canonical_token v = true.
Proof.
  unfold canonical_token. split.
  - unfold normalize_token. case_decide as He; [done|]. case_match eqn:Hl; [done|].
    destruct (check_token_runes _) as [[]|] eqn:Hc; [|done]. intros [= Hv].
    rewrite Hv in *. apply check_token_runes_ok in Hc. pose proof (room_runes_bytes v Hc) as Hb.
    rewrite Hb, Hc. rewrite len_bytes, Hb. destruct (runes v) eqn:Hr; [by apply runes_empty in Hr|].
    simpl in *. lia.
  - intros H. unbool. assert (Hr : runes v = bytes v) by by apply runes_ascii, room_chars_ascii.
    unfold normalize_token. rewrite room_trim_lower by by rewrite Hr.
    case_decide as He; [by rewrite He in *|]. rewrite Hr. rewrite len_bytes in *.
    destruct (maxTokenRunes <? _) eqn:Hl; [lia|].
    by rewrite (proj2 (check_token_runes_ok (bytes v))).
Qed.

Lemma normalize_token_canonical v t :
  normalize_token v = Ok t → canonical_token t = true.
Proof.
  intros H. apply canonical_token_spec. revert H. unfold normalize_token at 1.
  case_decide as He; [done|]. case_match eqn:Hl; [done|].
  destruct (check_token_runes _) as [[]|] eqn:Hc; [|done]. intros [= <-].
  set (s := to_lower (trim_space v)) in *. unfold normalize_token.
  rewrite room_trim_lower by by apply check_token_runes_ok.
  rewrite decide_False by done. by rewrite Hl, Hc.
Qed.

Lemma canonical_token_no_colon s : canonical_token s = true → chr ":" ∉ bytes s.
Proof.
  unfold canonical_token. intros H Hin. unbool.
  rewrite forallb_forall in *. apply list_elem_of_In in Hin.
  specialize (H0 _ Hin). done.
Qed.

(** A separator-free prefix is determined by the whole. *)
Lemma app_sep_inj (x : Z) a a' b b' :
  x ∉ a → x ∉ a' → a ++ x :: b = a' ++ x :: b' → a = a' ∧ b = b'.
Proof.
  rewrite !list_elem_of_In.
  revert a'. induction a as [|y a IH]; intros [|y' a'] Ha Ha' H; simpl in *; simplify_eq;
    [done|by destruct Ha'; left|by destruct Ha; left|].
  match goal with H : _ ++ _ = _ |- _ => apply IH in H as [-> ->]; auto end.
Qed.

(** ** Properties *)

(** What a well-formed envelope is, as a proposition. *)
Definition well_formed (e : Envelope) : Prop :=
  env_Schema e = Schema ∧ env_Version e = Version
  ∧ env_EventID e ≠ "" ∧ env_EventID e = trim_space (env_EventID e)
  ∧ rune_count (env_EventID e) <= maxEventIDRunes
  ∧ t_ns (env_Timestamp e) ≠ 0 ∧ t_loc (env_Timestamp e) = UTC
  ∧ canonical_room (env_Room e) = true
  ∧ canonical_token (env_OriginInstance e) = true
  ∧ 0 < em_ID (env_Message e)
  ∧ (em_UserID (env_Message e) = ""
     ∨ valid_user_id (em_UserID (env_Message e)) = true
       ∧ em_UserID (env_Message e) = trim_space (em_UserID (env_Message e)))
  ∧ trim_space (em_Username (env_Message e)) ≠ ""
  ∧ em_Content (env_Message e) ≠ ""
  ∧ em_Type (env_Message e) ≠ "" ∧ em_Type (env_Message e) ≠ "username".

Lemma validate_iff e : validate e = Ok tt ↔ well_formed e.
Proof.
  unfold well_formed, rune_count, validate, is_zero.
  rewrite <- canonical_room_iff, <- canonical_token_spec.
  rewrite !if_err_ok. rewrite match_canonical_ok. rewrite match_canonical_ok.
  rewrite !if_err_ok. rewrite !orb_false_iff, !andb_false_iff, !orb_false_iff.
  rewrite !bool_decide_neq_false, !bool_decide_eq_false, !negb_false_iff.
  rewrite !(Z.eqb_eq (env_Version e)), Z.eqb_neq, Z.ltb_ge, Z.leb_gt.
  intuition.
Qed.

Lemma new_event_ok eventID room origin message ts e :
  new_event eventID room origin message ts = Ok e →
  well_formed e ∧ e = mk_envelope Schema Version eventID room origin (utc ts) message.
Proof.
  unfold new_event. set (v := mk_envelope _ _ _ _ _ _ _).
  destruct (validate v) as [[]|] eqn:Hv; [|done]. intros [= <-].
  split; [by apply validate_iff|done].
Qed.

Lemma channel_ok namespace room c :
  channel namespace room = Ok c →
  ∃ ns r, normalize_token namespace = Ok ns ∧ normalize_room room = Ok r
    ∧ canonical_token ns = true
    ∧ bytes c = bytes "chatster:v1:" ++ bytes ns ++ chr ":" :: bytes "room:" ++ bytes r.
Proof.
  unfold channel. destruct (normalize_token namespace) as [ns|] eqn:Hns; [|done].
  destruct (normalize_room room) as [r|] eqn:Hr; [|done]. intros [= <-].
  exists ns, r. split_and!; [done..|by eapply normalize_token_canonical|].
  by rewrite !bytes_app.
Qed.

(** Of a name that is trimmed and lower-cased beforehand, the token is that name. *)
Lemma normalize_token_lowered raw t :
  normalize_token (to_lower (trim_space raw)) = Ok t → t = to_lower (trim_space raw).
Proof.
  unfold normalize_token. case_decide as He; [done|]. case_match eqn:Hl; [done|].
  destruct (check_token_runes _) as [[]|] eqn:Hc; [|done]. intros [= <-].
  set (u := trim_space raw) in *. assert (Ht : trim_space (to_lower u) = to_lower u).
  { apply trim_space_lower, trim_space_idemp. }
  rewrite Ht in *. clear He Hl. apply check_token_runes_ok in Hc. rewrite !runes_to_lower in Hc.
  unfold to_lower at 1 3. rewrite runes_to_lower. f_equal.
  assert (Hr : ∀ r, r ∈ runes u → rune_lower (rune_lower r) = rune_lower r).
  { intros r Hr. apply rune_lower_lower_ascii. rewrite forallb_forall in Hc.
    specialize (Hc (rune_lower (rune_lower r))). apply room_char_ascii in Hc as [? _]; [lia|].
    apply list_elem_of_In. do 2 apply list_elem_of_fmap_2. done. }
  rewrite <- list_fmap_compose. apply list_fmap_ext. intros i r Hi. apply Hr.
  by eapply list_elem_of_lookup_2.
Qed.

(** Two channels are equal only if both normalised names are, so a publisher of
    one namespace cannot reach the subscribers of another. *)
Lemma channel_same ns1 room1 ns2 room2 c :
  channel ns1 room1 = Ok c → channel ns2 room2 = Ok c →
  normalize_token ns1 = normalize_token ns2 ∧ normalize_room room1 = normalize_room room2.
Proof.
  intros (n1&r1&Hn1&Hr1&Hc1&Hb1)%channel_ok (n2&r2&Hn2&Hr2&Hc2&Hb2)%channel_ok.
  rewrite Hb1 in Hb2. apply app_inv_head in Hb2.
  apply app_sep_inj in Hb2 as [Hn Hr]; [|by apply canonical_token_no_colon..].
  apply app_inv_head in Hr. apply bytes_inj in Hn, Hr. subst. by rewrite Hn1, Hn2, Hr1, Hr2.
Qed.

(** [Validate] accepts exactly the well-formed envelopes: every field rule
    of the contract is enforced and nothing else is rejected. *)
Theorem validate_exact e : validate e = Ok tt ↔ well_formed e.
Proof. apply validate_iff. Qed.
