(* ===== verification/Storage.v ===== *)
(** The storage boundary ([db/repository.go]): records, the [Repository]
    interface, the SQL operators both backends use, and the history contract
    the HTTP history endpoint relies on. *)
From S2P Require Import Prelude.
From S2P Require Import GoUnicode.
From S2P Require Import GoString.
From S2P Require Import GoTime.
From S2P Require Import Rooms.
Open Scope Z_scope.

(** [db.Message] *)
Record Message := mk_message {
  row_ID : Z;
  row_UserID : string;
  row_Username : string;
  row_Content : string;
  row_Type : string;
  row_Room : string;
  row_Timestamp : time
}.

(** [db.ModerationEvent] *)
Record ModerationEvent := mk_moderation_event {
  me_ID : Z;
  me_SessionID : string;
  me_UserID : string;
  me_Username : string;
  me_Reason : string;
  me_ContentPreview : string;
  me_ContentLength : Z;
  me_Timestamp : time
}.

#[export] Instance message_eq_dec : EqDecision Message.
Proof. solve_decision. Defined.

Inductive db_error := InvalidRoomName (e : room_error) | DriverError.

#[export] Instance db_error_eq_dec : EqDecision db_error.
Proof. solve_decision. Defined.

(** ** Calls

    The outside world of one repository call: the clocks, and the driver call
    that fails, if any, counted from 0 in program order (a cancelled context is
    such a failure).  A failing statement may still have taken effect. *)
Inductive fault_effect := NoEffect | SequenceOnly | Applied.

Record call := mk_call {
  c_now : time;               (* time.Now() *)
  c_server_now : Z;           (* CURRENT_TIMESTAMP of the database server *)
  c_fault : option nat;
  c_effect : fault_effect
}.

Definition fails (c : call) (k : nat) : bool := bool_decide (c_fault c = Some k).

(** A call during which no driver call fails. *)
Definition healthy (c : call) : Prop := c_fault c = None.

Lemma healthy_fails c k : healthy c → fails c k = false.
Proof. unfold healthy, fails. intros ->. done. Qed.

(** ** The interface: [Repository] *)
Class Repository (S : Type) := {
  SaveMessageForUserInRoomContext :
    call → S → string → string → string → string → string → result db_error Message * S;
  GetRecentMessagesInRoomContext : call → S → string → Z → result db_error (list Message);
  GetMessagesBeforeInRoomContext :
    call → S → string → time → Z → Z → result db_error (list Message);
  SaveModerationEventForUserContext :
    call → S → string → string → string → string → string → result db_error ModerationEvent * S;
  PruneMessagesBeforeContext : call → S → time → result db_error Z * S;
  PruneModerationEventsBeforeContext : call → S → time → result db_error Z * S;
  PingContext : call → S → bool
}.

(** The calls of the interface that write, and a sequence of them, each with
    its own outside world. *)
Inductive write :=
| WSave (room user name content ty : string)
| WSaveAudit (sid user name reason content : string)
| WPrune (cutoff : time)
| WPruneAudit (cutoff : time).

Section derived.
Context {S : Type} `{Repository S}.

Definition run_write (c : call) (s : S) (w : write) : S :=
  match w with
  | WSave room user name content ty =>
    (SaveMessageForUserInRoomContext c s room user name content ty).2
  | WSaveAudit sid user name reason content =>
    (SaveModerationEventForUserContext c s sid user name reason content).2
  | WPrune cutoff => (PruneMessagesBeforeContext c s cutoff).2
  | WPruneAudit cutoff => (PruneModerationEventsBeforeContext c s cutoff).2
  end.

Definition run_writes (s : S) (ws : list (call * write)) : S :=
  foldl (λ s cw, run_write cw.1 s cw.2) s ws.

(** An invariant of single writes is one of sequences. *)
Lemma run_writes_invariant (I : S → Prop) (ok : call → Prop) s ws :
  (∀ c s w, ok c → I s → I (run_write c s w)) →
  Forall (λ cw, ok cw.1) ws → I s → I (run_writes s ws).
Proof.
  intros Hstep Hws. revert s. induction Hws as [|[c w] ws Hc Hws IH]; intros s Hs; [done|].
  by apply IH, Hstep.
Qed.

(** The room-only and anonymous variants of the interface. *)
Definition SaveMessageInRoomContext (c : call) (s : S) (room username content msgType : string) :=
  SaveMessageForUserInRoomContext c s room "" username content msgType.
Definition SaveModerationEventContext (c : call) (s : S) (sessionID username reason content : string) :=
  SaveModerationEventForUserContext c s sessionID "" username reason content.

(** The methods without a context pass a background one, which is never
    cancelled; those without a room use [DefaultRoom].  They are the same in both
    backends. *)
Definition SaveMessageInRoom (c : call) (s : S) (room username content msgType : string) :=
  SaveMessageInRoomContext c s room username content msgType.
Definition SaveMessage (c : call) (s : S) (username content msgType : string) :=
  SaveMessageInRoom c s DefaultRoom username content msgType.
Definition SaveModerationEvent (c : call) (s : S) (sessionID username reason content : string) :=
  SaveModerationEventContext c s sessionID username reason content.
Definition GetRecentMessagesInRoom (c : call) (s : S) (room : string) (limit : Z) :=
  GetRecentMessagesInRoomContext c s room limit.
Definition GetRecentMessages (c : call) (s : S) (limit : Z) :=
  GetRecentMessagesInRoom c s DefaultRoom limit.
Definition PruneMessagesBefore (c : call) (s : S) (cutoff : time) :=
  PruneMessagesBeforeContext c s cutoff.
Definition PruneModerationEventsBefore (c : call) (s : S) (cutoff : time) :=
  PruneModerationEventsBeforeContext c s cutoff.
End derived.

Definition maxAuditPreviewRunes : Z := 256.
Definition max_int64 : Z := 2 ^ 63 - 1.

(** ** SQL operators *)

(** Comparisons with NULL are not true. *)
Definition sql_lt (a b : option Z) : bool :=
  match a, b with Some x, Some y => x <? y | _, _ => false end.
Definition sql_eq (a b : option Z) : bool :=
  match a, b with Some x, Some y => x =? y | _, _ => false end.

(** NULL sorts below every value. *)
Definition order_ltb (a b : option Z) : bool :=
  match a, b with
  | Some x, Some y => x <? y
  | None, Some _ => true
  | _, None => false
  end.

Section order.
Context {A : Type} (rank : A → option Z) (id : A → Z).

(** [ORDER BY rank DESC, id DESC] *)
Definition desc_leb (a b : A) : bool :=
  order_ltb (rank b) (rank a) || (negb (order_ltb (rank a) (rank b)) && (id b <=? id a)).
Definition desc (a b : A) : Prop := desc_leb a b = true.
#[export] Instance desc_dec a b : Decision (desc a b).
Proof. unfold desc. apply _. Defined.
Definition order_by_desc (rows : list A) : list A := merge_sort desc rows.

(** [WHERE ... AND (rank < r OR (rank = r AND id < i))] *)
Definition older_than (r : option Z) (i : Z) (a : A) : bool :=
  sql_lt (rank a) r || (sql_eq (rank a) r && (id a <? i)).

(** The strict order of rows whose rank is not NULL. *)
Definition row_lt (a b : A) : Prop := order_ltb (rank a) (rank b) = true
  ∨ (rank a = rank b ∧ id a < id b).

#[export] Instance desc_total : Total desc.
Proof.
  intros a b. unfold desc, desc_leb, order_ltb.
  destruct (rank a), (rank b); simpl; lia.
Qed.

#[export] Instance desc_trans : Transitive desc.
Proof.
  intros a b c. unfold desc, desc_leb, order_ltb.
  destruct (rank a), (rank b), (rank c); simpl; try done; lia.
Qed.

Lemma order_by_desc_perm rows : order_by_desc rows ≡ₚ rows.
Proof. apply merge_sort_Permutation. Qed.

Lemma order_by_desc_sorted rows : StronglySorted desc (order_by_desc rows).
Proof. apply StronglySorted_merge_sort; apply _. Qed.

Lemma desc_row_lt a b : desc a b → id a ≠ id b → row_lt b a.
Proof.
  unfold desc, desc_leb, row_lt, order_ltb.
  destruct (rank a) as [x|], (rank b) as [y|]; simpl; intros Hd Hne; try done.
  - destruct (decide (x = y)) as [->|]; [right; split; [done|lia]|left; lia].
  - by left.
  - right. split; [done|lia].
Qed.

#[export] Instance row_lt_trans : Transitive row_lt.
Proof.
  intros a b c. unfold row_lt, order_ltb.
  destruct (rank a), (rank b), (rank c); intros; destruct_or!; destruct_and?; simplify_eq;
    try done; try (left; lia); try (right; split; [done|lia]); left; done.
Qed.

Lemma row_lt_irrefl a : ¬ row_lt a a.
Proof. unfold row_lt, order_ltb. destruct (rank a); lia. Qed.

(** Ascending order: the reversed result set. *)
Lemma order_by_asc_sorted rows :
  NoDup (id <$> rows) → StronglySorted row_lt (reverse (order_by_desc rows)).
Proof.
  intros Hnd.
  assert (Hnd' : NoDup (id <$> order_by_desc rows)) by by rewrite order_by_desc_perm.
  pose proof (order_by_desc_sorted rows) as Hs. revert Hnd' Hs. clear Hnd.
  generalize (order_by_desc rows). clear rows. intros l Hnd' Hs.
  induction Hs as [|a l Hl IH Ha]; [rewrite reverse_nil; constructor|].
  rewrite reverse_cons. csimpl in Hnd'. apply NoDup_cons in Hnd' as [Hni Hnd'].
  apply StronglySorted_app_2; [|by apply IH|by repeat constructor].
  intros x y Hx Hy%list_elem_of_singleton. rewrite elem_of_reverse in Hx. subst y.
  rewrite Forall_forall in Ha. apply desc_row_lt; [by apply Ha|].
  intros Heq. apply Hni. apply list_elem_of_fmap. eauto.
Qed.

#[export] Instance row_lt_antisymm : AntiSymm (=) row_lt.
Proof. intros a b H1 H2. destruct (row_lt_irrefl a). by transitivity b. Qed.

(** A [WHERE] clause and [ORDER BY] commute. *)
Lemma order_by_asc_filter (p : A → bool) rows :
  NoDup (id <$> rows) →
  reverse (order_by_desc (List.filter p rows))
  = List.filter p (reverse (order_by_desc rows)).
Proof.
  intros Hnd. apply (StronglySorted_unique row_lt).
  - by apply order_by_asc_sorted, NoDup_fmap_filter_bool.
  - by apply StronglySorted_filter_bool, order_by_asc_sorted.
  - rewrite !filter_bool, !reverse_Permutation, !order_by_desc_perm. done.
Qed.
End order.

(** [LIMIT n]; SQLite reads a negative limit as none. *)
Definition sqlite_limit {A} (n : Z) (rows : list A) : list A :=
  if n <? 0 then rows else take (Z.to_nat n) rows.

(** The loop [for i, j := 0, len-1; i < j; ...] that restores chronological
    order. *)
Definition chronological {A} (rows : list A) : list A := reverse rows.

(** ** The history contract

    What a backend promises to the history endpoint.  [history s room] is the
    abstract state: the durable messages of a room, oldest first. *)

Section contract_terms.
Context (rank : time → Z).

Definition msg_lt (a b : Message) : Prop :=
  rank (row_Timestamp a) < rank (row_Timestamp b)
  ∨ (rank (row_Timestamp a) = rank (row_Timestamp b) ∧ row_ID a < row_ID b).

(** Strictly older than the cursor [(t, i)]. *)
Definition msg_before (t : time) (i : Z) (m : Message) : bool :=
  (rank (row_Timestamp m) <? rank t)
  || ((rank (row_Timestamp m) =? rank t) && (row_ID m <? i)).
End contract_terms.

(** ** Reading a result set *)
Section reads.
Context {R : Type} (decode : R → Message).
Implicit Types (c : call) (rows : list R).

(** The loop over the result set: [Scan] of row [k] is driver call [k]. *)
Fixpoint scan_rows (c : call) (k : nat) (rows : list R) : result db_error (list Message) :=
  match rows with
  | [] => Ok []
  | r :: rows =>
    if fails c k then Err DriverError
    else try messages := scan_rows c (S k) rows in Ok (decode r :: messages)
  end.

(** Query (call 0), scan, reverse, [rows.Err] (the call behind the last row). *)
Definition read_messages (c : call) (rows : list R) : result db_error (list Message) :=
  if fails c 0 then Err DriverError
  else
    try messages := scan_rows c 1 rows in
    let messages := chronological messages in
    if fails c (S (length rows)) then Err DriverError else Ok messages.


Lemma scan_rows_ok c k rows ms :
  scan_rows c k rows = Ok ms ↔
  ms = decode <$> rows ∧ ∀ i, (k <= i < k + length rows)%nat → fails c i = false.
Proof.
  revert k ms. induction rows as [|r rows IH]; intros k ms; csimpl.
  { split; [intros [= <-]; split; [done|lia]|by intros [-> _]]. }
  destruct (fails c k) eqn:Hk.
  { split; [done|]. intros [_ Hf]. specialize (Hf k ltac:(lia)). congruence. }
  destruct (scan_rows c (S k) rows) as [ms'|e] eqn:Hs; simpl.
  - apply IH in Hs as [-> Hf]. split.
    + intros [= <-]. split; [done|]. intros i Hi.
      destruct (decide (i = k)) as [->|]; [done|apply Hf; lia].
    + by intros [-> _].
  - split; [done|]. intros [-> Hf].
    assert (scan_rows c (S k) rows = Ok (decode <$> rows)) as Hok; [|congruence].
    apply IH. split; [done|]. intros i Hi. apply Hf. lia.
Qed.

Lemma read_messages_ok c rows ms :
  read_messages c rows = Ok ms ↔
  ms = decode <$> reverse rows
  ∧ ∀ i, (i <= S (length rows))%nat → fails c i = false.
Proof.
  unfold read_messages, chronological. rewrite if_err_ok, fmap_reverse.
  destruct (scan_rows c 1 rows) as [ms'|e] eqn:Hs.
  - apply scan_rows_ok in Hs as [-> Hf]. rewrite if_err_ok. split.
    + intros (H0&Hl&[= <-]). split; [done|]. intros i Hi.
      destruct i as [|i]; [done|].
      destruct (decide (i = length rows)) as [->|]; [done|]. apply Hf. lia.
    + intros [-> Hall]. split; [|split]; [apply Hall; lia..|done].
  - split; [by intros [_ ?]|]. intros [-> Hall].
    assert (scan_rows c 1 rows = Ok (decode <$> rows)) as Hok; [|congruence].
    apply scan_rows_ok. split; [done|]. intros i Hi. apply Hall. lia.
Qed.

Lemma read_messages_error c rows e : read_messages c rows ≠ Err (InvalidRoomName e).
Proof.
  unfold read_messages. case_match; [done|]. destruct (scan_rows c 1 rows) eqn:Hs.
  - by case_match.
  - intros [= ->]. revert Hs. generalize 1%nat. induction rows as [|r rows IH]; intros k; csimpl;
      [done|]. case_match; [done|]. destruct (scan_rows c (S k) rows) eqn:Hs; [done|].
    intros [= ->]. by eapply IH.
Qed.

Lemma read_messages_healthy c rows :
  healthy c → read_messages c rows = Ok (decode <$> reverse rows).
Proof. intros Hc. apply read_messages_ok. split; [done|]. intros. by apply healthy_fails. Qed.
End reads.

(** ** Message tables

    What both backends' SELECT statements compute, for any row type. *)
Section table.
Context {R : Type} (id : R → Z) (room : R → string) (rank : R → option Z).
Context (key : time → Z) (decode : R → Message).
Implicit Types (rows : list R).

Definition in_room (rm : string) (r : R) : bool := bool_decide (room r = rm).

(** The rows of a room, oldest first, and the messages they hold. *)
Definition room_rows (rows : list R) (rm : string) : list R :=
  reverse (order_by_desc rank id (List.filter (in_room rm) rows)).
Definition table_history (rows : list R) (rm : string) : list Message :=
  decode <$> room_rows rows rm.

(** The row holds a message whose timestamp ranks as the SQL value does. *)
Definition row_ok (r : R) : Prop :=
  rank r = Some (key (row_Timestamp (decode r))) ∧ row_ID (decode r) = id r
  ∧ row_Room (decode r) = room r.
Definition rows_ok (rows : list R) : Prop := NoDup (id <$> rows) ∧ ∀ r, r ∈ rows → row_ok r.

Lemma elem_of_room_rows rows rm r : r ∈ room_rows rows rm ↔ r ∈ rows ∧ room r = rm.
Proof.
  unfold room_rows. rewrite elem_of_reverse, order_by_desc_perm, elem_of_filter_bool.
  unfold in_room. rewrite bool_decide_eq_true. tauto.
Qed.

Lemma elem_of_table_history rows rm m :
  rows_ok rows → m ∈ table_history rows rm →
  ∃ r, r ∈ rows ∧ m = decode r ∧ row_Room m = rm ∧ row_ID m = id r.
Proof.
  intros [_ Hok] (r & -> & [Hr <-]%elem_of_room_rows)%list_elem_of_fmap.
  destruct (Hok r Hr) as (_&?&?). eauto.
Qed.

Lemma row_lt_msg a b :
  row_ok a → row_ok b → row_lt rank id a b → msg_lt key (decode a) (decode b).
Proof.
  intros (Ha&Ia&_) (Hb&Ib&_). unfold row_lt, msg_lt. rewrite Ha, Hb, Ia, Ib. simpl.
  intros [?|[? ?]]; simplify_eq; [left; lia|right; split; [congruence|done]].
Qed.

Lemma table_history_sorted rows rm :
  rows_ok rows → StronglySorted (msg_lt key) (table_history rows rm).
Proof.
  intros [Hnd Hok]. apply (StronglySorted_fmap_in (row_lt rank id)).
  - intros a b [Ha _]%elem_of_room_rows [Hb _]%elem_of_room_rows. apply row_lt_msg; auto.
  - by apply order_by_asc_sorted, NoDup_fmap_filter_bool.
Qed.

(** A page without and with a cursor, reversed into chronological order. *)
Lemma table_recent rows rm n :
  decode <$> reverse (take n (order_by_desc rank id (List.filter (in_room rm) rows)))
  = last_n n (table_history rows rm).
Proof. unfold table_history. by rewrite last_n_fmap, reverse_take_last. Qed.

Lemma older_than_msg t i r :
  row_ok r → older_than rank id (Some (key t)) i r = msg_before key t i (decode r).
Proof. intros (Hr&Hi&_). unfold older_than, msg_before. by rewrite Hr, Hi. Qed.

Lemma table_before rows rm t i n :
  rows_ok rows →
  decode <$> reverse (take n (order_by_desc rank id
    (List.filter (λ r, in_room rm r && older_than rank id (Some (key t)) i r) rows)))
  = last_n n (List.filter (msg_before key t i) (table_history rows rm)).
Proof.
  intros [Hnd Hok]. unfold table_history. rewrite filter_fmap, last_n_fmap, reverse_take_last.
  do 2 f_equal. rewrite <- filter_filter_bool, order_by_asc_filter
    by by apply NoDup_fmap_filter_bool.
  apply filter_ext_elem. intros r [Hr _]%elem_of_room_rows. by apply older_than_msg, Hok.
Qed.

(** The history after an insert and after a delete. *)
Lemma table_insert_same rows r :
  table_history (rows ++ [r]) (room r) ≡ₚ decode r :: table_history rows (room r).
Proof.
  unfold table_history, room_rows.
  rewrite !reverse_Permutation, !order_by_desc_perm, List.filter_app, fmap_app. cbn [List.filter].
  unfold in_room at 2. rewrite bool_decide_true by done. csimpl. by rewrite Permutation_app_comm.
Qed.

Lemma table_insert_other rows r rm :
  rm ≠ room r → table_history (rows ++ [r]) rm = table_history rows rm.
Proof.
  intros Hne. unfold table_history, room_rows. rewrite List.filter_app. cbn [List.filter].
  unfold in_room at 2. rewrite bool_decide_false by congruence. by rewrite app_nil_r.
Qed.

Lemma table_delete (keep : R → bool) (keep_msg : Message → bool) rows rm :
  rows_ok rows → (∀ r, r ∈ rows → keep r = keep_msg (decode r)) →
  table_history (List.filter keep rows) rm = List.filter keep_msg (table_history rows rm).
Proof.
  intros [Hnd _] Hk. unfold table_history, room_rows.
  rewrite filter_comm_bool, order_by_asc_filter by by apply NoDup_fmap_filter_bool.
  fold (room_rows rows rm). rewrite filter_fmap. f_equal.
  apply filter_ext_elem. intros r [Hr _]%elem_of_room_rows. by apply Hk.
Qed.

Lemma rows_ok_snoc rows r :
  rows_ok rows → row_ok r → (∀ x, x ∈ rows → id x ≠ id r) → rows_ok (rows ++ [r]).
Proof.
  intros [Hnd Hok] Hr Hfresh. split.
  - rewrite fmap_app. apply NoDup_app. split; [done|]. split; [|by repeat constructor; set_solver].
    intros i (x & -> & Hx)%list_elem_of_fmap. csimpl. rewrite list_elem_of_singleton. by apply Hfresh.
  - intros x [Hx| ->%list_elem_of_singleton]%elem_of_app; auto.
Qed.

Lemma rows_ok_filter (keep : R → bool) rows : rows_ok rows → rows_ok (List.filter keep rows).
Proof.
  intros [Hnd Hok]. split; [by apply NoDup_fmap_filter_bool|].
  intros x [_ Hx]%elem_of_filter_bool. auto.
Qed.
End table.

Class HistoryContract (S : Type) `{Repository S} := {
  hist_rank : time → Z;                   (* the order key of a timestamp *)
  hist_time : time → Prop;                (* the timestamps the backend can hold *)
  hist_wf : S → Prop;                     (* the invariant of the stored rows *)
  (* an insert finds a fresh id, a valid clock and values the backend can store *)
  hist_can_save : call → S → string → string → string → string → Prop;
  history : S → string → list Message;

  hist_sorted s room : hist_wf s → StronglySorted (msg_lt hist_rank) (history s room);
  hist_elem s room m :
    hist_wf s → m ∈ history s room →
    hist_time (row_Timestamp m) ∧ row_Room m = room ∧ 1 <= row_ID m <= max_int64;
  hist_time_year t : hist_time t → 0 <= year t <= 9999;
  hist_utc t : hist_rank (utc t) = hist_rank t ∧ (hist_time t → hist_time (utc t));
  hist_recent c s room r n :
    healthy c → hist_wf s → normalize_room room = Ok r → 0 <= n →
    GetRecentMessagesInRoomContext c s room n = Ok (last_n (Z.to_nat n) (history s r));
  hist_before c s room r t i n :
    healthy c → hist_wf s → normalize_room room = Ok r → hist_time t → 0 <= n →
    GetMessagesBeforeInRoomContext c s room t i n
    = Ok (last_n (Z.to_nat n) (List.filter (msg_before hist_rank t i) (history s r)));
  hist_save c s room r user name content ty :
    healthy c → hist_wf s → hist_can_save c s user name content ty → normalize_room room = Ok r → ty ≠ "username" →
    ∃ m s', SaveMessageForUserInRoomContext c s room user name content ty = (Ok m, s')
      ∧ hist_wf s'
      ∧ (row_Room m = r ∧ row_UserID m = user ∧ row_Username m = name
         ∧ row_Content m = content ∧ row_Type m = ty)
      ∧ history s' r ≡ₚ m :: history s r
      ∧ (∀ m', m' ∈ history s r → row_ID m' < row_ID m)
      ∧ ∀ r', r' ≠ r → history s' r' = history s r'
}.

(** Read your writes: what [SaveMessage] returned is in a page of the default
    room that is long enough, beside what was there, and in no other room. *)
Lemma saved_message_is_recent {S} `{HistoryContract S} c c' s name content ty n :
  healthy c → healthy c' → hist_wf s → hist_can_save c s "" name content ty → ty ≠ "username" →
  Z.of_nat (length (history s DefaultRoom)) < n →
  ∃ m s' page, SaveMessage c s name content ty = (Ok m, s')
    ∧ GetRecentMessages c' s' n = Ok page
    ∧ page ≡ₚ m :: history s DefaultRoom
    ∧ ∀ r, r ≠ DefaultRoom → history s' r = history s r.
Proof.
  intros Hc Hc' Hwf Hsave Hty Hn.
  destruct (hist_save c s DefaultRoom DefaultRoom "" name content ty) as
    (m&s'&E&Hwf'&_&Hperm&_&Hother); [done..|].
  exists m, s', (history s' DefaultRoom). split_and!; [done| |done|done].
  unfold GetRecentMessages, GetRecentMessagesInRoom.
  rewrite (hist_recent _ _ _ DefaultRoom) by (done || lia). f_equal. apply last_n_all.
  apply Permutation_length in Hperm. simpl in Hperm. lia.
Qed.

(** A backend whose reads never return a message of another room, whatever
    fails. *)
Class RoomScoped (S : Type) `{Repository S} := {
  recent_room c s room r n ms :
    normalize_room room = Ok r → GetRecentMessagesInRoomContext c s room n = Ok ms →
    Forall (λ m, row_Room m = r) ms;
  before_room c s room r t i n ms :
    normalize_room room = Ok r → GetMessagesBeforeInRoomContext c s room t i n = Ok ms →
    Forall (λ m, row_Room m = r) ms
}.

Lemma read_messages_room {R} (room : R → string) (decode : R → Message) rm c rows ms :
  (∀ r, row_Room (decode r) = room r) → Forall (λ r, room r = rm) rows →
  read_messages decode c rows = Ok ms → Forall (λ m, row_Room m = rm) ms.
Proof.
  intros Hd Hrows [-> _]%read_messages_ok. rewrite Forall_fmap, Forall_reverse.
  eapply Forall_impl; [done|]. intros r Hr. simpl. congruence.
Qed.

Lemma in_room_rows {R} (room : R → string) (id : R → Z) rank rm (p : R → bool) rows :
  (∀ r, p r = true → in_room room rm r = true) →
  Forall (λ r, room r = rm) (order_by_desc rank id (List.filter p rows)).
Proof.
  intros Hp. rewrite order_by_desc_perm, Forall_forall. intros r [Hr _]%elem_of_filter_bool.
  by apply Hp, bool_decide_eq_true in Hr.
Qed.
