(* ===== verification/Cursor.v ===== *)
(** History cursors ([history_cursor.go]): the opaque page tokens of the HTTP
    history endpoint.  A cursor is the JSON text of its four fields in
    unpadded URL-safe base64; decoding accepts canonical rooms, positive ids and
    non-zero times only.  [zone] is the process time zone, which the decoder of
    [time.Time] consults. *)
From S2P Require Import Prelude.
From S2P Require Import GoUnicode.
From S2P Require Import GoString.
From S2P Require Import GoTime.
From S2P Require Import Base64.
From S2P Require Import Json.
From S2P Require Import Rooms.
From S2P Require Import Storage.
Open Scope Z_scope.

Definition historyCursorVersion : Z := 1.
Definition maxHistoryCursorSize : Z := 512.

(** [historyCursor] *)
Record historyCursor := mk_cursor {
  cur_Version : Z; cur_Room : string; cur_Timestamp : time; cur_ID : Z
}.

#[export] Instance history_cursor_eq_dec : EqDecision historyCursor.
Proof. solve_decision. Defined.

Definition zero_cursor : historyCursor := mk_cursor 0 "" zero_time 0.

Definition cursor_names : list string := ["v"; "room"; "timestamp"; "id"].

(** [json.Marshal] of a cursor whose time is UTC. *)
Definition marshal_cursor (zone : Z → Z * Z * Z) (c : historyCursor) : option json :=
  timestamp ← marshal_utc_time zone (cur_Timestamp c);
  Some (JObj [(bytes "v", json_int (cur_Version c)); (bytes "room", json_string (cur_Room c));
              (bytes "timestamp", timestamp); (bytes "id", json_int (cur_ID c))]).

(** The fields' decoders. *)
Definition set_cursor_field (zone : Z → Z * Z * Z) (name : string) (v : json) (c : historyCursor) :
    option historyCursor :=
  if bool_decide (name = "v") then
    n ← decode_int64 (cur_Version c) v;
    Some (mk_cursor n (cur_Room c) (cur_Timestamp c) (cur_ID c))
  else if bool_decide (name = "room") then
    s ← decode_string (cur_Room c) v;
    Some (mk_cursor (cur_Version c) s (cur_Timestamp c) (cur_ID c))
  else if bool_decide (name = "timestamp") then
    t ← decode_time zone (cur_Timestamp c) v;
    Some (mk_cursor (cur_Version c) (cur_Room c) t (cur_ID c))
  else
    n ← decode_int64 (cur_ID c) v;
    Some (mk_cursor (cur_Version c) (cur_Room c) (cur_Timestamp c) n).

(** [encodeHistoryCursor]: fails when the year has no four digits. *)
Definition encode_history_cursor (zone : Z → Z * Z * Z) (room : string) (message : Message) :
    option string :=
  payload ← marshal_cursor zone
    (mk_cursor historyCursorVersion room (utc (row_Timestamp message)) (row_ID message));
  Some (of_bytes (base64_encode (print payload))).

(** [decodeHistoryCursor]: every failure is [errInvalidHistoryCursor]. *)
Definition decode_history_cursor (zone : Z → Z * Z * Z) (raw : string) : option historyCursor :=
  if bool_decide (raw = "") || (maxHistoryCursorSize <? len raw) then None
  else
    payload ← base64_decode (bytes raw);
    if bool_decide (payload = []) || (maxHistoryCursorSize <? Z.of_nat (length payload)) then None
    else
      v ← decode_single payload;
      cursor ← decode_struct cursor_names (set_cursor_field zone) zero_cursor v;
      match normalize_room (cur_Room cursor) with
      | Err _ => None
      | Ok room =>
        if bool_decide (room ≠ cur_Room cursor)
           || negb (cur_Version cursor =? historyCursorVersion)
           || (cur_ID cursor <? 1) || is_zero (cur_Timestamp cursor)
        then None
        else Some (mk_cursor (cur_Version cursor) room (utc (cur_Timestamp cursor)) (cur_ID cursor))
      end.

(** [historyCursorRoomMatches] *)
Definition history_cursor_room_matches (cursor : historyCursor) (room : string) : bool :=
  equal_fold (cur_Room cursor) room.

(** ** Facts *)

Lemma canonical_plain room :
  canonical_room room = true → forallb plain_char (bytes room) = true.
Proof.
  intros [_ Hc]%canonical_runes. rewrite forallb_forall in *. intros b Hb. specialize (Hc b Hb).
  unfold room_char, isLetter, isDigit in Hc. unfold plain_char, quote, backslash. lia.
Qed.

Lemma canonical_length room : canonical_room room = true → (length (bytes room) <= 32)%nat.
Proof.
  unfold canonical_room. destruct (bytes room) as [|b t] eqn:Hb; [done|]. rewrite <- Hb.
  intros H. unbool. rewrite len_bytes in *. unfold maxRoomRunes in *. lia.
Qed.

(** The room as the decoder sees it is the room that was encoded. *)
Lemma canonical_string_of_runes room :
  canonical_room room = true → string_of_runes (runes room) = room.
Proof.
  intros H. destruct (canonical_runes room H) as [Hr Hc]. apply string_of_runes_ascii.
  rewrite Hr. by apply room_chars_ascii.
Qed.

Section cursor.
Context (zone : Z → Z * Z * Z).
Implicit Types (c : historyCursor).

(** A cursor the endpoint hands out: canonical room, UTC time of a four-digit
    year, positive id. *)
Definition valid_cursor c : Prop :=
  cur_Version c = historyCursorVersion ∧ canonical_room (cur_Room c) = true
  ∧ is_zero (cur_Timestamp c) = false ∧ t_loc (cur_Timestamp c) = UTC ∧ 1 <= cur_ID c.

Lemma utc_id t : t_loc t = UTC → utc t = t.
Proof. destruct t as [ns l]. simpl. by intros ->. Qed.

(** The decoder of each field. *)
Lemma set_cursor_v v c :
  set_cursor_field zone "v" v c
  = (n ← decode_int64 (cur_Version c) v;
     Some (mk_cursor n (cur_Room c) (cur_Timestamp c) (cur_ID c))).
Proof. done. Qed.
Lemma set_cursor_room v c :
  set_cursor_field zone "room" v c
  = (s ← decode_string (cur_Room c) v;
     Some (mk_cursor (cur_Version c) s (cur_Timestamp c) (cur_ID c))).
Proof. done. Qed.
Lemma set_cursor_timestamp v c :
  set_cursor_field zone "timestamp" v c
  = (t ← decode_time zone (cur_Timestamp c) v;
     Some (mk_cursor (cur_Version c) (cur_Room c) t (cur_ID c))).
Proof. done. Qed.
Lemma set_cursor_id v c :
  set_cursor_field zone "id" v c
  = (n ← decode_int64 (cur_ID c) v;
     Some (mk_cursor (cur_Version c) (cur_Room c) (cur_Timestamp c) n)).
Proof. done. Qed.

(** Marshalling a cursor, and the object that comes back. *)
Lemma decode_marshal_cursor c v :
  marshal_cursor zone c = Some v →
  canonical_room (cur_Room c) = true → -2 ^ 63 <= cur_Version c < 2 ^ 63 →
  -2 ^ 63 <= cur_ID c < 2 ^ 63 →
  printable v
  ∧ decode_struct cursor_names (set_cursor_field zone) zero_cursor v
    = Some (mk_cursor (cur_Version c) (cur_Room c) (utc (cur_Timestamp c)) (cur_ID c)).
Proof.
  unfold marshal_cursor. intros (ts&Hts&<-%(inj Some))%bind_Some Hroom Hv Hid.
  apply (decode_marshal_time _ zero_time) in Hts as [Hp Hd]. split.
  - split_and!; try (by apply key_ok); first [by apply printable_int | by apply printable_string | done].
  - cbn [decode_struct].
    struct_member "v". rewrite set_cursor_v, decode_json_int by done. cbn [mbind option_bind].
    struct_member "room". rewrite set_cursor_room, decode_json_string by done.
    rewrite canonical_string_of_runes by done. cbn [mbind option_bind].
    struct_member "timestamp". rewrite set_cursor_timestamp. cbn [cur_Timestamp zero_cursor].
    rewrite Hd. cbn [mbind option_bind].
    struct_member "id". by rewrite set_cursor_id, decode_json_int.
Qed.
(** The text of a cursor is bytes, and far below the size limit. *)
Lemma marshal_cursor_bytes c v :
  marshal_cursor zone c = Some v → is_bytes (print v).
Proof.
  unfold marshal_cursor. intros (ts&Hts&<-%(inj Some))%bind_Some. apply print_obj_bytes.
  unfold marshal_utc_time in Hts. destruct ((0 <=? _) && _); [|done]. apply (inj Some) in Hts as <-.
  repeat (apply Forall_cons; split); [..|constructor];
    (split; cbn [fst snd]; auto with go).
Qed.

Lemma marshal_cursor_length c v :
  marshal_cursor zone c = Some v → (length (runes (cur_Room c)) <= 32)%nat →
  (length (print v) <= 307)%nat.
Proof.
  unfold marshal_cursor. intros (ts&Hts&<-%(inj Some))%bind_Some Hroom.
  unfold marshal_utc_time in Hts. destruct ((0 <=? _) && _); [|done]. apply (inj Some) in Hts as <-.
  pose proof (length_print_string (cur_Room c)). pose proof (length_print_int (cur_Version c)).
  pose proof (length_print_int (cur_ID c)).
  destruct (format_utc_chars zone (cur_Timestamp c)) as [_ Ht].
  etransitivity; [apply length_print_obj|].
  rewrite !fmap_cons. cbn [sum_list_with id fst snd fmap list_fmap].
  change (print (json_int (cur_Version c))) with (print_int (cur_Version c)).
  change (print (json_int (cur_ID c))) with (print_int (cur_ID c)).
  rewrite length_print_raw. cbn [bytes length]. lia.
Qed.

Lemma length_encode_cursor room (m : Message) raw :
  encode_history_cursor zone room m = Some raw → canonical_room room = true → len raw <= 410.
Proof.
  unfold encode_history_cursor. intros (v&Hv&<-%(inj Some))%bind_Some Hroom.
  pose proof (marshal_cursor_length _ v Hv) as Hl. cbn [cur_Room] in Hl.
  destruct (canonical_runes room Hroom) as [Hr _]. rewrite Hr in Hl.
  specialize (Hl (canonical_length room Hroom)).
  pose proof (is_bytes_forallb _ (marshal_cursor_bytes _ v Hv)) as Hb.
  rewrite len_bytes, bytes_of_bytes by by apply encode_is_bytes.
  pose proof (length_encode (print v)) as He. rewrite He. lia_div.
Qed.

(** What an encoded cursor decodes to. *)
Lemma decode_encode_cursor room (m : Message) raw :
  encode_history_cursor zone room m = Some raw →
  canonical_room room = true → is_zero (row_Timestamp m) = false → 1 <= row_ID m < 2 ^ 63 →
  decode_history_cursor zone raw
  = Some (mk_cursor historyCursorVersion room (utc (row_Timestamp m)) (row_ID m)).
Proof.
  unfold encode_history_cursor. intros (v&Hv&<-%(inj Some))%bind_Some Hroom Hz Hid.
  set (c := mk_cursor _ _ _ _) in Hv.
  destruct (decode_marshal_cursor c v Hv Hroom) as [Hp Hd]; [done|simpl; lia|].
  pose proof (is_bytes_forallb _ (marshal_cursor_bytes c v Hv)) as Hb.
  assert (Hlen : (length (print v) <= 307)%nat).
  { apply (marshal_cursor_length c); [done|]. cbn [cur_Room c].
    destruct (canonical_runes room Hroom) as [-> _]. by apply canonical_length. }
  assert (Hne : print v ≠ []).
  { unfold marshal_cursor in Hv. apply bind_Some in Hv as (?&_&<-%(inj Some)). done. }
  pose proof (length_encode (print v)) as Hel.
  unfold decode_history_cursor. rewrite len_bytes, bytes_of_bytes by by apply encode_is_bytes.
  rewrite Hel, bool_decide_false.
  2:{ intros He. apply (f_equal bytes) in He. rewrite bytes_of_bytes in He by by apply encode_is_bytes.
      rewrite He in Hel. simpl in Hel. destruct (print v); [done|]. cbn [length] in Hel. lia_div. }
  unfold maxHistoryCursorSize. replace (512 <? (4 * Z.of_nat (length (print v)) + 2) / 3) with false by lia_div.
  cbn [orb]. rewrite decode_encode_bytes by done. cbn [mbind option_bind].
  rewrite bool_decide_false by done. replace (512 <? Z.of_nat (length (print v))) with false by lia.
  cbn [orb]. rewrite decode_print by done. cbn [mbind option_bind]. rewrite Hd.
  cbn [mbind option_bind cur_Room c cur_Version cur_ID cur_Timestamp].
  rewrite normalize_room_canonical by done. rewrite bool_decide_false by auto.
  rewrite Z.eqb_refl. replace (row_ID m <? 1) with false by lia.
  change (is_zero (utc (utc (row_Timestamp m)))) with (is_zero (row_Timestamp m)). rewrite Hz. done.
Qed.

(** Encoding fails on the year alone. *)
Lemma encode_cursor_total room (m : Message) :
  is_Some (encode_history_cursor zone room m) ↔ four_digit_year (row_Timestamp m).
Proof.
  unfold encode_history_cursor, marshal_cursor, marshal_utc_time, four_digit_year.
  cbn [cur_Timestamp]. change (year (utc (row_Timestamp m))) with (year (row_Timestamp m)).
  destruct ((0 <=? year (row_Timestamp m)) && _) eqn:E; split; intros H.
  - lia.
  - eauto.
  - by destruct H.
  - lia.
Qed.

(** Whatever text arrives, a cursor that is accepted is well formed. *)
Lemma int64_of_range lit n : int64_of lit = Some n → -2 ^ 63 <= n < 2 ^ 63.
Proof.
  unfold int64_of. destruct (match lit with [] => _ | _ => _ end) as [neg ds].
  destruct (_ || _); [done|]. destruct ((- 2 ^ 63 <=? _) && _) eqn:E; [|done].
  intros [= <-]. lia.
Qed.

Lemma set_members_id_range c ms c' :
  cur_ID c < 2 ^ 63 →
  set_members cursor_names (set_cursor_field zone) c ms = Some c' → cur_ID c' < 2 ^ 63.
Proof.
  revert c. induction ms as [|[k v] ms IH]; intros c Hc; cbn [set_members]; [by intros [= <-]|].
  intros (c1&H1&H)%bind_Some. apply (IH c1); [|done]. revert H1. unfold set_member.
  intros (name&_&H1)%bind_Some. revert H1. unfold set_cursor_field.
  repeat case_bool_decide; intros (x&Hx&[= <-])%bind_Some; simpl; try done.
  destruct v; simpl in Hx; simplify_eq/=; try done. by apply int64_of_range in Hx as [_ ?].
Qed.

Lemma decode_cursor_valid raw c :
  decode_history_cursor zone raw = Some c → valid_cursor c ∧ cur_ID c < 2 ^ 63.
Proof.
  unfold decode_history_cursor. destruct (_ || _); [done|].
  intros (payload&_&H)%bind_Some. destruct (_ || _) in H; [done|].
  apply bind_Some in H as (v&_&H). apply bind_Some in H as (c0&Hc0&H).
  destruct (normalize_room (cur_Room c0)) as [room|] eqn:Hr; [|done].
  destruct (_ || _ || _ || _) eqn:E in H; [done|]. apply (inj Some) in H as <-.
  apply orb_false_iff in E as [E Hz]. apply orb_false_iff in E as [E Hid].
  apply orb_false_iff in E as [_ Hv].
  split.
  - split; cbn [cur_Version cur_Room cur_Timestamp cur_ID]; [lia|].
    split; [by apply normalize_room_ok in Hr|]. split; [done|]. split; [done|lia].
  - cbn [cur_ID]. destruct v as [| | | | |ms]; cbn [decode_struct] in Hc0; simplify_eq.
    by apply (set_members_id_range zero_cursor ms).
Qed.
End cursor.
