(* ===== verification/Auth.v ===== *)
(** Signed sessions ([internal/auth/session.go]).

    [Service] is the configured service, [new_service] is [auth.New];
    [exchange], [authenticate] and [authorize] are its methods, with the clock
    and the random source of a call as arguments.  A session cookie is
    [base64(json) "." base64(hmac)]: [encode] and [decode].  A nil [*Service] is
    [None].  Error texts are represented by their case. *)
From S2P Require Import Prelude.
From S2P Require Import GoUnicode.
From S2P Require Import GoString.
From S2P Require Import GoTime.
From S2P Require Import Base64.
From S2P Require Import Json.
From S2P Require Import Sha256.
From S2P Require Import Http.
From S2P Require Import Rooms.
From S2P Require Import Events.
Open Scope Z_scope.

Definition ModeAnonymous : string := "anonymous".
Definition ModeSession : string := "session".
Definition CookieName : string := "chatster_session".

Definition defaultSessionTTL : Z := Hour.
Definition minSessionTTL : Z := Minute.
Definition maxSessionTTL : Z := 24 * Hour.
Definition minSecretBytes : Z := 32.
Definition minTokenBytes : Z := 32.
Definition maxRoomsPerUser : Z := 64.
Definition maxCookieBytes : Z := 4096.
Definition MaxAccessTokenBytes : Z := 512.

Inductive auth_error :=
| ErrAuthDisabled | ErrInvalidToken | ErrSessionRequired | ErrInvalidSession
| ErrExpiredSession | ErrRoomDenied
| ErrSessionID        (* the random source failed *)
| ErrCookieLimit.     (* the encoded session exceeds the cookie limit *)

Inductive auth_config_error :=
| UnsupportedMode | SecretTooShort | TTLOutOfRange
| CredentialsMissing | CredentialsMalformed | CredentialsTrailing | CredentialsEmpty
| TokenLength | TokenWhitespace | DuplicateToken
| BadUserIDConfig | BadDisplayName | RoomCount | RoomEmpty | RoomInvalid (e : room_error).

#[export] Instance auth_error_eq_dec : EqDecision auth_error.
Proof. solve_decision. Defined.
#[export] Instance auth_config_error_eq_dec : EqDecision auth_config_error.
Proof. solve_decision. Defined.

(** ** Data *)

(** [auth.Config]; the clock and the random source are arguments of the calls. *)
Record AuthConfig := mk_auth_config {
  ac_Mode : string; ac_SessionSecret : string; ac_CredentialsJSON : string;
  ac_SessionTTL : Z; ac_CookieSecure : bool
}.

(** [credential]: the rooms as the slice the JSON decoder fills. *)
Record credential := mk_credential {
  cr_Token : string; cr_UserID : string; cr_DisplayName : string; cr_Rooms : list string * nat
}.

Record principalTemplate := mk_template {
  pt_UserID : string; pt_DisplayName : string; pt_Rooms : list string
}.

#[export] Instance template_eq_dec : EqDecision principalTemplate.
Proof. solve_decision. Defined.

Record Principal := mk_principal {
  p_UserID : string; p_DisplayName : string; p_Rooms : list string; p_Anonymous : bool;
  p_SessionID : string; p_ExpiresAt : time
}.

#[export] Instance principal_eq_dec : EqDecision Principal.
Proof. solve_decision. Defined.

(** [Principal.Authenticated] *)
Definition authenticated (p : Principal) : bool :=
  negb (p_Anonymous p) && negb (bool_decide (p_UserID p = ""))
  && negb (bool_decide (p_SessionID p = "")).

Record sessionPayload := mk_payload {
  sp_Version : Z; sp_SessionID : string; sp_Subject : string; sp_DisplayName : string;
  sp_Rooms : list string * nat; sp_IssuedAt : Z; sp_ExpiresAt : Z
}.

Record Service := mk_service {
  s_mode : string;
  s_secret : list Z;
  s_credentials : gmap (list Z) principalTemplate;    (* by SHA-256 of the token *)
  s_ttl : Z;
  s_cookieSecure : bool
}.

(** [Service.Mode] *)
Definition mode (s : option Service) : string :=
  match s with
  | None => ModeAnonymous
  | Some s => if bool_decide (s_mode s = "") then ModeAnonymous else s_mode s
  end.

(** ** Principals *)

(** [validIdentifier] has the body of the event contract's user id test. *)
Definition valid_identifier (value : string) : bool :=
  if (len value =? 0) || (128 <? len value) then false
  else forallb user_id_rune (runes value).

(** The loop over the rooms: [seen] and the rooms kept so far. *)
Fixpoint normalize_rooms (seen : gset string) (rooms : list string) :
    result auth_config_error (list string) :=
  match rooms with
  | [] => Ok []
  | room :: rooms =>
    if bool_decide (trim_space room = "") then Err RoomEmpty
    else match normalize_room room with
    | Err e => Err (RoomInvalid e)
    | Ok normalized =>
      if bool_decide (normalized ∈ seen) then normalize_rooms seen rooms
      else try rest := normalize_rooms ({[normalized]} ∪ seen) rooms in Ok (normalized :: rest)
    end
  end.

(** [normalizePrincipal] *)
Definition normalize_principal (userID displayName : string) (rooms : list string) :
    result auth_config_error principalTemplate :=
  let userID := trim_space userID in
  if negb (valid_identifier userID) then Err BadUserIDConfig
  else
    let displayName := trim_space displayName in
    if bool_decide (displayName = "") || (64 <? rune_count displayName) then Err BadDisplayName
    else if (length rooms =? 0)%nat || (maxRoomsPerUser <? Z.of_nat (length rooms)) then Err RoomCount
    else try rooms := normalize_rooms ∅ rooms in Ok (mk_template userID displayName rooms).

(** [validOpaqueID] *)
Definition valid_opaque_id (value prefix : string) : bool :=
  if negb (has_prefix value prefix) || negb (len value =? len prefix + 32) then false
  else forallb (λ b, bool_decide (is_Some (hex_value b))) (bytes (trim_prefix value prefix)).

(** ** Configuration *)

Definition credential_names : list string := ["token"; "user_id"; "display_name"; "rooms"].
Definition zero_credential : credential := mk_credential "" "" "" ([], 0%nat).

Definition set_credential_field (name : string) (v : json) (c : credential) : option credential :=
  if bool_decide (name = "token") then
    s ← decode_string (cr_Token c) v;
    Some (mk_credential s (cr_UserID c) (cr_DisplayName c) (cr_Rooms c))
  else if bool_decide (name = "user_id") then
    s ← decode_string (cr_UserID c) v;
    Some (mk_credential (cr_Token c) s (cr_DisplayName c) (cr_Rooms c))
  else if bool_decide (name = "display_name") then
    s ← decode_string (cr_DisplayName c) v;
    Some (mk_credential (cr_Token c) (cr_UserID c) s (cr_Rooms c))
  else
    r ← decode_slice "" decode_string (cr_Rooms c) v;
    Some (mk_credential (cr_Token c) (cr_UserID c) (cr_DisplayName c) r).

Definition decode_credential : credential → json → option credential :=
  decode_struct credential_names set_credential_field.

(** [requireJSONEOF]: nothing but white space may follow. *)
Definition require_json_eof (rest : list Z) : bool :=
  match skip_space rest with [] => true | _ :: _ => false end.

(** [decodeCredentials] *)
Definition decode_credentials (raw : string) : result auth_config_error (list credential) :=
  if bool_decide (trim_space raw = "") then Err CredentialsMissing
  else match decode_value (bytes raw) with
  | None => Err CredentialsMalformed
  | Some (v, rest) =>
    match decode_slice zero_credential decode_credential ([], 0%nat) v with
    | None => Err CredentialsMalformed
    | Some credentials =>
      if negb (require_json_eof rest) then Err CredentialsTrailing
      else if (length (slice_value credentials) =? 0)%nat then Err CredentialsEmpty
      else Ok (slice_value credentials)
    end
  end.

Definition token_whitespace : list ascii := [" "%char; "009"%char; "013"%char; "010"%char].

(** One iteration of the loop of [New] over the credentials. *)
Definition add_credential (cs : gmap (list Z) principalTemplate) (c : credential) :
    result auth_config_error (gmap (list Z) principalTemplate) :=
  let tokenBytes := len (cr_Token c) in
  if (tokenBytes <? minTokenBytes) || (MaxAccessTokenBytes <? tokenBytes) then Err TokenLength
  else if bool_decide (trim_space (cr_Token c) ≠ cr_Token c)
          || contains_any (cr_Token c) token_whitespace then Err TokenWhitespace
  else
    try template := normalize_principal (cr_UserID c) (cr_DisplayName c) (slice_value (cr_Rooms c)) in
    let tokenHash := sha256 (bytes (cr_Token c)) in
    if bool_decide (is_Some (cs !! tokenHash)) then Err DuplicateToken
    else Ok (<[tokenHash := template]> cs).

Fixpoint add_credentials (cs : gmap (list Z) principalTemplate) (l : list credential) :
    result auth_config_error (gmap (list Z) principalTemplate) :=
  match l with
  | [] => Ok cs
  | c :: l => try cs := add_credential cs c in add_credentials cs l
  end.

(** [New] *)
Definition new_service (cfg : AuthConfig) : result auth_config_error Service :=
  let mode := to_lower (trim_space (ac_Mode cfg)) in
  let mode := if bool_decide (mode = "") then ModeAnonymous else mode in
  if bool_decide (mode = ModeAnonymous) then Ok (mk_service mode [] ∅ 0 (ac_CookieSecure cfg))
  else if negb (bool_decide (mode = ModeSession)) then Err UnsupportedMode
  else if len (ac_SessionSecret cfg) <? minSecretBytes then Err SecretTooShort
  else
    let ttl := if ac_SessionTTL cfg =? 0 then defaultSessionTTL else ac_SessionTTL cfg in
    if (ttl <? minSessionTTL) || (maxSessionTTL <? ttl) then Err TTLOutOfRange
    else
      try credentials := decode_credentials (ac_CredentialsJSON cfg) in
      try table := add_credentials ∅ credentials in
      Ok (mk_service mode (bytes (ac_SessionSecret cfg)) table ttl (ac_CookieSecure cfg)).

(** ** Session cookies *)

(** [append([]string(nil), rooms...)] is nil for no rooms, and marshals as
    [null]. *)
Definition json_rooms (rooms : list string) : json :=
  match rooms with [] => JNull | _ :: _ => JArr (json_string <$> rooms) end.

(** [json.Marshal] of a payload, which never fails. *)
Definition marshal_payload (p : sessionPayload) : json :=
  JObj [(bytes "v", json_int (sp_Version p)); (bytes "sid", json_string (sp_SessionID p));
        (bytes "sub", json_string (sp_Subject p)); (bytes "name", json_string (sp_DisplayName p));
        (bytes "rooms", json_rooms (slice_value (sp_Rooms p)));
        (bytes "iat", json_int (sp_IssuedAt p)); (bytes "exp", json_int (sp_ExpiresAt p))].

Definition payload_names : list string := ["v"; "sid"; "sub"; "name"; "rooms"; "iat"; "exp"].
Definition zero_payload : sessionPayload := mk_payload 0 "" "" "" ([], 0%nat) 0 0.

Definition set_payload_field (name : string) (v : json) (p : sessionPayload) : option sessionPayload :=
  let '(mk_payload ver sid sub dn rooms iat exp) := p in
  if bool_decide (name = "v") then
    ver ← decode_int64 ver v; Some (mk_payload ver sid sub dn rooms iat exp)
  else if bool_decide (name = "sid") then
    sid ← decode_string sid v; Some (mk_payload ver sid sub dn rooms iat exp)
  else if bool_decide (name = "sub") then
    sub ← decode_string sub v; Some (mk_payload ver sid sub dn rooms iat exp)
  else if bool_decide (name = "name") then
    dn ← decode_string dn v; Some (mk_payload ver sid sub dn rooms iat exp)
  else if bool_decide (name = "rooms") then
    rooms ← decode_slice "" decode_string rooms v; Some (mk_payload ver sid sub dn rooms iat exp)
  else if bool_decide (name = "iat") then
    iat ← decode_int64 iat v; Some (mk_payload ver sid sub dn rooms iat exp)
  else
    exp ← decode_int64 exp v; Some (mk_payload ver sid sub dn rooms iat exp).

Definition dot : ascii := "."%char.

(** [Service.encode] *)
Definition encode (s : Service) (p : sessionPayload) : option string :=
  let encoded := base64_encode (print (marshal_payload p)) in
  let signature := base64_encode (hmac_sha256 (s_secret s) encoded) in
  let value := of_bytes (encoded ++ chr "." :: signature) in
  if maxCookieBytes <? len value then None else Some value.

(** [Service.decode]: every failure is [ErrInvalidSession]. *)
Definition decode (s : Service) (value : string) : option sessionPayload :=
  '(encoded, signature) ← cut value dot;
  if bool_decide (encoded = "") || bool_decide (signature = "") || contains signature dot then None
  else
    providedMAC ← base64_decode (bytes signature);
    if negb (bool_decide (providedMAC = hmac_sha256 (s_secret s) (bytes encoded))) then None
    else
      raw ← base64_decode (bytes encoded);
      '(v, rest) ← decode_value raw;
      payload ← decode_struct payload_names set_payload_field zero_payload v;
      if negb (require_json_eof rest) then None else Some payload.

(** [Service.newSessionID] from the 16 bytes of the random source. *)
Definition new_session_id (random : option (list Z)) : option string :=
  raw ← random; Some ("sid_" +:+ of_bytes (hex raw)).

(** [Service.Exchange] *)
Definition exchange (s : option Service) (now : time) (random : option (list Z)) (token : string) :
    result auth_error (Principal * cookie) :=
  match s with
  | None => Err ErrAuthDisabled
  | Some svc =>
    if negb (bool_decide (mode s = ModeSession)) then Err ErrAuthDisabled
    else if (len token <? minTokenBytes) || (MaxAccessTokenBytes <? len token)
            || contains_any token token_whitespace then Err ErrInvalidToken
    else match s_credentials svc !! sha256 (bytes token) with
    | None => Err ErrInvalidToken
    | Some template =>
      match new_session_id random with
      | None => Err ErrSessionID
      | Some sessionID =>
        let now := truncate_second (utc now) in
        let expiresAt := add now (s_ttl svc) in
        let payload := mk_payload 1 sessionID (pt_UserID template) (pt_DisplayName template)
          (pt_Rooms template, length (pt_Rooms template)) (unix now) (unix expiresAt) in
        match encode svc payload with
        | None => Err ErrCookieLimit
        | Some value =>
          Ok (mk_principal (pt_UserID template) (pt_DisplayName template) (pt_Rooms template)
                false sessionID expiresAt,
              mk_cookie CookieName value "/" expiresAt (s_ttl svc / Second) true
                (s_cookieSecure svc) true)
        end
      end
    end
  end.

Definition anonymous_principal : Principal := mk_principal "" "Anonymous" [] true "" zero_time.

(** [Service.Authenticate]: the checks behind the signature. *)
Definition check_payload (s : Service) (now : time) (payload : sessionPayload) :
    result auth_error Principal :=
  match normalize_principal (sp_Subject payload) (sp_DisplayName payload)
          (slice_value (sp_Rooms payload)) with
  | Err _ => Err ErrInvalidSession
  | Ok template =>
    if negb (sp_Version payload =? 1) || negb (valid_opaque_id (sp_SessionID payload) "sid_")
    then Err ErrInvalidSession
    else
      let issuedAt := utc (from_unix (sp_IssuedAt payload)) in
      let expiresAt := utc (from_unix (sp_ExpiresAt payload)) in
      let now := utc now in
      if negb (after expiresAt now) then Err ErrExpiredSession
      else if (sp_IssuedAt payload <=? 0) || negb (after expiresAt issuedAt)
              || after issuedAt (add now Minute) then Err ErrInvalidSession
      else if s_ttl s + Second <? sub_saturated expiresAt issuedAt then Err ErrInvalidSession
      else Ok (mk_principal (pt_UserID template) (pt_DisplayName template) (pt_Rooms template)
                 false (sp_SessionID payload) expiresAt)
  end.

Definition authenticate (s : option Service) (now : time) (r : request) :
    result auth_error Principal :=
  match s with
  | None => Ok anonymous_principal
  | Some svc =>
    if bool_decide (mode s = ModeAnonymous) then Ok anonymous_principal
    else match request_cookie r CookieName with
    | None => Err ErrSessionRequired
    | Some value =>
      if bool_decide (value = "") || (maxCookieBytes <? len value) then Err ErrInvalidSession
      else match decode svc value with
      | None => Err ErrInvalidSession
      | Some payload => check_payload svc now payload
      end
    end
  end.

(** [Service.Authorize] *)
Definition authorize (s : option Service) (now : time) (r : request) (room : string) :
    result auth_error Principal :=
  try principal := authenticate s now r in
  match normalize_room room with
  | Err _ => Err ErrRoomDenied
  | Ok room =>
    if p_Anonymous principal then Ok principal
    else if existsb (λ allowed, bool_decide (allowed = room)) (p_Rooms principal)
    then Ok principal else Err ErrRoomDenied
  end.

(** [Service.ExpiredCookie] *)
Definition expired_cookie (s : option Service) : cookie :=
  mk_cookie CookieName "" "/" (utc (from_unix 1)) (-1) true
    (match s with Some s => s_cookieSecure s | None => false end) true.
