(* ===== verification/AuthFacts.v ===== *)
(** Sessions: the facts behind [Auth]. *)
From S2P Require Import Prelude.
From S2P Require Import GoUnicode.
From S2P Require Import GoString.
From S2P Require Import GoTime.
From S2P Require Import Base64.
From S2P Require Import Json.
From S2P Require Import Sha256.
From S2P Require Import Http.
From S2P Require Import Rooms.
From S2P Require Import Events.
From S2P Require Import Auth.
Open Scope Z_scope.

(** ** Normal principals *)

Record template_ok (t : principalTemplate) : Prop := {
  tok_user : valid_identifier (pt_UserID t) = true;
  tok_trimmed : trim_space (pt_DisplayName t) = pt_DisplayName t;
  tok_named : pt_DisplayName t ≠ "";
  tok_name_length : rune_count (pt_DisplayName t) <= 64;
  tok_rooms : Forall (λ r, canonical_room r = true) (pt_Rooms t);
  tok_distinct : NoDup (pt_Rooms t);
  tok_room_count : 1 <= Z.of_nat (length (pt_Rooms t)) <= maxRoomsPerUser
}.

Lemma identifier_chars s :
  valid_identifier s = true →
  bytes s = runes s ∧ forallb plain_char (bytes s) = true ∧ trim_space s = s
  ∧ 1 <= len s <= 128.
Proof.
  unfold valid_identifier. destruct ((len s =? 0) || _) eqn:Hl; [done|]. intros Hr.
  assert (Hb : bytes s = runes s).
  { apply runes_ascii_bytes. unfold ascii_bytes. rewrite forallb_forall in *.
    intros b Hb. specialize (Hr b Hb). unfold user_id_rune in Hr. lia. }
  split_and!; [done|..].
  - rewrite Hb. rewrite forallb_forall in *. intros b Hin. specialize (Hr b Hin).
    unfold user_id_rune in Hr. unfold plain_char, quote, backslash. lia.
  - apply trim_space_id. rewrite forallb_forall in *. intros b Hin. specialize (Hr b Hin).
    unfold user_id_rune in Hr. unfold is_space. lia.
  - unfold len in *. lia.
  - lia.
Qed.

Lemma canonical_trim room : canonical_room room = true → trim_space room = room ∧ room ≠ "".
Proof.
  intros H. destruct (canonical_runes room H) as [Hr Hc]. split; [|by intros ->].
  apply trim_space_id. rewrite Hr, forallb_forall in *. intros b Hb. specialize (Hc b Hb).
  apply room_char_ascii in Hc as [_ ->]. done.
Qed.

Lemma normalize_rooms_ok seen rooms out :
  normalize_rooms seen rooms = Ok out →
  Forall (λ r, canonical_room r = true) out ∧ NoDup out ∧ (∀ r, r ∈ out → r ∉ seen)
  ∧ (length out <= length rooms)%nat
  ∧ (rooms ≠ [] → out = [] → seen ≠ ∅).
Proof.
  revert seen out. induction rooms as [|room rooms IH]; intros seen out; cbn [normalize_rooms].
  { intros [= <-]. split_and!; [constructor|constructor|by intros ? ?%elem_of_nil|done|done]. }
  case_bool_decide; [done|]. destruct (normalize_room room) as [r|] eqn:Hr; [|done].
  apply normalize_room_ok in Hr. case_bool_decide as Hin.
  - intros (?&?&?&?&_)%IH. split_and!; try done; [simpl; lia|]. intros _ _ ->.
    by apply not_elem_of_empty in Hin.
  - destruct (normalize_rooms _ rooms) as [rest|] eqn:Hrest; [|done]. intros [= <-].
    apply IH in Hrest as (Hc&Hnd&Hns&Hl&_). split_and!.
    + by constructor.
    + constructor; [|done]. intros Hr'. apply (Hns r Hr'). set_solver.
    + intros x [->|Hx]%elem_of_cons; [done|]. specialize (Hns x Hx). set_solver.
    + simpl. lia.
    + done.
Qed.

Lemma normalize_rooms_id seen rooms :
  Forall (λ r, canonical_room r = true) rooms → NoDup rooms → (∀ r, r ∈ rooms → r ∉ seen) →
  normalize_rooms seen rooms = Ok rooms.
Proof.
  revert seen. induction rooms as [|room rooms IH]; intros seen Hc Hnd Hns; [done|].
  apply Forall_cons in Hc as [Hr Hc]. apply NoDup_cons in Hnd as [Hni Hnd].
  cbn [normalize_rooms]. destruct (canonical_trim room Hr) as [-> Hne].
  rewrite bool_decide_false by done. rewrite normalize_room_canonical by done.
  rewrite bool_decide_false by (apply Hns; left). rewrite IH; [done|done|done|].
  intros r Hr'. assert (r ≠ room) by by intros ->. specialize (Hns r). set_solver.
Qed.

(** Normal principals are the fixed points of [normalizePrincipal]. *)
Lemma normalize_principal_ok u d rooms t :
  normalize_principal u d rooms = Ok t → template_ok t ∧ pt_UserID t = trim_space u ∧ pt_DisplayName t = trim_space d.
Proof.
  unfold normalize_principal. destruct (negb _) eqn:Hu; [done|]. unbool.
  destruct (bool_decide _ || _) eqn:Hd; [done|]. unbool.
  destruct (_ || _) eqn:Hl; [done|].
  destruct (normalize_rooms ∅ rooms) as [out|] eqn:Hr; [|done]. intros [= <-].
  apply normalize_rooms_ok in Hr as (Hc&Hnd&_&Hlen&Hemp).
  assert (out ≠ []).
  { intros ->. apply Hemp; [intros ->; simpl in Hl; lia|done|done]. }
  split; [|done]. constructor; simpl; try done.
  - apply trim_space_idemp.
  - lia.
  - destruct out; [done|]. simpl in *. lia.
Qed.

Lemma normalize_principal_id t :
  template_ok t → normalize_principal (pt_UserID t) (pt_DisplayName t) (pt_Rooms t) = Ok t.
Proof.
  intros [Hu Ht Hn Hl Hr Hd Hc]. unfold normalize_principal.
  destruct (identifier_chars _ Hu) as (_&_&->&_). rewrite Hu, Ht. cbn [negb].
  rewrite bool_decide_false by done. replace (64 <? rune_count (pt_DisplayName t)) with false by lia.
  cbn [orb]. replace (_ || _) with false by (unfold maxRoomsPerUser in *; lia).
  rewrite normalize_rooms_id by (done || set_solver). by destruct t.
Qed.

(** ** Accepted configurations *)

Definition table_ok (cs : gmap (list Z) principalTemplate) : Prop :=
  map_Forall (λ _ t, template_ok t ∧ utf8 (pt_DisplayName t)) cs.

Record service_ok (s : Service) : Prop := {
  sok_mode : s_mode s = ModeSession;
  sok_secret : is_bytes (s_secret s) ∧ minSecretBytes <= Z.of_nat (length (s_secret s));
  sok_ttl : minSessionTTL <= s_ttl s <= maxSessionTTL;
  sok_table : table_ok (s_credentials s)
}.

Lemma decode_credential_utf8 c v c' :
  utf8 (cr_DisplayName c) → decode_credential c v = Some c' → utf8 (cr_DisplayName c').
Proof.
  destruct v as [| | | | |ms]; cbn [decode_credential decode_struct]; intros Hc; intros; simplify_eq; try done.
  revert c Hc H. induction ms as [|[k v] ms IH]; intros c Hc; cbn [set_members]; [by intros [= <-]|].
  intros (c1&H1&H)%bind_Some. apply (IH c1); [|done]. revert H1. unfold set_member.
  intros (name&_&H1)%bind_Some. revert H1. unfold set_credential_field.
  repeat case_bool_decide; intros (x&Hx&[= <-])%bind_Some; cbn [cr_DisplayName]; try done.
  by eapply decode_string_utf8.
Qed.

Lemma decode_elements_forall {A} (P : A → Prop) zero (dec : A → json → option A) b vs xs :
  (∀ x v y, P x → dec x v = Some y → P y) → P zero → Forall P b →
  decode_elements zero dec b vs = Some xs → Forall P xs.
Proof.
  intros Hdec Hz. revert b xs. induction vs as [|v vs IH]; intros b xs Hb; cbn [decode_elements].
  { intros [= <-]. constructor. }
  intros (x&Hx&(ys&Hys&[= <-])%bind_Some)%bind_Some. constructor.
  - eapply Hdec; [|exact Hx]. destruct Hb; done.
  - eapply IH; [|exact Hys]. destruct Hb; [constructor|done].
Qed.

Lemma decode_credentials_utf8 raw cs :
  decode_credentials raw = Ok cs → Forall (λ c, utf8 (cr_DisplayName c)) cs.
Proof.
  unfold decode_credentials. case_bool_decide; [done|].
  destruct (decode_value (bytes raw)) as [[v rest]|]; [|done].
  destruct (decode_slice _ _ _ v) as [sl|] eqn:Hs; [|done].
  destruct (negb _); [done|]. destruct (_ =? _)%nat; [done|]. intros [= <-].
  unfold slice_value. apply Forall_take.
  destruct v as [| | | |vs|]; cbn [decode_slice] in Hs; try done; [by simplify_eq; constructor|].
  destruct vs as [|v vs]; [by simplify_eq; constructor|].
  apply bind_Some in Hs as (xs&Hxs&[= <-]). cbn [fst]. rewrite ?drop_nil, app_nil_r.
  eapply (decode_elements_forall (λ c, utf8 (cr_DisplayName c))); [|..|exact Hxs].
  - intros c v' c'. apply decode_credential_utf8.
  - constructor.
  - constructor.
Qed.

Lemma add_credential_ok cs c cs' :
  table_ok cs → utf8 (cr_DisplayName c) → add_credential cs c = Ok cs' →
  table_ok cs' ∧ cs ⊆ cs'
  ∧ (minTokenBytes <= len (cr_Token c) <= MaxAccessTokenBytes
     ∧ contains_any (cr_Token c) token_whitespace = false)
  ∧ ∃ t, normalize_principal (cr_UserID c) (cr_DisplayName c) (slice_value (cr_Rooms c)) = Ok t
      ∧ cs' !! sha256 (bytes (cr_Token c)) = Some t.
Proof.
  unfold add_credential. intros Hcs Hu. destruct ((_ <? minTokenBytes) || _) eqn:Hl; [done|].
  destruct (_ || contains_any _ _) eqn:Hw; [done|].
  destruct (normalize_principal _ _ _) as [t|] eqn:Ht; [|done].
  destruct (bool_decide (is_Some _)) eqn:Hdup; [done|]. apply bool_decide_eq_false in Hdup.
  intros [= <-].
  assert (cs !! sha256 (bytes (cr_Token c)) = None).
  { destruct (cs !! _); [|done]. exfalso. apply Hdup. eauto. }
  destruct (normalize_principal_ok _ _ _ _ Ht) as (Htok&_&Hd). split_and!.
  - apply map_Forall_insert_2; [|done]. split; [done|]. rewrite Hd. by apply utf8_trim_space.
  - by apply insert_subseteq.
  - lia.
  - lia.
  - by apply orb_false_iff in Hw as [_ ?].
  - exists t. split; [done|]. by rewrite lookup_insert_eq.
Qed.

Lemma add_credentials_ok cs l cs' :
  table_ok cs → Forall (λ c, utf8 (cr_DisplayName c)) l → add_credentials cs l = Ok cs' →
  table_ok cs' ∧ cs ⊆ cs'
  ∧ ∀ c, c ∈ l →
     (minTokenBytes <= len (cr_Token c) <= MaxAccessTokenBytes
      ∧ contains_any (cr_Token c) token_whitespace = false)
     ∧ ∃ t, normalize_principal (cr_UserID c) (cr_DisplayName c) (slice_value (cr_Rooms c)) = Ok t
         ∧ cs' !! sha256 (bytes (cr_Token c)) = Some t.
Proof.
  intros Hcs Hl. revert cs Hcs. induction Hl as [|c l Hc Hl IH]; intros cs Hcs; cbn [add_credentials].
  { intros [= <-]. split_and!; [done|done|]. by intros c ?%elem_of_nil. }
  destruct (add_credential cs c) as [cs1|] eqn:H1; [|done]. intros H.
  apply add_credential_ok in H1 as (Hok1&Hsub1&Hlen&t&Ht&Hlook); [|done..].
  destruct (IH cs1 Hok1 H) as (Hok&Hsub&Hall). split_and!; [done|by etrans|].
  intros x [->|Hx]%elem_of_cons; [|by apply Hall]. split; [done|]. exists t. split; [done|].
  by eapply lookup_weaken.
Qed.

(** What [New] accepts: an anonymous service, or a well-formed session service
    in which every configured token is a key. *)
Lemma new_service_ok cfg s :
  new_service cfg = Ok s →
  s_mode s = ModeAnonymous
  ∨ service_ok s
    ∧ ∃ l, decode_credentials (ac_CredentialsJSON cfg) = Ok l
      ∧ ∀ c, c ∈ l →
         (minTokenBytes <= len (cr_Token c) <= MaxAccessTokenBytes
          ∧ contains_any (cr_Token c) token_whitespace = false)
         ∧ ∃ t, normalize_principal (cr_UserID c) (cr_DisplayName c) (slice_value (cr_Rooms c)) = Ok t
             ∧ s_credentials s !! sha256 (bytes (cr_Token c)) = Some t.
Proof.
  unfold new_service. set (m := if bool_decide (_ = "") then ModeAnonymous else _).
  case_bool_decide as Hm; [intros [= <-]; by left|].
  destruct (negb _) eqn:Hm2; [done|]. unbool.
  destruct (_ <? minSecretBytes) eqn:Hsec; [done|].
  set (ttl := if _ =? 0 then defaultSessionTTL else _). destruct ((ttl <? _) || _) eqn:Httl; [done|].
  destruct (decode_credentials _) as [l|] eqn:Hl; [|done].
  destruct (add_credentials ∅ l) as [table|] eqn:Ht; [|done]. intros [= <-]. right.
  apply add_credentials_ok in Ht as (Hok&_&Hall); [|apply map_Forall_empty|by eapply decode_credentials_utf8].
  split; [|by exists l]. constructor; cbn [s_mode s_secret s_ttl s_credentials]; [done| |lia|done].
  split; [apply is_bytes_string|]. rewrite len_bytes in Hsec. lia.
Qed.

(** ** Cookies *)

Lemma set_payload_v v p :
  set_payload_field "v" v p
  = (n ← decode_int64 (sp_Version p) v;
     Some (mk_payload n (sp_SessionID p) (sp_Subject p) (sp_DisplayName p) (sp_Rooms p)
             (sp_IssuedAt p) (sp_ExpiresAt p))).
Proof. by destruct p. Qed.
Lemma set_payload_sid v p :
  set_payload_field "sid" v p
  = (x ← decode_string (sp_SessionID p) v;
     Some (mk_payload (sp_Version p) x (sp_Subject p) (sp_DisplayName p) (sp_Rooms p)
             (sp_IssuedAt p) (sp_ExpiresAt p))).
Proof. by destruct p. Qed.
Lemma set_payload_sub v p :
  set_payload_field "sub" v p
  = (x ← decode_string (sp_Subject p) v;
     Some (mk_payload (sp_Version p) (sp_SessionID p) x (sp_DisplayName p) (sp_Rooms p)
             (sp_IssuedAt p) (sp_ExpiresAt p))).
Proof. by destruct p. Qed.
Lemma set_payload_name v p :
  set_payload_field "name" v p
  = (x ← decode_string (sp_DisplayName p) v;
     Some (mk_payload (sp_Version p) (sp_SessionID p) (sp_Subject p) x (sp_Rooms p)
             (sp_IssuedAt p) (sp_ExpiresAt p))).
Proof. by destruct p. Qed.
Lemma set_payload_rooms v p :
  set_payload_field "rooms" v p
  = (x ← decode_slice "" decode_string (sp_Rooms p) v;
     Some (mk_payload (sp_Version p) (sp_SessionID p) (sp_Subject p) (sp_DisplayName p) x
             (sp_IssuedAt p) (sp_ExpiresAt p))).
Proof. by destruct p. Qed.
Lemma set_payload_iat v p :
  set_payload_field "iat" v p
  = (n ← decode_int64 (sp_IssuedAt p) v;
     Some (mk_payload (sp_Version p) (sp_SessionID p) (sp_Subject p) (sp_DisplayName p) (sp_Rooms p)
             n (sp_ExpiresAt p))).
Proof. by destruct p. Qed.
Lemma set_payload_exp v p :
  set_payload_field "exp" v p
  = (n ← decode_int64 (sp_ExpiresAt p) v;
     Some (mk_payload (sp_Version p) (sp_SessionID p) (sp_Subject p) (sp_DisplayName p) (sp_Rooms p)
             (sp_IssuedAt p) n)).
Proof. by destruct p. Qed.

(** What the JSON round trip of a payload needs. *)
Record payload_ok (p : sessionPayload) : Prop := {
  pok_version : sp_Version p = 1;
  pok_sid : utf8 (sp_SessionID p);
  pok_sub : utf8 (sp_Subject p);
  pok_name : utf8 (sp_DisplayName p);
  pok_rooms : ∃ rooms, sp_Rooms p = (rooms, length rooms) ∧ rooms ≠ [] ∧ Forall utf8 rooms;
  pok_iat : -2 ^ 63 <= sp_IssuedAt p < 2 ^ 63;
  pok_exp : -2 ^ 63 <= sp_ExpiresAt p < 2 ^ 63
}.

Lemma slice_value_full {A} (l : list A) : slice_value (l, length l) = l.
Proof. unfold slice_value. cbn [fst snd]. by rewrite take_ge. Qed.

Lemma printable_strings (ss : list string) : printable (JArr (json_string <$> ss)).
Proof.
  induction ss as [|s ss IH]; [done|]. rewrite fmap_cons. split; [apply printable_string|exact IH].
Qed.

Lemma json_rooms_nonempty rooms : rooms ≠ [] → json_rooms rooms = JArr (json_string <$> rooms).
Proof. by destruct rooms. Qed.

Lemma marshal_payload_printable p : payload_ok p → printable (marshal_payload p).
Proof.
  intros [Hv _ _ _ (rooms&Hr&Hne&_) Hiat Hexp]. unfold marshal_payload. rewrite Hr, slice_value_full.
  rewrite json_rooms_nonempty by done.
  split_and!; try (by apply key_ok);
    first [apply printable_string | apply printable_strings | by apply printable_int | idtac]; try done.
  rewrite Hv. by apply printable_int.
Qed.

Lemma decode_marshal_payload p :
  payload_ok p → decode_struct payload_names set_payload_field zero_payload (marshal_payload p) = Some p.
Proof.
  intros [Hv Hsid Hsub Hdn (rooms&Hr&Hne&Hutf) Hiat Hexp]. unfold marshal_payload.
  rewrite Hr, slice_value_full, json_rooms_nonempty by done. cbn [decode_struct].
  assert (Hs : ∀ old s, utf8 s → decode_string old (json_string s) = Some s).
  { intros old s Hu. by rewrite decode_json_string, utf8_string_of_runes. }
  struct_member "v". rewrite set_payload_v, decode_json_int by by rewrite Hv. cbn [mbind option_bind].
  struct_member "sid". rewrite set_payload_sid, Hs by done. cbn [mbind option_bind].
  struct_member "sub". rewrite set_payload_sub, Hs by done. cbn [mbind option_bind].
  struct_member "name". rewrite set_payload_name, Hs by done. cbn [mbind option_bind].
  struct_member "rooms". rewrite set_payload_rooms. cbn [sp_Rooms zero_payload].
  rewrite decode_json_strings; [|done|].
  2:{ eapply Forall_impl; [exact Hutf|]. intros s. apply utf8_string_of_runes. }
  cbn [mbind option_bind].
  struct_member "iat". rewrite set_payload_iat, decode_json_int by done. cbn [mbind option_bind].
  struct_member "exp". rewrite set_payload_exp, decode_json_int by done. cbn [mbind option_bind].
  cbn. rewrite <- Hr. by destruct p.
Qed.

Lemma marshal_payload_bytes p : is_bytes (print (marshal_payload p)).
Proof.
  apply print_obj_bytes.
  repeat (apply Forall_cons; split); [..|constructor]; (split; [apply is_bytes_string|]); cbn [snd];
    try apply print_string_bytes; try apply print_int_bytes.
  unfold json_rooms. destruct (slice_value (sp_Rooms p)) as [|r rooms].
  - by repeat constructor.
  - apply print_arr_bytes, Forall_fmap, Forall_true. intros s. apply print_string_bytes.
Qed.

Lemma cut_app s t : contains s dot = false → cut (s +:+ String dot t) dot = Some (s, t).
Proof.
  induction s as [|a s IH]; intros H; [done|]. cbn [contains] in H.
  apply orb_false_iff in H as [Ha Hs]. apply bool_decide_eq_false in Ha.
  change (cut (String a s +:+ String dot t) dot)
    with (if decide (a = dot) then Some ("", s +:+ String dot t)
          else match cut (s +:+ String dot t) dot with
               | Some (x, y) => Some (String a x, y) | None => None end).
  rewrite decide_False by done. by rewrite IH.
Qed.

Lemma contains_bytes s c : contains s c = has_byte (byte_val c) (bytes s).
Proof.
  induction s as [|a s IH]; [done|]. cbn [contains bytes has_byte existsb]. rewrite IH. f_equal.
  destruct (byte_val a =? byte_val c) eqn:E; [apply bool_decide_eq_true|apply bool_decide_eq_false].
  - apply Z.eqb_eq in E. by rewrite <- (byte_of_val a), E, byte_of_val.
  - intros ->. lia.
Qed.

Lemma encoded_no_dot bs : is_bytes bs → contains (of_bytes (base64_encode bs)) dot = false.
Proof.
  intros Hb%is_bytes_forallb. rewrite contains_bytes, bytes_of_bytes by by apply encode_is_bytes.
  apply not_true_is_false. intros (x&Hx&He)%existsb_exists.
  assert (HQ : Forall (λ c, c ≠ chr ".") (base64_encode bs)).
  { apply Forall_encode; [done|]. intros d Hd. by apply enc_digit_char. }
  rewrite List.Forall_forall in HQ. apply (HQ x Hx). change (byte_val dot) with 46 in He. lia.
Qed.

Lemma of_bytes_app a b : of_bytes (a ++ b) = of_bytes a +:+ of_bytes b.
Proof. induction a as [|x a IH]; [done|]. cbn [app of_bytes]. by rewrite IH. Qed.

Lemma encode_nonempty bs : bs ≠ [] → of_bytes (base64_encode bs) ≠ "".
Proof. by destruct bs as [|a [|b [|c bs]]]. Qed.

(** ** Session ids *)

(** Sixteen random bytes. *)
Definition random_ok (raw : list Z) : Prop := length raw = 16%nat ∧ is_bytes raw.

Lemma hex_ok raw :
  is_bytes raw →
  length (hex raw) = (2 * length raw)%nat
  ∧ Forall (λ b, plain_char b = true ∧ is_byte b = true ∧ is_Some (hex_value b)) (hex raw).
Proof.
  intros Hraw. unfold hex. induction Hraw as [|b raw Hb Hraw [IHl IHc]]; [split; [done|constructor]|].
  rewrite fmap_cons. cbn [mjoin list_join app length]. unfold is_byte in Hb. split.
  - fold (hex raw). cbn [length]. unfold mjoin, list_join in *. lia.
  - assert (Hd : ∀ n, 0 <= n < 16 → plain_char (hex_digit n) = true ∧ is_byte (hex_digit n) = true
      ∧ is_Some (hex_value (hex_digit n))).
    { intros n Hn. rewrite hex_value_digit by done.
      split_and!; [| |done]; unfold plain_char, is_byte, hex_digit, quote, backslash;
        repeat case_match; lia. }
    repeat constructor; try apply Hd; try lia_div. exact IHc.
Qed.

Lemma has_prefix_app p t : has_prefix (p +:+ t) p = true.
Proof.
  induction p as [|a p IH]; [by destruct t|].
  change (bool_decide (a = a) && has_prefix (p +:+ t) p = true).
  by rewrite bool_decide_true, IH.
Qed.

Lemma substring_all s n : (String.length s <= n)%nat → String.substring 0 n s = s.
Proof.
  revert n. induction s as [|a s IH]; intros n Hn; [by destruct n|].
  destruct n; simpl in *; [lia|]. by rewrite IH by lia.
Qed.

Lemma session_id_ok raw sid :
  random_ok raw → new_session_id (Some raw) = Some sid →
  valid_opaque_id sid "sid_" = true ∧ forallb plain_char (bytes sid) = true ∧ len sid = 36 ∧ sid ≠ "".
Proof.
  intros [Hl Hb] Hsid. apply (inj Some) in Hsid as <-. destruct (hex_ok raw Hb) as [Hlen Hc].
  assert (Hbytes : bytes (of_bytes (hex raw)) = hex raw).
  { apply bytes_of_bytes, forallb_forall. rewrite List.Forall_forall in Hc. intros b Hin.
    by apply Hc. }
  assert (H36 : len ("sid_" +:+ of_bytes (hex raw)) = 36).
  { rewrite len_bytes, bytes_app, length_app, Hbytes, Hlen, Hl. done. }
  split_and!; [|rewrite bytes_app, Hbytes, forallb_app; cbn [bytes forallb andb]|done|done].
  - unfold valid_opaque_id. rewrite H36.
    pose proof (has_prefix_app "sid_" (of_bytes (hex raw))) as Hp.
    rewrite Hp. unfold trim_prefix. rewrite Hp.
    assert (Hsub : ∀ n x, String.substring (String.length "sid_") n ("sid_" +:+ x) = String.substring 0 n x)
      by done.
    rewrite Hsub, substring_all by (rewrite <- !length_bytes, bytes_app, length_app; lia). rewrite Hbytes.
    cbn [negb orb]. change (negb (36 =? len "sid_" + 32)) with false. cbv iota.
    apply forallb_forall. rewrite List.Forall_forall in Hc. intros b Hin.
    apply bool_decide_eq_true. by apply Hc.
  - change (forallb plain_char (hex raw) = true). apply forallb_forall.
    rewrite List.Forall_forall in Hc. intros b Hin. by apply Hc.
Qed.

Lemma length_print_plain s :
  forallb plain_char (bytes s) = true → Z.of_nat (length (print (json_string s))) = len s + 2.
Proof.
  intros H. cbn [print json_string length]. rewrite length_app, escape_plain, len_bytes by done.
  simpl. lia.
Qed.

Lemma canonical_plain_char r : canonical_room r = true → forallb plain_char (bytes r) = true ∧ len r <= 32.
Proof.
  intros Hc. split.
  - destruct (canonical_runes r Hc) as [_ Hch]. rewrite forallb_forall in *. intros b Hb.
    specialize (Hch b Hb). unfold room_char, isLetter, isDigit in Hch.
    unfold plain_char, quote, backslash. lia.
  - unfold canonical_room in Hc. destruct (bytes r); [done|]. unfold maxRoomRunes in Hc. unbool. lia.
Qed.

Lemma length_rooms rooms :
  Forall (λ r, canonical_room r = true) rooms →
  (sum_list ((λ v, 1 + length (print v)) <$> (json_string <$> rooms)) <= 35 * length rooms)%nat.
Proof.
  induction 1 as [|r rooms Hr Hrs IH]; [simpl; lia|]. rewrite !fmap_cons.
  cbn [sum_list_with id length]. destruct (canonical_plain_char r Hr) as [Hp Hl].
  pose proof (length_print_plain r Hp). lia.
Qed.

Section service.
Context (s : Service) (Hs : service_ok s).

(** Decoding an encoded payload. *)
Lemma session_decodes p value :
  payload_ok p → encode s p = Some value → decode s value = Some p ∧ value ≠ "" ∧ len value <= maxCookieBytes.
Proof.
  intros Hp. unfold encode. set (encoded := base64_encode (print (marshal_payload p))).
  set (mac := hmac_sha256 (s_secret s) encoded).
  destruct (maxCookieBytes <? _) eqn:Hlen; [done|]. intros Hval. apply (inj Some) in Hval as <-.
  pose proof (marshal_payload_bytes p) as Hraw.
  destruct (hmac_ok (s_secret s) encoded) as [Hml Hmb]. fold mac in Hml, Hmb.
  assert (Hne : print (marshal_payload p) ≠ []) by done.
  assert (Henc : forallb is_byte encoded = true)
    by (by apply encode_is_bytes, is_bytes_forallb).
  split_and!; [|by destruct encoded|lia]. unfold decode.
  rewrite of_bytes_app. change (of_bytes (chr "." :: base64_encode mac))
    with (String dot (of_bytes (base64_encode mac))).
  rewrite cut_app by by apply encoded_no_dot. cbn [mbind option_bind].
  rewrite bool_decide_false by by apply encode_nonempty.
  rewrite bool_decide_false by by apply encode_nonempty; destruct mac.
  rewrite encoded_no_dot by done. cbn [orb].
  rewrite !bytes_of_bytes by first [done | by apply encode_is_bytes, is_bytes_forallb].
  rewrite decode_encode_bytes by by apply is_bytes_forallb. cbn [mbind option_bind]. fold mac. rewrite bool_decide_true by done. cbn [negb].
  unfold encoded. rewrite decode_encode_bytes by by apply is_bytes_forallb. cbn [mbind option_bind].
  pose proof (decode_print _ (marshal_payload_printable p Hp)) as Hd. unfold decode_single in Hd.
  apply bind_Some in Hd as ([v rest]&Hv&Hd). rewrite Hv. cbn [mbind option_bind].
  destruct (skip_space rest) eqn:Hrest; [|done]. apply (inj Some) in Hd as ->.
  rewrite decode_marshal_payload by done. cbn [mbind option_bind].
  unfold require_json_eof. by rewrite Hrest.
Qed.
(** A normal principal's cookie is within the limit, whatever the clock. *)
Lemma encode_fits t sid iat exp :
  template_ok t → forallb plain_char (bytes sid) = true → len sid = 36 →
  is_Some (encode s (mk_payload 1 sid (pt_UserID t) (pt_DisplayName t)
                       (pt_Rooms t, length (pt_Rooms t)) iat exp)).
Proof.
  intros [Hu _ _ Hdn Hr _ Hc] Hsid Hsl. unfold encode.
  set (p := mk_payload _ _ _ _ _ _ _).
  assert (Hrooms : Z.of_nat (length (print (json_rooms (slice_value (sp_Rooms p))))) <= 2242).
  { cbn [sp_Rooms p]. rewrite slice_value_full, json_rooms_nonempty by (intros He; rewrite He in Hc; simpl in Hc; lia).
    etransitivity; [apply inj_le, length_print_arr|].
    pose proof (length_rooms _ Hr). unfold maxRoomsPerUser in Hc. lia. }
  destruct (identifier_chars _ Hu) as (_&Hup&_&Hul).
  pose proof (length_print_plain _ Hup) as Hsub. pose proof (length_print_plain _ Hsid) as Hsidp.
  pose proof (length_print_string (pt_DisplayName t)) as Hname. unfold rune_count in Hdn.
  pose proof (length_print_int 1). pose proof (length_print_int iat). pose proof (length_print_int exp).
  assert (Hlen : Z.of_nat (length (print (marshal_payload p))) <= 2911).
  { etransitivity; [apply inj_le, length_print_obj|].
    rewrite !fmap_cons. cbn [sum_list_with id fst snd fmap list_fmap].
    change (print (json_int (sp_Version p))) with (print_int 1).
    change (print (json_int (sp_IssuedAt p))) with (print_int iat).
    change (print (json_int (sp_ExpiresAt p))) with (print_int exp).
    cbn [sp_SessionID sp_Subject sp_DisplayName p bytes length]. fold p. lia. }
  set (encoded := base64_encode _). destruct (hmac_ok (s_secret s) encoded) as [Hml Hmb].
  set (mac := hmac_sha256 _ _) in *.
  assert (Hbytes : forallb is_byte (encoded ++ chr "." :: base64_encode mac) = true).
  { rewrite forallb_app. cbn [forallb]. apply andb_true_intro.
    split; [|apply andb_true_intro; split; [done|]]; apply encode_is_bytes, is_bytes_forallb;
      [apply marshal_payload_bytes|done]. }
  rewrite len_bytes, bytes_of_bytes, length_app by done. cbn [length].
  pose proof (length_encode (print (marshal_payload p))) as He. fold encoded in He.
  pose proof (length_encode mac) as Hme. rewrite Hml in Hme. change ((4 * Z.of_nat 32 + 2) / 3) with 43 in Hme.
  replace (maxCookieBytes <? _) with false; [eauto|].
  unfold maxCookieBytes. symmetry. apply Z.ltb_ge. rewrite Nat2Z.inj_add, Nat2Z.inj_succ, He, Hme.
  lia_div.
Qed.
(** ** The clock *)

Lemma issued_second now :
  clock_range now → 
  unix (truncate_second (utc now)) = t_ns now / Second - unixToInternal
  ∧ 1 <= unix (truncate_second (utc now)) < 2 ^ 62.
Proof.
  unfold clock_range, unix, truncate_second, unixToInternal, Second. cbn [t_ns utc]. intros Hn.
  rewrite Z.div_mul by lia. rewrite wrap64_id by lia_div. split; [done|lia_div].
Qed.

Lemma expiry_second now :
  clock_range now →
  t_ns (from_unix (unix (add (truncate_second (utc now)) (s_ttl s))))
  = t_ns (truncate_second (add (truncate_second (utc now)) (s_ttl s)))
  ∧ -2 ^ 63 <= unix (add (truncate_second (utc now)) (s_ttl s)) < 2 ^ 63.
Proof.
  destruct Hs as [_ _ Httl _]. unfold clock_range, unixToInternal, minSessionTTL, maxSessionTTL, Hour, Minute, Second in *.
  intros Hn. split.
  - rewrite from_unix_unix; [done|]. unfold add, truncate_second, Second. cbn [t_ns utc]. lia_div.
  - unfold unix, add, truncate_second, unixToInternal, Second. cbn [t_ns utc].
    rewrite wrap64_id by lia_div. lia_div.
Qed.

(** ** Logging in and coming back *)

Definition session_payload (t : principalTemplate) (sid : string) (now : time) : sessionPayload :=
  mk_payload 1 sid (pt_UserID t) (pt_DisplayName t) (pt_Rooms t, length (pt_Rooms t))
    (unix (truncate_second (utc now))) (unix (add (truncate_second (utc now)) (s_ttl s))).

Lemma session_payload_ok t raw sid now :
  template_ok t → utf8 (pt_DisplayName t) → random_ok raw → new_session_id (Some raw) = Some sid →
  clock_range now → payload_ok (session_payload t sid now).
Proof.
  intros Ht Hdn Hraw Hsid Hnow. destruct (session_id_ok raw sid Hraw Hsid) as (_&Hp&_&_).
  destruct (issued_second now Hnow) as [_ Hiat]. destruct (expiry_second now Hnow) as [_ Hexp].
  destruct Ht as [Hu _ _ _ Hr _ Hc]. destruct (identifier_chars _ Hu) as (_&Hup&_&_).
  constructor; cbn [session_payload sp_Version sp_SessionID sp_Subject sp_DisplayName sp_Rooms sp_IssuedAt sp_ExpiresAt].
  - done.
  - by apply plain_utf8.
  - by apply plain_utf8.
  - done.
  - exists (pt_Rooms t). split; [done|]. split; [intros He; rewrite He in Hc; simpl in Hc; lia|].
    eapply Forall_impl; [exact Hr|]. intros r [Hrp _]%canonical_plain_char. by apply plain_utf8.
  - lia.
  - done.
Qed.

Lemma mode_session : mode (Some s) = ModeSession.
Proof. unfold mode. rewrite (sok_mode s Hs). done. Qed.

(** The outcome of [Exchange] for a known token. *)
Lemma exchange_known t token raw now :
  s_credentials s !! sha256 (bytes token) = Some t →
  minTokenBytes <= len token <= MaxAccessTokenBytes → contains_any token token_whitespace = false →
  random_ok raw → clock_range now →
  ∃ sid value,
    new_session_id (Some raw) = Some sid ∧ encode s (session_payload t sid now) = Some value
    ∧ exchange (Some s) now (Some raw) token
      = Ok (mk_principal (pt_UserID t) (pt_DisplayName t) (pt_Rooms t) false sid
              (add (truncate_second (utc now)) (s_ttl s)),
            mk_cookie CookieName value "/" (add (truncate_second (utc now)) (s_ttl s))
              (s_ttl s / Second) true (s_cookieSecure s) true).
Proof.
  intros Hlook Hlen Hws Hraw Hnow. destruct (sok_table s Hs _ _ Hlook) as [Ht Hdn].
  eexists. destruct (session_id_ok raw _ Hraw eq_refl) as (_&Hp&H36&_).
  destruct (encode_fits t _ (unix (truncate_second (utc now)))
    (unix (add (truncate_second (utc now)) (s_ttl s))) Ht Hp H36) as [value Hv].
  exists value. split; [done|]. split; [exact Hv|].
  unfold exchange. rewrite mode_session, bool_decide_true by done. cbn [negb].
  replace ((len token <? minTokenBytes) || (MaxAccessTokenBytes <? len token)
    || contains_any token token_whitespace) with false by lia.
  rewrite Hlook. cbn [new_session_id mbind option_bind].
  change (new_session_id (Some raw)) with (Some ("sid_" +:+ of_bytes (hex raw))).
  cbv iota beta zeta. by rewrite Hv.
Qed.

(** The checks behind the signature pass for a session that was issued here. *)
Lemma check_session t raw sid now now' :
  template_ok t → random_ok raw → new_session_id (Some raw) = Some sid → clock_range now →
  t_ns now / Second * Second <= t_ns now' + Minute →
  t_ns now' < t_ns (truncate_second (add (truncate_second (utc now)) (s_ttl s))) →
  check_payload s now' (session_payload t sid now)
  = Ok (mk_principal (pt_UserID t) (pt_DisplayName t) (pt_Rooms t) false sid
          (truncate_second (add (truncate_second (utc now)) (s_ttl s)))).
Proof.
  intros Ht Hraw Hsid Hnow Hearly Hlate. destruct (session_id_ok raw sid Hraw Hsid) as (Hop&_&_&_).
  destruct (issued_second now Hnow) as [_ Hiat]. destruct (expiry_second now Hnow) as [Hexp _].
  assert (Hiss : t_ns (from_unix (unix (truncate_second (utc now)))) = t_ns now / Second * Second).
  { rewrite from_unix_unix; unfold truncate_second, utc; cbn [t_ns].
    - by rewrite Z.div_mul.
    - unfold clock_range, unixToInternal, Second in *. lia_div. }
  assert (Hutc : utc (from_unix (unix (add (truncate_second (utc now)) (s_ttl s))))
    = truncate_second (add (truncate_second (utc now)) (s_ttl s))).
  { unfold utc at 1. by rewrite Hexp. }
  destruct Hs as [_ _ Httl _].
  unfold check_payload, session_payload.
  cbn [sp_Version sp_SessionID sp_Subject sp_DisplayName sp_Rooms sp_IssuedAt sp_ExpiresAt].
  rewrite slice_value_full, normalize_principal_id by done. rewrite Hop. cbn [negb orb Z.eqb Pos.eqb].
  rewrite Hutc. replace (unix (truncate_second (utc now)) <=? 0) with false by lia.
  unfold after, sub_saturated. cbn [t_ns utc add]. rewrite Hiss.
  unfold truncate_second, add, utc in Hlate |- *. cbn [t_ns t_loc] in Hlate |- *.
  unfold minSessionTTL, maxSessionTTL, Hour, Minute, Second in *.
  replace (t_ns now' <? _) with true by lia. cbn [negb].
  replace (_ <? (t_ns now / 1000000000 * 1000000000 + s_ttl s) / 1000000000 * 1000000000) with true by lia_div.
  replace (t_ns now' + _ <? _) with false by lia. cbn [negb orb].
  replace (s_ttl s + 1000000000 <? _) with false by lia_div. done.
Qed.
(** From the second of its expiry on, it is refused as expired. *)
Lemma check_session_expired t raw sid now now' :
  template_ok t → random_ok raw → new_session_id (Some raw) = Some sid → clock_range now →
  t_ns (truncate_second (add (truncate_second (utc now)) (s_ttl s))) <= t_ns now' →
  check_payload s now' (session_payload t sid now) = Err ErrExpiredSession.
Proof.
  intros Ht Hraw Hsid Hnow Hlate. destruct (session_id_ok raw sid Hraw Hsid) as (Hop&_&_&_).
  destruct (expiry_second now Hnow) as [Hexp _]. unfold check_payload, session_payload.
  cbn [sp_Version sp_SessionID sp_Subject sp_DisplayName sp_Rooms sp_IssuedAt sp_ExpiresAt].
  rewrite slice_value_full, normalize_principal_id by done. rewrite Hop. cbn [negb orb Z.eqb Pos.eqb].
  unfold after. cbn [t_ns utc]. rewrite Hexp.
  by replace (t_ns now' <? _) with false by lia.
Qed.

(** ** What acceptance means *)

Lemma decode_signed value payload :
  decode s value = Some payload →
  ∃ encoded signature, cut value dot = Some (encoded, signature)
    ∧ base64_decode (bytes signature) = Some (hmac_sha256 (s_secret s) (bytes encoded)).
Proof.
  unfold decode. intros ([encoded signature]&Hcut&H)%bind_Some. exists encoded, signature.
  split; [done|]. destruct (_ || _ || _); [done|]. apply bind_Some in H as (mac&Hmac&H).
  destruct (bool_decide _) eqn:E in H; [|done]. apply bool_decide_eq_true in E. by subst mac.
Qed.

Lemma template_authenticated t sid e :
  template_ok t → sid ≠ "" →
  authenticated (mk_principal (pt_UserID t) (pt_DisplayName t) (pt_Rooms t) false sid e) = true.
Proof.
  intros [Hu _ _ _ _ _ _] Hsid. unfold authenticated. cbn [p_Anonymous p_UserID p_SessionID].
  assert (pt_UserID t ≠ "") by (intros He; by rewrite He in Hu).
  rewrite (bool_decide_false (pt_UserID t = "")), (bool_decide_false (sid = "")) by assumption.
  done.
Qed.

Lemma check_payload_inv now payload p :
  check_payload s now payload = Ok p →
  template_ok (mk_template (p_UserID p) (p_DisplayName p) (p_Rooms p))
  ∧ p_UserID p = trim_space (sp_Subject payload)
  ∧ p_SessionID p = sp_SessionID payload ∧ valid_opaque_id (p_SessionID p) "sid_" = true
  ∧ authenticated p = true
  ∧ t_ns now < t_ns (p_ExpiresAt p)
  ∧ t_ns (p_ExpiresAt p) - t_ns (from_unix (sp_IssuedAt payload)) <= s_ttl s + Second.
Proof.
  unfold check_payload. destruct (normalize_principal _ _ _) as [t|] eqn:Ht; [|done].
  apply normalize_principal_ok in Ht as (Htok&Hu&_).
  destruct (negb (sp_Version payload =? 1) || _) eqn:Hv; [done|].
  destruct (negb (after _ (utc now))) eqn:Hexp; [done|].
  destruct ((sp_IssuedAt payload <=? 0) || _ || _); [done|]. destruct (_ <? sub_saturated _ _) eqn:Hlife; [done|].
  intros [= <-]. cbn [p_UserID p_DisplayName p_Rooms p_SessionID p_ExpiresAt].
  apply orb_false_iff in Hv as [_ Hop]. apply negb_false_iff in Hop, Hexp. split_and!.
  - by destruct t.
  - done.
  - done.
  - done.
  - apply template_authenticated; [done|]. intros He. by rewrite He in Hop.
  - unfold after in Hexp. cbn [t_ns utc] in *. lia.
  - destruct Hs as [_ _ Httl _]. unfold sub_saturated in Hlife. cbn [t_ns utc] in *.
    unfold maxSessionTTL, minSessionTTL, Hour, Minute, Second in *. lia.
Qed.

(** An accepted request has a cookie whose payload passes the checks. *)
Lemma authenticate_inv now r p :
  authenticate (Some s) now r = Ok p →
  ∃ value payload, request_cookie r CookieName = Some value ∧ len value <= maxCookieBytes
    ∧ decode s value = Some payload ∧ check_payload s now payload = Ok p.
Proof.
  unfold authenticate. rewrite mode_session, bool_decide_false by done.
  destruct (request_cookie r CookieName) as [value|]; [|done].
  destruct (bool_decide (value = "") || _) eqn:Hlen; [done|].
  destruct (decode s value) as [payload|] eqn:Hd; [|done].
  intros Hok. exists value, payload. split_and!; try done. lia.
Qed.
End service.

Lemma new_service_secure cfg s : new_service cfg = Ok s → s_cookieSecure s = ac_CookieSecure cfg.
Proof.
  unfold new_service. intros H.
  repeat match goal with
  | H : (if ?b then _ else _) = Ok _ |- _ => destruct b
  | H : match ?x with Ok _ => _ | Err _ => _ end = Ok _ |- _ => destruct x
  end; simplify_eq; done.
Qed.
