(* ===== verification/AuthTheorems.v ===== *)
(** Sessions: the theorems, and a configured service they are applied to. *)
From S2P Require Import Prelude.
From S2P Require Import GoUnicode.
From S2P Require Import GoString.
From S2P Require Import GoTime.
From S2P Require Import Base64.
From S2P Require Import Json.
From S2P Require Import Sha256.
From S2P Require Import Http.
From S2P Require Import Rooms.
From S2P Require Import Events.
From S2P Require Import Auth.
From S2P Require Import AuthFacts.
Open Scope Z_scope.

Section facts.
Context (s : Service) (Hs : service_ok s).

(** A login that succeeded, taken apart. *)
Lemma exchange_inv now raw token p ck :
  random_ok raw → clock_range now → exchange (Some s) now (Some raw) token = Ok (p, ck) →
  ∃ t sid value,
    template_ok t ∧ utf8 (pt_DisplayName t)
    ∧ new_session_id (Some raw) = Some sid ∧ encode s (session_payload s t sid now) = Some value
    ∧ p = mk_principal (pt_UserID t) (pt_DisplayName t) (pt_Rooms t) false sid
            (add (truncate_second (utc now)) (s_ttl s))
    ∧ ck_Name ck = CookieName ∧ ck_Value ck = value.
Proof.
  intros Hraw Hnow Hex. pose proof Hex as H. unfold exchange in H.
  rewrite (mode_session s Hs), bool_decide_true in H by done. cbn [negb] in H.
  destruct (_ || contains_any _ _) eqn:Hc in H; [done|]. clear H.
  destruct (s_credentials s !! sha256 (bytes token)) as [t|] eqn:Hlook.
  - destruct (sok_table s Hs _ _ Hlook) as [Ht Hdn].
    destruct (exchange_known s Hs t token raw now) as (sid&value&Hsid&Hv&He); try done; [lia|lia|].
    rewrite He in Hex. simplify_eq. by exists t, sid, (ck_Value (mk_cookie CookieName value "/" (add (truncate_second (utc now)) (s_ttl s)) (s_ttl s / Second) true (s_cookieSecure s) true)).
  - unfold exchange in Hex. rewrite (mode_session s Hs), bool_decide_true, Hc, Hlook in Hex by done. done.
Qed.

Lemma authenticate_session r now value payload :
  request_cookie r CookieName = Some value → value ≠ "" → len value <= maxCookieBytes →
  decode s value = Some payload → authenticate (Some s) now r = check_payload s now payload.
Proof.
  intros Hr Hne Hlen Hd. unfold authenticate.
  rewrite (mode_session s Hs), bool_decide_false, Hr by done.
  rewrite bool_decide_false by done. replace (maxCookieBytes <? len value) with false by lia.
  by rewrite Hd.
Qed.
End facts.

(** C33: a session round trip.  The cookie a login returns authenticates, on any
    later request that carries it, as the very principal the login returned
    (its expiry rounded down to the second the cookie stores) for as long as the
    session lasts, and is refused as expired from that second on. *)
Theorem session_round_trip (s : Service) (now now' : time) (raw : list Z) (token : string)
    (p : Principal) (ck : cookie) (r : request)
    (Hs : service_ok s) (Hraw : random_ok raw) (Hnow : clock_range now)
    (Hlogin : exchange (Some s) now (Some raw) token = Ok (p, ck))
    (Hr : request_cookie r (ck_Name ck) = Some (ck_Value ck)) :
  let expiry := truncate_second (p_ExpiresAt p) in
  (t_ns now / Second * Second <= t_ns now' + Minute → t_ns now' < t_ns expiry →
   authenticate (Some s) now' r
   = Ok (mk_principal (p_UserID p) (p_DisplayName p) (p_Rooms p) (p_Anonymous p) (p_SessionID p) expiry))
  ∧ (t_ns expiry <= t_ns now' → authenticate (Some s) now' r = Err ErrExpiredSession).
Proof.
  destruct (exchange_inv s Hs now raw token p ck Hraw Hnow Hlogin)
    as (t&sid&value&Ht&Hdn&Hsid&Hv&->&Hname&Hval). rewrite Hname, Hval in Hr.
  pose proof (session_payload_ok s Hs t raw sid now Ht Hdn Hraw Hsid Hnow) as Hp.
  destruct (session_decodes s _ _ Hp Hv) as (Hd&Hne&Hlen).
  intros expiry. rewrite (authenticate_session s Hs r now' value _ Hr Hne Hlen Hd). split.
  - intros Hearly Hlate. by apply (check_session s Hs t raw).
  - intros Hlate. by apply (check_session_expired s Hs t raw).
Qed.

(** C34: what a session request proves.  When [Authenticate] accepts in session
    mode, the request carried a cookie of at most 4096 bytes whose signature is
    the HMAC of its text under the server's secret, and the signed payload holds
    a valid user id, a display name, between 1 and 64 distinct canonical rooms and
    a well-formed session id; the session has not expired, and it is no longer
    than the configured lifetime and a second. *)
Theorem authenticate_sound (s : Service) (now : time) (r : request) (p : Principal)
    (Hs : service_ok s) (Hok : authenticate (Some s) now r = Ok p) :
  ∃ value encoded signature payload,
    request_cookie r CookieName = Some value ∧ len value <= maxCookieBytes
    ∧ cut value dot = Some (encoded, signature)
    ∧ base64_decode (bytes signature) = Some (hmac_sha256 (s_secret s) (bytes encoded))
    ∧ decode s value = Some payload
    ∧ template_ok (mk_template (p_UserID p) (p_DisplayName p) (p_Rooms p))
    ∧ p_UserID p = trim_space (sp_Subject payload)
    ∧ p_SessionID p = sp_SessionID payload ∧ valid_opaque_id (p_SessionID p) "sid_" = true
    ∧ authenticated p = true
    ∧ t_ns now < t_ns (p_ExpiresAt p)
    ∧ t_ns (p_ExpiresAt p) - t_ns (from_unix (sp_IssuedAt payload)) <= s_ttl s + Second.
Proof.
  destruct (authenticate_inv s Hs now r p Hok) as (value&payload&Hr&Hlen&Hd&Hp).
  destruct (decode_signed s value payload Hd) as (encoded&signature&Hcut&Hmac).
  destruct (check_payload_inv s Hs now payload p Hp) as (Htok&Hu&Hsid&Hop&Hauth&Hexp&Hlife).
  by exists value, encoded, signature, payload.
Qed.

(** C35: every configured user can log in.  For a configuration [New] accepts in
    session mode, the token of each credential is exchanged, whatever the clock
    and the random bytes, for a session with that credential's normalised
    identity and rooms: in particular the cookie never exceeds its limit. *)
Theorem configured_users_log_in (cfg : AuthConfig) (s : Service) (l : list credential)
    (c : credential) (now : time) (raw : list Z)
    (Hnew : new_service cfg = Ok s) (Hmode : s_mode s = ModeSession)
    (Hl : decode_credentials (ac_CredentialsJSON cfg) = Ok l) (Hc : c ∈ l)
    (Hraw : random_ok raw) (Hnow : clock_range now) :
  ∃ t p ck,
    normalize_principal (cr_UserID c) (cr_DisplayName c) (slice_value (cr_Rooms c)) = Ok t
    ∧ exchange (Some s) now (Some raw) (cr_Token c) = Ok (p, ck)
    ∧ p_UserID p = pt_UserID t ∧ p_DisplayName p = pt_DisplayName t ∧ p_Rooms p = pt_Rooms t
    ∧ authenticated p = true
    ∧ len (ck_Value ck) <= maxCookieBytes ∧ ck_HttpOnly ck = true ∧ ck_SameSiteStrict ck = true
    ∧ ck_Secure ck = ac_CookieSecure cfg.
Proof.
  destruct (new_service_ok cfg s Hnew) as [Ha|(Hs&l'&Hl'&Hall)]; [by rewrite Ha in Hmode|].
  rewrite Hl in Hl'. simplify_eq. destruct (Hall c Hc) as ([Hlen Hws]&t&Ht&Hlook).
  destruct (exchange_known s Hs t (cr_Token c) raw now Hlook Hlen Hws Hraw Hnow)
    as (sid&value&Hsid&Hv&He).
  pose proof (normalize_principal_ok _ _ _ _ Ht) as (Htok&_&_).
  destruct (session_id_ok raw sid Hraw Hsid) as (_&_&_&Hsne).
  destruct (sok_table s Hs _ _ Hlook) as [_ Hdn].
  destruct (session_decodes s _ _ (session_payload_ok s Hs t raw sid now Htok Hdn Hraw Hsid Hnow) Hv)
    as (_&_&Hvl).
  eexists t, _, _. split; [done|]. split; [exact He|]. split_and!; try done.
  - apply template_authenticated; [done|done].
  - by apply new_service_secure in Hnew.
Qed.

(** C36: access to a room.  [Authorize] succeeds exactly when authentication
    does, the requested room has a canonical name, and the principal is anonymous
    or holds a grant for that name; it returns the authenticated principal. *)
Theorem authorize_exact (s : option Service) (now : time) (r : request) (room : string) (p : Principal) :
  authorize s now r room = Ok p ↔
  authenticate s now r = Ok p
  ∧ ∃ name, normalize_room room = Ok name ∧ (p_Anonymous p = true ∨ name ∈ p_Rooms p).
Proof.
  unfold authorize. destruct (authenticate s now r) as [q|e]; [|naive_solver].
  destruct (normalize_room room) as [name|e]; [|naive_solver].
  assert (Hin : existsb (λ allowed, bool_decide (allowed = name)) (p_Rooms q) = true ↔ name ∈ p_Rooms q).
  { rewrite existsb_exists. split.
    - intros (x&Hx&->%bool_decide_eq_true). by apply list_elem_of_In.
    - intros Hx%list_elem_of_In. exists name. by rewrite bool_decide_true. }
  destruct (p_Anonymous q) eqn:Ha, (existsb _ _); naive_solver.
Qed.

(** ** A configured service *)
Module AuthExample.

Definition alice_token : string := "alice-token-0123456789-0123456789".
Definition alice_json : json :=
  JObj [(bytes "token", json_string alice_token); (bytes "user_id", json_string " alice ");
        (bytes "display_name", json_string "Alice & Co");
        (bytes "rooms", JArr (json_string <$> [" Dev"; "general"; "dev"]))].
Definition config : AuthConfig :=
  mk_auth_config " Session" "0123456789abcdef0123456789abcdef"
    (of_bytes (print (JArr [alice_json]))) (90 * Minute) true.

Definition alice : credential :=
  mk_credential alice_token " alice " "Alice & Co" ([" Dev"; "general"; "dev"], 3%nat).

Definition service : Service :=
  ok_or (mk_service "" [] ∅ 0 false) (new_service config).
Definition random : list Z := [0; 17; 34; 51; 68; 85; 102; 119; 136; 153; 170; 187; 204; 221; 238; 255].
(** 2024-03-01 12:00:00.25 UTC, and a quarter of an hour later. *)
Definition noon : time := mk_time ((unixToInternal + 1709294400) * Second + 250000000) UTC.
Definition later : time := add noon (15 * Minute).
Definition next_day : time := add noon (24 * Hour).

Definition login : Principal * cookie :=
  ok_or (anonymous_principal, expired_cookie None)
    (exchange (Some service) noon (Some random) alice_token).
Definition return_visit : request :=
  mk_request "GET" "/api/messages" ∅ ∅ [("theme", "dark"); (CookieName, ck_Value login.2)] "10.0.0.7:5123".

Lemma service_new : new_service config = Ok service.
Proof. apply ok_or_ok. vm_compute. reflexivity. Qed.

Lemma service_session : s_mode service = ModeSession.
Proof. vm_compute. reflexivity. Qed.

Lemma service_well_formed : service_ok service.
Proof.
  destruct (new_service_ok config service service_new) as [Ha|[Hs _]]; [|exact Hs].
  rewrite service_session in Ha. discriminate Ha.
Qed.

Lemma random_is_ok : random_ok random.
Proof. split; [reflexivity|repeat constructor]. Qed.

Lemma noon_in_range : clock_range noon.
Proof. unfold clock_range. vm_compute. split; [discriminate|reflexivity]. Qed.

Lemma login_ok : exchange (Some service) noon (Some random) alice_token = Ok (login.1, login.2).
Proof. rewrite <- surjective_pairing. apply ok_or_ok. vm_compute. reflexivity. Qed.

Example cookie_value_length : len (ck_Value login.2) = 246.
Proof. vm_compute. reflexivity. Qed.

Example forged_cookie_refused :
  authenticate (Some service) later
    (mk_request "GET" "/" ∅ ∅ [(CookieName, "A" +:+ ck_Value login.2)] "") = Err ErrInvalidSession.
Proof. vm_compute. reflexivity. Qed.

Lemma returned : authenticate (Some service) later return_visit
  = Ok (mk_principal "alice" "Alice & Co" ["dev"; "general"] false
          "sid_00112233445566778899aabbccddeeff"
          (mk_time ((unixToInternal + 1709294400 + 90 * 60) * Second) UTC)).
Proof. vm_compute. reflexivity. Qed.
End AuthExample.

Lemma session_round_trip_witness :
  authenticate (Some AuthExample.service) AuthExample.later AuthExample.return_visit
  = Ok (mk_principal (p_UserID AuthExample.login.1) (p_DisplayName AuthExample.login.1)
          (p_Rooms AuthExample.login.1) (p_Anonymous AuthExample.login.1)
          (p_SessionID AuthExample.login.1) (truncate_second (p_ExpiresAt AuthExample.login.1)))
  ∧ authenticate (Some AuthExample.service) AuthExample.next_day AuthExample.return_visit
    = Err ErrExpiredSession.
Proof.
  split.
  - apply (session_round_trip _ AuthExample.noon _ AuthExample.random AuthExample.alice_token _
      AuthExample.login.2 _ AuthExample.service_well_formed AuthExample.random_is_ok
      AuthExample.noon_in_range AuthExample.login_ok).
    + vm_compute. reflexivity.
    + vm_compute. discriminate.
    + vm_compute. reflexivity.
  - apply (session_round_trip _ AuthExample.noon _ AuthExample.random AuthExample.alice_token _
      AuthExample.login.2 _ AuthExample.service_well_formed AuthExample.random_is_ok
      AuthExample.noon_in_range AuthExample.login_ok).
    + vm_compute. reflexivity.
    + vm_compute. discriminate.
Defined.

Lemma authenticate_sound_witness :
  ∃ value encoded signature payload,
    request_cookie AuthExample.return_visit CookieName = Some value ∧ len value <= maxCookieBytes
    ∧ cut value dot = Some (encoded, signature)
    ∧ base64_decode (bytes signature)
      = Some (hmac_sha256 (s_secret AuthExample.service) (bytes encoded))
    ∧ decode AuthExample.service value = Some payload
    ∧ template_ok (mk_template "alice" "Alice & Co" ["dev"; "general"])
    ∧ "alice" = trim_space (sp_Subject payload).
Proof.
  destruct (authenticate_sound _ _ _ _ AuthExample.service_well_formed AuthExample.returned)
    as (value&encoded&signature&payload&H1&H2&H3&H4&H5&H6&H7&_).
  exists value, encoded, signature, payload. split_and!; assumption.
Defined.

Lemma configured_users_log_in_witness :
  ∃ t p ck,
    normalize_principal " alice " "Alice & Co" [" Dev"; "general"; "dev"] = Ok t
    ∧ exchange (Some AuthExample.service) AuthExample.noon (Some AuthExample.random)
        AuthExample.alice_token = Ok (p, ck)
    ∧ p_UserID p = pt_UserID t ∧ authenticated p = true ∧ len (ck_Value ck) <= maxCookieBytes
    ∧ ck_Secure ck = true.
Proof.
  destruct (configured_users_log_in AuthExample.config AuthExample.service [AuthExample.alice]
    AuthExample.alice AuthExample.noon AuthExample.random AuthExample.service_new
    AuthExample.service_session ltac:(vm_compute; reflexivity) ltac:(left)
    AuthExample.random_is_ok AuthExample.noon_in_range)
    as (t&p&ck&H1&H2&H3&_&_&H4&H5&_&_&H6).
  exists t, p, ck. split_and!; assumption.
Defined.
