(* ===== verification/Sqlite.v ===== *)
(** The SQLite repository ([DB] of [db/database.go]).

    The tables are lists of rows in insertion order with the AUTOINCREMENT
    counter of each; every statement of the source is a function on them.  The
    driver and the SQL function [julianday] are the parameter [SqliteDriver]. *)
From S2P Require Import Prelude.
From S2P Require Import GoUnicode.
From S2P Require Import GoString.
From S2P Require Import GoTime.
From S2P Require Import Rooms.
From S2P Require Import Storage.
Open Scope Z_scope.

(** go-sqlite3 and SQLite: the stored form of a timestamp, how a bound
    [time.Time] and a bound string become one, the string [Scan] produces for
    it, and [julianday] of it (NULL when it is no date).  [zone] is the
    process time zone. *)
Class SqliteDriver := {
  column : Type;
  bind_time : time → column;
  bind_text : string → column;
  scan_string : column → string;
  julianday : column → option Z;
  zone : Z → Z * Z * Z
}.

(** The documented behaviour relied on: a bound time is scanned back as the
    RFC 3339 text of the same instant, and [julianday] orders bound times and
    RFC 3339 texts alike, by a monotone function of the instant (its resolution
    is coarser than a nanosecond). *)
Class SqliteDriverLaws `{SqliteDriver} := {
  jd : Z → Z;
  jd_mono a b : a <= b → jd a <= jd b;
  julianday_bind t : four_digit_year t → julianday (bind_time (utc t)) = Some (jd (t_ns t));
  julianday_text t :
    four_digit_year t →
    julianday (bind_text (format_rfc3339nano zone (utc t))) = Some (jd (t_ns t));
  scan_bind t :
    four_digit_year t → scan_string (bind_time (utc t)) = format_rfc3339nano zone (utc t)
}.

Section sqlite.
Context `{SqliteDriver}.

(** A row of [messages] and of [moderation_audit_log]. *)
Record MessageRow := mk_message_row {
  sr_id : Z; sr_room : string; sr_user_id : string; sr_username : string;
  sr_content : string; sr_type : string; sr_timestamp : column
}.

Record AuditRow := mk_audit_row {
  ar_id : Z; ar_session_id : string; ar_user_id : string; ar_username : string;
  ar_reason : string; ar_content_preview : string; ar_content_length : Z;
  ar_timestamp : column
}.

(** The two tables with their [sqlite_sequence] counters. *)
Record DB := mk_db {
  db_messages : list MessageRow;
  db_messages_seq : Z;
  db_audit : list AuditRow;
  db_audit_seq : Z
}.

Definition empty_db : DB := mk_db [] 0 [] 0.

(** [parseMsgTimestamp]. *)
Definition parse_msg_timestamp (s : string) : option time :=
  match parse zone RFC3339Nano s UTC with
  | Some t => Some t
  | None =>
    match parse zone RFC3339 s UTC with
    | Some t => Some t
    | None =>
      match parse zone DateTime s Local with
      | Some t => Some t
      | None => parse zone DateTimeNanoZone s Local
      end
    end
  end.

(** [SaveMessageForUserInRoomContext].  Driver calls: 0 prepare, 1 exec,
    2 last insert id. *)
Definition sqlite_save (c : call) (db : DB) (room userID username content msgType : string) :
    result db_error Message * DB :=
  match normalize_room room with
  | Err e => (Err (InvalidRoomName e), db)
  | Ok room =>
    if decide (msgType = "username") then
      (Ok (mk_message 0 userID username content msgType room (utc (c_now c))), db)
    else if fails c 0 then (Err DriverError, db)
    else if max_int64 <=? db_messages_seq db then (Err DriverError, db)
    else
      let now := utc (c_now c) in
      let id := db_messages_seq db + 1 in
      let row := mk_message_row id room userID username content msgType (bind_time now) in
      let db' := mk_db (db_messages db ++ [row]) id (db_audit db) (db_audit_seq db) in
      if fails c 1 then (Err DriverError, match c_effect c with Applied => db' | _ => db end)
      else if fails c 2 then (Err DriverError, db')
      else (Ok (mk_message id userID username content msgType room now), db')
  end.

(** One iteration of [for rows.Next()]. *)
Definition scan_row (c : call) (r : MessageRow) : Message :=
  mk_message (sr_id r) (sr_user_id r) (sr_username r) (sr_content r) (sr_type r) (sr_room r)
    match parse_msg_timestamp (scan_string (sr_timestamp r)) with
    | Some ts => ts
    | None => utc (c_now c)
    end.

Definition row_rank (r : MessageRow) : option Z := julianday (sr_timestamp r).

(** [GetRecentMessagesInRoomContext]. *)
Definition sqlite_recent (c : call) (db : DB) (room : string) (limit : Z) :
    result db_error (list Message) :=
  match normalize_room room with
  | Err e => Err (InvalidRoomName e)
  | Ok room =>
    read_messages (scan_row c) c
      (sqlite_limit limit
        (order_by_desc row_rank sr_id (List.filter (in_room sr_room room) (db_messages db))))
  end.

(** [GetMessagesBeforeInRoomContext]. *)
Definition sqlite_before (c : call) (db : DB) (room : string) (before : time) (beforeID limit : Z) :
    result db_error (list Message) :=
  match normalize_room room with
  | Err e => Err (InvalidRoomName e)
  | Ok room =>
    let cursor := julianday (bind_time (utc before)) in
    read_messages (scan_row c) c
      (sqlite_limit limit
        (order_by_desc row_rank sr_id
          (List.filter (λ r, in_room sr_room room r && older_than row_rank sr_id cursor beforeID r)
            (db_messages db))))
  end.

(** [SaveModerationEventForUserContext]. *)
Definition sqlite_save_audit (c : call) (db : DB)
    (sessionID userID username reason content : string) :
    result db_error ModerationEvent * DB :=
  let contentPreview := truncate_runes content maxAuditPreviewRunes in
  let contentLength := rune_count content in
  let now := utc (c_now c) in
  if fails c 0 then (Err DriverError, db)
  else if max_int64 <=? db_audit_seq db then (Err DriverError, db)
  else
    let id := db_audit_seq db + 1 in
    let row := mk_audit_row id sessionID userID username reason contentPreview contentLength
                 (bind_time now) in
    let db' := mk_db (db_messages db) (db_messages_seq db) (db_audit db ++ [row]) id in
    if fails c 1 then (Err DriverError, match c_effect c with Applied => db' | _ => db end)
    else if fails c 2 then (Err DriverError, db')
    else (Ok (mk_moderation_event id sessionID userID username reason contentPreview
                contentLength now), db').

(** The argument of both retention statements:
    [cutoff.UTC().Format(time.RFC3339Nano)]. *)
Definition cutoff_day (cutoff : time) : option Z :=
  julianday (bind_text (format_rfc3339nano zone (utc cutoff))).

(** [PruneMessagesBeforeContext].  Driver calls: 0 exec, 1 rows affected. *)
Definition sqlite_prune_messages (c : call) (db : DB) (cutoff : time) : result db_error Z * DB :=
  let doomed r := sql_lt (row_rank r) (cutoff_day cutoff) in
  let db' := mk_db (List.filter (λ r, negb (doomed r)) (db_messages db)) (db_messages_seq db)
               (db_audit db) (db_audit_seq db) in
  if fails c 0 then (Err DriverError, match c_effect c with Applied => db' | _ => db end)
  else if fails c 1 then (Err DriverError, db')
  else (Ok (Z.of_nat (length (List.filter doomed (db_messages db)))), db').

(** [PruneModerationEventsBeforeContext]. *)
Definition sqlite_prune_audit (c : call) (db : DB) (cutoff : time) : result db_error Z * DB :=
  let doomed r := sql_lt (julianday (ar_timestamp r)) (cutoff_day cutoff) in
  let db' := mk_db (db_messages db) (db_messages_seq db)
               (List.filter (λ r, negb (doomed r)) (db_audit db)) (db_audit_seq db) in
  if fails c 0 then (Err DriverError, match c_effect c with Applied => db' | _ => db end)
  else if fails c 1 then (Err DriverError, db')
  else (Ok (Z.of_nat (length (List.filter doomed (db_audit db)))), db').

(** [sql.DB.PingContext], embedded in [DB]. *)
Definition sqlite_ping (c : call) (db : DB) : bool := negb (fails c 0).

#[export] Instance sqlite_repository : Repository DB := {
  SaveMessageForUserInRoomContext := sqlite_save;
  GetRecentMessagesInRoomContext := sqlite_recent;
  GetMessagesBeforeInRoomContext := sqlite_before;
  SaveModerationEventForUserContext := sqlite_save_audit;
  PruneMessagesBeforeContext := sqlite_prune_messages;
  PruneModerationEventsBeforeContext := sqlite_prune_audit;
  PingContext := sqlite_ping
}.
End sqlite.

(** ** The invariant of the stored rows *)
Section invariant.
Context `{SqliteDriver} `{!SqliteDriverLaws}.
Implicit Types (c : call) (db : DB).

Definition stored_time (ts : column) (t : time) : Prop :=
  four_digit_year t ∧ parse_msg_timestamp (scan_string ts) = Some t
  ∧ julianday ts = Some (jd (t_ns t)).

(** Room histories: the messages of a room, oldest first. *)
Definition quiet : call := mk_call zero_time 0 None NoEffect.
Definition instant_key (t : time) : Z := jd (t_ns t).
Definition sqlite_history (db : DB) (room : string) : list Message :=
  table_history sr_id sr_room row_rank (scan_row quiet) (db_messages db) room.

Record db_wf (db : DB) : Prop := mk_db_wf {
  wf_seq : 0 <= db_messages_seq db <= max_int64;
  wf_nodup : NoDup (sr_id <$> db_messages db);
  wf_ids r : r ∈ db_messages db → 1 <= sr_id r <= db_messages_seq db;
  wf_times r : r ∈ db_messages db → ∃ t, stored_time (sr_timestamp r) t;
  wf_rooms r : r ∈ db_messages db → normalize_room (sr_room r) = Ok (sr_room r)
}.

Lemma stored_bind t : four_digit_year t → stored_time (bind_time (utc t)) (utc t).
Proof.
  intros Ht. split; [done|]. split; [|by apply (julianday_bind t)].
  unfold parse_msg_timestamp. by rewrite scan_bind, parse_format.
Qed.

Lemma empty_db_wf : db_wf empty_db.
Proof. split; simpl; try set_solver; [done|constructor]. Qed.

Lemma scan_row_stored c r t :
  stored_time (sr_timestamp r) t →
  row_Timestamp (scan_row c r) = t ∧ row_rank r = Some (instant_key t).
Proof. intros (_&Hp&Hj). unfold row_rank. simpl. by rewrite Hp. Qed.

Lemma scan_row_clock c c' r t : stored_time (sr_timestamp r) t → scan_row c r = scan_row c' r.
Proof. intros (_&Hp&_). unfold scan_row. by rewrite Hp. Qed.

Lemma db_rows_ok db :
  db_wf db → rows_ok sr_id sr_room row_rank instant_key (scan_row quiet) (db_messages db).
Proof.
  intros Hwf. split; [apply Hwf|]. intros r Hr. destruct (wf_times _ Hwf r Hr) as [t Ht].
  destruct (scan_row_stored quiet r t Ht) as [E1 E2]. split; [by rewrite E1|done].
Qed.

(** The clock of the reading process does not matter. *)
Lemma scan_page c db p n :
  db_wf db →
  let page := reverse (take n (order_by_desc row_rank sr_id (List.filter p (db_messages db)))) in
  scan_row c <$> page = scan_row quiet <$> page.
Proof.
  intros Hwf page. apply list_fmap_ext. intros i r Hr%list_elem_of_lookup_2.
  unfold page in Hr. rewrite elem_of_reverse in Hr.
  apply (elem_of_sublist _ (order_by_desc row_rank sr_id (List.filter p (db_messages db)))) in Hr;
    [|apply sublist_take].
  rewrite order_by_desc_perm, elem_of_filter_bool in Hr. destruct Hr as [_ Hr].
  destruct (wf_times _ Hwf r Hr) as [t Ht]. by eapply scan_row_clock.
Qed.

Lemma sqlite_history_sorted db room :
  db_wf db → StronglySorted (msg_lt instant_key) (sqlite_history db room).
Proof. intros. by apply table_history_sorted, db_rows_ok. Qed.

Lemma sqlite_history_elem db room m :
  db_wf db → m ∈ sqlite_history db room →
  four_digit_year (row_Timestamp m) ∧ row_Room m = room ∧ 1 <= row_ID m <= max_int64.
Proof.
  intros Hwf Hm. eapply elem_of_table_history in Hm as (r&Hr&->&Hroom&Hid); [|by apply db_rows_ok].
  destruct (wf_times _ Hwf r Hr) as [t Ht]. destruct (scan_row_stored quiet r t Ht) as [-> _].
  rewrite Hid. split; [apply Ht|]. split; [done|].
  pose proof (wf_seq _ Hwf). apply (wf_ids _ Hwf) in Hr. lia.
Qed.

Lemma sqlite_limit_take {A} n (l : list A) : 0 <= n → sqlite_limit n l = take (Z.to_nat n) l.
Proof. intros. unfold sqlite_limit. by replace (n <? 0) with false by lia. Qed.

Lemma sqlite_recent_spec c db room r n :
  healthy c → db_wf db → normalize_room room = Ok r → 0 <= n →
  sqlite_recent c db room n = Ok (last_n (Z.to_nat n) (sqlite_history db r)).
Proof.
  intros Hc Hwf Hr Hn. unfold sqlite_recent.
  rewrite Hr, sqlite_limit_take, read_messages_healthy, scan_page by done.
  by rewrite table_recent.
Qed.

Lemma sqlite_before_spec c db room r t i n :
  healthy c → db_wf db → normalize_room room = Ok r → four_digit_year t → 0 <= n →
  sqlite_before c db room t i n
  = Ok (last_n (Z.to_nat n)
          (List.filter (msg_before instant_key t i) (sqlite_history db r))).
Proof.
  intros Hc Hwf Hr Ht Hn. unfold sqlite_before.
  rewrite Hr, sqlite_limit_take, read_messages_healthy, scan_page, julianday_bind by done.
  change (Some (jd (t_ns t))) with (Some (instant_key t)).
  by rewrite (table_before _ _ _ _ _ _ _ _ _ _ (db_rows_ok db Hwf)).
Qed.
End invariant.

(** ** Writes *)
Section writes.
Context `{SqliteDriver}.
Implicit Types (c : call) (db : DB).

(** The state a successful insert leaves. *)
Definition insert_message (c : call) (db : DB) (room user name content ty : string) : DB :=
  let id := db_messages_seq db + 1 in
  mk_db (db_messages db
         ++ [mk_message_row id room user name content ty (bind_time (utc (c_now c)))])
    id (db_audit db) (db_audit_seq db).

Definition insert_audit (c : call) (db : DB) (sid user name reason content : string) : DB :=
  let id := db_audit_seq db + 1 in
  mk_db (db_messages db) (db_messages_seq db)
    (db_audit db
     ++ [mk_audit_row id sid user name reason (truncate_runes content maxAuditPreviewRunes)
           (rune_count content) (bind_time (utc (c_now c)))]) id.

Definition delete_messages (db : DB) (cutoff : time) : DB :=
  mk_db (List.filter (λ r, negb (sql_lt (row_rank r) (cutoff_day cutoff))) (db_messages db))
    (db_messages_seq db) (db_audit db) (db_audit_seq db).

Definition delete_audit (db : DB) (cutoff : time) : DB :=
  mk_db (db_messages db) (db_messages_seq db)
    (List.filter (λ r, negb (sql_lt (julianday (ar_timestamp r)) (cutoff_day cutoff)))
       (db_audit db)) (db_audit_seq db).

(** Whatever fails, a write either leaves the database alone or has its whole
    effect. *)
Lemma sqlite_save_state c db room user name content ty res db' :
  sqlite_save c db room user name content ty = (res, db') →
  db' = db
  ∨ ∃ r, normalize_room room = Ok r ∧ ty ≠ "username" ∧ db_messages_seq db < max_int64
      ∧ db' = insert_message c db r user name content ty.
Proof.
  unfold sqlite_save, insert_message.
  repeat case_match; intros [= <- <-]; auto; right; eexists; repeat split; done || lia.
Qed.

Lemma sqlite_save_audit_state c db sid user name reason content res db' :
  sqlite_save_audit c db sid user name reason content = (res, db') →
  db' = db ∨ db' = insert_audit c db sid user name reason content.
Proof. unfold sqlite_save_audit. repeat case_match; intros [= <- <-]; auto. Qed.

Lemma sqlite_prune_messages_state c db cutoff res db' :
  sqlite_prune_messages c db cutoff = (res, db') → db' = db ∨ db' = delete_messages db cutoff.
Proof. unfold sqlite_prune_messages. repeat case_match; intros [= <- <-]; auto. Qed.

Lemma sqlite_prune_audit_state c db cutoff res db' :
  sqlite_prune_audit c db cutoff = (res, db') → db' = db ∨ db' = delete_audit db cutoff.
Proof. unfold sqlite_prune_audit. repeat case_match; intros [= <- <-]; auto. Qed.

End writes.

Section preservation.
Context `{SqliteDriver} `{!SqliteDriverLaws}.
Implicit Types (c : call) (db : DB).

Lemma insert_message_wf c db room r user name content ty :
  db_wf db → four_digit_year (c_now c) → normalize_room room = Ok r →
  db_messages_seq db < max_int64 →
  db_wf (insert_message c db r user name content ty).
Proof.
  intros Hwf Hnow Hr Hseq. pose proof (wf_seq _ Hwf). unfold insert_message.
  split; cbn [db_messages db_messages_seq].
  - lia.
  - rewrite fmap_app. apply NoDup_app. split; [apply Hwf|]. split; [|by repeat constructor; set_solver].
    intros i (x & -> & Hx)%list_elem_of_fmap. apply (wf_ids _ Hwf) in Hx.
    csimpl. rewrite list_elem_of_singleton. lia.
  - intros x [Hx| ->%list_elem_of_singleton]%elem_of_app; [|simpl; lia].
    apply (wf_ids _ Hwf) in Hx. lia.
  - intros x [Hx| ->%list_elem_of_singleton]%elem_of_app; [by apply (wf_times _ Hwf)|].
    eexists. by apply stored_bind.
  - intros x [Hx| ->%list_elem_of_singleton]%elem_of_app; [by apply (wf_rooms _ Hwf)|].
    by eapply normalize_room_canonical, normalize_room_ok.
Qed.

Lemma delete_messages_wf db cutoff : db_wf db → db_wf (delete_messages db cutoff).
Proof.
  intros Hwf. unfold delete_messages. split; cbn [db_messages db_messages_seq].
  - apply Hwf.
  - apply NoDup_fmap_filter_bool, Hwf.
  - intros x [_ Hx]%elem_of_filter_bool. by apply (wf_ids _ Hwf).
  - intros x [_ Hx]%elem_of_filter_bool. by apply (wf_times _ Hwf).
  - intros x [_ Hx]%elem_of_filter_bool. by apply (wf_rooms _ Hwf).
Qed.

Lemma same_messages_wf db rows seq :
  db_wf db → db_wf (mk_db (db_messages db) (db_messages_seq db) rows seq).
Proof. intros []. by split. Qed.

Lemma sqlite_write_wf c db w :
  db_wf db → four_digit_year (c_now c) → db_wf (run_write c db w).
Proof.
  intros Hwf Hnow. destruct w as [room user name content ty|sid user name reason content|t|t]; simpl.
  - destruct (sqlite_save _ _ _ _ _ _ _) as [res db'] eqn:E.
    apply sqlite_save_state in E as [->|(r & ? & ? & ? & ->)]; [done|]. by eapply insert_message_wf.
  - destruct (sqlite_save_audit _ _ _ _ _ _ _) as [res db'] eqn:E.
    apply sqlite_save_audit_state in E as [->| ->]; [done|]. by apply same_messages_wf.
  - destruct (sqlite_prune_messages _ _ _) as [res db'] eqn:E.
    apply sqlite_prune_messages_state in E as [->| ->]; [done|]. by apply delete_messages_wf.
  - destruct (sqlite_prune_audit _ _ _) as [res db'] eqn:E.
    apply sqlite_prune_audit_state in E as [->| ->]; [done|]. by apply same_messages_wf.
Qed.

(** Ids grow: a row is kept from before or its id is fresh. *)
Lemma sqlite_write_fresh c db w :
  db_messages_seq db <= db_messages_seq (run_write c db w)
  ∧ ∀ r, r ∈ db_messages (run_write c db w) →
      r ∈ db_messages db ∨ db_messages_seq db < sr_id r.
Proof.
  destruct w as [room user name content ty|sid user name reason content|t|t]; simpl.
  - destruct (sqlite_save _ _ _ _ _ _ _) as [res db'] eqn:E.
    apply sqlite_save_state in E as [->|(r & ? & ? & ? & ->)]; [split; by auto with lia|]. simpl.
    split; [lia|]. intros x [Hx| ->%list_elem_of_singleton]%elem_of_app; [by left|right; simpl; lia].
  - destruct (sqlite_save_audit _ _ _ _ _ _ _) as [res db'] eqn:E.
    apply sqlite_save_audit_state in E as [->| ->]; simpl; split; by auto with lia.
  - destruct (sqlite_prune_messages _ _ _) as [res db'] eqn:E.
    apply sqlite_prune_messages_state in E as [->| ->]; simpl; [split; by auto with lia|].
    split; [done|]. intros x [_ Hx]%elem_of_filter_bool. by left.
  - destruct (sqlite_prune_audit _ _ _) as [res db'] eqn:E.
    apply sqlite_prune_audit_state in E as [->| ->]; simpl; split; by auto with lia.
Qed.

Lemma sqlite_run_fresh db ws :
  db_messages_seq db <= db_messages_seq (run_writes db ws)
  ∧ ∀ r, r ∈ db_messages (run_writes db ws) → r ∈ db_messages db ∨ db_messages_seq db < sr_id r.
Proof.
  revert db. induction ws as [|[c w] ws IH]; intros db; [split; simpl; by auto with lia|].
  destruct (IH (run_write c db w)) as [Hseq Hrows], (sqlite_write_fresh c db w) as [Hs Hr].
  split; [simpl; lia|]. intros r [H1|H1]%Hrows; [by apply Hr|right; simpl in *; lia].
Qed.

Lemma sqlite_run_wf db ws :
  db_wf db → Forall (λ cw, four_digit_year (c_now cw.1)) ws → db_wf (run_writes db ws).
Proof.
  intros Hwf Hws. apply (run_writes_invariant db_wf (λ c, four_digit_year (c_now c))); [|done..].
  intros c s w Hc Hs. by apply sqlite_write_wf.
Qed.

(** The history after an insert. *)
Lemma insert_history_same c db r user name content ty :
  four_digit_year (c_now c) →
  sqlite_history (insert_message c db r user name content ty) r
  ≡ₚ mk_message (db_messages_seq db + 1) user name content ty r (utc (c_now c))
     :: sqlite_history db r.
Proof.
  intros Hnow. unfold sqlite_history, insert_message. cbn [db_messages].
  set (row := mk_message_row _ _ _ _ _ _ _).
  pose proof (table_insert_same sr_id sr_room row_rank (scan_row quiet) (db_messages db) row) as E.
  cbn [sr_room row] in E. rewrite E. unfold scan_row at 1. cbn.
  by destruct (stored_bind (c_now c) Hnow) as (_&->&_).
Qed.

Lemma insert_history_other c db r r' user name content ty :
  r' ≠ r →
  sqlite_history (insert_message c db r user name content ty) r' = sqlite_history db r'.
Proof. intros Hne. by apply table_insert_other. Qed.

Definition sqlite_can_save (c : call) (db : DB) (_ _ _ _ : string) : Prop :=
  four_digit_year (c_now c) ∧ db_messages_seq db < max_int64.

Lemma sqlite_save_healthy c db room r user name content ty :
  healthy c → db_messages_seq db < max_int64 → normalize_room room = Ok r → ty ≠ "username" →
  sqlite_save c db room user name content ty
  = (Ok (mk_message (db_messages_seq db + 1) user name content ty r (utc (c_now c))),
     insert_message c db r user name content ty).
Proof.
  intros Hc Hseq Hr Hty. unfold sqlite_save. rewrite Hr, decide_False by done.
  rewrite !healthy_fails by done. by replace (max_int64 <=? db_messages_seq db) with false by lia.
Qed.

(** The SQLite backend fulfils the history contract. *)
#[export] Program Instance sqlite_contract : HistoryContract DB := {
  hist_rank := instant_key;
  hist_time := four_digit_year;
  hist_wf := db_wf;
  hist_can_save := sqlite_can_save;
  history := sqlite_history;
  hist_sorted := sqlite_history_sorted;
  hist_elem := sqlite_history_elem;
  hist_time_year t Ht := Ht;
  hist_utc t := conj eq_refl id;
  hist_recent := sqlite_recent_spec;
  hist_before := sqlite_before_spec
}.
Next Obligation.
  intros c db room r user name content ty Hc Hwf [Hnow Hseq] Hr Hty.
  do 2 eexists. split; [by apply sqlite_save_healthy|].
  split; [by eapply insert_message_wf|]. split; [done|].
  split; [by apply insert_history_same|]. split; [|intros; by apply insert_history_other].
  intros m' Hm. eapply elem_of_table_history in Hm as (x&Hx&->&_&->); [|by apply db_rows_ok].
  apply (wf_ids _ Hwf) in Hx. simpl. lia.
Qed.
End preservation.

(** No read leaks another room. *)
#[export] Instance sqlite_room_scoped `{SqliteDriver} : RoomScoped DB.
Proof.
  assert (Hlim : ∀ n rm p rows, (∀ r, p r = true → in_room sr_room rm r = true) →
    Forall (λ r, sr_room r = rm) (sqlite_limit n (order_by_desc row_rank sr_id (List.filter p rows)))).
  { intros n rm p rows Hp. unfold sqlite_limit. case_match; [|apply Forall_take]; by apply in_room_rows. }
  split; simpl.
  - intros c db room r n ms Hr. unfold sqlite_recent. rewrite Hr.
    apply (read_messages_room sr_room); [done|]. by apply Hlim.
  - intros c db room r t i n ms Hr. unfold sqlite_before. rewrite Hr. cbv zeta.
    apply (read_messages_room sr_room); [done|]. apply Hlim. by intros x [? _]%andb_true_iff.
Qed.

(** ** A concrete driver

    Timestamps are stored as RFC 3339 text, [julianday] has the resolution of a
    millisecond, the process runs in UTC. *)
Definition utc_zone (_ : Z) : Z * Z * Z := (0, 0, 0).

Definition text_driver : SqliteDriver := {|
  column := string;
  bind_time := format_rfc3339nano utc_zone;
  bind_text := id;
  scan_string := id;
  julianday s := (λ t, t_ns t / 1000000) <$> parse utc_zone RFC3339Nano s UTC;
  zone := utc_zone
|}.

Program Definition text_driver_laws : @SqliteDriverLaws text_driver := {|
  jd := λ ns, ns / 1000000
|}.
Next Obligation. intros. by apply Z.div_le_mono. Qed.
Next Obligation. intros t Ht. cbn [julianday bind_time text_driver]. by rewrite parse_format. Qed.
Next Obligation.
  intros t Ht. cbn [julianday bind_text text_driver]. unfold id. by rewrite parse_format.
Qed.
Next Obligation. done. Qed.

(** Two messages and an audit row, one second apart. *)
Module Example.
#[local] Existing Instances text_driver text_driver_laws.

Definition at_second (s : Z) : time := mk_time (s * Second) UTC.
Definition call_at (s : Z) : call := mk_call (at_second s) 0 None NoEffect.

Definition writes : list (call * write) :=
  [(call_at 100, WSave "general" "u1" "ana" "hello" "message");
   (call_at 101, WSave " GENERAL" "u2" "bob" "hi" "message");
   (mk_call (at_second 102) 0 (Some 1%nat) Applied, WSave "go" "u1" "ana" "lost ack" "message");
   (call_at 103, WSaveAudit "s1" "u1" "ana" "blocked" "text")].

Definition db : DB := run_writes empty_db writes.

Lemma clocks : Forall (λ cw, four_digit_year (c_now cw.1)) writes.
Proof. unfold four_digit_year. repeat constructor; vm_compute; discriminate. Qed.

Lemma db_ok : db_wf db.
Proof. apply sqlite_run_wf; [apply empty_db_wf|apply clocks]. Qed.

Lemma hundred_ok : four_digit_year (at_second 101).
Proof. split; vm_compute; discriminate. Qed.
End Example.

(** ** Properties *)
Section properties.
Context `{SqliteDriver} `{!SqliteDriverLaws}.
Implicit Types (c : call) (db : DB).

(** C22: whatever writes ran against a fresh database, and whatever driver calls
    failed half-way, ids are unique and within the AUTOINCREMENT counter, rooms
    are canonical, timestamps can be read back, and no later write reuses the id
    of an earlier row, deleted or not. *)
Theorem sqlite_run_invariant ws ws' :
  Forall (λ cw, four_digit_year (c_now cw.1)) (ws ++ ws') →
  let db := run_writes empty_db ws in
  let db' := run_writes db ws' in
  db_wf db ∧ db_wf db'
  ∧ ∀ r, r ∈ db_messages db' → r ∈ db_messages db ∨ db_messages_seq db < sr_id r.
Proof.
  intros [Hws Hws']%Forall_app. cbv zeta.
  assert (Hwf : db_wf (run_writes empty_db ws)) by (apply sqlite_run_wf; [apply empty_db_wf|done]).
  split; [done|]. split; [by apply sqlite_run_wf|]. apply sqlite_run_fresh.
Qed.

(** C4: with no failure a history page is exact: the newest [limit] messages of
    the room strictly older than the cursor, instant first and id second, in
    chronological order; the reversal and the SQL comparison are both right. *)
Theorem sqlite_page_exact c db room r cursor beforeID limit :
  healthy c → db_wf db → normalize_room room = Ok r → four_digit_year cursor → 0 <= limit →
  sqlite_before c db room cursor beforeID limit
  = Ok (last_n (Z.to_nat limit)
          (List.filter (msg_before instant_key cursor beforeID) (sqlite_history db r)))
  ∧ sqlite_recent c db room limit = Ok (last_n (Z.to_nat limit) (sqlite_history db r))
  ∧ StronglySorted (msg_lt instant_key) (sqlite_history db r).
Proof.
  intros Hc Hwf Hr Ht Hn. split; [by apply sqlite_before_spec|].
  split; [by apply sqlite_recent_spec|by apply sqlite_history_sorted].
Qed.

(** A read never returns part of its result set: it succeeds exactly when
    no driver call of it fails (query, one scan per row, the final [Err]), and
    then with every row. *)
Theorem sqlite_read_all_or_nothing c db room r limit :
  normalize_room room = Ok r →
  let rows := sqlite_limit limit
    (order_by_desc row_rank sr_id (List.filter (in_room sr_room r) (db_messages db))) in
  (∀ ms, sqlite_recent c db room limit = Ok ms → length ms = length rows
    ∧ ∀ i, (i <= S (length rows))%nat → c_fault c ≠ Some i)
  ∧ (sqlite_recent c db room limit = Err DriverError ↔
     ∃ i, (i <= S (length rows))%nat ∧ c_fault c = Some i).
Proof.
  intros Hr rows. unfold sqlite_recent. rewrite Hr. fold rows.
  assert (Hfail : ∀ i, fails c i = false ↔ c_fault c ≠ Some i).
  { intros i. unfold fails. apply bool_decide_eq_false. }
  destruct (read_messages (scan_row c) c rows) as [ms|e] eqn:E.
  - apply read_messages_ok in E as [-> Hf]. split.
    + intros ms [= <-]. rewrite length_fmap, length_reverse. split; [done|].
      intros i Hi. by apply Hfail, Hf.
    + split; [done|]. intros (i&Hi&Hc). apply Hf, Hfail in Hi. done.
  - split; [done|]. destruct e as [e|]; [by eapply read_messages_error in E|].
    split; [intros _|done].
    destruct (c_fault c) as [i|] eqn:Hc.
    + destruct (decide (i <= S (length rows))%nat); [eauto|].
      assert (read_messages (scan_row c) c rows = Ok (scan_row c <$> reverse rows)); [|congruence].
      apply read_messages_ok. split; [done|].
      intros j Hj. apply Hfail. intros [= ->]. lia.
    + rewrite read_messages_healthy in E by done. done.
Qed.

(** C23: every outcome of saving a message.  An invalid room changes nothing;
    the transient type "username" is answered without a row; a success adds
    exactly the returned message; an error leaves the table as it was or, when
    the failure hid a committed insert, with that one row. *)
Theorem sqlite_save_outcome c db room user name content ty res db' :
  sqlite_save c db room user name content ty = (res, db') →
  match normalize_room room with
  | Err e => res = Err (InvalidRoomName e) ∧ db' = db
  | Ok r =>
    match res with
    | Ok m =>
      row_Room m = r ∧ row_UserID m = user ∧ row_Username m = name ∧ row_Content m = content
      ∧ row_Type m = ty ∧ row_Timestamp m = utc (c_now c)
      ∧ (if decide (ty = "username") then row_ID m = 0 ∧ db' = db
         else row_ID m = db_messages_seq db + 1 ∧ row_ID m <= max_int64
              ∧ db' = insert_message c db r user name content ty)
    | Err e => e = DriverError ∧ ty ≠ "username"
      ∧ (c_fault c ≠ None ∨ max_int64 <= db_messages_seq db)
      ∧ (db' = db ∨ db' = insert_message c db r user name content ty ∧ c_fault c ≠ None)
    end
  end.
Proof.
  unfold sqlite_save, insert_message, fails. destruct (normalize_room room) as [r|e]; [|by intros [= <- <-]].
  case_decide as Hty; [by intros [= <- <-]; rewrite Hty|].
  repeat case_match; intros [= <- <-]; unbool; simpl; split_and!; try done; try lia; auto;
    try (left; congruence); try (right; split; [done|congruence]).
Qed.

(** The audit row keeps the full rune count of the offending text but at
    most [maxAuditPreviewRunes] runes of it, which are its first ones. *)
Lemma sqlite_audit_preview c db sid user name reason content ev db' :
  sqlite_save_audit c db sid user name reason content = (Ok ev, db') →
  me_ContentLength ev = rune_count content
  ∧ runes (me_ContentPreview ev) = take (Z.to_nat maxAuditPreviewRunes) (runes content)
  ∧ (me_SessionID ev, me_UserID ev, me_Username ev, me_Reason ev) = (sid, user, name, reason)
  ∧ me_ID ev = db_audit_seq db + 1
  ∧ db_messages db' = db_messages db
  ∧ ∃ row, db_audit db' = db_audit db ++ [row] ∧ ar_id row = me_ID ev
      ∧ ar_content_preview row = me_ContentPreview ev
      ∧ ar_content_length row = me_ContentLength ev.
Proof.
  unfold sqlite_save_audit. repeat case_match; intros [= <- <-]; simpl.
  split; [done|]. split; [by apply runes_truncate|]. do 3 (split; [done|]). eauto.
Qed.

(** Message retention deletes exactly the messages of every room that are
    older than the cutoff (at [julianday]'s resolution), reports how many, and
    keeps the others, their order and the audit log. *)
Theorem sqlite_prune_exact c db cutoff n db' :
  healthy c → db_wf db → four_digit_year cutoff →
  sqlite_prune_messages c db cutoff = (Ok n, db') →
  let doomed m := jd (t_ns (row_Timestamp m)) <? jd (t_ns cutoff) in
  (∀ room, sqlite_history db' room = List.filter (λ m, negb (doomed m)) (sqlite_history db room))
  ∧ n = Z.of_nat (length (db_messages db)) - Z.of_nat (length (db_messages db'))
  ∧ db_audit db' = db_audit db.
Proof.
  intros Hc Hwf Hcut. unfold sqlite_prune_messages. rewrite !healthy_fails by done.
  intros [= <- <-]. cbv zeta. cbn [db_messages db_audit]. split_and!; [|apply length_filter_negb|done].
  intros room. apply (table_delete _ _ _ instant_key); [by apply db_rows_ok|].
  intros x Hx. destruct (wf_times _ Hwf x Hx) as [t Ht].
  destruct (scan_row_stored quiet x t Ht) as [E1 E2].
  rewrite E1, E2. unfold cutoff_day. by rewrite julianday_text.
Qed.
End properties.

Section witnesses.
Import Example.
#[local] Existing Instances text_driver text_driver_laws.

Lemma sqlite_run_invariant_witness :
  db_wf db ∧ db_wf (run_writes db [(call_at 104, WPrune (at_second 101))])
  ∧ (∀ r, r ∈ db_messages (run_writes db [(call_at 104, WPrune (at_second 101))]) →
      r ∈ db_messages db ∨ db_messages_seq db < sr_id r).
Proof.
  apply (sqlite_run_invariant writes [(call_at 104, WPrune (at_second 101))]).
  apply Forall_app. split; [apply clocks|]. repeat constructor; vm_compute; discriminate.
Defined.

Lemma sqlite_page_exact_witness :
  sqlite_before (call_at 9) db "General" (at_second 101) 2 5
  = Ok [mk_message 1 "u1" "ana" "hello" "message" "general" (at_second 100)].
Proof.
  rewrite (proj1 (sqlite_page_exact (call_at 9) db "General" "general" (at_second 101) 2 5
    eq_refl db_ok eq_refl hundred_ok ltac:(lia))).
  vm_compute. reflexivity.
Defined.

Lemma sqlite_read_all_or_nothing_witness :
  sqlite_recent (mk_call zero_time 0 (Some 2%nat) NoEffect) db "general" 5 = Err DriverError.
Proof.
  apply (sqlite_read_all_or_nothing (mk_call zero_time 0 (Some 2%nat) NoEffect)
    db "general" "general" 5 eq_refl).
  exists 2%nat. split; [vm_compute; lia|reflexivity].
Defined.

Lemma sqlite_save_outcome_witness :
  let c := mk_call (at_second 7) 0 (Some 2%nat) NoEffect in
  let out := sqlite_save c db "Go" "u" "ana" "hi" "message" in
  out.1 = Err DriverError ∧ (out.2 = db ∨ out.2 = insert_message c db "go" "u" "ana" "hi" "message"
    ∧ c_fault c ≠ None).
Proof.
  pose proof (sqlite_save_outcome (mk_call (at_second 7) 0 (Some 2%nat) NoEffect)
    db "Go" "u" "ana" "hi" "message" _ _ eq_refl) as (_ & _ & _ & H).
  split; [vm_compute; reflexivity|exact H].
Defined.

Lemma sqlite_prune_exact_witness :
  let db' := (sqlite_prune_messages (call_at 110) db (at_second 101)).2 in
  row_ID <$> sqlite_history db' "general" = [2]
  ∧ (sqlite_prune_messages (call_at 110) db (at_second 101)).1 = Ok 1.
Proof.
  destruct (sqlite_prune_exact (call_at 110) db (at_second 101) _ _ eq_refl db_ok hundred_ok
    eq_refl) as (H & Hn & _).
  split; [|vm_compute; reflexivity].
  etransitivity; [exact (f_equal (fmap row_ID) (H "general"))|vm_compute; reflexivity].
Defined.
End witnesses.
