(* ===== verification/Postgres.v ===== *)
(** The PostgreSQL repository ([PostgresDB] of [db/postgres.go]).

    Same contract as the SQLite backend by other means: the server's clock
    stamps the rows, identity values come from a sequence that a failed insert
    still consumes, and a timestamp is an integer number of microseconds.  pgx
    and the server's type input are the parameter [PgDriver]. *)
From S2P Require Import Prelude.
From S2P Require Import GoUnicode.
From S2P Require Import GoString.
From S2P Require Import GoTime.
From S2P Require Import Rooms.
From S2P Require Import Storage.
Open Scope Z_scope.

(** pgx: [pg_encode] is the [timestamptz] of a bound [time.Time] (none when it
    is out of the type's range), [pg_decode] the [time.Time] scanned from one,
    [pg_text] whether the server accepts a string as [text] (no NUL, valid
    UTF-8). *)
Class PgDriver := {
  pg_encode : time → option Z;
  pg_decode : Z → time;
  pg_text : string → bool
}.

(** [timestamptz] counts microseconds. *)
Class PgDriverLaws `{PgDriver} := {
  pg_encode_micros t : 0 <= year t <= 9999 → pg_encode t = Some (t_ns t / 1000);
  pg_decode_micros us : t_ns (pg_decode us) = us * 1000;
  pg_text_ascii s : ascii_bytes (bytes s) = true → (0:Z) ∉ bytes s → pg_text s = true
}.

Section postgres.
Context `{PgDriver}.
Implicit Types (c : call).

Record PgMessageRow := mk_pg_message_row {
  pr_id : Z; pr_room : string; pr_user_id : string; pr_username : string;
  pr_content : string; pr_type : string; pr_timestamp : Z
}.

Record PgAuditRow := mk_pg_audit_row {
  pa_id : Z; pa_session_id : string; pa_user_id : string; pa_username : string;
  pa_reason : string; pa_content_preview : string; pa_content_length : Z; pa_timestamp : Z
}.

(** The two tables with their identity sequences. *)
Record PostgresDB := mk_postgres_db {
  pg_messages : list PgMessageRow;
  pg_messages_seq : Z;
  pg_audit : list PgAuditRow;
  pg_audit_seq : Z
}.

Definition empty_postgres : PostgresDB := mk_postgres_db [] 0 [] 0.

(** The effect of [INSERT INTO messages(...)], and of one that fails after it
    drew its identity value. *)
Definition pg_insert_message (c : call) (db : PostgresDB)
    (room userID username content msgType : string) : PostgresDB :=
  let id := pg_messages_seq db + 1 in
  mk_postgres_db
    (pg_messages db ++ [mk_pg_message_row id room userID username content msgType (c_server_now c)])
    id (pg_audit db) (pg_audit_seq db).

Definition pg_burn_message_id (db : PostgresDB) : PostgresDB :=
  mk_postgres_db (pg_messages db) (pg_messages_seq db + 1) (pg_audit db) (pg_audit_seq db).

(** [SaveMessageForUserInRoomContext].  Driver call 0 is the whole
    [QueryRow(...).Scan(...)]. *)
Definition pg_save (c : call) (db : PostgresDB) (room userID username content msgType : string) :
    result db_error Message * PostgresDB :=
  match normalize_room room with
  | Err e => (Err (InvalidRoomName e), db)
  | Ok room =>
    if decide (msgType = "username") then
      (Ok (mk_message 0 userID username content msgType room (utc (c_now c))), db)
    else if negb (pg_text userID && pg_text username && pg_text content && pg_text msgType) then
      (Err DriverError, db)
    else if max_int64 <=? pg_messages_seq db then (Err DriverError, db)
    else if fails c 0 then
      (Err DriverError,
       match c_effect c with
       | NoEffect => db
       | SequenceOnly => pg_burn_message_id db
       | Applied => pg_insert_message c db room userID username content msgType
       end)
    else
      (Ok (mk_message (pg_messages_seq db + 1) userID username content msgType room
             (utc (pg_decode (c_server_now c)))),
       pg_insert_message c db room userID username content msgType)
  end.

(** One iteration of [for rows.Next()]. *)
Definition pg_scan_row (r : PgMessageRow) : Message :=
  mk_message (pr_id r) (pr_user_id r) (pr_username r) (pr_content r) (pr_type r) (pr_room r)
    (utc (pg_decode (pr_timestamp r))).

Definition pg_rank (r : PgMessageRow) : option Z := Some (pr_timestamp r).

(** [GetRecentMessagesInRoomContext].  The server rejects a negative [LIMIT]. *)
Definition pg_recent (c : call) (db : PostgresDB) (room : string) (limit : Z) :
    result db_error (list Message) :=
  match normalize_room room with
  | Err e => Err (InvalidRoomName e)
  | Ok room =>
    if limit <? 0 then Err DriverError
    else
      read_messages pg_scan_row c
        (take (Z.to_nat limit)
          (order_by_desc pg_rank pr_id (List.filter (in_room pr_room room) (pg_messages db))))
  end.

(** [GetMessagesBeforeInRoomContext]. *)
Definition pg_before (c : call) (db : PostgresDB) (room : string) (before : time)
    (beforeID limit : Z) : result db_error (list Message) :=
  match normalize_room room with
  | Err e => Err (InvalidRoomName e)
  | Ok room =>
    match pg_encode (utc before) with
    | None => Err DriverError
    | Some cursor =>
      if limit <? 0 then Err DriverError
      else
        read_messages pg_scan_row c
          (take (Z.to_nat limit)
            (order_by_desc pg_rank pr_id
              (List.filter
                (λ r, in_room pr_room room r && older_than pg_rank pr_id (Some cursor) beforeID r)
                (pg_messages db))))
    end
  end.

Definition max_int32 : Z := 2 ^ 31 - 1.

(** [SaveModerationEventForUserContext]; [content_length] is an [INTEGER]
    column. *)
Definition pg_save_audit (c : call) (db : PostgresDB)
    (sessionID userID username reason content : string) :
    result db_error ModerationEvent * PostgresDB :=
  let contentPreview := truncate_runes content maxAuditPreviewRunes in
  let contentLength := rune_count content in
  let id := pg_audit_seq db + 1 in
  let row := mk_pg_audit_row id sessionID userID username reason contentPreview contentLength
               (c_server_now c) in
  let db' := mk_postgres_db (pg_messages db) (pg_messages_seq db) (pg_audit db ++ [row]) id in
  if negb (pg_text sessionID && pg_text userID && pg_text username && pg_text reason
           && pg_text contentPreview) || (max_int32 <? contentLength) then (Err DriverError, db)
  else if max_int64 <=? pg_audit_seq db then (Err DriverError, db)
  else if fails c 0 then
    (Err DriverError,
     match c_effect c with
     | NoEffect => db
     | SequenceOnly => mk_postgres_db (pg_messages db) (pg_messages_seq db) (pg_audit db) id
     | Applied => db'
     end)
  else
    (Ok (mk_moderation_event id sessionID userID username reason contentPreview contentLength
           (utc (pg_decode (c_server_now c)))), db').

(** [PruneMessagesBeforeContext] and [PruneModerationEventsBeforeContext]. *)
Definition pg_prune_messages (c : call) (db : PostgresDB) (cutoff : time) :
    result db_error Z * PostgresDB :=
  match pg_encode (utc cutoff) with
  | None => (Err DriverError, db)
  | Some cut =>
    let doomed r := pr_timestamp r <? cut in
    let db' := mk_postgres_db (List.filter (λ r, negb (doomed r)) (pg_messages db))
                 (pg_messages_seq db) (pg_audit db) (pg_audit_seq db) in
    if fails c 0 then (Err DriverError, match c_effect c with Applied => db' | _ => db end)
    else (Ok (Z.of_nat (length (List.filter doomed (pg_messages db)))), db')
  end.

Definition pg_prune_audit (c : call) (db : PostgresDB) (cutoff : time) :
    result db_error Z * PostgresDB :=
  match pg_encode (utc cutoff) with
  | None => (Err DriverError, db)
  | Some cut =>
    let doomed r := pa_timestamp r <? cut in
    let db' := mk_postgres_db (pg_messages db) (pg_messages_seq db)
                 (List.filter (λ r, negb (doomed r)) (pg_audit db)) (pg_audit_seq db) in
    if fails c 0 then (Err DriverError, match c_effect c with Applied => db' | _ => db end)
    else (Ok (Z.of_nat (length (List.filter doomed (pg_audit db)))), db')
  end.

(** [PingContext] *)
Definition pg_ping (c : call) (db : PostgresDB) : bool := negb (fails c 0).

#[export] Instance postgres_repository : Repository PostgresDB := {
  SaveMessageForUserInRoomContext := pg_save;
  GetRecentMessagesInRoomContext := pg_recent;
  GetMessagesBeforeInRoomContext := pg_before;
  SaveModerationEventForUserContext := pg_save_audit;
  PruneMessagesBeforeContext := pg_prune_messages;
  PruneModerationEventsBeforeContext := pg_prune_audit;
  PingContext := pg_ping
}.
End postgres.

#[export] Instance postgres_room_scoped `{PgDriver} : RoomScoped PostgresDB.
Proof.
  split; simpl.
  - intros c db room r n ms Hr. unfold pg_recent. rewrite Hr. case_match; [done|].
    apply (read_messages_room pr_room); [done|]. by apply Forall_take, in_room_rows.
  - intros c db room r t i n ms Hr. unfold pg_before. rewrite Hr. repeat (case_match; [done|]).
    destruct (pg_encode (utc t)) as [cursor|]; [|done]. case_match; [done|].
    apply (read_messages_room pr_room); [done|]. apply Forall_take, in_room_rows.
    by intros x [? _]%andb_true_iff.
Qed.

(** ** The invariant and the contract *)
Section contract.
Context `{PgDriver} `{!PgDriverLaws}.
Implicit Types (c : call) (db : PostgresDB).

Definition micros (t : time) : Z := t_ns t / 1000.

(** A [timestamptz] of a four-digit year. *)
Definition pg_time (us : Z) : Prop := 0 <= year (mk_time (us * 1000) UTC) <= 9999.

Record pg_wf (db : PostgresDB) : Prop := mk_pg_wf {
  pg_wf_seq : 0 <= pg_messages_seq db <= max_int64;
  pg_wf_nodup : NoDup (pr_id <$> pg_messages db);
  pg_wf_ids r : r ∈ pg_messages db → 1 <= pr_id r <= pg_messages_seq db;
  pg_wf_times r : r ∈ pg_messages db → pg_time (pr_timestamp r);
  pg_wf_rooms r : r ∈ pg_messages db → normalize_room (pr_room r) = Ok (pr_room r)
}.

Definition pg_history (db : PostgresDB) (room : string) : list Message :=
  table_history pr_id pr_room pg_rank pg_scan_row (pg_messages db) room.

Lemma pg_row_ok r : row_ok pr_id pr_room pg_rank micros pg_scan_row r.
Proof.
  split; [|done]. unfold pg_rank, micros. simpl. by rewrite pg_decode_micros, Z.div_mul.
Qed.

Lemma pg_rows_ok db :
  pg_wf db → rows_ok pr_id pr_room pg_rank micros pg_scan_row (pg_messages db).
Proof. intros Hwf. split; [apply Hwf|]. intros r _. apply pg_row_ok. Qed.

Lemma empty_postgres_wf : pg_wf empty_postgres.
Proof. split; simpl; try set_solver; [done|constructor]. Qed.

Lemma pg_insert_message_wf c db room r user name content ty :
  pg_wf db → pg_time (c_server_now c) → normalize_room room = Ok r →
  pg_messages_seq db < max_int64 → pg_wf (pg_insert_message c db r user name content ty).
Proof.
  intros Hwf Hnow Hr Hseq. pose proof (pg_wf_seq _ Hwf). unfold pg_insert_message.
  split; cbn [pg_messages pg_messages_seq].
  - lia.
  - refine (proj1 (rows_ok_snoc pr_id pr_room pg_rank micros pg_scan_row _ _ (pg_rows_ok db Hwf) _ _)).
    + by apply pg_row_ok.
    + intros x Hx%(pg_wf_ids _ Hwf). simpl. lia.
  - intros x [Hx| ->%list_elem_of_singleton]%elem_of_app; [|simpl; lia].
    apply (pg_wf_ids _ Hwf) in Hx. lia.
  - intros x [Hx| ->%list_elem_of_singleton]%elem_of_app; [by apply (pg_wf_times _ Hwf)|done].
  - intros x [Hx| ->%list_elem_of_singleton]%elem_of_app; [by apply (pg_wf_rooms _ Hwf)|].
    by eapply normalize_room_canonical, normalize_room_ok.
Qed.

Lemma pg_filter_wf db keep aud seq :
  pg_wf db →
  pg_wf (mk_postgres_db (List.filter keep (pg_messages db)) (pg_messages_seq db) aud seq).
Proof.
  intros Hwf. split; simpl; [apply Hwf|apply NoDup_fmap_filter_bool, Hwf|..];
    intros x [_ Hx]%elem_of_filter_bool;
    [by apply (pg_wf_ids _ Hwf)|by apply (pg_wf_times _ Hwf)|by apply (pg_wf_rooms _ Hwf)].
Qed.

Lemma pg_burn_wf db : pg_wf db → pg_messages_seq db < max_int64 → pg_wf (pg_burn_message_id db).
Proof.
  intros [Hseq ? Hids ? ?] ?. split; simpl; [lia|done| |done..].
  intros r Hr%Hids. lia.
Qed.

Lemma pg_audit_wf db aud seq :
  pg_wf db → pg_wf (mk_postgres_db (pg_messages db) (pg_messages_seq db) aud seq).
Proof. intros []. by split. Qed.

Lemma pg_save_healthy c db room r user name content ty :
  healthy c → pg_messages_seq db < max_int64 →
  pg_text user && pg_text name && pg_text content && pg_text ty = true →
  normalize_room room = Ok r → ty ≠ "username" →
  pg_save c db room user name content ty
  = (Ok (mk_message (pg_messages_seq db + 1) user name content ty r
           (utc (pg_decode (c_server_now c)))),
     pg_insert_message c db r user name content ty).
Proof.
  intros Hc Hseq Htext Hr Hty. unfold pg_save. rewrite Hr, decide_False, Htext by done. simpl.
  replace (max_int64 <=? pg_messages_seq db) with false by lia. by rewrite healthy_fails.
Qed.

Lemma pg_recent_spec c db room r n :
  healthy c → pg_wf db → normalize_room room = Ok r → 0 <= n →
  pg_recent c db room n = Ok (last_n (Z.to_nat n) (pg_history db r)).
Proof.
  intros Hc Hwf Hr Hn. unfold pg_recent. rewrite Hr. replace (n <? 0) with false by lia.
  by rewrite read_messages_healthy, table_recent.
Qed.

Lemma pg_before_spec c db room r t i n :
  healthy c → pg_wf db → normalize_room room = Ok r → 0 <= year t <= 9999 → 0 <= n →
  pg_before c db room t i n
  = Ok (last_n (Z.to_nat n) (List.filter (msg_before micros t i) (pg_history db r))).
Proof.
  intros Hc Hwf Hr Ht Hn. unfold pg_before. rewrite Hr, pg_encode_micros by done.
  change (t_ns (utc t) / 1000) with (micros t). replace (n <? 0) with false by lia.
  rewrite read_messages_healthy by done.
  by rewrite (table_before _ _ _ _ _ _ _ _ _ _ (pg_rows_ok db Hwf)).
Qed.

Lemma pg_history_sorted db room : pg_wf db → StronglySorted (msg_lt micros) (pg_history db room).
Proof. intros. by apply table_history_sorted, pg_rows_ok. Qed.

Lemma pg_history_elem db room m :
  pg_wf db → m ∈ pg_history db room →
  0 <= year (row_Timestamp m) <= 9999 ∧ row_Room m = room ∧ 1 <= row_ID m <= max_int64.
Proof.
  intros Hwf Hm. eapply elem_of_table_history in Hm as (r&Hr&->&Hroom&Hid); [|by apply pg_rows_ok].
  pose proof (pg_wf_seq _ Hwf). pose proof (pg_wf_ids _ Hwf r Hr).
  rewrite Hid. split; [|split; [done|lia]].
  apply (pg_wf_times _ Hwf) in Hr. unfold pg_time, year in *. simpl in *.
  by rewrite pg_decode_micros.
Qed.

Definition pg_can_save (c : call) (db : PostgresDB) (user name content ty : string) : Prop :=
  pg_time (c_server_now c) ∧ pg_messages_seq db < max_int64
  ∧ pg_text user && pg_text name && pg_text content && pg_text ty = true.

(** The PostgreSQL backend fulfils the history contract. *)
#[export] Program Instance postgres_contract : HistoryContract PostgresDB := {
  hist_rank := micros;
  hist_time t := 0 <= year t <= 9999;
  hist_wf := pg_wf;
  hist_can_save := pg_can_save;
  history := pg_history;
  hist_sorted := pg_history_sorted;
  hist_elem := pg_history_elem;
  hist_time_year t Ht := Ht;
  hist_utc t := conj eq_refl id;
  hist_recent := pg_recent_spec;
  hist_before := pg_before_spec
}.
Next Obligation.
  intros c db room r user name content ty Hc Hwf (Hnow&Hseq&Htext) Hr Hty.
  do 2 eexists. split; [by apply pg_save_healthy|].
  split; [by eapply pg_insert_message_wf|]. split; [done|]. split.
  - apply (table_insert_same pr_id pr_room pg_rank pg_scan_row (pg_messages db)
      (mk_pg_message_row _ r _ _ _ _ _)).
  - split; [|intros r' Hne; by apply table_insert_other].
    intros m' Hm. eapply elem_of_table_history in Hm as (x&Hx&->&_&->); [|by apply pg_rows_ok].
    apply (pg_wf_ids _ Hwf) in Hx. simpl. lia.
Qed.
End contract.

(** ** Sequences of writes *)
Section runs.
Context `{PgDriver} `{!PgDriverLaws}.
Implicit Types (c : call) (db : PostgresDB).

Lemma pg_save_state c db room user name content ty res db' :
  pg_save c db room user name content ty = (res, db') →
  db' = db
  ∨ pg_messages_seq db < max_int64
    ∧ (db' = pg_burn_message_id db
       ∨ ∃ r, normalize_room room = Ok r ∧ ty ≠ "username"
           ∧ db' = pg_insert_message c db r user name content ty).
Proof.
  unfold pg_save. repeat case_match; intros [= <- <-]; auto; right; split; try lia; eauto.
Qed.

Lemma pg_save_audit_state c db sid user name reason content res db' :
  pg_save_audit c db sid user name reason content = (res, db') →
  ∃ aud seq, db' = mk_postgres_db (pg_messages db) (pg_messages_seq db) aud seq.
Proof.
  unfold pg_save_audit. repeat case_match; intros [= <- <-]; eauto;
    exists (pg_audit db), (pg_audit_seq db); by destruct db.
Qed.

Lemma pg_prune_messages_state c db cutoff res db' :
  pg_prune_messages c db cutoff = (res, db') →
  db' = db ∨ ∃ keep, db' = mk_postgres_db (List.filter keep (pg_messages db)) (pg_messages_seq db)
                             (pg_audit db) (pg_audit_seq db).
Proof. unfold pg_prune_messages. repeat case_match; intros [= <- <-]; eauto. Qed.

Lemma pg_prune_audit_state c db cutoff res db' :
  pg_prune_audit c db cutoff = (res, db') →
  ∃ aud, db' = mk_postgres_db (pg_messages db) (pg_messages_seq db) aud (pg_audit_seq db).
Proof.
  unfold pg_prune_audit. repeat case_match; intros [= <- <-]; eauto;
    exists (pg_audit db); by destruct db.
Qed.

Lemma pg_write_wf c db w : pg_wf db → pg_time (c_server_now c) → pg_wf (run_write c db w).
Proof.
  intros Hwf Hnow. destruct w as [room user name content ty|sid user name reason content|t|t]; simpl.
  - destruct (pg_save _ _ _ _ _ _ _) as [res db'] eqn:E.
    apply pg_save_state in E as [->|(Hs & [->|(r & ? & ? & ->)])]; [done|by apply pg_burn_wf|].
    by eapply pg_insert_message_wf.
  - destruct (pg_save_audit _ _ _ _ _ _ _) as [res db'] eqn:E.
    apply pg_save_audit_state in E as (?&?&->). by apply pg_audit_wf.
  - destruct (pg_prune_messages _ _ _) as [res db'] eqn:E.
    apply pg_prune_messages_state in E as [->|[? ->]]; [done|by apply pg_filter_wf].
  - destruct (pg_prune_audit _ _ _) as [res db'] eqn:E.
    apply pg_prune_audit_state in E as [? ->]. by apply pg_audit_wf.
Qed.

Lemma pg_run_wf db ws :
  pg_wf db → Forall (λ cw, pg_time (c_server_now cw.1)) ws → pg_wf (run_writes db ws).
Proof.
  intros Hwf Hws. apply (run_writes_invariant pg_wf (λ c, pg_time (c_server_now c))); [|done..].
  intros c s w Hc Hs. by apply pg_write_wf.
Qed.
End runs.

(** ** A concrete driver: UTC sessions, and text without NUL bytes. *)
Definition micro_driver : PgDriver := {|
  pg_encode t := Some (t_ns t / 1000);
  pg_decode us := mk_time (us * 1000) UTC;
  pg_text s := forallb (λ b, negb (b =? 0)) (bytes s)
|}.

Definition micro_driver_laws : @PgDriverLaws micro_driver.
Proof.
  split; [done|done|]. intros s _ Hs. simpl. apply forallb_forall. intros b Hb.
  apply list_elem_of_In in Hb. apply negb_true_iff, Z.eqb_neq. intros ->. done.
Defined.

Module PgExample.
#[local] Existing Instances micro_driver micro_driver_laws.

Definition pg_call_at (s : Z) : call := mk_call (mk_time (s * Second) UTC) (s * 1000000) None NoEffect.

(** The second insert fails after it drew id 2. *)
Definition pg_example_writes : list (call * write) :=
  [(pg_call_at 100, WSave "general" "u1" "ana" "hello" "message");
   (mk_call zero_time 101000000 (Some 0%nat) SequenceOnly,
    WSave "general" "u1" "ana" "rolled back" "message");
   (pg_call_at 102, WSave "GENERAL" "u2" "bob" "hi" "message")].

Definition pg_example : PostgresDB := run_writes empty_postgres pg_example_writes.

Lemma pg_clocks : Forall (λ cw, pg_time (c_server_now cw.1)) pg_example_writes.
Proof. unfold pg_time. repeat constructor; vm_compute; discriminate. Qed.

Lemma pg_example_ok : pg_wf pg_example.
Proof. apply pg_run_wf; [apply empty_postgres_wf|apply pg_clocks]. Qed.
End PgExample.

(** ** Properties *)
Section properties.
Context `{PgDriver} `{!PgDriverLaws}.
Implicit Types (c : call) (db : PostgresDB).

(** C24: whatever writes ran against a fresh PostgreSQL database, failed or
    not, identities stay unique and positive, rooms canonical and timestamps
    readable; an insert never takes an id already in use, gaps left by failed
    inserts included. *)
Theorem pg_run_invariant ws :
  Forall (λ cw, pg_time (c_server_now cw.1)) ws →
  let db := run_writes empty_postgres ws in
  pg_wf db
  ∧ ∀ c room user name content ty m db', ty ≠ "username" →
      pg_save c db room user name content ty = (Ok m, db') →
      row_ID m ∉ pr_id <$> pg_messages db
      ∧ pg_messages db' = pg_messages db
          ++ [mk_pg_message_row (row_ID m) (row_Room m) user name content ty (c_server_now c)].
Proof.
  intros Hws db. assert (Hwf : pg_wf db) by (apply pg_run_wf; [apply empty_postgres_wf|done]).
  split; [done|]. clearbody db. intros c room user name content ty m db' Hty.
  unfold pg_save. repeat case_match; intros [= <- <-]; [done|]. simpl. split; [|done].
  intros (x & Hid & Hx%(pg_wf_ids _ Hwf))%list_elem_of_fmap. simpl in *. lia.
Qed.

(** The PostgreSQL history page is exact, to the microsecond: the newest
    [limit] messages of the room strictly older than the cursor, in
    chronological order, where a negative limit is an error. *)
Theorem pg_page_exact c db room r cursor beforeID limit :
  healthy c → pg_wf db → normalize_room room = Ok r → 0 <= year cursor <= 9999 →
  pg_before c db room cursor beforeID limit
  = (if limit <? 0 then Err DriverError
     else Ok (last_n (Z.to_nat limit)
            (List.filter (msg_before micros cursor beforeID) (pg_history db r))))
  ∧ StronglySorted (msg_lt micros) (pg_history db r)
  ∧ ∀ row, row ∈ pg_messages db → pr_room row = r → pg_scan_row row ∈ pg_history db r.
Proof.
  intros Hc Hwf Hr Ht. split_and!; [|by apply pg_history_sorted|].
  - destruct (limit <? 0) eqn:Hl; [|apply pg_before_spec; [done..|lia]].
    unfold pg_before. by rewrite Hr, pg_encode_micros, Hl by done.
  - intros row Hrow Hroom. apply (list_elem_of_fmap_2 pg_scan_row). by apply elem_of_room_rows.
Qed.
End properties.

Section witnesses.
Import PgExample.
#[local] Existing Instances micro_driver micro_driver_laws.

Lemma pg_run_invariant_witness :
  pg_wf pg_example ∧ pr_id <$> pg_messages pg_example = [1; 3].
Proof. split; [apply (pg_run_invariant pg_example_writes), pg_clocks|reflexivity]. Defined.

Lemma pg_page_exact_witness :
  pg_before (pg_call_at 9) pg_example "General" (mk_time (102 * Second) UTC) 3 5
  = Ok [mk_message 1 "u1" "ana" "hello" "message" "general" (mk_time (100 * Second) UTC)].
Proof.
  rewrite (proj1 (pg_page_exact (pg_call_at 9) pg_example "General" "general"
    (mk_time (102 * Second) UTC) 3 5 eq_refl pg_example_ok eq_refl
    ltac:(split; vm_compute; discriminate))).
  vm_compute. reflexivity.
Defined.
End witnesses.
