(* ===== verification/GoStrconv.v ===== *)
(** [strconv]: decimal integers. *)
From S2P Require Import Prelude.
From S2P Require Import GoUnicode.
From S2P Require Import GoString.
From S2P Require Import GoTime.
From S2P Require Import Json.
Open Scope Z_scope.

(** [ParseInt(s, 10, w)]: an optional sign and digits, in the range of a [w]-bit
    integer. *)
Definition parse_int (w : Z) (s : string) : option Z :=
  let '(neg, ds) :=
    match bytes s with
    | c :: t => if c =? chr "-" then (true, t) else if c =? chr "+" then (false, t) else (false, bytes s)
    | [] => (false, [])
    end in
  if bool_decide (ds = []) || negb (forallb is_digit ds) then None
  else
    let n := if neg then - digits_val ds else digits_val ds in
    if (- 2 ^ (w - 1) <=? n) && (n <? 2 ^ (w - 1)) then Some n else None.

(** [Atoi] and [Itoa] of a 64-bit [int]. *)
Definition atoi (s : string) : option Z := parse_int 64 s.
Definition itoa (n : Z) : string := of_bytes (print_int n).

Lemma parse_int_range w s n : parse_int w s = Some n → -2 ^ (w - 1) <= n < 2 ^ (w - 1).
Proof.
  unfold parse_int. destruct (match bytes s with [] => _ | _ => _ end) as [neg ds].
  destruct (_ || _); [done|]. destruct ((- 2 ^ (w - 1) <=? _) && _) eqn:E; [|done].
  intros [= <-]. lia.
Qed.

Lemma atoi_itoa n : -2 ^ 63 <= n < 2 ^ 63 → atoi (itoa n) = Some n.
Proof.
  intros Hn. unfold atoi, itoa, parse_int.
  rewrite bytes_of_bytes by apply is_bytes_forallb, print_int_bytes. unfold print_int.
  destruct (n <? 0) eqn:E.
  - destruct (decimal_digits_spec 20 (- n)) as (Hd&Hv&Hne&_); [lia|lia|].
    change (chr "-" =? chr "-") with true. cbv iota beta.
    rewrite bool_decide_false, Hd, Hv by done. cbn [negb orb].
    replace ((- 2 ^ (64 - 1) <=? - - n) && (- - n <? 2 ^ (64 - 1))) with true by lia. f_equal. lia.
  - destruct (decimal_digits_spec 20 n) as (Hd&Hv&Hne&Hh); [lia|lia|].
    destruct (decimal_digits 20 n) as [|c t] eqn:Hc; [done|].
    assert (Hcd : is_digit c = true) by (cbn [forallb] in Hd; by apply andb_true_iff in Hd as [? _]).
    unfold is_digit in Hcd. replace (c =? chr "-") with false by lia.
    replace (c =? chr "+") with false by lia. rewrite Hd, Hv.
    rewrite bool_decide_false by done. cbn [negb orb].
    by replace ((- 2 ^ (64 - 1) <=? n) && (n <? 2 ^ (64 - 1))) with true by lia.
Qed.

Example atoi_plus : atoi "+07" = Some 7.
Proof. reflexivity. Qed.
Example atoi_overflow : atoi "9223372036854775808" = None.
Proof. reflexivity. Qed.
Example atoi_space : atoi " 7" = None.
Proof. reflexivity. Qed.
