(* ===== verification/GoFmt.v ===== *)
(** [fmt.Sscanf] with the verb %d for [int64] operands, [Duration.String] and the
    floats of a duration. *)
From Stdlib Require Import QArith.
From S2P Require Import Prelude.
From S2P Require Import GoUnicode.
From S2P Require Import GoString.
From S2P Require Import GoFloat.
From S2P Require Import GoTime.
From S2P Require Import Json.
From S2P Require Import GoStrconv.
Open Scope Z_scope.

(** ** Scanning

    A format without newlines and double per cent signs: runs of spaces,
    literal runes and verbs. *)
Inductive directive := Spaces | Literal (r : Z) | Decimal.

(** A space that is no newline. *)
Definition blank (r : Z) : bool := is_space r && negb (r =? 10).

(** A run of spaces in the format: at least one in the input, or its end. *)
Definition match_spaces (rs : list Z) : option (list Z) :=
  match rs with
  | [] => Some []
  | r :: rs' => if blank r then Some (drop_while blank rs') else None
  end.

(** [SkipSpace]: a newline is an error. *)
Definition skip_blanks (rs : list Z) : option (list Z) :=
  let rest := drop_while blank rs in
  if bool_decide (head rest = Some 10) then None else Some rest.

(** [scanInt]: a sign and the longest run of digits, in the range of [int64]. *)
Definition scan_decimal (rs : list Z) : option (Z * list Z) :=
  let '(sign, rest) :=
    match rs with
    | c :: t => if (c =? chr "+") || (c =? chr "-") then ([c], t) else ([], rs)
    | [] => ([], [])
    end in
  let '(ds, rest) := take_digits rest in
  if bool_decide (ds = []) then None
  else n ← parse_int 64 (of_bytes (sign ++ ds)); Some (n, rest).

(** The operands scanned before the first error: their number is the first
    result of [Sscanf].  What follows the last verb is not looked at. *)
Fixpoint scan (format : list directive) (rs : list Z) : list Z :=
  match format with
  | [] => []
  | Spaces :: format =>
    match match_spaces rs with Some rest => scan format rest | None => [] end
  | Literal c :: format =>
    match rs with r :: rest => if r =? c then scan format rest else [] | [] => [] end
  | Decimal :: format =>
    match skip_blanks rs ≫= scan_decimal with
    | Some (n, rest) => n :: scan format rest
    | None => []
    end
  end.

Definition sscanf (s : string) (format : list directive) : list Z := scan format (runes s).

Example scan_signs : sscanf "a +1	-02x" [Literal (chr "a"); Spaces; Decimal; Spaces; Decimal] = [1; -2].
Proof. reflexivity. Qed.
Example scan_overflow : sscanf "7 9223372036854775808" [Decimal; Spaces; Decimal] = [7].
Proof. reflexivity. Qed.
Example scan_newline : sscanf (of_bytes [chr "7"; 10; chr "8"]) [Decimal; Spaces; Decimal] = [7].
Proof. reflexivity. Qed.

Lemma scan_literals p format rest : scan ((Literal <$> p) ++ format) (p ++ rest) = scan format rest.
Proof. induction p as [|c p IH]; [done|]. csimpl. by rewrite Z.eqb_refl. Qed.

Lemma scan_space format rest : scan (Spaces :: format) (chr " " :: rest) = scan format (drop_while blank rest).
Proof. done. Qed.

Lemma digits_plain n :
  0 <= n < 2 ^ 64 → ∃ c t, decimal_digits 20 n = c :: t ∧ forallb is_digit (c :: t) = true ∧ digits_val (c :: t) = n.
Proof.
  intros Hn. destruct (decimal_digits_spec 20 n) as (Hd&Hv&Hne&_); [lia|lia|].
  destruct (decimal_digits 20 n) as [|c t]; [done|]. eauto.
Qed.

Lemma digit_byte c : is_digit c = true → is_byte c = true ∧ blank c = false ∧ c ≠ 10 ∧ c ≠ chr "+" ∧ c ≠ chr "-".
Proof. unfold is_digit, is_byte, blank, is_space. intros H. split_and!; lia. Qed.

Lemma print_int_shape n :
  - 2 ^ 63 <= n < 2 ^ 63 →
  ∃ sign c t, print_int n = sign ++ c :: t ∧ forallb is_digit (c :: t) = true
              ∧ (sign = [] ∨ sign = [chr "-"]).
Proof.
  intros Hn. unfold print_int. destruct (n <? 0) eqn:Hneg;
    [destruct (digits_plain (- n)) as (c&t&->&Hd&_)|destruct (digits_plain n) as (c&t&->&Hd&_)];
    try lia; [exists [chr "-"], c, t|exists [], c, t]; eauto.
Qed.

Lemma print_int_last n : - 2 ^ 63 <= n < 2 ^ 63 → ∃ d, last (print_int n) = Some d ∧ is_digit d = true.
Proof.
  intros Hn. destruct (print_int_shape n Hn) as (sign&c&t&->&Hd&_). rewrite last_app.
  destruct (last (c :: t)) as [d|] eqn:E; [|by apply last_None in E].
  exists d. split; [done|]. apply last_Some_elem_of in E.
  rewrite forallb_forall in Hd. by apply Hd, list_elem_of_In.
Qed.

(** A printed integer is scanned back. *)
Lemma scan_print n format rest :
  - 2 ^ 63 <= n < 2 ^ 63 → match rest with [] => True | b :: _ => is_digit b = false end →
  scan (Decimal :: format) (print_int n ++ rest) = n :: scan format rest.
Proof.
  intros Hn Hr. pose proof (atoi_itoa n Hn) as Ha. unfold atoi, itoa in Ha. cbn [scan].
  destruct (print_int_shape n Hn) as (sign&c&t&E&Hd&Hs).
  rewrite E in *. assert (Hc : is_digit c = true) by (cbn in Hd; by apply andb_true_iff in Hd as [? _]).
  destruct (digit_byte c Hc) as (_&Hbl&Hnl&Hplus&Hminus). unfold skip_blanks.
  destruct Hs as [-> | ->]; cbn [app drop_while].
  - rewrite Hbl. cbn [head]. rewrite bool_decide_false by congruence. cbn [mbind option_bind].
    unfold scan_decimal. replace ((c =? _) || _) with false by lia.
    change (c :: t ++ rest) with ((c :: t) ++ rest). rewrite take_digits_app by done.
    rewrite bool_decide_false by done. cbn [app] in *. by rewrite Ha.
  - change (blank (chr "-")) with false. cbv iota. cbn [head].
    rewrite bool_decide_false by done. cbn [mbind option_bind].
    unfold scan_decimal. cbn [Z.eqb Pos.eqb orb].
    change (c :: t ++ rest) with ((c :: t) ++ rest). rewrite take_digits_app by done.
    rewrite bool_decide_false by done. cbn [app] in *. by rewrite Ha.
Qed.

(** Nothing blank stands in front of a printed integer. *)
Lemma print_int_head n rest : - 2 ^ 63 <= n < 2 ^ 63 → drop_while blank (print_int n ++ rest) = print_int n ++ rest.
Proof.
  intros Hn. unfold print_int. destruct (n <? 0) eqn:E; [done|].
  destruct (digits_plain n) as (c&t&->&Hd&_); [lia|]. cbn in Hd. apply andb_true_iff in Hd as [Hc _].
  cbn [app drop_while]. by destruct (digit_byte c Hc) as (_&->&_).
Qed.

Lemma print_int_ascii n : - 2 ^ 63 <= n < 2 ^ 63 → ascii_bytes (print_int n) = true.
Proof.
  assert (H : ∀ ds, forallb is_digit ds = true → ascii_bytes ds = true).
  { intros ds. unfold ascii_bytes. rewrite !forallb_forall. intros H x Hx%H. unfold is_digit in Hx. lia. }
  intros Hn. unfold print_int. destruct (n <? 0) eqn:E.
  - destruct (digits_plain (- n)) as (c&t&->&Hd&_); [lia|]. by apply (H (c :: t)).
  - destruct (digits_plain n) as (c&t&->&Hd&_); [lia|]. by apply H.
Qed.

(** ** Durations *)

(** [fmtFrac]: the last [prec] decimals of [v], without trailing zeros. *)
Definition fmt_frac (prec : nat) (v : Z) : list Z :=
  match drop_while_end (λ b, b =? chr "0") (digits prec v) with
  | [] => []
  | ds => chr "." :: ds
  end.

(** [Duration.String] *)
Definition duration_string (d : Z) : string :=
  let u := Z.abs d in
  let text :=
    if u <? Second then
      if u =? 0 then bytes "0s"
      else if u <? 1000 then print_int u ++ bytes "ns"
      else if u <? 1000000 then print_int (u / 1000) ++ fmt_frac 3 u ++ [0xC2; 0xB5] ++ bytes "s"
      else print_int (u / 1000000) ++ fmt_frac 6 u ++ bytes "ms"
    else
      let s := u / Second in
      let m := s / 60 in
      let h := m / 60 in
      (if 0 <? h then print_int h ++ bytes "h" else [])
      ++ (if 0 <? m then print_int (m mod 60) ++ bytes "m" else [])
      ++ print_int (s mod 60) ++ fmt_frac 9 u ++ bytes "s"
  in of_bytes ((if d <? 0 then bytes "-" else []) ++ text).

Example duration_ms : duration_string 250000000 = "250ms".
Proof. vm_compute. reflexivity. Qed.
Example duration_hours : duration_string (90 * Minute + 1500000000) = "1h30m1.5s".
Proof. vm_compute. reflexivity. Qed.

(** [Duration.Seconds] and [Duration.Milliseconds] *)
Definition seconds (d : Z) : Q :=
  fadd (of_int (Z.quot d Second)) (fdiv (of_int (Z.rem d Second)) (of_int 1000000000)).
Definition milliseconds (d : Z) : Z := Z.quot d 1000000.
