(* ===== verification/Server.v ===== *)
(** The HTTP handlers ([server.go]): history, session and health endpoints, the
    CORS middleware and the bearer token of a login.  A handler maps a request
    and the state it reads to a response; response bodies are kept as the values
    that are marshalled.  Tracing spans and log lines have no part in it. *)
From S2P Require Import Prelude.
From S2P Require Import GoUnicode.
From S2P Require Import GoString.
From S2P Require Import GoTime.
From S2P Require Import GoStrconv.
From S2P Require Import Http.
From S2P Require Import Rooms.
From S2P Require Import Storage.
From S2P Require Import Cursor.
From S2P Require Import Auth.
Open Scope Z_scope.

(** ** Bodies *)

Record history_page := mk_page {
  pg_room : string;
  pg_messages : list Message;
  pg_limit : Z;
  pg_has_more : bool;
  pg_next_cursor : option string;
  pg_viewer : Principal
}.

Inductive body :=
| NoBody
| Text (message : string)
| ApiError (code message : string)
| HealthBody (status database : string)
| SessionBody (mode : string) (authed : bool) (user : option Principal) (reason : option string)
| PageBody (page : history_page).

Notation reply := (response body).

(** [http.Error] *)
Definition http_error (h : values) (message : string) (code : Z) : reply :=
  mk_response code
    (set_header "X-Content-Type-Options" "nosniff"
       (set_header "Content-Type" "text/plain; charset=utf-8" h))
    None (Text message).

(** [writeJSONError] *)
Definition write_json_error (h : values) (status : Z) (code message : string) : reply :=
  mk_response status
    (set_header "Cache-Control" "no-store" (set_header "Content-Type" "application/json" h))
    None (ApiError code message).

(** [writeAuthError] *)
Definition write_auth_error (h : values) (e : auth_error) : reply :=
  match e with
  | ErrRoomDenied =>
    write_json_error h StatusForbidden "room_forbidden" "You do not have access to this room."
  | ErrExpiredSession =>
    write_json_error h StatusUnauthorized "session_expired" "Your session has expired."
  | _ =>
    write_json_error h StatusUnauthorized "authentication_required" "A valid session is required."
  end.

(** [Config.OriginAllowed] *)
Definition origin_allowed (allowed_origins : list string) (r : request) : bool :=
  let origin := get (rq_Header r) "Origin" in
  if (length allowed_origins =? 0)%nat then true
  else if bool_decide (origin = "") then true
  else existsb (λ o, bool_decide (o = origin)) allowed_origins.

(** [bearerToken] *)
Definition bearer_token (header : string) : option string :=
  match cut (trim_space header) " "%char with
  | None => None
  | Some (scheme, token) =>
    if negb (equal_fold scheme "Bearer") || bool_decide (token = "")
       || (MaxAccessTokenBytes <? len token) || contains_any token token_whitespace
    then None else Some token
  end.

(** ** The session endpoint

    [random] and [now] are the service's sources during the request. *)
Definition session_handler (allowed_origins : list string) (auth : option Service) (now : time)
    (random : option (list Z)) (h : values) (r : request) : reply :=
  let h := set_header "Cache-Control" "no-store" h in
  if bool_decide (rq_Method r = "GET") then
    let h := set_header "Content-Type" "application/json" h in
    mk_response StatusOK h None
      match authenticate auth now r with
      | Ok principal => SessionBody (mode auth) (authenticated principal) (Some principal) None
      | Err ErrExpiredSession => SessionBody (mode auth) false None (Some "session_expired")
      | Err _ => SessionBody (mode auth) false None (Some "authentication_required")
      end
  else if bool_decide (rq_Method r = "POST") then
    if negb (bool_decide (mode auth = ModeSession)) then
      write_json_error h StatusConflict "authentication_disabled" "Session authentication is disabled."
    else if negb (origin_allowed allowed_origins r) then
      write_json_error h StatusForbidden "origin_forbidden" "The request origin is not allowed."
    else match bearer_token (get (rq_Header r) "Authorization") with
    | None =>
      write_json_error h StatusUnauthorized "invalid_credentials" "The access token is invalid."
    | Some token =>
      match exchange auth now random token with
      | Err ErrInvalidToken =>
        write_json_error h StatusUnauthorized "invalid_credentials" "The access token is invalid."
      | Err _ =>
        write_json_error h StatusInternalServerError "session_unavailable"
          "A session could not be created."
      | Ok (principal, cookie) =>
        mk_response StatusOK (set_header "Content-Type" "application/json" h) (Some cookie)
          (SessionBody (mode auth) true (Some principal) None)
      end
    end
  else if bool_decide (rq_Method r = "DELETE") then
    if negb (origin_allowed allowed_origins r) then
      write_json_error h StatusForbidden "origin_forbidden" "The request origin is not allowed."
    else mk_response StatusNoContent h (Some (expired_cookie auth)) NoBody
  else
    write_json_error (set_header "Allow" "GET, POST, DELETE" h) StatusMethodNotAllowed
      "method_not_allowed" "Method not allowed.".

(** [enableCORS] around a handler, which gets the headers set so far; [respond]
    is what a reply of its own is to the server. *)
Definition enable_cors {A} (respond : reply → A) (allowed_origins : list string)
    (next : values → request → A) (r : request) : A :=
  if bool_decide (rq_Path r = "/ws") then next ∅ r
  else
    let origin := get (rq_Header r) "Origin" in
    if negb (bool_decide (origin = "")) && negb (origin_allowed allowed_origins r) then
      respond (write_json_error ∅ StatusForbidden "origin_forbidden"
                 "The request origin is not allowed.")
    else
      let h :=
        if bool_decide (origin = "") then ∅
        else add_header "Vary" "Origin"
          (set_header "Access-Control-Allow-Credentials" "true"
             (set_header "Access-Control-Allow-Origin" origin ∅)) in
      let h := set_header "Access-Control-Allow-Methods" "GET, POST, DELETE, OPTIONS" h in
      let h := set_header "Access-Control-Allow-Headers" "Content-Type, Authorization" h in
      if bool_decide (rq_Method r = "OPTIONS") then respond (mk_response StatusNoContent h None NoBody)
      else next h r.

(** ** The history endpoint *)

(** The [limit] parameter: 50 when absent, at most 100. *)
Definition parse_limit (raw : string) : option Z :=
  if bool_decide (raw = "") then Some 50
  else
    parsed ← atoi raw;
    if parsed <? 1 then None else Some (if 100 <? parsed then 100 else parsed).

(** The [before] parameter: absent, or one cursor of this room. *)
Definition parse_before (zone : Z → Z * Z * Z) (room : string) (vs : option (list string)) :
    option (option historyCursor) :=
  match vs with
  | None => Some None
  | Some [raw] =>
    cursor ← decode_history_cursor zone raw;
    if history_cursor_room_matches cursor room then Some (Some cursor) else None
  | Some _ => None
  end.

Section handlers.
Context {S : Type} `{Repository S}.

(** [healthHandler] *)
Definition health_handler (c : call) (db : S) (h : values) : reply :=
  let dbOK := PingContext c db in
  mk_response (if dbOK then StatusOK else StatusServiceUnavailable)
    (set_header "Content-Type" "application/json" h) None
    (HealthBody (if dbOK then "ok" else "degraded") (if dbOK then "ok" else "error")).

(** The query of [messagesHandler]: the newest rows, or those before the cursor. *)
Definition fetch_history (c : call) (db : S) (room : string) (before : option historyCursor)
    (fetchLimit : Z) : result db_error (list Message) :=
  match before with
  | None => GetRecentMessagesInRoomContext c db room fetchLimit
  | Some cursor =>
    GetMessagesBeforeInRoomContext c db room (cur_Timestamp cursor) (cur_ID cursor) fetchLimit
  end.

(** [messagesHandler] *)
Definition messages_handler (zone : Z → Z * Z * Z) (auth : option Service) (now : time) (c : call)
    (db : S) (h : values) (r : request) : reply :=
  let h := set_header "Cache-Control" "private, no-store" h in
  if negb (bool_decide (rq_Method r = "GET")) then
    http_error h "method not allowed" StatusMethodNotAllowed
  else match normalize_room (get (rq_Query r) "room") with
  | Err _ => http_error h "invalid room" StatusBadRequest
  | Ok room =>
    match authorize auth now r room with
    | Err e => write_auth_error h e
    | Ok principal =>
      match parse_limit (get (rq_Query r) "limit") with
      | None => http_error h "limit must be a positive integer" StatusBadRequest
      | Some limit =>
        match parse_before zone room (rq_Query r !! "before") with
        | None => http_error h "invalid history cursor" StatusBadRequest
        | Some before =>
          let fetchLimit := limit + 1 in
          match fetch_history c db room before fetchLimit with
          | Err _ => http_error h "message history unavailable" StatusInternalServerError
          | Ok messages =>
            let hasMore := limit <? Z.of_nat (length messages) in
            let messages := if hasMore then last_n (Z.to_nat limit) messages else messages in
            let page nextCursor :=
              mk_response StatusOK (set_header "Content-Type" "application/json" h) None
                (PageBody (mk_page room messages limit hasMore nextCursor principal)) in
            if hasMore then
              match head messages ≫= encode_history_cursor zone room with
              | None => http_error h "message history unavailable" StatusInternalServerError
              | Some encoded => page (Some encoded)
              end
            else page None
          end
        end
      end
    end
  end.
End handlers.

(** ** Facts *)

Lemma parse_limit_range raw limit : parse_limit raw = Some limit → 1 <= limit <= 100.
Proof.
  unfold parse_limit. case_bool_decide; [intros [= <-]; lia|].
  intros (n&_&Hn)%bind_Some. destruct (n <? 1) eqn:?; [done|]. simplify_eq. case_match; lia.
Qed.
