(* ===== verification/History.v ===== *)
(** The history endpoint over any backend that fulfils the history contract:
    one page is exact, and following [next_cursor] from the first page visits the
    whole history of a room once and stops. *)
From S2P Require Import Prelude.
From S2P Require Import GoUnicode.
From S2P Require Import GoString.
From S2P Require Import GoTime.
From S2P Require Import Http.
From S2P Require Import Rooms.
From S2P Require Import Storage.
From S2P Require Import Cursor.
From S2P Require Import Auth.
From S2P Require Import Server.
Open Scope Z_scope.

(** ** Rooms of cursors *)

Lemma canonical_fold room : canonical_room room = true → fold_key <$> runes room = runes room.
Proof.
  intros H. destruct (canonical_runes room H) as [-> Hc].
  rewrite <- (list_fmap_id (bytes room)) at 2. apply list_fmap_ext. intros i b Hb.
  apply list_elem_of_lookup_2, list_elem_of_In in Hb. rewrite forallb_forall in Hc.
  specialize (Hc b Hb). unfold room_char, isLetter, isDigit in Hc. unfold fold_key.
  simpl. repeat case_match; lia.
Qed.

Lemma runes_inj_canonical a b :
  canonical_room a = true → canonical_room b = true → runes a = runes b → a = b.
Proof.
  intros Ha Hb H. apply bytes_inj. destruct (canonical_runes a Ha) as [<- _].
  by destruct (canonical_runes b Hb) as [<- _].
Qed.

(** Between canonical names the case-insensitive comparison is equality. *)
Lemma room_matches cursor room :
  canonical_room (cur_Room cursor) = true → canonical_room room = true →
  history_cursor_room_matches cursor room = true ↔ cur_Room cursor = room.
Proof.
  intros Hc Hr. unfold history_cursor_room_matches, equal_fold.
  rewrite bool_decide_eq_true, !canonical_fold by done. split; [by apply runes_inj_canonical|by intros ->].
Qed.

(** ** One page *)

(** The request for a page: the cursor of the previous one, if there was one. *)
Definition page_request (r : request) (cursor : option string) : request :=
  mk_request (rq_Method r) (rq_Path r)
    (match cursor with
     | None => delete "before" (rq_Query r)
     | Some raw => <["before" := [raw]]> (rq_Query r)
     end)
    (rq_Header r) (rq_Cookies r) (rq_RemoteAddr r).

Section history.
Context {S : Type} `{HistoryContract S} (zone : Z → Z * Z * Z).
Context (auth : option Service) (now : time) (c : call) (db : S) (h : values).
Context (r : request) (room : string) (viewer : Principal) (limit : Z).
Context (Hc : healthy c) (Hwf : hist_wf db).
Context (Hget : rq_Method r = "GET").
Context (Hroom : normalize_room (get (rq_Query r) "room") = Ok room).
Context (Hauth : authorize auth now r room = Ok viewer).
Context (Hlimit : parse_limit (get (rq_Query r) "limit") = Some limit).
Context (Hnonzero : Forall (λ m, is_zero (row_Timestamp m) = false) (history db room)).

(** The messages a request with this [before] parameter is about. *)
Definition older (before : option historyCursor) : list Message :=
  match before with
  | None => history db room
  | Some cursor =>
    List.filter (msg_before hist_rank (cur_Timestamp cursor) (cur_ID cursor)) (history db room)
  end.

(** The cursor that continues behind the message [m]. *)
Definition cursor_of (m : Message) : historyCursor :=
  mk_cursor historyCursorVersion room (utc (row_Timestamp m)) (row_ID m).

Definition page_response (ms : list Message) (more : bool) (next : option string) : reply :=
  mk_response StatusOK
    (set_header "Content-Type" "application/json" (set_header "Cache-Control" "private, no-store" h))
    None (PageBody (mk_page room ms limit more next viewer)).

Lemma older_elem before m : m ∈ older before → m ∈ history db room.
Proof. destruct before; simpl; [by intros [_ ?]%elem_of_filter_bool|done]. Qed.

Lemma fetch_older before n :
  (∀ cursor, before = Some cursor → hist_time (cur_Timestamp cursor)) → 0 <= n →
  fetch_history c db room before n = Ok (last_n (Z.to_nat n) (older before)).
Proof.
  intros Hb Hn. assert (Hr : normalize_room room = Ok room).
  { apply canonical_room_iff. by apply normalize_room_ok in Hroom. }
  destruct before as [cursor|]; simpl; [apply hist_before; auto|by apply hist_recent].
Qed.

(** A message of the history always has a cursor, which decodes to its place. *)
Lemma message_cursor m :
  m ∈ history db room →
  ∃ raw, encode_history_cursor zone room m = Some raw
    ∧ decode_history_cursor zone raw = Some (cursor_of m).
Proof.
  intros Hm. destruct (hist_elem db room m Hwf Hm) as (Ht&_&Hid). unfold max_int64 in Hid.
  rewrite Forall_forall in Hnonzero. specialize (Hnonzero m Hm).
  destruct (proj2 (encode_cursor_total zone room m)) as [raw Hraw]; [by apply hist_time_year|].
  exists raw. split; [done|]. apply decode_encode_cursor; [done|by eapply normalize_room_ok|done|lia].
Qed.

Lemma page_exact (q : request) before :
  rq_Method q = "GET" → normalize_room (get (rq_Query q) "room") = Ok room →
  authorize auth now q room = Ok viewer → parse_limit (get (rq_Query q) "limit") = Some limit →
  parse_before zone room (rq_Query q !! "before") = Some before →
  (∀ cursor, before = Some cursor → hist_time (cur_Timestamp cursor)) →
  ∃ next,
    messages_handler zone auth now c db h q
    = page_response (last_n (Z.to_nat limit) (older before))
        (limit <? Z.of_nat (length (older before))) next
    ∧ if limit <? Z.of_nat (length (older before)) then
        ∃ m raw, head (last_n (Z.to_nat limit) (older before)) = Some m ∧ next = Some raw
          ∧ decode_history_cursor zone raw = Some (cursor_of m)
      else next = None.
Proof.
  intros Hqget Hqroom Hqauth Hqlimit Hbefore Htimes.
  pose proof (parse_limit_range _ _ Hlimit) as Hl.
  unfold messages_handler. rewrite Hqget, bool_decide_true by done. cbn [negb].
  rewrite Hqroom, Hqauth, Hqlimit, Hbefore, fetch_older by (done || lia).
  rewrite length_last_n.
  replace (limit <? Z.of_nat (Z.to_nat (limit + 1) `min` length (older before)))
    with (limit <? Z.of_nat (length (older before))) by lia.
  destruct (limit <? Z.of_nat (length (older before))) eqn:Hmore.
  - rewrite last_n_last_n by lia. rewrite head_last_n by lia.
    destruct (older before !! (length (older before) - Z.to_nat limit)%nat) as [m|] eqn:Hm.
    2:{ apply lookup_ge_None in Hm. lia. }
    apply list_elem_of_lookup_2, older_elem in Hm.
    destruct (message_cursor m Hm) as (raw&Hraw&Hdec). cbn [mbind option_bind]. rewrite Hraw.
    exists (Some raw). split; [done|]. by exists m, raw.
  - exists None. split; [|done]. rewrite !last_n_all by lia. done.
Qed.

(** ** The whole history *)

(** What a client does that scrolls back to the beginning: pages are requested
    until one has no cursor. *)
Fixpoint walk (fuel : nat) (cursor : option string) : option (list Message) :=
  match fuel with
  | O => None
  | Datatypes.S fuel =>
    match rs_Body (messages_handler zone auth now c db h (page_request r cursor)) with
    | PageBody page =>
      match pg_next_cursor page with
      | None => Some (pg_messages page)
      | Some raw => earlier ← walk fuel (Some raw); Some (earlier ++ pg_messages page)
      end
    | _ => None
    end
  end.

Lemma msg_lt_irrefl m : ¬ msg_lt hist_rank m m.
Proof. unfold msg_lt. lia. Qed.

Lemma msg_lt_trans : Transitive (msg_lt hist_rank).
Proof. intros a b d. unfold msg_lt. lia. Qed.

(** The messages below the cursor of the message at [i] are the first [i]. *)
Lemma older_cursor i m :
  history db room !! i = Some m → older (Some (cursor_of m)) = take i (history db room).
Proof.
  intros Hi. apply (filter_below (msg_lt hist_rank) _ _ _ m).
  - intros x. unfold msg_before, cursor_of, msg_lt. cbn [cur_Timestamp cur_ID].
    rewrite (proj1 (hist_utc (row_Timestamp m))). lia.
  - apply msg_lt_irrefl.
  - apply msg_lt_trans.
  - by apply hist_sorted.
  - done.
Qed.

Lemma get_page_request cursor key :
  key ≠ "before" → get (rq_Query (page_request r cursor)) key = get (rq_Query r) key.
Proof.
  intros Hk. unfold get, page_request. cbn [rq_Query].
  destruct cursor; [by rewrite lookup_insert_ne|by rewrite lookup_delete_ne].
Qed.

(** From a cursor in front of the [k] first messages, the walk returns them. *)
Lemma walk_from fuel k cursor before :
  (k <= length (history db room))%nat → older before = take k (history db room) →
  parse_before zone room (rq_Query (page_request r cursor) !! "before") = Some before →
  (∀ cur, before = Some cur → hist_time (cur_Timestamp cur)) →
  (1 <= fuel)%nat → Z.of_nat k <= Z.of_nat fuel * limit →
  walk fuel cursor = Some (take k (history db room)).
Proof.
  pose proof (parse_limit_range _ _ Hlimit) as Hl.
  revert k cursor before. induction fuel as [|fuel IH]; intros k cursor before Hk Hold Hb Ht Hf Hkf; [lia|].
  cbn [walk]. destruct (page_exact (page_request r cursor) before) as (next&->&Hnext); try done.
  { by rewrite get_page_request. }
  { by rewrite get_page_request. }
  cbn [rs_Body page_response pg_next_cursor pg_messages].
  rewrite Hold, length_take, Nat.min_l in * by lia.
  destruct (limit <? Z.of_nat k) eqn:Hmore.
  - destruct Hnext as (m&raw&Hm&->&Hdec).
    rewrite head_last_n in Hm by (rewrite length_take; lia).
    rewrite length_take, Nat.min_l, lookup_take_lt in Hm by lia.
    destruct (hist_elem db room m Hwf) as (Hmt&_&_); [by eapply list_elem_of_lookup_2|].
    rewrite (IH (k - Z.to_nat limit)%nat (Some raw) (Some (cursor_of m))); cbn [mbind option_bind].
    + f_equal. rewrite <- (last_n_app (Z.to_nat limit) (take k (history db room))) at 2.
      by rewrite length_take, Nat.min_l, take_take, Nat.min_l by lia.
    + lia.
    + by apply older_cursor.
    + unfold page_request. cbn [rq_Query]. rewrite lookup_insert_eq. cbn [parse_before]. rewrite Hdec.
      cbn [mbind option_bind].
      assert (Hcan : canonical_room room = true) by by eapply normalize_room_ok.
      by rewrite (proj2 (room_matches (cursor_of m) room Hcan Hcan)).
    + intros cur [= <-]. by apply hist_utc.
    + nia.
    + rewrite Nat2Z.inj_sub by lia. lia.
  - subst next. f_equal. apply last_n_all. rewrite length_take. lia.
Qed.
End history.
