(* ===== verification/HistoryTheorems.v ===== *)
(** The history endpoint: the theorems, and a SQLite database they are applied
    to. *)
From S2P Require Import Prelude.
From S2P Require Import GoUnicode.
From S2P Require Import GoString.
From S2P Require Import GoTime.
From S2P Require Import Http.
From S2P Require Import Rooms.
From S2P Require Import Storage.
From S2P Require Import Cursor.
From S2P Require Import Auth.
From S2P Require Import Server.
From S2P Require Import History.
From S2P Require Import Sqlite.
Open Scope Z_scope.

(** C30: the history endpoint pages completely.  Over any backend that fulfils
    the history contract, a client that starts without a cursor and follows
    [next_cursor] reaches a page without one, after no more requests than the
    history has pages, and the pages it saw, oldest first, are the whole history
    of the room: every message once, in order, none skipped between two messages
    with the same timestamp. *)
Theorem history_walk_complete {S : Type} `{HistoryContract S} (zone : Z → Z * Z * Z)
    (auth : option Service) (now : time) (c : call) (db : S) (h : values) (r : request)
    (room : string) (viewer : Principal) (limit : Z) (fuel : nat)
    (Hc : healthy c) (Hwf : hist_wf db) (Hget : rq_Method r = "GET")
    (Hroom : normalize_room (get (rq_Query r) "room") = Ok room)
    (Hauth : authorize auth now r room = Ok viewer)
    (Hlimit : parse_limit (get (rq_Query r) "limit") = Some limit)
    (Hnonzero : Forall (λ m, is_zero (row_Timestamp m) = false) (history db room))
    (Hfuel : (1 <= fuel)%nat)
    (Hpages : Z.of_nat (length (history db room)) <= Z.of_nat fuel * limit) :
  walk zone auth now c db h r fuel None = Some (history db room).
Proof.
  rewrite <- (firstn_all (history db room)).
  apply (walk_from zone auth now c db h r room viewer limit) with (before := None); try done.
  - cbn [older]. by rewrite firstn_all.
  - unfold page_request. cbn [rq_Query]. by rewrite lookup_delete_eq.
Qed.

(** C31: one page refines the abstract history.  For an authorized request with a
    valid limit and cursor, the response holds the newest [limit] messages in
    front of the cursor, [has_more] says whether older ones are left, and then,
    only then, [next_cursor] decodes to the place of the page's first message. *)
Theorem history_page_refines {S : Type} `{HistoryContract S} (zone : Z → Z * Z * Z)
    (auth : option Service) (now : time) (c : call) (db : S) (h : values) (r : request)
    (room : string) (viewer : Principal) (limit : Z) (before : option historyCursor)
    (Hc : healthy c) (Hwf : hist_wf db) (Hget : rq_Method r = "GET")
    (Hroom : normalize_room (get (rq_Query r) "room") = Ok room)
    (Hauth : authorize auth now r room = Ok viewer)
    (Hlimit : parse_limit (get (rq_Query r) "limit") = Some limit)
    (Hbefore : parse_before zone room (rq_Query r !! "before") = Some before)
    (Htimes : ∀ cursor, before = Some cursor → hist_time (cur_Timestamp cursor))
    (Hnonzero : Forall (λ m, is_zero (row_Timestamp m) = false) (history db room)) :
  let earlier := older db room before in
  ∃ next,
    messages_handler zone auth now c db h r
    = page_response h room viewer limit (last_n (Z.to_nat limit) earlier)
        (limit <? Z.of_nat (length earlier)) next
    ∧ if limit <? Z.of_nat (length earlier) then
        ∃ m raw, head (last_n (Z.to_nat limit) earlier) = Some m ∧ next = Some raw
          ∧ decode_history_cursor zone raw
            = Some (mk_cursor historyCursorVersion room (utc (row_Timestamp m)) (row_ID m))
      else next = None.
Proof. by apply (page_exact zone auth now c db h r room viewer limit). Qed.

(** C32: a cursor survives its text.  For a canonical room and a message with a
    positive id and a non-zero time of a four-digit year, encoding succeeds, the
    text is at most 410 bytes, and it decodes to the version, room, instant and id
    that were encoded, in any process time zone. *)
Theorem cursor_round_trip (zone : Z → Z * Z * Z) (room : string) (m : Message)
    (Hroom : canonical_room room = true) (Hyear : four_digit_year (row_Timestamp m))
    (Hzero : is_zero (row_Timestamp m) = false) (Hid : 1 <= row_ID m < 2 ^ 63) :
  ∃ raw,
    encode_history_cursor zone room m = Some raw ∧ len raw <= 410
    ∧ decode_history_cursor zone raw
      = Some (mk_cursor historyCursorVersion room (utc (row_Timestamp m)) (row_ID m))
    ∧ parse_before zone room (Some [raw])
      = Some (Some (mk_cursor historyCursorVersion room (utc (row_Timestamp m)) (row_ID m))).
Proof.
  destruct (proj2 (encode_cursor_total zone room m) Hyear) as [raw Hraw].
  pose proof (decode_encode_cursor zone room m raw Hraw Hroom Hzero Hid) as Hdec.
  exists raw. split_and!; [done|by apply (length_encode_cursor zone room m)|done|].
  cbn [parse_before]. rewrite Hdec. cbn [mbind option_bind].
  by rewrite (proj2 (room_matches (mk_cursor historyCursorVersion room _ _) room Hroom Hroom)).
Qed.

(** What a cursor parameter can be.  Whatever text a client sends, a cursor
    that gets as far as the query is a single value that decodes to version 1, a
    UTC non-zero time, an id between 1 and the largest int64, and the very room of
    the request, although the code compares the names case-insensitively. *)
Lemma cursor_parameter_valid (zone : Z → Z * Z * Z) (room : string) (vs : option (list string))
    (cursor : historyCursor) (Hroom : canonical_room room = true)
    (Hparse : parse_before zone room vs = Some (Some cursor)) :
  (∃ raw, vs = Some [raw] ∧ decode_history_cursor zone raw = Some cursor)
  ∧ cur_Version cursor = 1 ∧ cur_Room cursor = room
  ∧ is_zero (cur_Timestamp cursor) = false ∧ t_loc (cur_Timestamp cursor) = UTC
  ∧ 1 <= cur_ID cursor < 2 ^ 63.
Proof.
  destruct vs as [[|raw [|]]|]; [done| |done|done]. cbn [parse_before] in Hparse.
  apply bind_Some in Hparse as (cur&Hdec&Hm).
  destruct (history_cursor_room_matches cur room) eqn:Hmatch; [|done]. simplify_eq.
  destruct (decode_cursor_valid zone raw cursor Hdec) as ((Hv&Hcr&Hz&Hutc&Hid)&Hmax).
  apply room_matches in Hmatch; [|done|done]. split_and!; try done. by exists raw.
Qed.

(** ** A database and its pages *)
#[local] Existing Instances text_driver text_driver_laws.

Module HistoryExample.

Definition saves : list (call * write) :=
  [(Example.call_at 100, WSave "general" "u1" "ana" "one" "message");
   (Example.call_at 101, WSave "general" "u1" "ana" "two" "message");
   (Example.call_at 101, WSave "general" "u2" "bob" "three" "message");
   (Example.call_at 101, WSave "General " "u2" "bob" "four" "message");
   (Example.call_at 102, WSave "dev" "u2" "bob" "elsewhere" "message");
   (Example.call_at 103, WSave "general" "u1" "ana" "five" "message")].

Definition db : DB := run_writes empty_db saves.

Lemma history_db_ok : db_wf db.
Proof.
  apply sqlite_run_wf; [apply empty_db_wf|].
  unfold four_digit_year. repeat constructor; vm_compute; discriminate.
Qed.

Lemma nonzero : Forall (λ m, is_zero (row_Timestamp m) = false) (history db "general").
Proof.
  apply Forall_forall. intros m Hm. apply list_elem_of_In in Hm.
  assert (Hb : forallb (λ m, negb (is_zero (row_Timestamp m))) (history db "general") = true)
    by (vm_compute; reflexivity).
  rewrite forallb_forall in Hb. by apply negb_true_iff, Hb.
Qed.

Definition two_at_a_time : request :=
  mk_request "GET" "/api/messages" {["room" := ["GENERAL"]; "limit" := ["2"]]} ∅ [] "10.0.0.7:5123".
End HistoryExample.

Lemma history_walk_complete_witness :
  length (history HistoryExample.db "general") = 5%nat
  ∧ walk utc_zone None zero_time (Example.call_at 200) HistoryExample.db ∅
      HistoryExample.two_at_a_time 3 None
    = Some (history HistoryExample.db "general").
Proof.
  split; [vm_compute; reflexivity|].
  apply (history_walk_complete utc_zone None zero_time (Example.call_at 200) HistoryExample.db ∅
    HistoryExample.two_at_a_time "general" anonymous_principal 2 3).
  - reflexivity.
  - exact HistoryExample.history_db_ok.
  - reflexivity.
  - vm_compute. reflexivity.
  - vm_compute. reflexivity.
  - vm_compute. reflexivity.
  - exact HistoryExample.nonzero.
  - lia.
  - vm_compute. discriminate.
Defined.

Lemma history_page_refines_witness :
  ∃ next,
    messages_handler utc_zone None zero_time (Example.call_at 200) HistoryExample.db ∅
      HistoryExample.two_at_a_time
    = page_response ∅ "general" anonymous_principal 2 (last_n 2 (history HistoryExample.db "general"))
        true next.
Proof.
  destruct (history_page_refines utc_zone None zero_time (Example.call_at 200) HistoryExample.db ∅
    HistoryExample.two_at_a_time "general" anonymous_principal 2 None) as (next&Hpage&_).
  - reflexivity.
  - exact HistoryExample.history_db_ok.
  - reflexivity.
  - vm_compute. reflexivity.
  - vm_compute. reflexivity.
  - vm_compute. reflexivity.
  - vm_compute. reflexivity.
  - intros cursor Hnone. discriminate Hnone.
  - exact HistoryExample.nonzero.
  - exists next. exact Hpage.
Defined.

Definition leap_message : Message :=
  mk_message 7 "u1" "ana" "hi" "message" "dev" (mk_time (63844848000 * Second + 1) (FixedZone 3600)).

Lemma cursor_round_trip_witness :
  ∃ raw,
    encode_history_cursor utc_zone "dev" leap_message = Some raw ∧ len raw <= 410
    ∧ decode_history_cursor utc_zone raw
      = Some (mk_cursor 1 "dev" (mk_time (63844848000 * Second + 1) UTC) 7).
Proof.
  destruct (cursor_round_trip utc_zone "dev" leap_message) as (raw&H1&H2&H3&_).
  - reflexivity.
  - split; vm_compute; discriminate.
  - reflexivity.
  - split; vm_compute; [discriminate|reflexivity].
  - exists raw. split_and!; assumption.
Defined.

Definition dev_cursor : string :=
  default "" (encode_history_cursor utc_zone "dev" leap_message).

