(* ===== verification/Client.v ===== *)
(** One WebSocket client ([client.go], [message.go]).

    [Client] is the Go struct without its connection; the channel [send] is its
    buffered contents, [done] whether the channel of that name is closed.  The
    token bucket of [golang.org/x/time/rate] is the parameter [RateLimiter];
    the spans of a frame are in [Tracing]. *)
From Stdlib Require Import QArith_base.
From S2P Require Import Prelude.
From S2P Require Import GoUnicode.
From S2P Require Import GoString.
From S2P Require Import GoTime.
From S2P Require Import Metrics.
From S2P Require Import Rooms.
From S2P Require Import Storage.
From S2P Require Import Sqlite.
Open Scope Z_scope.

(** ** Messages ([message.go]) *)

(** [main.Message], the wire message. *)
Record Msg := mk_msg {
  m_ID : Z;
  m_UserID : string;
  m_Username : string;
  m_Content : string;
  m_Type : string;
  m_Room : string;
  m_Timestamp : time
}.

#[export] Instance msg_eq_dec : EqDecision Msg.
Proof. solve_decision. Defined.

Definition maxUsernameRunes : Z := 64.
Definition maxMessageRunes : Z := 4000.

Definition validUsername (s : string) : bool :=
  if decide (s = "") then false else rune_count s <=? maxUsernameRunes.

Definition validMessageBody (s : string) : bool :=
  if decide (s = "") then false else rune_count s <=? maxMessageRunes.

(** A system notice; the Go literal leaves the other fields zero. *)
Definition notification (content room : string) : Msg :=
  mk_msg 0 "" "System" content "notification" room zero_time.

(** [message.ID = persisted.ID; message.Timestamp = persisted.Timestamp] *)
Definition stamp (m : Msg) (row : Message) : Msg :=
  mk_msg (row_ID row) (m_UserID m) (m_Username m) (m_Content m) (m_Type m) (m_Room m)
    (row_Timestamp row).

(** [saveMessageObservedForUserInRoomContext]: the repository call with its
    result counted. *)
Definition saveMessageObservedForUserInRoomContext {S} `{Repository S} (c : call) (db : S) (ms : metrics)
    (room userID username content msgType : string) : result db_error Message * S * metrics :=
  let '(res, db) := SaveMessageForUserInRoomContext c db room userID username content msgType in
  (res, db, inc MessagePersistDuration (if is_ok res then "ok" else "error") ms).

(** Without a user: [saveMessageObservedInRoomContext]; with a background context
    and in the default room: [saveMessageObservedInRoom], [saveMessageObserved]. *)
Definition saveMessageObservedInRoomContext {S} `{Repository S} (c : call) (db : S) (ms : metrics)
    (room username content msgType : string) : result db_error Message * S * metrics :=
  saveMessageObservedForUserInRoomContext c db ms room "" username content msgType.
Definition saveMessageObservedInRoom {S} `{Repository S} (c : call) (db : S) (ms : metrics)
    (room username content msgType : string) : result db_error Message * S * metrics :=
  saveMessageObservedInRoomContext c db ms room username content msgType.
Definition saveMessageObserved {S} `{Repository S} (c : call) (db : S) (ms : metrics)
    (username content msgType : string) : result db_error Message * S * metrics :=
  saveMessageObservedInRoom c db ms DefaultRoom username content msgType.

(** ** Rate limits *)

(** A [float64]: a finite one is a rational. *)
Inductive float64 := Finite (q : Q) | PosInf | NegInf | NaN.

(** [f <= 0], false for NaN. *)
Definition le_zero (f : float64) : bool :=
  match f with Finite q => Qle_bool q 0 | NegInf => true | PosInf | NaN => false end.

(** [rate.Limiter]: a token bucket with its refill rate and burst. *)
Class RateLimiter := {
  limiter : Type;
  NewLimiter : float64 → Z → limiter;
  Allow : time → limiter → bool * limiter
}.

(** The fields of [config.Config] a client reads. *)
Record LimitConfig := mk_limit_config {
  DisableMessageRateLimit : bool;
  MessageRPS : float64;
  MessageBurst : Z
}.

Section client.
Context `{RateLimiter}.

Record Client := mk_client {
  c_ID : string;
  c_UserID : string;
  c_Username : string;
  c_Authenticated : bool;
  c_AuthExpiresAt : time;
  c_Room : string;
  c_msgLimiter : option limiter;
  c_send : list Msg;
  c_done : bool
}.

Definition outboundQueueSize : nat := 256.

Definition newMessageLimiter (cfg : LimitConfig) : option limiter :=
  if DisableMessageRateLimit cfg || le_zero (MessageRPS cfg) then None
  else
    let burst := MessageBurst cfg in
    let burst := if burst <? 1 then 1 else burst in
    Some (NewLimiter (MessageRPS cfg) burst).

(** Field updates. *)
Definition with_send (c : Client) (send : list Msg) : Client :=
  mk_client (c_ID c) (c_UserID c) (c_Username c) (c_Authenticated c) (c_AuthExpiresAt c)
    (c_Room c) (c_msgLimiter c) send (c_done c).
Definition with_limiter (c : Client) (l : option limiter) : Client :=
  mk_client (c_ID c) (c_UserID c) (c_Username c) (c_Authenticated c) (c_AuthExpiresAt c)
    (c_Room c) l (c_send c) (c_done c).
Definition setUsername (c : Client) (username : string) : Client :=
  mk_client (c_ID c) (c_UserID c) username (c_Authenticated c) (c_AuthExpiresAt c)
    (c_Room c) (c_msgLimiter c) (c_send c) (c_done c).

Definition room (c : Client) : string :=
  if decide (c_Room c = "") then DefaultRoom else c_Room c.

(** [enqueue]: refused when closed or when the outbound queue is full.  The
    two selects are one step: when [done] closes between them, either outcome is
    that of one order of the two operations. *)
Definition enqueue (c : Client) (message : Msg) : bool * Client :=
  if c_done c then (false, c)
  else if (length (c_send c) <? outboundQueueSize)%nat then
    (true, with_send c (c_send c ++ [message]))
  else (false, c).

(** [close]: [closeOnce] makes it idempotent. *)
Definition close (c : Client) : Client :=
  mk_client (c_ID c) (c_UserID c) (c_Username c) (c_Authenticated c) (c_AuthExpiresAt c)
    (c_Room c) (c_msgLimiter c) (c_send c) true.

(** [allowMessage] *)
Definition allowMessage (now : time) (c : Client) : bool * Client :=
  match c_msgLimiter c with
  | None => (true, c)
  | Some l => let '(ok, l) := Allow now l in (ok, with_limiter c (Some l))
  end.

Definition rate_limit_notice : string := "You are sending messages too quickly. Please slow down.".

(** [sendRateLimitNotice]: the notice is dropped when the queue refuses it. *)
Definition sendRateLimitNotice (c : Client) : Client :=
  (enqueue c (notification rate_limit_notice (room c))).2.

(** [auditRejectedMessage]: a failing audit is only logged. *)
Definition auditRejectedMessage {S} `{Repository S} (w : call) (db : S) (c : Client)
    (reason content : string) : S :=
  (SaveModerationEventForUserContext w db (c_ID c) (c_UserID c) (c_Username c) reason content).2.

(** [nextReadDeadline] *)
Definition pongWait : Z := 60 * Second.
Definition nextReadDeadline (now : time) (c : Client) : time :=
  let deadline := add now pongWait in
  if negb (is_zero (c_AuthExpiresAt c)) && before (c_AuthExpiresAt c) deadline
  then c_AuthExpiresAt c else deadline.

(** ** One iteration of [readMessages] after a successful [ReadJSON]

    The outcome is the client, database and metrics afterwards, and the message
    the iteration hands to [publishContext], if it gets that far. *)
Record read_world := mk_read_world {
  rw_now : time;     (* the clock of the limiter *)
  rw_audit : call;   (* the audit insert *)
  rw_save : call     (* the message insert *)
}.

Definition read_step {S} `{Repository S} (w : read_world) (c : Client) (db : S) (ms : metrics)
    (msg : Msg) : Client * S * metrics * option Msg :=
  if decide (m_Type msg = "username") then
    if c_Authenticated c then
      (c, auditRejectedMessage (rw_audit w) db c "identity_override" (m_Content msg),
       inc MessagesRejected "identity_override" ms, None)
    else
      let name := trim_space (m_Content msg) in
      if negb (validUsername name) then
        (c, auditRejectedMessage (rw_audit w) db c "invalid_username" (m_Content msg),
         inc MessagesRejected "invalid_username" ms, None)
      else (setUsername c name, db, ms, None)
  else
    let type := "message" in
    let body := trim_space (m_Content msg) in
    if negb (validMessageBody body) then
      (c, auditRejectedMessage (rw_audit w) db c "invalid_body" (m_Content msg),
       inc MessagesRejected "invalid_body" ms, None)
    else
      let '(allowed, c) := allowMessage (rw_now w) c in
      if negb allowed then
        (sendRateLimitNotice c, auditRejectedMessage (rw_audit w) db c "rate_limited" body,
         inc MessagesRejected "rate_limited" ms, None)
      else
        let msg := mk_msg (m_ID msg) (c_UserID c) (c_Username c) body type (room c)
                     (m_Timestamp msg) in
        let '(saved, db, ms) :=
          saveMessageObservedForUserInRoomContext (rw_save w) db ms (m_Room msg) (m_UserID msg) (m_Username msg)
            (m_Content msg) (m_Type msg) in
        let msg := match saved with Err _ => msg | Ok dbMsg => stamp msg dbMsg end in
        (c, db, inc MessagesIngested "" ms, Some msg).
End client.

(** ** Lemmas *)
Section client_lemmas.
Context `{RateLimiter}.
Implicit Types (c : Client) (m : Msg).

(** What a client is bound to for its lifetime. *)
Definition binding c : string * string * bool * time * string :=
  (c_ID c, c_UserID c, c_Authenticated c, c_AuthExpiresAt c, room c).

Lemma enqueue_spec c m b c' :
  enqueue c m = (b, c') →
  if b then c_done c = false ∧ (length (c_send c) < outboundQueueSize)%nat
            ∧ c' = with_send c (c_send c ++ [m])
  else c' = c ∧ (c_done c = true ∨ (outboundQueueSize <= length (c_send c))%nat).
Proof.
  unfold enqueue. destruct (c_done c) eqn:?; [intros [= <- <-]; by auto|].
  destruct (_ <? _)%nat eqn:Hlen; intros [= <- <-].
  - split; [done|]. split; [by apply Nat.ltb_lt|done].
  - split; [done|]. right. by apply Nat.ltb_ge.
Qed.

Lemma enqueue_binding c m : binding (enqueue c m).2 = binding c.
Proof. unfold enqueue. by repeat case_match. Qed.

Lemma allowMessage_fields now c ok c' :
  allowMessage now c = (ok, c') →
  binding c' = binding c ∧ c_Username c' = c_Username c ∧ c_send c' = c_send c
  ∧ c_done c' = c_done c.
Proof. unfold allowMessage. repeat case_match; by intros [= <- <-]. Qed.

Lemma validMessageBody_spec s :
  validMessageBody s = true ↔ s ≠ "" ∧ rune_count s <= maxMessageRunes.
Proof. unfold validMessageBody. case_decide; [|rewrite Z.leb_le]; naive_solver. Qed.

Lemma validUsername_spec s :
  validUsername s = true ↔ s ≠ "" ∧ rune_count s <= maxUsernameRunes.
Proof. unfold validUsername. case_decide; [|rewrite Z.leb_le]; naive_solver. Qed.
End client_lemmas.

(** The effects of one read on the client. *)
Section reading.
Context `{RateLimiter} {S : Type} `{Repository S}.
Implicit Types (c : Client) (m : Msg) (db : S).

Lemma read_step_client w c db ms m c' db' ms' out :
  read_step w c db ms m = (c', db', ms', out) →
  binding c' = binding c
  ∧ (c_Username c' = c_Username c
     ∨ c_Authenticated c = false ∧ c_Username c' = trim_space (m_Content m)
       ∧ validUsername (c_Username c') = true)
  ∧ (c_send c' = c_send c
     ∨ (length (c_send c) < outboundQueueSize)%nat
       ∧ c_send c' = c_send c ++ [notification rate_limit_notice (room c)])
  ∧ c_done c' = c_done c.
Proof.
  unfold read_step, saveMessageObservedForUserInRoomContext. case_decide.
  { destruct (c_Authenticated c) eqn:?; [intros [= <- <- <- <-]; by auto|].
    destruct (validUsername _) eqn:?; intros [= <- <- <- <-]; by auto 10. }
  destruct (validMessageBody _); [|intros [= <- <- <- <-]; by auto].
  destruct (allowMessage (rw_now w) c) as [ok c1] eqn:Ha.
  apply allowMessage_fields in Ha as (Hb&Hu&Hs&Hd). simpl.
  assert (Hroom : room c1 = room c) by (unfold binding in Hb; congruence).
  destruct ok; simpl.
  - destruct (SaveMessageForUserInRoomContext _ _ _ _ _ _ _) as [res db1].
    intros [= <- <- <- <-]. rewrite Hb, Hu, Hs, Hd. auto.
  - unfold sendRateLimitNotice. intros [= <- <- <- <-].
    destruct (enqueue c1 _) as [b c2] eqn:He. simpl.
    assert (binding c2 = binding c) as ->.
    { rewrite <- Hb, <- (enqueue_binding c1 (notification rate_limit_notice (room c1))).
      by rewrite He. }
    apply enqueue_spec in He. destruct b.
    + destruct He as (_&Hlen&->). simpl. rewrite Hs in Hlen. rewrite Hu, Hs, Hd, Hroom. auto 10.
    + destruct He as [-> _]. rewrite Hu, Hs, Hd. auto.
Qed.

Lemma read_step_out w c db ms m c' db' ms' out :
  read_step w c db ms m = (c', db', ms', Some out) →
  let saved := SaveMessageForUserInRoomContext (rw_save w) db (room c) (c_UserID c)
                 (c_Username c) (trim_space (m_Content m)) "message" in
  m_Type m ≠ "username" ∧ (allowMessage (rw_now w) c).1 = true ∧ db' = saved.2
  ∧ m_Type out = "message" ∧ m_UserID out = c_UserID c ∧ m_Username out = c_Username c
  ∧ m_Room out = room c ∧ m_Content out = trim_space (m_Content m)
  ∧ validMessageBody (m_Content out) = true
  ∧ (m_ID out, m_Timestamp out)
    = match saved.1 with
      | Ok row => (row_ID row, row_Timestamp row)
      | Err _ => (m_ID m, m_Timestamp m)
      end.
Proof.
  unfold read_step, saveMessageObservedForUserInRoomContext. case_decide as Hty.
  { destruct (c_Authenticated c); [done|]. by destruct (validUsername _). }
  destruct (validMessageBody _) eqn:Hv; [|done].
  destruct (allowMessage (rw_now w) c) as [ok c1] eqn:Ha. destruct ok; simpl; [|done].
  apply allowMessage_fields in Ha as (Hb&Hu&_&_). unfold binding in Hb.
  injection Hb as _ -> _ _ ->. rewrite Hu.
  destruct (SaveMessageForUserInRoomContext _ _ _ _ _ _ _) as [[row|e] db1];
    intros [= <- <- <- <-]; simpl; by auto 20.
Qed.
End reading.

(** ** Properties *)
Section properties.
Context `{RateLimiter} {S : Type} `{Repository S}.
Implicit Types (c : Client) (m : Msg) (db : S).

(** C2: identity is the server's, never the frame's.  Whatever a frame claims,
    the session id, user id, authentication, expiry and room of the client stay,
    the name changes only for an unauthenticated client and to a valid trimmed
    one, and a message that is published is of type "message", carries the
    client's user id, name and room, and a trimmed, non-empty body of at most
    4000 runes. *)
Theorem read_step_identity w c db ms m :
  let '(c', db', ms', out) := read_step w c db ms m in
  binding c' = binding c
  ∧ (c_Username c' = c_Username c
     ∨ c_Authenticated c = false ∧ c_Username c' = trim_space (m_Content m)
       ∧ c_Username c' ≠ "" ∧ rune_count (c_Username c') <= maxUsernameRunes)
  ∧ match out with
    | None => True
    | Some o =>
      m_Type o = "message" ∧ m_UserID o = c_UserID c ∧ m_Username o = c_Username c
      ∧ m_Room o = room c ∧ m_Content o = trim_space (m_Content m)
      ∧ m_Content o ≠ "" ∧ rune_count (m_Content o) <= maxMessageRunes
    end.
Proof.
  destruct (read_step w c db ms m) as [[[c' db'] ms'] out] eqn:E.
  destruct (read_step_client _ _ _ _ _ _ _ _ _ E) as (Hb&Hu&_). split; [done|]. split.
  { destruct Hu as [?|(?&?&?%validUsername_spec)]; naive_solver. }
  destruct out as [o|]; [|done].
  destruct (read_step_out _ _ _ _ _ _ _ _ _ E) as (_&_&_&?&?&?&?&?&[??]%validMessageBody_spec&_).
  done.
Qed.

(** The outcome of a refused frame: nothing is published, one audit event with the
    client's identity, one count under the reason. *)
Definition refused (w : read_world) c db (ms : metrics) (reason content : string) (c' : Client) :
    Client * S * metrics * option Msg :=
  (c', (SaveModerationEventForUserContext (rw_audit w) db (c_ID c) (c_UserID c) (c_Username c)
          reason content).2,
   inc MessagesRejected reason ms, None).

(** The text of a frame is within the bounds of names or bodies. *)
Definition text_ok (s : string) (max : Z) : Prop := s ≠ "" ∧ rune_count s <= max.

(** C21: the whole outcome of one frame, case by case.  A name change is refused as
    [identity_override] for a session client, as [invalid_username] when the trimmed
    name is empty or longer than 64 runes, and otherwise renames the client and does
    nothing else.  A message is refused as [invalid_body] when its trimmed text is
    empty or longer than 4000 runes, then as [rate_limited] when the bucket says no,
    with a notice; every refusal is audited once under that reason with the client's
    identity and the text as sent (the trimmed one when rate limited), counted once,
    and nothing is published.  Everything else is saved once, counted by the result
    of the save and as ingested, and published, also when the save failed, with the
    id and time of the row, or of the frame when there is none. *)
Theorem read_step_outcome w c db ms m :
  let r := read_step w c db ms m in
  let text := trim_space (m_Content m) in
  let '(allowed, c1) := allowMessage (rw_now w) c in
  let saved := SaveMessageForUserInRoomContext (rw_save w) db (room c) (c_UserID c) (c_Username c)
                 text "message" in
  (m_Type m = "username" →
     (c_Authenticated c = true → r = refused w c db ms "identity_override" (m_Content m) c)
     ∧ (c_Authenticated c = false →
        (¬ text_ok text 64 → r = refused w c db ms "invalid_username" (m_Content m) c)
        ∧ (text_ok text 64 → r = (setUsername c text, db, ms, None))))
  ∧ (m_Type m ≠ "username" →
     (¬ text_ok text 4000 → r = refused w c db ms "invalid_body" (m_Content m) c)
     ∧ (text_ok text 4000 → allowed = false →
        r = refused w c db ms "rate_limited" text (sendRateLimitNotice c1))
     ∧ (text_ok text 4000 → allowed = true →
        ∃ out, r = (c1, saved.2,
                    inc MessagesIngested ""
                      (inc MessagePersistDuration (if is_ok saved.1 then "ok" else "error") ms), Some out)
        ∧ (m_Content out, m_Type out, m_Room out) = (text, "message", room c)
        ∧ (m_ID out, m_Timestamp out)
          = match saved.1 with
            | Ok row => (row_ID row, row_Timestamp row)
            | Err _ => (m_ID m, m_Timestamp m)
            end)).
Proof.
  destruct (allowMessage (rw_now w) c) as [allowed c1] eqn:Ha.
  pose proof (allowMessage_fields _ _ _ _ Ha) as (Hb&Hu&_&_). unfold binding in Hb.
  unfold read_step, refused, text_ok, auditRejectedMessage. rewrite Ha. cbv zeta.
  set (text := trim_space (m_Content m)).
  pose proof (validUsername_spec text) as Hname. pose proof (validMessageBody_spec text) as Hbody.
  unfold maxUsernameRunes, maxMessageRunes in *. split; intros Hty.
  - rewrite decide_True by done. split; intros ->; [done|].
    split; intros Ht; [|by rewrite (proj2 Hname Ht)].
    destruct (validUsername text); [by destruct Ht; apply Hname|done].
  - rewrite decide_False by done. split_and!.
    + intros Ht. destruct (validMessageBody text); [by destruct Ht; apply Hbody|done].
    + intros Ht ->. rewrite (proj2 Hbody Ht). cbn [negb].
      assert (binding (sendRateLimitNotice c1) = binding c1) as Hs by apply enqueue_binding.
      unfold binding in *. congruence.
    + intros Ht ->. rewrite (proj2 Hbody Ht). cbn [negb m_Room m_UserID m_Username m_Content m_Type].
      unfold saveMessageObservedForUserInRoomContext.
      injection Hb as _ -> _ _ ->. rewrite Hu.
      destruct (SaveMessageForUserInRoomContext _ _ _ _ _ _ _) as [[row|e] db1];
        eexists; by split_and!.
Qed.

(** A message whose insert failed is still published, with whatever id and
    timestamp the client wrote into its frame. *)
Lemma unsaved_message_keeps_frame_fields w c db ms m out :
  (read_step w c db ms m).2 = Some out →
  is_ok (SaveMessageForUserInRoomContext (rw_save w) db (room c) (c_UserID c) (c_Username c)
           (trim_space (m_Content m)) "message").1 = false →
  (m_ID out, m_Timestamp out) = (m_ID m, m_Timestamp m).
Proof.
  destruct (read_step w c db ms m) as [[[c' db'] ms'] o] eqn:E. simpl. intros -> Hs.
  apply read_step_out in E as (_&_&_&_&_&_&_&_&_&->). by destruct (_ .1).
Qed.
End properties.

(** A read deadline is never later than the session's expiry nor than
    [pongWait] from now, and is one of the two. *)
Lemma nextReadDeadline_bounds `{RateLimiter} now (c : Client) :
  let d := nextReadDeadline now c in
  t_ns d <= t_ns now + pongWait
  ∧ (is_zero (c_AuthExpiresAt c) = false → t_ns d <= t_ns (c_AuthExpiresAt c))
  ∧ (d = c_AuthExpiresAt c ∨ d = add now pongWait).
Proof.
  unfold nextReadDeadline, before. cbv zeta. destruct (is_zero (c_AuthExpiresAt c)); simpl.
  - split_and!; [done..|by right].
  - destruct (t_ns (c_AuthExpiresAt c) <? _) eqn:E; simpl in *; split_and!; auto; lia.
Qed.

(** ** Concrete instances: a bucket that never refills, and a message whose
    insert fails. *)
Definition fixed_bucket : RateLimiter := {|
  limiter := Z;
  NewLimiter _ burst := burst;
  Allow _ n := if 0 <? n then (true, n - 1) else (false, n)
|}.

Module ClientExample.
#[local] Existing Instances text_driver fixed_bucket.

Definition ana : Client :=
  mk_client "sess_1" "" "ana" false zero_time "general"
    (newMessageLimiter (mk_limit_config false (Finite 5) 2)) [] false.

(** A frame that claims an id, an author and a room. *)
Definition forged : Msg := mk_msg 99 "root" "admin" " hi " "message" "ops" (Example.at_second 5).

Definition failing_save : read_world :=
  mk_read_world (Example.at_second 9) (Example.call_at 9)
    (mk_call (Example.at_second 9) 0 (Some 1%nat) NoEffect).

Definition forged_result := read_step failing_save ana empty_db ∅ forged.
End ClientExample.
