(* ===== verification/Hub.v ===== *)
(** The hub ([hub.go]): its state and one definition per operation.

    Clients are named by numbers (the Go pointers) and live in the store
    [w_clients]; [World] is everything the goroutines share.  Buffered channels
    are lists with the capacity checked where the code sends.  Operations that
    the code splits at locks or blocking channel operations are split here, and
    [HubSystem] interleaves the parts.  The database is any [Repository]. *)
From S2P Require Import Prelude.
From S2P Require Import GoUnicode.
From S2P Require Import GoString.
From S2P Require Import GoTime.
From S2P Require Import Metrics.
From S2P Require Import Rooms.
From S2P Require Import Events.
From S2P Require Import Storage.
From S2P Require Import Client.
Open Scope Z_scope.

Definition maxSeenBrokerEvents : nat := 4096.
Definition leaveNotificationQueueSize : nat := 256.
Definition broadcastQueueSize : nat := 1024.
Definition brokerPublishQueueSize : nat := outboundQueueSize * 4.

(** ** State *)

(** The fields of [Hub], grouped.  A nil channel is [None]; [d_events] is the
    capacity and the contents of [drainEvents]. *)
Record Drain := mk_drain {
  d_draining : bool;
  d_events : option (nat * list nat);
  d_pending : gset nat
}.

Record Broker := mk_broker {
  b_fanout : bool;                       (* fanout != nil *)
  b_instanceID : string;
  b_publish : option (list Envelope);    (* brokerPublish *)
  b_seenEvents : gset string;
  b_seenEventIDs : list string;
  b_cancelled : bool;                    (* brokerCtx is cancelled *)
  b_running : nat                        (* brokerWG *)
}.

Definition set_publish (b : Broker) (q : list Envelope) : Broker :=
  mk_broker (b_fanout b) (b_instanceID b) (Some q) (b_seenEvents b) (b_seenEventIDs b)
    (b_cancelled b) (b_running b).
Definition set_seen (b : Broker) (seen : gset string) (ids : list string) : Broker :=
  mk_broker (b_fanout b) (b_instanceID b) (b_publish b) seen ids (b_cancelled b) (b_running b).
Definition set_brokers (b : Broker) (cancelled : bool) (running : nat) : Broker :=
  mk_broker (b_fanout b) (b_instanceID b) (b_publish b) (b_seenEvents b) (b_seenEventIDs b)
    cancelled running.

Record Leave := mk_leave {
  l_queue : list Msg;                    (* leaveQueue *)
  l_started : bool;                      (* leaveStart, leaveStarted *)
  l_stop : bool;                         (* leaveStop is closed *)
  l_cancelled : bool;                    (* leaveCtx is cancelled *)
  l_done : bool                          (* leaveDone is closed *)
}.

Record Hub := mk_hub {
  h_clients : gset nat;
  h_broadcast : list Msg;
  h_done : bool;                         (* done is closed *)
  h_runDone : bool;                      (* runDone is closed *)
  h_finished : gset nat;
  h_drain : Drain;
  h_broker : Broker;
  h_leave : Leave
}.

(** [newHub]; the fan-out, when there is one, by its instance id. *)
Definition newHub (fanout : option string) : Hub :=
  mk_hub ∅ [] false false ∅ (mk_drain false None ∅)
    (mk_broker (bool_decide (is_Some fanout)) (default "" fanout) None ∅ [] false 0)
    (mk_leave [] false false false false).

Definition set_clients (h : Hub) (cs : gset nat) : Hub :=
  mk_hub cs (h_broadcast h) (h_done h) (h_runDone h) (h_finished h) (h_drain h) (h_broker h) (h_leave h).
Definition set_broadcast (h : Hub) (q : list Msg) : Hub :=
  mk_hub (h_clients h) q (h_done h) (h_runDone h) (h_finished h) (h_drain h) (h_broker h) (h_leave h).
Definition set_done (h : Hub) : Hub :=
  mk_hub (h_clients h) (h_broadcast h) true (h_runDone h) (h_finished h) (h_drain h) (h_broker h) (h_leave h).
Definition set_runDone (h : Hub) : Hub :=
  mk_hub (h_clients h) (h_broadcast h) (h_done h) true (h_finished h) (h_drain h) (h_broker h)
    (h_leave h).
Definition set_finished (h : Hub) (f : gset nat) : Hub :=
  mk_hub (h_clients h) (h_broadcast h) (h_done h) (h_runDone h) f (h_drain h) (h_broker h) (h_leave h).
Definition set_drain (h : Hub) (d : Drain) : Hub :=
  mk_hub (h_clients h) (h_broadcast h) (h_done h) (h_runDone h) (h_finished h) d (h_broker h) (h_leave h).
Definition set_broker (h : Hub) (b : Broker) : Hub :=
  mk_hub (h_clients h) (h_broadcast h) (h_done h) (h_runDone h) (h_finished h) (h_drain h) b (h_leave h).
Definition set_leave (h : Hub) (l : Leave) : Hub :=
  mk_hub (h_clients h) (h_broadcast h) (h_done h) (h_runDone h) (h_finished h) (h_drain h) (h_broker h) l.

Section hub.
Context `{RateLimiter} {S : Type} `{Repository S}.

Record World := mk_world {
  w_hub : Hub;
  w_clients : gmap nat Client;
  w_db : S;
  w_metrics : metrics;
  w_wire : gmap nat (list Msg)           (* written to each socket *)
}.

Definition set_hub (w : World) (h : Hub) : World :=
  mk_world h (w_clients w) (w_db w) (w_metrics w) (w_wire w).
Definition set_store (w : World) (cs : gmap nat Client) : World :=
  mk_world (w_hub w) cs (w_db w) (w_metrics w) (w_wire w).
Definition set_db (w : World) (db : S) : World :=
  mk_world (w_hub w) (w_clients w) db (w_metrics w) (w_wire w).
Definition set_metrics (w : World) (ms : metrics) : World :=
  mk_world (w_hub w) (w_clients w) (w_db w) ms (w_wire w).
Definition observe (c : collector) (label : string) (n : Z) (w : World) : World :=
  set_metrics w (add_metric c label n (w_metrics w)).
Definition count (c : collector) (label : string) (w : World) : World := observe c label 1 w.
Definition set_gauge (c : collector) (n : Z) (w : World) : World :=
  set_metrics w (set_metric c "" n (w_metrics w)).
Definition put_client (w : World) (i : nat) (c : Client) : World :=
  set_store w (<[i := c]> (w_clients w)).

(** [isDraining] *)
Definition isDraining (w : World) : bool := d_draining (h_drain (w_hub w)).

(** ** Publishing *)

(** [queueBrokerMessage]; [eventID] is what [newEventID] returns. *)
Definition queueBrokerMessage (eventID : string) (message : Msg) (w : World) : World :=
  let b := h_broker (w_hub w) in
  match b_publish b with
  | None => w
  | Some q =>
    if negb (b_fanout b) then w
    else if (m_ID message <=? 0) || is_zero (m_Timestamp message) then
      count RedisDrops "not_persisted" w
    else
      match new_event eventID (m_Room message) (b_instanceID b)
              (mk_event_message (m_ID message) (m_UserID message) (m_Username message)
                 (m_Content message) (m_Type message))
              (m_Timestamp message) with
      | Err _ => count RedisDrops "invalid_event" w
      | Ok event =>
        if (length q <? brokerPublishQueueSize)%nat then
          set_hub w (set_broker (w_hub w) (set_publish b (q ++ [event])))
        else count RedisDrops "publish_backpressure" w
      end
  end.

(** The two selects of [publishContext].  The second blocks ([None]) while the
    queue is full and the hub not done; when both cases are ready Go picks one,
    [pick] says which. *)
Definition publish_check (w : World) : bool := negb (h_done (w_hub w)).

Definition publish_send (pick : bool) (eventID : string) (message : Msg) (w : World) :
    option (bool * World) :=
  let h := w_hub w in
  let room_left := (length (h_broadcast h) <? broadcastQueueSize)%nat in
  if room_left && (negb (h_done h) || pick) then
    Some (true, queueBrokerMessage eventID message
                  (set_hub w (set_broadcast h (h_broadcast h ++ [message]))))
  else if h_done h then Some (false, w)
  else None.

(** [publishContext] when nothing runs in between. *)
Definition publishContext (eventID : string) (message : Msg) (w : World) : option (bool * World) :=
  if publish_check w then publish_send true eventID message w else Some (false, w).

(** ** Registration *)

Definition join_notification (c : Client) : Msg :=
  notification (c_Username c +:+ " joined the chat") (room c).
Definition leave_notification (c : Client) : Msg :=
  notification (c_Username c +:+ " left the chat") (room c).

(** The critical section of [registerClient]. *)
Definition register_lock (i : nat) (w : World) : bool * World :=
  if isDraining w then (false, w)
  else (true, set_hub w (set_clients (w_hub w) ({[i]} ∪ h_clients (w_hub w)))).

(** [saveMessageObservedInRoomContext] of a notification, which is stamped when
    the insert succeeds: the middle of [registerClient] and the body of
    [persistAndPublish]. *)
Definition persist_notification (c : call) (message : Msg) (w : World) : Msg * World :=
  let '(saved, db, ms) :=
    saveMessageObservedInRoomContext c (w_db w) (w_metrics w) (m_Room message) (m_Username message)
      (m_Content message) (m_Type message) in
  (match saved with Err _ => message | Ok persisted => stamp message persisted end,
   set_metrics (set_db w db) ms).

(** ** Leaving *)

(** [queueLeaveNotification] *)
Definition queueLeaveNotification (message : Msg) (w : World) : World :=
  let l := h_leave (w_hub w) in
  if (length (l_queue l) <? leaveNotificationQueueSize)%nat then
    set_hub w (set_leave (w_hub w)
      (mk_leave (l_queue l ++ [message]) true (l_stop l) (l_cancelled l) (l_done l)))
  else
    count WSOutboundDrops "leave_backpressure"
      (set_hub w (set_leave (w_hub w)
        (mk_leave (l_queue l) true (l_stop l) (l_cancelled l) (l_done l)))).

(** [disconnectClientLocked] *)
Definition disconnectClientLocked (i : nat) (w : World) : World :=
  if decide (i ∈ h_clients (w_hub w)) then
    match w_clients w !! i with
    | None => w
    | Some client =>
      let h := w_hub w in
      let w := set_hub w (set_finished (set_clients h (h_clients h ∖ {[i]}))
                            (h_finished h ∖ {[i]})) in
      let client := close client in
      let w := put_client w i client in
      if decide (c_Username client = "Anonymous") then w
      else queueLeaveNotification (leave_notification client) w
    end
  else w.

(** ** The hub loop ([run]) *)

(** One client of [for client := range h.clients]. *)
Definition fanout_step (message : Msg) (w : World) (i : nat) : World :=
  match w_clients w !! i with
  | None => w
  | Some client =>
    if negb (bool_decide (m_Room message = "")) && negb (bool_decide (room client = m_Room message))
    then w
    else
      let '(queued, client) := enqueue client message in
      if queued then put_client w i client
      else disconnectClientLocked i (count WSOutboundDrops "slow_client" w)
  end.

(** The critical section of the case [message := <-h.broadcast]; [order] is the
    iteration order of the map. *)
Definition fanout_all (order : list nat) (message : Msg) (w : World) : World :=
  foldl (fanout_step message) w order.

(** ** Remote events *)

(** [rememberBrokerEvent] *)
Definition rememberBrokerEvent (eventID : string) (w : World) : bool * World :=
  let b := h_broker (w_hub w) in
  if decide (eventID ∈ b_seenEvents b) then (false, w)
  else
    let seenEvents := {[eventID]} ∪ b_seenEvents b in
    let seenEventIDs := b_seenEventIDs b ++ [eventID] in
    let '(seenEvents, seenEventIDs) :=
      if (maxSeenBrokerEvents <? length seenEventIDs)%nat then
        match seenEventIDs with
        | oldest :: rest => (seenEvents ∖ {[oldest]}, rest)
        | [] => (seenEvents, seenEventIDs)
        end
      else (seenEvents, seenEventIDs) in
    (true, set_hub w (set_broker (w_hub w) (set_seen b seenEvents seenEventIDs))).

Definition remote_message (event : Envelope) : Msg :=
  mk_msg (em_ID (env_Message event)) (em_UserID (env_Message event))
    (em_Username (env_Message event)) (em_Content (env_Message event))
    (em_Type (env_Message event)) (env_Room event) (env_Timestamp event).

(** The final select of [handleRemoteEvent]; [pick] chooses when the hub is done
    and the queue has room. *)
Definition remote_send (pick : bool) (message : Msg) (w : World) : World :=
  let h := w_hub w in
  let room_left := (length (h_broadcast h) <? broadcastQueueSize)%nat in
  if room_left && (negb (h_done h) || pick) then
    set_hub w (set_broadcast h (h_broadcast h ++ [message]))
  else if h_done h then w
  else count RedisDrops "client_backpressure" w.

(** [handleRemoteEvent] *)
Definition handleRemoteEvent (pick : bool) (event : Envelope) (w : World) : World :=
  if decide (env_OriginInstance event = b_instanceID (h_broker (w_hub w))) then
    count RedisDrops "loop" w
  else
    let '(fresh, w) := rememberBrokerEvent (env_EventID event) w in
    if negb fresh then count RedisDrops "duplicate" w
    else if isDraining w then count RedisDrops "draining" w
    else remote_send pick (remote_message event) w.

(** [startBroker]: the context, the queue, and two goroutines to wait for. *)
Definition startBroker (w : World) : World :=
  let b := h_broker (w_hub w) in
  if negb (b_fanout b) then w
  else set_hub w (set_broker (w_hub w) (set_brokers (set_publish b []) false 2)).

(** The deferred [brokerWG.Done] of [runBrokerPublisher] and
    [runBrokerSubscriber]. *)
Definition broker_ended (w : World) : World :=
  let b := h_broker (w_hub w) in
  set_hub w (set_broker (w_hub w) (set_brokers b (b_cancelled b) (pred (b_running b)))).

(** [stopBroker] up to its wait: [brokerCancel] (nil until [startBroker] made the
    queue); the fan-out is closed, whose error is only logged. *)
Definition stopBroker (w : World) : World :=
  let b := h_broker (w_hub w) in
  match b_publish b with
  | None => w
  | Some _ => set_hub w (set_broker (w_hub w) (set_brokers b true (b_running b)))
  end.

(** ** Writing ([writeMessages])

    The case [message := <-c.send]: the head of the queue goes to the socket; a
    failed write is counted and closes the client. *)
Definition write_one (ok : bool) (i : nat) (w : World) : option (bool * World) :=
  match w_clients w !! i with
  | None => None
  | Some c =>
    match c_send c with
    | [] => None
    | message :: q =>
      let c := with_send c q in
      if ok then
        let w := put_client w i c in
        Some (true, mk_world (w_hub w) (w_clients w) (w_db w) (w_metrics w)
                      (<[i := default [] (w_wire w !! i) ++ [message]]> (w_wire w)))
      else
        Some (false, count WSOutboundDrops "write_error" (put_client w i (close c)))
    end
  end.

(** ** Shutdown *)

(** The critical section of [notifyClientFinished]; the result is [remaining],
    when [Set(remaining)] and [events <- client] follow. *)
Definition finish_lock (i : nat) (w : World) : option nat * World :=
  let h := set_finished (w_hub w) ({[i]} ∪ h_finished (w_hub w)) in
  let d := h_drain h in
  match d_events d with
  | Some _ =>
    if d_draining d && bool_decide (i ∈ d_pending d) then
      let drainPending := d_pending d ∖ {[i]} in
      (Some (size drainPending),
       set_hub w (set_drain h (mk_drain (d_draining d) (d_events d) drainPending)))
    else (None, set_hub w h)
  | None => (None, set_hub w h)
  end.

(** [events <- client]; [None] when it would block. *)
Definition finish_send (i : nat) (w : World) : option World :=
  let d := h_drain (w_hub w) in
  match d_events d with
  | Some (cap, q) =>
    if (length q <? cap)%nat then
      Some (set_hub w (set_drain (w_hub w)
             (mk_drain (d_draining d) (Some (cap, q ++ [i])) (d_pending d))))
    else None
  | None => None
  end.

(** The critical section of [drain]: the clients to close, and the hub without
    them. *)
Definition drain_lock (w : World) : gset nat * World :=
  let h := w_hub w in
  let clients := h_clients h ∖ h_finished h in
  let finished := h_finished h ∖ h_clients h in
  let w := count WSDrainStarted "" w in
  (clients,
   set_hub w (set_drain (set_finished (set_clients h ∅) finished)
     (mk_drain true (Some (size clients, [])) clients))).

(** [closeForShutdown] of one client (the close frame is best effort). *)
Definition closeForShutdown (i : nat) (w : World) : World :=
  match w_clients w !! i with
  | None => w
  | Some c => put_client w i (close c)
  end.

(** The case [client := <-events] of the drain loop: [pending] afterwards. *)
Definition drain_receive (pending : gset nat) (w : World) : option (gset nat * World) :=
  let d := h_drain (w_hub w) in
  match d_events d with
  | Some (cap, i :: q) =>
    Some (pending ∖ {[i]},
          set_hub w (set_drain (w_hub w) (mk_drain (d_draining d) (Some (cap, q)) (d_pending d))))
  | _ => None
  end.

(** [stop]; [stopOnce] makes it idempotent. *)
Definition stop (w : World) : World := set_hub w (set_done (w_hub w)).

(** ** History on connect ([sendMessageHistory]) *)

Definition history_message (row : Message) : Msg :=
  mk_msg (row_ID row) (row_UserID row) (row_Username row) (row_Content row) (row_Type row)
    (row_Room row) (row_Timestamp row).

Definition welcome : string := "Welcome to the chat! You can see the last 50 messages.".

(** What it enqueues, in order, as long as no enqueue is refused
    ([history_step] of [HubSystem]). *)
Definition history_backlog (c : call) (client : Client) (db : S) : list Msg :=
  match GetRecentMessagesInRoomContext c db (room client) 50 with
  | Err _ => []
  | Ok messages => (history_message <$> messages) ++ [notification welcome (room client)]
  end.
End hub.
