(* ===== verification/HubFacts.v ===== *)
(** What the hub's operations do, field by field: the fan-out of one broadcast,
    the duplicate window of remote events, the broker queue and the shutdown
    hand-shake. *)
From S2P Require Import Prelude.
From S2P Require Import GoUnicode.
From S2P Require Import GoString.
From S2P Require Import GoTime.
From S2P Require Import Metrics.
From S2P Require Import Rooms.
From S2P Require Import Events.
From S2P Require Import Storage.
From S2P Require Import Client.
From S2P Require Import Hub.
Open Scope Z_scope.

Section fanout.
Context `{RateLimiter} {S : Type} `{Repository S}.
Implicit Types (w : World (S:=S)) (c : Client) (m : Msg).

(** ** Delivery to one client, as a specification *)

Definition targets m c : bool := bool_decide (m_Room m = "") || bool_decide (room c = m_Room m).
Definition accepts c : bool := negb (c_done c) && (length (c_send c) <? outboundQueueSize)%nat.
Definition refuses m c : bool := targets m c && negb (accepts c).
Definition deliver m c : Client :=
  if targets m c then
    if accepts c then with_send c (c_send c ++ [m]) else close c
  else c.

(** The leave notification of a client that is dropped. *)
Definition farewell m c : option Msg :=
  if refuses m c && negb (bool_decide (c_Username c = "Anonymous"))
  then Some (leave_notification c) else None.

(** [leaveQueue] after a list of sends that never block. *)
Definition leave_after (q ms : list Msg) : list Msg :=
  q ++ take (leaveNotificationQueueSize - length q) ms.

Lemma leave_after_cons q m ms :
  leave_after (if (length q <? leaveNotificationQueueSize)%nat then q ++ [m] else q) ms
  = leave_after q (m :: ms).
Proof.
  unfold leave_after. destruct (_ <? _)%nat eqn:E.
  - apply Nat.ltb_lt in E. rewrite length_app. simpl.
    replace (leaveNotificationQueueSize - length q)%nat
      with (1 + (leaveNotificationQueueSize - (length q + 1)))%nat by lia.
    by rewrite <- app_assoc.
  - apply Nat.ltb_ge in E.
    by replace (leaveNotificationQueueSize - length q)%nat with 0%nat by lia.
Qed.

(** Everything an operation on clients leaves alone. *)
Definition same_rest w w' : Prop :=
  h_broadcast (w_hub w') = h_broadcast (w_hub w) ∧ h_done (w_hub w') = h_done (w_hub w)
  ∧ h_drain (w_hub w') = h_drain (w_hub w) ∧ h_broker (w_hub w') = h_broker (w_hub w)
  ∧ w_db w' = w_db w ∧ w_wire w' = w_wire w.

#[export] Instance same_rest_preorder : PreOrder same_rest.
Proof. split; unfold same_rest; [by intros w|intros w1 w2 w3; naive_solver congruence]. Qed.

Lemma queueLeave_spec m w :
  let w' := queueLeaveNotification m w in
  l_queue (h_leave (w_hub w'))
    = (if (length (l_queue (h_leave (w_hub w))) <? leaveNotificationQueueSize)%nat
       then l_queue (h_leave (w_hub w)) ++ [m] else l_queue (h_leave (w_hub w)))
  ∧ h_clients (w_hub w') = h_clients (w_hub w)
  ∧ h_finished (w_hub w') = h_finished (w_hub w)
  ∧ w_clients w' = w_clients w ∧ same_rest w w'.
Proof. unfold queueLeaveNotification. by destruct (_ <? _)%nat. Qed.

Lemma disconnect_spec i w c :
  i ∈ h_clients (w_hub w) → w_clients w !! i = Some c →
  let w' := disconnectClientLocked i w in
  w_clients w' = <[i := close c]> (w_clients w)
  ∧ h_clients (w_hub w') = h_clients (w_hub w) ∖ {[i]}
  ∧ h_finished (w_hub w') = h_finished (w_hub w) ∖ {[i]}
  ∧ l_queue (h_leave (w_hub w'))
    = leave_after (l_queue (h_leave (w_hub w)))
        (if decide (c_Username c = "Anonymous") then [] else [leave_notification c])
  ∧ same_rest w w'.
Proof.
  intros Hi Hc. unfold disconnectClientLocked. rewrite decide_True, Hc by done. cbn [close c_Username].
  case_decide as Hn; cbv zeta.
  - unfold leave_after. by rewrite take_nil, app_nil_r.
  - set (w1 := put_client _ _ _).
    destruct (queueLeave_spec (leave_notification (close c)) w1) as (Hq&Hcl&Hf&Hs&Hr).
    rewrite Hq, Hcl, Hf, Hs. split_and!; try done.
    rewrite <- leave_after_cons. unfold leave_after. by rewrite take_nil, app_nil_r.
Qed.

Lemma disconnect_absent i w : i ∉ h_clients (w_hub w) → disconnectClientLocked i w = w.
Proof. intros Hi. unfold disconnectClientLocked. by rewrite decide_False. Qed.

Lemma fanout_step_spec m w i c :
  i ∈ h_clients (w_hub w) → w_clients w !! i = Some c →
  let w' := fanout_step m w i in
  w_clients w' = <[i := deliver m c]> (w_clients w)
  ∧ h_clients (w_hub w') = (if refuses m c then h_clients (w_hub w) ∖ {[i]} else h_clients (w_hub w))
  ∧ h_finished (w_hub w') = (if refuses m c then h_finished (w_hub w) ∖ {[i]} else h_finished (w_hub w))
  ∧ l_queue (h_leave (w_hub w'))
    = leave_after (l_queue (h_leave (w_hub w))) (option_list (farewell m c))
  ∧ same_rest w w'.
Proof.
  intros Hi Hc. unfold fanout_step, deliver, farewell, refuses, targets. rewrite Hc.
  assert (Hnil : ∀ q, leave_after q [] = q).
  { intros q. unfold leave_after. by rewrite take_nil, app_nil_r. }
  rewrite <- negb_orb. destruct (bool_decide _ || bool_decide _) eqn:Ht; simpl.
  2:{ rewrite Hnil, insert_id by done. done. }
  unfold enqueue, accepts. destruct (c_done c) eqn:Hd; simpl;
    [|destruct (_ <? _)%nat eqn:Hlen; simpl].
  2:{ rewrite Hnil. done. }
  all: set (w1 := count _ _ w); destruct (disconnect_spec i w1 c Hi Hc) as (Hs&Hcl&Hf&Hq&Hr);
    rewrite Hs, Hcl, Hf, Hq; split_and!; try done;
    by destruct (decide (c_Username c = "Anonymous")); [rewrite bool_decide_true|rewrite bool_decide_false].
Qed.

Lemma leave_after_app q ms ms' : leave_after (leave_after q ms) ms' = leave_after q (ms ++ ms').
Proof.
  revert q. induction ms as [|m ms IH]; intros q; simpl.
  - unfold leave_after at 2. by rewrite take_nil, app_nil_r.
  - by rewrite <- !leave_after_cons, IH.
Qed.

(** The fan-out along any duplicate-free list of registered clients. *)
Lemma fanout_all_spec m order w :
  NoDup order → (∀ i, i ∈ order → i ∈ h_clients (w_hub w)) →
  (∀ i, i ∈ order → is_Some (w_clients w !! i)) →
  let w' := fanout_all order m w in
  (∀ i, w_clients w' !! i
        = (if bool_decide (i ∈ order) then deliver m else id) <$> w_clients w !! i)
  ∧ (∀ i, i ∈ h_clients (w_hub w') ↔
       i ∈ h_clients (w_hub w)
       ∧ ¬ (i ∈ order ∧ ∃ c, w_clients w !! i = Some c ∧ refuses m c = true))
  ∧ h_finished (w_hub w') ⊆ h_finished (w_hub w)
  ∧ l_queue (h_leave (w_hub w'))
    = leave_after (l_queue (h_leave (w_hub w)))
        (omap (λ i, w_clients w !! i ≫= farewell m) order)
  ∧ same_rest w w'.
Proof.
  revert w. induction order as [|i order IH]; intros w Hnd Hreg Hst; cbv zeta.
  { change (fanout_all [] m w) with w. unfold leave_after. cbn [omap list_omap].
    rewrite take_nil, app_nil_r. split_and!; [|set_solver|done..]. intros j. rewrite bool_decide_false by set_solver.
    by rewrite option_fmap_id. }
  apply NoDup_cons in Hnd as [Hni Hnd].
  destruct (Hst i) as [c Hc]; [by left|].
  destruct (fanout_step_spec m w i c) as (Hs&Hcl&Hf&Hq&Hr); [apply Hreg; by left|done|].
  set (w1 := fanout_step m w i) in *.
  change (fanout_all (i :: order) m w) with (fanout_all order m w1).
  destruct (IH w1) as (Hs'&Hcl'&Hf'&Hq'&Hr'); [done|..].
  { intros j Hj. rewrite Hcl. assert (j ∈ h_clients (w_hub w)) by (apply Hreg; by right).
    destruct (refuses m c); set_solver. }
  { intros j Hj. rewrite Hs. destruct (decide (i = j)) as [->|]; [by rewrite lookup_insert_eq|].
    rewrite lookup_insert_ne by done. apply Hst. by right. }
  assert (Hother : ∀ j, j ∈ order → w_clients w1 !! j = w_clients w !! j).
  { intros j Hj. rewrite Hs. apply lookup_insert_ne. intros ->. done. }
  split_and!.
  - intros j. rewrite Hs', Hs. destruct (decide (i = j)) as [<-|Hne].
    + rewrite lookup_insert_eq, Hc, bool_decide_false by done. simpl.
      rewrite bool_decide_true by by left. done.
    + rewrite lookup_insert_ne by done.
      erewrite (bool_decide_ext (j ∈ i :: order) (j ∈ order)); [done|].
      rewrite elem_of_cons. naive_solver.
  - intros j. rewrite Hcl', Hcl, elem_of_cons. destruct (decide (i = j)) as [<-|Hne].
    + rewrite Hc. destruct (refuses m c) eqn:Hrf; [set_solver|]. split.
      * intros [? _]. split; [done|]. intros (_&c0&[= <-]&?). congruence.
      * intros [? _]. split; [done|]. by intros [? _].
    + rewrite Hs, lookup_insert_ne by done. destruct (refuses m c); set_solver.
  - rewrite Hf'. rewrite Hf. destruct (refuses m c); set_solver.
  - rewrite Hq', Hq, leave_after_app. f_equal. simpl. rewrite Hc. simpl.
    assert (omap (λ j, w_clients w1 !! j ≫= farewell m) order
            = omap (λ j, w_clients w !! j ≫= farewell m) order) as ->.
    { apply list_omap_ext, Forall2_same_length_lookup. split; [done|].
      intros k j j' Hj Hj'. simplify_eq. by rewrite Hother by by eapply list_elem_of_lookup_2. }
    by destruct (farewell m c).
  - by transitivity w1.
Qed.
End fanout.

(** ** The duplicate window of remote events *)
Section window.
Context `{RateLimiter} {S : Type} `{Repository S}.
Implicit Types (w : World (S:=S)).

Definition seen_ids w : list string := b_seenEventIDs (h_broker (w_hub w)).

(** The map and the slice hold the same ids, at most [maxSeenBrokerEvents]. *)
Definition seen_ok w : Prop :=
  b_seenEvents (h_broker (w_hub w)) = list_to_set (seen_ids w)
  ∧ NoDup (seen_ids w) ∧ (length (seen_ids w) <= maxSeenBrokerEvents)%nat.

Lemma last_n_snoc_full {A} n (x y : A) l :
  length (y :: l) = n → last_n n (y :: l ++ [x]) = l ++ [x].
Proof.
  intros <-. unfold last_n. cbn [length]. rewrite length_app. cbn [length].
  by replace (_ - _)%nat with 1%nat by lia.
Qed.

Lemma remember_spec e w :
  seen_ok w →
  let r := rememberBrokerEvent e w in
  r.1 = negb (bool_decide (e ∈ seen_ids w))
  ∧ seen_ids r.2 = (if r.1 then last_n maxSeenBrokerEvents (seen_ids w ++ [e]) else seen_ids w)
  ∧ seen_ok r.2
  ∧ w_clients r.2 = w_clients w ∧ h_broadcast (w_hub r.2) = h_broadcast (w_hub w).
Proof.
  unfold seen_ok, seen_ids, rememberBrokerEvent. destruct w as [h cs db ms wire]. simpl.
  destruct h as [? ? ? ? ? ? [fo iid pub seen ids] ?]. simpl. intros (->&Hnd&Hlen).
  destruct (decide (e ∈ list_to_set ids)) as [Hin|Hni]; simpl.
  { rewrite elem_of_list_to_set in Hin. rewrite bool_decide_true by done. done. }
  rewrite elem_of_list_to_set in Hni. rewrite bool_decide_false by done.
  assert (Hsnoc : NoDup (ids ++ [e])).
  { apply NoDup_app. split; [done|]. split; [set_solver|apply NoDup_singleton]. }
  destruct (_ <? _)%nat eqn:Hfull.
  - apply Nat.ltb_lt in Hfull. rewrite length_app in Hfull. simpl in Hfull.
    destruct ids as [|oldest rest]; [unfold maxSeenBrokerEvents in *; simpl in *; lia|]. simpl.
    rewrite last_n_snoc_full by (cbn [length] in *; lia).
    apply NoDup_cons in Hsnoc as [Ho Hsnoc]. split_and!; try done.
    + rewrite list_to_set_app_L. simpl. rewrite union_empty_r_L.
      apply set_eq. intros x. rewrite !elem_of_difference, !elem_of_union, !elem_of_singleton.
      rewrite !elem_of_list_to_set. rewrite elem_of_app, list_elem_of_singleton in Ho. naive_solver.
    + rewrite length_app. cbn [length] in *. lia.
  - apply Nat.ltb_ge in Hfull. simpl. rewrite last_n_all by done. split_and!; try done.
    rewrite list_to_set_app_L. simpl. rewrite union_empty_r_L. by rewrite union_comm_L.
Qed.

(** A sequence of remote event ids, and the ids accepted among them. *)
Fixpoint remember_all (es : list string) w : list string * World (S:=S) :=
  match es with
  | [] => ([], w)
  | e :: es =>
    let '(fresh, w) := rememberBrokerEvent e w in
    let '(accepted, w) := remember_all es w in
    (if fresh then e :: accepted else accepted, w)
  end.

(** The reference: accept what is not among the last [n] accepted. *)
Fixpoint dedup (n : nat) (acc es : list string) : list string :=
  match es with
  | [] => acc
  | e :: es => dedup n (if bool_decide (e ∈ last_n n acc) then acc else acc ++ [e]) es
  end.

Lemma last_n_app_last {A} n (l : list A) x : last_n n (last_n n l ++ [x]) = last_n n (l ++ [x]).
Proof.
  destruct n as [|n].
  - unfold last_n. rewrite !Nat.sub_0_r, !drop_all. done.
  - rewrite !last_n_snoc. by rewrite last_n_last_n by lia.
Qed.

Lemma remember_all_spec es acc w :
  seen_ok w → seen_ids w = last_n maxSeenBrokerEvents acc →
  let r := remember_all es w in
  acc ++ r.1 = dedup maxSeenBrokerEvents acc es
  ∧ seen_ids r.2 = last_n maxSeenBrokerEvents (acc ++ r.1) ∧ seen_ok r.2.
Proof.
  revert acc w. induction es as [|e es IH]; intros acc w Hok Hids; cbn [remember_all dedup].
  { simpl. by rewrite app_nil_r. }
  destruct (remember_spec e w Hok) as (Hf&Hids'&Hok'&_).
  destruct (rememberBrokerEvent e w) as [fresh w1]. cbn [fst snd] in *.
  rewrite Hids in Hf, Hids'. destruct (bool_decide (e ∈ _)) eqn:He; simpl in Hf; subst fresh.
  - specialize (IH acc w1 Hok' Hids'). destruct (remember_all es w1) as [a w2]. exact IH.
  - rewrite last_n_app_last in Hids'. specialize (IH (acc ++ [e]) w1 Hok' Hids').
    destruct (remember_all es w1) as [a w2]. cbn [fst snd] in *. by rewrite <- app_assoc in IH.
Qed.

(** In the reference, equal accepted ids are more than [n] apart. *)
Definition apart (n : nat) (l : list string) : Prop :=
  ∀ p q x, l !! p = Some x → l !! q = Some x → (p < q)%nat → (n < q - p)%nat.

Lemma elem_of_last_n {A} n (l : list A) p x :
  l !! p = Some x → (length l - n <= p)%nat → x ∈ last_n n l.
Proof.
  intros Hp Hn. unfold last_n. apply list_elem_of_lookup_2 with (p - (length l - n))%nat.
  rewrite lookup_drop. by replace (length l - n + (p - (length l - n)))%nat with p by lia.
Qed.

Lemma dedup_apart n acc es : apart n acc → apart n (dedup n acc es).
Proof.
  revert acc. induction es as [|e es IH]; intros acc Hacc; [done|]. apply IH.
  case_bool_decide as He; [done|]. intros p q x Hp Hq Hlt.
  apply lookup_snoc_Some in Hq as [[Hql Hq]|[-> <-]].
  - apply lookup_snoc_Some in Hp as [[_ Hp]|[-> _]]; [by eapply Hacc|lia].
  - apply lookup_snoc_Some in Hp as [[_ Hp]|[-> _]]; [|lia].
    destruct (decide (n < length acc - p)%nat); [done|].
    exfalso. apply He. eapply elem_of_last_n; [done|lia].
Qed.
End window.
