(* ===== verification/HubSystem.v ===== *)
(** The hub as a concurrent system.

    A [State] is a pool of goroutines, each at a program point of its function,
    and the [World] they share.  One step relation per goroutine, its
    constructors the atomic parts of the code: a critical section, one channel
    operation, one database call.  [step] interleaves them; the rendezvous on the
    unbuffered channel [unregister] is a step of two goroutines. *)
From S2P Require Import Prelude.
From S2P Require Import GoUnicode.
From S2P Require Import GoString.
From S2P Require Import GoTime.
From S2P Require Import Metrics.
From S2P Require Import Rooms.
From S2P Require Import Events.
From S2P Require Import Storage.
From S2P Require Import Client.
From S2P Require Import Hub.
From S2P Require Import HubFacts.
Open Scope Z_scope.

(** Where a goroutine continues after [publishContext]. *)
Inductive after :=
| KJoin (i : nat)          (* registerClient returns to serveWs *)
| KRead (i : nat)          (* the read loop goes on, or returns on failure *)
| KLeave (draining : bool) (* the loops of runLeaveNotifications *).

(** Program points. *)
Inductive thread :=
| TRegister (i : nat)                          (* registerClient *)
| TJoin (i : nat)
| TCheck (m : Msg) (k : after)                 (* publishContext *)
| TSend (m : Msg) (k : after)
| THistory (i : nat)                           (* sendMessageHistory *)
| TBacklog (i : nat) (ms : list Msg)
| TServe (i : nat)                             (* serveWs after registerClient *)
| TReader (i : nat)                            (* readMessages *)
| THeartbeat (i : nat)                         (* startHeartbeat *)
| TReaderExit (i : nat)                        (* the defer of readMessages *)
| TUnregCheck (i : nat)
| TUnregSend (i : nat)
| TFinish (i : nat)
| TFinishGauge (i remaining : nat)
| TFinishSend (i : nat)
| TReaderClose (i : nat)
| TWriter (i : nat)                            (* writeMessages *)
| TRun                                         (* run *)
| TRunUnreg (i : nat)
| TRunFan (m : Msg)
| TLeave (draining : bool)                     (* runLeaveNotifications *)
| TLeaveSave (m : Msg) (draining : bool)
| TSubscriber                                  (* runBrokerSubscriber *)
| TSubOrigin (e : Envelope)                    (* handleRemoteEvent *)
| TSubRemember (e : Envelope)
| TSubDraining (e : Envelope)
| TSubSend (e : Envelope)
| TPublisher                                   (* runBrokerPublisher *)
| TRetention                                   (* clean-ups at the start of other instances *)
| TDrain                                       (* drain *)
| TDrainBroker (all : gset nat)                (* stopBroker *)
| TDrainBrokerWait (all : gset nat)
| TDrainGauge (all : gset nat)
| TDrainClose (todo all : gset nat)
| TDrainWait (pending : gset nat)
| TDrainStop (failed : bool)
| TDrainLeave (failed : bool)
| TDrainLeaveWait (failed : bool)
| TDrainJoin (failed : bool).

Section system.
Context `{RateLimiter} {S : Type} `{Repository S}.
Notation W := (World (S:=S)).
Implicit Types (w : W) (c : Client) (m : Msg).

(** The goroutine [leaveStart] starts. *)
Definition spawn_leave w w' : list thread :=
  if negb (l_started (h_leave (w_hub w))) && l_started (h_leave (w_hub w'))
  then [TLeave false] else [].

Definition resume (k : after) (published : bool) : list thread :=
  match k with
  | KJoin i => [TServe i]
  | KRead i => if published then [TReader i] else [TReaderExit i]
  | KLeave d => [TLeave d]
  end.

(** [publishContext] *)
Inductive publish_step : thread → W → list thread → W → Prop :=
| publish_stopped m k w : publish_check w = false → publish_step (TCheck m k) w (resume k false) w
| publish_go m k w : publish_check w = true → publish_step (TCheck m k) w [TSend m k] w
| publish_selected m k pick e w b w' :
    publish_send pick e m w = Some (b, w') → publish_step (TSend m k) w (resume k b) w'.

(** [registerClient]; a refused client is closed ([serveWs]). *)
Inductive register_step : thread → W → list thread → W → Prop :=
| register_refused i w :
    (register_lock i w).1 = false → register_step (TRegister i) w [] (closeForShutdown i w)
| register_accepted i w w' :
    register_lock i w = (true, w') → register_step (TRegister i) w [TJoin i; THistory i] w'
| register_joined i c d w m w' :
    w_clients w !! i = Some c → persist_notification d (join_notification c) w = (m, w') →
    register_step (TJoin i) w [TCheck m (KJoin i)] w'.

(** [sendMessageHistory] *)
Inductive history_step : thread → W → list thread → W → Prop :=
| history_query i c d w :
    w_clients w !! i = Some c →
    history_step (THistory i) w [TBacklog i (history_backlog d c (w_db w))] w
| history_end i w : history_step (TBacklog i []) w [] w
| history_queue i m ms c b c' w :
    w_clients w !! i = Some c → enqueue c m = (b, c') →
    history_step (TBacklog i (m :: ms)) w (if b then [TBacklog i ms] else []) (put_client w i c').

(** The end of [serveWs], and [readMessages] with its heartbeat and its deferred
    exit; a frame may hold anything.  A ping that is written changes nothing; the
    heartbeat ends with the read loop or when a ping fails. *)
Inductive reader_step : thread → W → list thread → W → Prop :=
| reader_start i w :
    reader_step (TServe i) w [TReader i; THeartbeat i] (observe ConnectedClients "" 1 w)
| heartbeat_failed i c w :
    w_clients w !! i = Some c → reader_step (THeartbeat i) w [] (put_client w i (close c))
| heartbeat_stopped i w : reader_step (THeartbeat i) w [] w
| reader_frame i c rw m c' db' ms' out w :
    w_clients w !! i = Some c →
    read_step rw c (w_db w) (w_metrics w) m = (c', db', ms', out) →
    reader_step (TReader i) w
      (match out with Some o => [TCheck o (KRead i)] | None => [TReader i] end)
      (set_metrics (set_db (put_client w i c') db') ms')
| reader_error i w : reader_step (TReader i) w [TReaderExit i] w
| reader_exit i w :
    reader_step (TReaderExit i) w [TUnregCheck i] (observe ConnectedClients "" (-1) w)
| reader_unregister_done i w :
    h_done (w_hub w) = true → reader_step (TUnregCheck i) w [TFinish i] w
| reader_unregister i w :
    h_done (w_hub w) = false → reader_step (TUnregCheck i) w [TUnregSend i] w
| reader_unregister_abandoned i w :
    h_done (w_hub w) = true → reader_step (TUnregSend i) w [TFinish i] w
| reader_finish i r w w' :
    finish_lock i w = (r, w') →
    reader_step (TFinish i) w
      (match r with Some remaining => [TFinishGauge i remaining] | None => [TReaderClose i] end) w'
| reader_finish_gauge i remaining w :
    reader_step (TFinishGauge i remaining) w [TFinishSend i]
      (set_gauge WSDrainClientsRemaining (Z.of_nat remaining) w)
| reader_finish_send i w w' :
    finish_send i w = Some w' → reader_step (TFinishSend i) w [TReaderClose i] w'
| reader_close i c w :
    w_clients w !! i = Some c → reader_step (TReaderClose i) w [] (put_client w i (close c)).

(** [writeMessages] *)
Inductive writer_step : thread → W → list thread → W → Prop :=
| writer_done i c w :
    w_clients w !! i = Some c → c_done c = true → writer_step (TWriter i) w [] w
| writer_write i ok b w w' :
    write_one ok i w = Some (b, w') →
    writer_step (TWriter i) w (if b then [TWriter i] else []) w'.

(** [run] *)
Inductive run_step : thread → W → list thread → W → Prop :=
| run_done w :
    h_done (w_hub w) = true → run_step TRun w [] (set_hub w (set_runDone (w_hub w)))
| run_receive m q w :
    h_broadcast (w_hub w) = m :: q →
    run_step TRun w [TRunFan m] (set_hub w (set_broadcast (w_hub w) q))
| run_fanout m order w w' :
    order ≡ₚ elements (h_clients (w_hub w)) →
    w' = count BroadcastFanoutDuration "" (fanout_all order m w) →
    run_step (TRunFan m) w (TRun :: spawn_leave w w') w'
| run_unregister i w w' :
    w' = disconnectClientLocked i w →
    run_step (TRunUnreg i) w (TRun :: spawn_leave w w') w'.

(** [runLeaveNotifications]: the outer loop, and the one behind [leaveStop]. *)
Inductive leave_step : thread → W → list thread → W → Prop :=
| leave_take draining m q w :
    l_queue (h_leave (w_hub w)) = m :: q →
    (draining = true → l_cancelled (h_leave (w_hub w)) = false) →
    leave_step (TLeave draining) w [TLeaveSave m draining]
      (set_hub w (set_leave (w_hub w)
        (let l := h_leave (w_hub w) in
         mk_leave q (l_started l) (l_stop l) (l_cancelled l) (l_done l))))
| leave_save draining m d m' w w' :
    persist_notification d m w = (m', w') →
    leave_step (TLeaveSave m draining) w [TCheck m' (KLeave draining)] w'
| leave_stop w :
    l_stop (h_leave (w_hub w)) = true → leave_step (TLeave false) w [TLeave true] w
| leave_end w :
    l_cancelled (h_leave (w_hub w)) = true ∨ l_queue (h_leave (w_hub w)) = [] →
    leave_step (TLeave true) w []
      (set_hub w (set_leave (w_hub w)
        (let l := h_leave (w_hub w) in
         mk_leave (l_queue l) (l_started l) (l_stop l) (l_cancelled l) true))).

(** [handleRemoteEvent], called by the subscriber with decoded, valid events;
    the publisher; the retention clean-ups of instances that start on the same
    database. *)
Inductive broker_step : thread → W → list thread → W → Prop :=
| subscriber_deliver e w :
    validate e = Ok tt → broker_step TSubscriber w [TSubOrigin e] w
| subscriber_loop e w :
    env_OriginInstance e = b_instanceID (h_broker (w_hub w)) →
    broker_step (TSubOrigin e) w [TSubscriber] (count RedisDrops "loop" w)
| subscriber_foreign e w :
    env_OriginInstance e ≠ b_instanceID (h_broker (w_hub w)) →
    broker_step (TSubOrigin e) w [TSubRemember e] w
| subscriber_duplicate e w w' :
    rememberBrokerEvent (env_EventID e) w = (false, w') →
    broker_step (TSubRemember e) w [TSubscriber] (count RedisDrops "duplicate" w')
| subscriber_fresh e w w' :
    rememberBrokerEvent (env_EventID e) w = (true, w') →
    broker_step (TSubRemember e) w [TSubDraining e] w'
| subscriber_draining e w :
    isDraining w = true →
    broker_step (TSubDraining e) w [TSubscriber] (count RedisDrops "draining" w)
| subscriber_open e w :
    isDraining w = false → broker_step (TSubDraining e) w [TSubSend e] w
| subscriber_send e pick w :
    broker_step (TSubSend e) w [TSubscriber] (remote_send pick (remote_message e) w)
| subscriber_end w : broker_step TSubscriber w [] (broker_ended w)
| publisher_take e q w :
    b_publish (h_broker (w_hub w)) = Some (e :: q) →
    broker_step TPublisher w [TPublisher]
      (set_hub w (set_broker (w_hub w) (set_publish (h_broker (w_hub w)) q)))
| publisher_end w :
    b_cancelled (h_broker (w_hub w)) = true → broker_step TPublisher w [] (broker_ended w)
| retention (d : call) cutoff w :
    broker_step TRetention w [TRetention] (set_db w (run_write d (w_db w) (WPrune cutoff)))
| retention_audit (d : call) cutoff w :
    broker_step TRetention w [TRetention] (set_db w (run_write d (w_db w) (WPruneAudit cutoff))).

Definition cancel_leave w : W :=
  set_hub w (set_leave (w_hub w)
    (let l := h_leave (w_hub w) in
     mk_leave (l_queue l) (l_started l) (l_stop l) true (l_done l))).

(** [drain], with [stopBroker], [stop] and [stopLeaveNotifications]; [failed] is
    whether it returns an error. *)
Inductive drain_step : thread → W → list thread → W → Prop :=
| drain_start w all w' :
    drain_lock w = (all, w') → drain_step TDrain w [TDrainBroker all] w'
| drain_no_broker all w :
    b_publish (h_broker (w_hub w)) = None → drain_step (TDrainBroker all) w [TDrainGauge all] w
| drain_broker all q w :
    b_publish (h_broker (w_hub w)) = Some q →
    drain_step (TDrainBroker all) w [TDrainBrokerWait all] (stopBroker w)
| drain_broker_done all w :
    b_running (h_broker (w_hub w)) = 0%nat →
    drain_step (TDrainBrokerWait all) w [TDrainGauge all] w
| drain_broker_deadline all w :
    drain_step (TDrainBrokerWait all) w [TDrainGauge all] w
| drain_gauge all w :
    drain_step (TDrainGauge all) w [TDrainClose all all]
      (set_gauge WSDrainClientsRemaining (Z.of_nat (size all)) w)
| drain_close i todo all w :
    i ∈ todo →
    drain_step (TDrainClose todo all) w [TDrainClose (todo ∖ {[i]}) all] (closeForShutdown i w)
| drain_closed all w : drain_step (TDrainClose ∅ all) w [TDrainWait all] w
| drain_finished pending pending' w w' :
    pending ≠ ∅ → drain_receive pending w = Some (pending', w') →
    drain_step (TDrainWait pending) w [TDrainWait pending'] w'
| drain_deadline pending w :
    pending ≠ ∅ →
    drain_step (TDrainWait pending) w [TDrainStop true]
      (observe WSDrainForcedCloses "" (Z.of_nat (size pending)) w)
| drain_empty w : drain_step (TDrainWait ∅) w [TDrainStop false] w
| drain_stop failed w : drain_step (TDrainStop failed) w [TDrainLeave failed] (stop w)
| drain_no_leave failed w :
    l_started (h_leave (w_hub w)) = false →
    drain_step (TDrainLeave failed) w [TDrainJoin failed] w
| drain_leave failed w :
    l_started (h_leave (w_hub w)) = true →
    drain_step (TDrainLeave failed) w [TDrainLeaveWait failed]
      (set_hub w (set_leave (w_hub w)
        (let l := h_leave (w_hub w) in
         mk_leave (l_queue l) (l_started l) true (l_cancelled l) (l_done l))))
| drain_leave_done failed expired w :
    l_done (h_leave (w_hub w)) = true →
    drain_step (TDrainLeaveWait failed) w [TDrainJoin (failed || expired)] (cancel_leave w)
| drain_leave_deadline failed w :
    drain_step (TDrainLeaveWait failed) w [TDrainJoin true] (cancel_leave w)
| drain_join failed w :
    h_runDone (w_hub w) = true → drain_step (TDrainJoin failed) w [] (count WSDrainDuration "" w).

Inductive thread_step (t : thread) w (ts : list thread) w' : Prop :=
| by_publish : publish_step t w ts w' → thread_step t w ts w'
| by_register : register_step t w ts w' → thread_step t w ts w'
| by_history : history_step t w ts w' → thread_step t w ts w'
| by_reader : reader_step t w ts w' → thread_step t w ts w'
| by_writer : writer_step t w ts w' → thread_step t w ts w'
| by_run : run_step t w ts w' → thread_step t w ts w'
| by_leave : leave_step t w ts w' → thread_step t w ts w'
| by_broker : broker_step t w ts w' → thread_step t w ts w'
| by_drain : drain_step t w ts w' → thread_step t w ts w'.

(** ** The system *)
Record State := mk_state { pool : list thread; world : W }.

(** A client [serveWs] has just made. *)
Definition fresh_client c : Prop :=
  c_send c = [] ∧ c_done c = false ∧ normalize_room (c_Room c) = Ok (c_Room c).

Inductive step : State → State → Prop :=
| step_thread t ts rest p w w' :
    p ≡ₚ t :: rest → thread_step t w ts w' →
    step (mk_state p w) (mk_state (ts ++ rest) w')
| step_unregister i rest p w :
    p ≡ₚ TUnregSend i :: TRun :: rest →
    step (mk_state p w) (mk_state (TFinish i :: TRunUnreg i :: rest) w)
| step_connect i c p w :
    w_clients w !! i = None → fresh_client c →
    step (mk_state p w) (mk_state (TRegister i :: TWriter i :: p) (put_client w i c)).

(** The goroutines [startBroker] starts. *)
Definition broker_threads (fanout : option string) : list thread :=
  match fanout with Some _ => [TSubscriber; TPublisher] | None => [] end.

Definition initial (db : S) (fanout : option string) : State :=
  mk_state (TRun :: broker_threads fanout ++ [TRetention; TDrain])
    (startBroker (mk_world (newHub fanout) ∅ db ∅ ∅)).

Definition reachable (db : S) (fanout : option string) (s : State) : Prop :=
  rtc step (initial db fanout) s.
End system.
