(* ===== verification/HubInvariant.v ===== *)
(** The invariant of the hub system and its preservation by every step. *)
From S2P Require Import Prelude.
From S2P Require Import GoUnicode.
From S2P Require Import GoString.
From S2P Require Import GoTime.
From S2P Require Import Metrics.
From S2P Require Import Rooms.
From S2P Require Import Events.
From S2P Require Import Storage.
From S2P Require Import Client.
From S2P Require Import Hub.
From S2P Require Import HubFacts.
From S2P Require Import HubSystem.
Open Scope Z_scope.

Section invariant.
Context `{RateLimiter} {S : Type} `{Repository S}.
Notation W := (World (S:=S)).
Implicit Types (w : W) (c : Client) (m : Msg).

(** ** The invariant *)

(** Everything queued for or sent to a client is addressed to its room. *)
Definition client_inv c (sent : list Msg) : Prop :=
  Forall (λ m, m_Room m = room c) (c_send c ++ sent)
  ∧ (length (c_send c) <= outboundQueueSize)%nat
  ∧ normalize_room (room c) = Ok (room c).

Definition sent w (i : nat) : list Msg := default [] (w_wire w !! i).

Record store_inv (cs : gmap nat Client) (wire : gmap nat (list Msg)) : Prop := {
  si_client i c : cs !! i = Some c → client_inv c (default [] (wire !! i));
  si_wire i : cs !! i = None → wire !! i = None
}.

(** A bounded queue of messages addressed to some room. *)
Definition queue_inv (cap : nat) (q : list Msg) : Prop :=
  Forall (λ m, m_Room m ≠ "") q ∧ (length q <= cap)%nat.

Definition broker_inv (b : Broker) : Prop :=
  (∀ q, b_publish b = Some q → Forall well_formed q ∧ (length q <= brokerPublishQueueSize)%nat)
  ∧ b_seenEvents b = list_to_set (b_seenEventIDs b) ∧ NoDup (b_seenEventIDs b)
  ∧ (length (b_seenEventIDs b) <= maxSeenBrokerEvents)%nat.

Record world_inv w : Prop := {
  wi_store : store_inv (w_clients w) (w_wire w);
  wi_registered i : i ∈ h_clients (w_hub w) → is_Some (w_clients w !! i);
  wi_broadcast : queue_inv broadcastQueueSize (h_broadcast (w_hub w));
  wi_leave : queue_inv leaveNotificationQueueSize (l_queue (h_leave (w_hub w)));
  wi_broker : broker_inv (h_broker (w_hub w));
  wi_drained : isDraining w = true → h_clients (w_hub w) = ∅
}.

(** What holds of a goroutine's local messages. *)
Definition thread_inv w (t : thread) : Prop :=
  match t with
  | TCheck m _ | TSend m _ | TLeaveSave m _ | TRunFan m => m_Room m ≠ ""
  | TBacklog i ms => ∃ c, w_clients w !! i = Some c ∧ Forall (λ m, m_Room m = room c) ms
  | TSubOrigin e | TSubRemember e | TSubDraining e | TSubSend e => env_Room e ≠ ""
  | TRegister i | TJoin i | THistory i => is_Some (w_clients w !! i)
  | _ => True
  end.

(** Clients stay, in their room. *)
Definition extends w w' : Prop :=
  ∀ i c, w_clients w !! i = Some c → ∃ c', w_clients w' !! i = Some c' ∧ room c' = room c.

#[export] Instance extends_preorder : PreOrder extends.
Proof.
  split; [intros w i c ->; eauto|]. intros w1 w2 w3 H12 H23 i c Hc.
  destruct (H12 i c Hc) as (c2&Hc2&<-). by apply H23.
Qed.

Lemma extends_same w w' : w_clients w' = w_clients w → extends w w'.
Proof. intros E i c Hc. rewrite E. eauto. Qed.

Lemma thread_inv_extends w w' t : extends w w' → thread_inv w t → thread_inv w' t.
Proof.
  intros Hext. destruct t; simpl; try done.
  1-3: intros [c Hc]; destruct (Hext i c Hc) as (c'&?&_); eauto.
  - intros (c&Hc&Hms). destruct (Hext i c Hc) as (c'&?&E). exists c'. by rewrite E.
Qed.

(** ** Clients *)

Lemma room_nonempty c : room c ≠ "".
Proof. unfold room. by case_decide. Qed.

Lemma client_inv_enqueue c l m b c' :
  client_inv c l → m_Room m = room c → enqueue c m = (b, c') → client_inv c' l ∧ room c' = room c.
Proof.
  intros (Hf&Hlen&Hn) Hm He. apply enqueue_spec in He. destruct b.
  - destruct He as (_&Hlt&->). split; [|done]. split_and!; [|simpl; rewrite length_app; simpl; lia|done].
    simpl. rewrite <- app_assoc. apply Forall_app in Hf as [Hf1 Hf2].
    apply Forall_app. split; [done|]. by constructor.
  - destruct He as [-> _]. by split.
Qed.

Lemma client_inv_close c l : client_inv c l → client_inv (close c) l ∧ room (close c) = room c.
Proof. by intros. Qed.

Lemma client_inv_deliver m c l :
  m_Room m ≠ "" → client_inv c l → client_inv (deliver m c) l ∧ room (deliver m c) = room c.
Proof.
  intros Hne Hinv. unfold deliver, targets, accepts. rewrite bool_decide_false by done. simpl.
  case_bool_decide as Hr; [|done]. destruct (c_done c) eqn:Hd; [done|]. destruct (_ <? _)%nat eqn:Hlen; [|done]. simpl.
  apply (client_inv_enqueue c l m true); [done..|]. unfold enqueue. by rewrite Hd, Hlen.
Qed.

Lemma client_inv_read rw c (db : S) ms m c' db' ms' out l :
  read_step rw c db ms m = (c', db', ms', out) → client_inv c l →
  client_inv c' l ∧ room c' = room c.
Proof.
  intros E (Hf&Hlen&Hn). apply read_step_client in E as (Hb&_&Hs&_).
  unfold binding in Hb. injection Hb as _ _ _ _ Hr. unfold client_inv. rewrite Hr.
  split; [|done]. destruct Hs as [-> |[Hlt ->]]; [done|].
  split_and!; [|rewrite length_app; simpl; lia|done].
  rewrite <- app_assoc. apply Forall_app in Hf as [Hf1 Hf2].
  apply Forall_app. split; [done|]. by constructor.
Qed.

Lemma store_inv_update cs wire i c c' :
  store_inv cs wire → cs !! i = Some c → client_inv c' (default [] (wire !! i)) →
  store_inv (<[i := c']> cs) wire.
Proof.
  intros [Hc Hw] Hi Hc'. split; intros j.
  - intros d. destruct (decide (i = j)) as [<-|Hne].
    + rewrite lookup_insert_eq. by intros [= <-].
    + rewrite lookup_insert_ne by done. apply Hc.
  - destruct (decide (i = j)) as [<-|Hne]; [by rewrite lookup_insert_eq|].
    rewrite lookup_insert_ne by done. apply Hw.
Qed.

(** Updating one client. *)
Lemma put_client_inv w i c c' :
  world_inv w → w_clients w !! i = Some c →
  (∀ l, client_inv c l → client_inv c' l ∧ room c' = room c) →
  world_inv (put_client w i c') ∧ extends w (put_client w i c').
Proof.
  intros Hw Hc Hupd. destruct (wi_store _ Hw) as [Hs Hwire].
  destruct (Hupd _ (Hs _ _ Hc)) as [Hinv Hroom]. split.
  - destruct Hw. split; try done.
    + by eapply store_inv_update.
    + intros j Hj. simpl. destruct (decide (i = j)) as [->|]; [by rewrite lookup_insert_eq|].
      rewrite lookup_insert_ne by done. auto.
  - intros j d Hd. simpl. destruct (decide (i = j)) as [<-|Hne].
    + rewrite lookup_insert_eq. simplify_eq. eauto.
    + rewrite lookup_insert_ne by done. eauto.
Qed.

(** ** Operations *)

(** A step of the world: the invariant is kept and clients stay in place. *)
Definition keeps w w' : Prop := world_inv w → world_inv w' ∧ extends w w'.

Lemma keeps_refl w : keeps w w.
Proof. intros Hw. by split. Qed.

Lemma keeps_trans w1 w2 w3 : keeps w1 w2 → keeps w2 w3 → keeps w1 w3.
Proof.
  intros H12 H23 Hw. destruct (H12 Hw) as [Hw2 E12], (H23 Hw2) as [Hw3 E23].
  split; [done|by transitivity w2].
Qed.

(** Operations that only touch what the invariant does not mention. *)
Lemma keeps_other w w' :
  w_clients w' = w_clients w → w_wire w' = w_wire w →
  h_clients (w_hub w') = h_clients (w_hub w) → h_broadcast (w_hub w') = h_broadcast (w_hub w) →
  l_queue (h_leave (w_hub w')) = l_queue (h_leave (w_hub w)) →
  h_broker (w_hub w') = h_broker (w_hub w) → isDraining w' = isDraining w →
  keeps w w'.
Proof.
  intros E1 E2 E3 E4 E5 E6 E7 []. split; [|by apply extends_same].
  split; rewrite ?E1, ?E2, ?E3, ?E4, ?E5, ?E6, ?E7; done.
Qed.

Lemma keeps_metrics w ms : keeps w (set_metrics w ms).
Proof. by apply keeps_other. Qed.
Lemma keeps_db w db : keeps w (set_db w db).
Proof. by apply keeps_other. Qed.
Lemma keeps_observe k label n w : keeps w (observe k label n w).
Proof. apply keeps_metrics. Qed.
Lemma keeps_gauge k n w : keeps w (set_gauge k n w).
Proof. apply keeps_metrics. Qed.
Lemma keeps_count k label w : keeps w (count k label w).
Proof. apply keeps_observe. Qed.

Lemma keeps_broker w b : broker_inv b → keeps w (set_hub w (set_broker (w_hub w) b)).
Proof. intros Hb []. split; [by split|by apply extends_same]. Qed.
Lemma keeps_broadcast w q :
  queue_inv broadcastQueueSize q → keeps w (set_hub w (set_broadcast (w_hub w) q)).
Proof. intros Hq []. split; [by split|by apply extends_same]. Qed.
Lemma keeps_leave w l :
  queue_inv leaveNotificationQueueSize (l_queue l) → keeps w (set_hub w (set_leave (w_hub w) l)).
Proof. intros Hq []. split; [by split|by apply extends_same]. Qed.

Lemma queue_inv_tail cap m q : queue_inv cap (m :: q) → m_Room m ≠ "" ∧ queue_inv cap q.
Proof.
  intros [Hf Hlen]. apply Forall_cons in Hf as [Hm Hf]. unfold queue_inv. simpl in Hlen.
  split; [done|]. split; [done|lia].
Qed.

Lemma queue_inv_snoc cap m q :
  queue_inv cap q → m_Room m ≠ "" → (length q < cap)%nat → queue_inv cap (q ++ [m]).
Proof.
  intros [Hf Hlen] Hm Hlt. split; [|rewrite length_app; simpl; lia].
  apply Forall_app. split; [done|by constructor].
Qed.

Lemma keeps_queueBroker e m w : keeps w (queueBrokerMessage e m w).
Proof.
  intros Hw. unfold queueBrokerMessage. destruct (b_publish _) as [q|] eqn:Hq; [|by apply keeps_refl].
  destruct (negb _); [by apply keeps_refl|]. destruct (_ || _); [by apply keeps_count|].
  destruct (new_event _ _ _ _ _) as [event|] eqn:He; [|by apply keeps_count].
  destruct (_ <? _)%nat eqn:Hlen; [|by apply keeps_count].
  apply Nat.ltb_lt in Hlen. apply new_event_ok in He as [He _].
  apply keeps_broker; [|done]. destruct (wi_broker _ Hw) as (Hpub&Hseen).
  split; [|done]. intros q' [= <-]. destruct (Hpub q Hq) as [Hf _]. split.
  - apply Forall_app. split; [done|by constructor].
  - rewrite length_app. simpl. lia.
Qed.

Lemma keeps_publish pick e m w b w' :
  m_Room m ≠ "" → publish_send pick e m w = Some (b, w') → keeps w w'.
Proof.
  unfold publish_send. intros Hm. destruct (_ && _) eqn:Hr.
  - intros [= <- <-]. unbool. intros Hw. eapply keeps_trans; [|apply keeps_queueBroker|done].
    apply keeps_broadcast, queue_inv_snoc; [apply Hw|done|by apply Nat.ltb_lt].
  - destruct (h_done _); [|done]. intros [= <- <-]. apply keeps_refl.
Qed.

Lemma keeps_persist d m w m' w' :
  persist_notification d m w = (m', w') → m_Room m' = m_Room m ∧ keeps w w'.
Proof.
  unfold persist_notification, saveMessageObservedInRoomContext, saveMessageObservedForUserInRoomContext.
  destruct (SaveMessageForUserInRoomContext _ _ _ _ _ _ _) as [res db].
  intros [= <- <-]. split; [by destruct res|]. by apply keeps_other.
Qed.

Lemma keeps_remember e w b w' : rememberBrokerEvent e w = (b, w') → keeps w w'.
Proof.
  intros E Hw. destruct (wi_broker _ Hw) as (Hpub&Hseen).
  assert (Hok : seen_ok w) by done.
  destruct (remember_spec e w Hok) as (_&_&Hok'&_). rewrite E in Hok'. simpl in Hok'.
  revert E Hok'. unfold rememberBrokerEvent. case_decide.
  { intros [= <- <-] _. by apply keeps_refl. }
  case_match. intros [= <- <-] Hok'. apply keeps_broker; [|done]. by split.
Qed.

Lemma keeps_remote_send pick m w : m_Room m ≠ "" → keeps w (remote_send pick m w).
Proof.
  intros Hm Hw. unfold remote_send. destruct (_ && _) eqn:Hr.
  - unbool. apply keeps_broadcast; [|done].
    apply queue_inv_snoc; [apply Hw|done|by apply Nat.ltb_lt].
  - destruct (h_done _); [by apply keeps_refl|by apply keeps_count].
Qed.

Lemma keeps_register i w w' :
  is_Some (w_clients w !! i) → register_lock i w = (true, w') → keeps w w'.
Proof.
  intros Hi. unfold register_lock. destruct (isDraining w) eqn:Hd; [done|]. intros [= <-] [].
  split; [|by apply extends_same]. split; try done.
  - intros j. simpl. set_solver.
  - intros Hd'. change (isDraining w = true) in Hd'. congruence.
Qed.

Lemma keeps_closeForShutdown i w : keeps w (closeForShutdown i w).
Proof.
  intros Hw. unfold closeForShutdown. destruct (w_clients w !! i) as [c|] eqn:Hc; [|by apply keeps_refl].
  eapply put_client_inv; [done..|]. intros l. apply client_inv_close.
Qed.

Lemma keeps_queueLeave m w : m_Room m ≠ "" → keeps w (queueLeaveNotification m w).
Proof.
  intros Hm Hw. unfold queueLeaveNotification. destruct (_ <? _)%nat eqn:Hlen.
  - apply keeps_leave; [|done]. apply queue_inv_snoc; [apply Hw|done|by apply Nat.ltb_lt].
  - eapply keeps_trans; [apply keeps_leave|apply keeps_count|done]. apply Hw.
Qed.

Lemma keeps_disconnect i w : keeps w (disconnectClientLocked i w).
Proof.
  intros Hw. unfold disconnectClientLocked. case_decide as Hi; [|by apply keeps_refl].
  destruct (w_clients w !! i) as [c|] eqn:Hc; [|by apply keeps_refl]. cbv zeta.
  set (w1 := set_hub w _).
  assert (Hw1 : world_inv w1 ∧ extends w w1).
  { destruct Hw. split; [|by apply extends_same]. split; try done.
    - intros j. simpl. set_solver.
    - intros Hd. simpl. rewrite wi_drained0 by done. set_solver. }
  destruct Hw1 as [Hw1 E1].
  destruct (put_client_inv w1 i c (close c) Hw1 Hc) as [Hw2 E2]; [intros l; apply client_inv_close|].
  assert (E12 : extends w (put_client w1 i (close c))) by by transitivity w1.
  case_decide; [done|].
  destruct (keeps_queueLeave (leave_notification (close c)) _ (room_nonempty _) Hw2) as [? ?].
  split; [done|]. by etransitivity.
Qed.

Lemma keeps_fanout_step m w i : m_Room m ≠ "" → keeps w (fanout_step m w i).
Proof.
  intros Hm Hw. unfold fanout_step. destruct (w_clients w !! i) as [c|] eqn:Hc; [|by apply keeps_refl].
  rewrite bool_decide_false by done. simpl. case_bool_decide as Hr; simpl; [|by apply keeps_refl].
  destruct (enqueue c m) as [b c'] eqn:He. destruct b.
  - eapply put_client_inv; [done..|]. intros l Hl. by eapply client_inv_enqueue.
  - eapply keeps_trans; [apply keeps_count|apply keeps_disconnect|done].
Qed.

Lemma keeps_fanout m order w : m_Room m ≠ "" → keeps w (fanout_all order m w).
Proof.
  intros Hm. unfold fanout_all. revert w. induction order as [|i order IH]; intros w; [apply keeps_refl|].
  eapply keeps_trans; [by apply keeps_fanout_step|apply IH].
Qed.

Lemma keeps_write ok i w b w' : write_one ok i w = Some (b, w') → keeps w w'.
Proof.
  unfold write_one. destruct (w_clients w !! i) as [c|] eqn:Hc; [|done].
  destruct (c_send c) as [|m q] eqn:Hq; [done|]. intros E Hw.
  pose proof (si_client _ _ (wi_store _ Hw) i c Hc) as (Hf&Hlen&Hn).
  rewrite Hq in Hf, Hlen. simpl in Hf, Hlen.
  destruct ok; simplify_eq/=.
  - destruct Hw as [[Hs Hwire] Hreg Hb Hl Hbr Hd]. split; [split|]; try done.
    + split; intros j; simpl.
      * intros d. destruct (decide (i = j)) as [<-|Hne].
        -- rewrite !lookup_insert_eq. intros [= <-]. simpl. split_and!; [|simpl; lia|done].
           simpl. rewrite (Permutation_app_comm _ [m]), Permutation_app_comm. simpl.
           by rewrite Permutation_app_comm in Hf.
        -- rewrite !lookup_insert_ne by done. apply Hs.
      * destruct (decide (i = j)) as [<-|Hne]; [by rewrite lookup_insert_eq|].
        rewrite !lookup_insert_ne by done. apply Hwire.
    + intros j Hj. simpl. destruct (decide (i = j)) as [->|]; [by rewrite lookup_insert_eq|].
      rewrite lookup_insert_ne by done. auto.
    + intros j d Hj. simpl. destruct (decide (i = j)) as [<-|Hne].
      * rewrite lookup_insert_eq. simplify_eq. eauto.
      * rewrite lookup_insert_ne by done. eauto.
  - eapply keeps_trans; [|apply keeps_count|done]. intros Hw'.
    eapply put_client_inv; [done..|]. intros l (Hf'&Hlen'&_). rewrite Hq in Hf', Hlen'.
    split; [|done]. split_and!; [by apply Forall_cons in Hf' as [_ ?]|simpl in *; lia|done].
Qed.

Lemma keeps_finish i w r w' : finish_lock i w = (r, w') → keeps w w'.
Proof. unfold finish_lock. repeat case_match; intros [= <- <-]; by apply keeps_other. Qed.

Lemma keeps_finish_send i w w' : finish_send i w = Some w' → keeps w w'.
Proof. unfold finish_send. repeat case_match; intros [= <-]; by apply keeps_other. Qed.

Lemma keeps_drain_receive pending w pending' w' :
  drain_receive pending w = Some (pending', w') → keeps w w'.
Proof. unfold drain_receive. repeat case_match; intros [= <- <-]; by apply keeps_other. Qed.

Lemma keeps_drain_lock w all w' : drain_lock w = (all, w') → keeps w w'.
Proof.
  unfold drain_lock. intros [= <- <-] []. split; [|by apply extends_same]. by split.
Qed.

(** ** Steps *)
Context `{!RoomScoped S}.

Lemma history_backlog_room d c (db : S) :
  normalize_room (room c) = Ok (room c) → Forall (λ m, m_Room m = room c) (history_backlog d c db).
Proof.
  intros Hn. unfold history_backlog. destruct (GetRecentMessagesInRoomContext _ _ _ _) as [ms|] eqn:E;
    [|by constructor].
  eapply recent_room in E; [|exact Hn]. apply Forall_app. split; [|by repeat constructor].
  rewrite Forall_fmap. by eapply Forall_impl.
Qed.

(** A goroutine's step keeps the world's invariant and establishes that of the
    program points it leads to. *)
Definition step_keeps t w ts w' : Prop :=
  world_inv w → thread_inv w t →
  (world_inv w' ∧ extends w w') ∧ Forall (thread_inv w') ts.

Lemma spawn_leave_inv w0 w w' : Forall (thread_inv w0) (spawn_leave w w').
Proof. unfold spawn_leave. case_match; by repeat constructor. Qed.

Lemma resume_inv w k b : Forall (thread_inv w) (resume k b).
Proof. destruct k; simpl; try case_match; by repeat constructor. Qed.

Lemma publish_step_keeps t w ts w' : publish_step t w ts w' → step_keeps t w ts w'.
Proof.
  intros []; intros Hw Ht.
  - split; [by apply keeps_refl|apply resume_inv].
  - split; [by apply keeps_refl|by repeat constructor].
  - split; [by eapply keeps_publish|apply resume_inv].
Qed.

Lemma register_step_keeps t w ts w' : register_step t w ts w' → step_keeps t w ts w'.
Proof.
  intros [i w0 _|i w0 w1 E|i c d w0 m w1 _ E]; intros Hw Ht.
  - split; [by apply keeps_closeForShutdown|constructor].
  - destruct (keeps_register _ _ _ Ht E Hw) as [Hw' Hext]. split; [done|].
    destruct Ht as [c Hc]. destruct (Hext _ _ Hc) as (c'&?&_).
    do 2 (constructor; [simpl; eauto|]). constructor.
  - destruct (keeps_persist _ _ _ _ _ E) as [Hm Hk]. split; [by apply Hk|].
    repeat constructor. simpl. rewrite Hm. apply room_nonempty.
Qed.

Lemma history_step_keeps t w ts w' : history_step t w ts w' → step_keeps t w ts w'.
Proof.
  intros [i c d w0 Hc|i w0|i m ms c b c' w0 Hc He]; intros Hw Ht.
  - split; [by apply keeps_refl|]. repeat constructor. exists c. split; [done|].
    apply history_backlog_room. by destruct (si_client _ _ (wi_store _ Hw) _ _ Hc) as (_&_&?).
  - split; [by apply keeps_refl|constructor].
  - destruct Ht as (c0&Hc0&Hms). simplify_eq. apply Forall_cons in Hms as [Hm Hms].
    split; [eapply put_client_inv; [done..|]; intros l Hl; by eapply client_inv_enqueue|].
    destruct b; repeat constructor. exists c'. simpl. rewrite lookup_insert_eq.
    split; [done|]. apply enqueue_spec in He as (_&_&->). done.
Qed.

Lemma reader_step_keeps t w ts w' : reader_step t w ts w' → step_keeps t w ts w'.
Proof.
  intros [i w0|i c w0 Hc| |i c rw m c' db' ms' out w0 Hc E| |i w0| | | |i r w0 w1 E| |i w0 w1 E|i c w0 Hc];
    intros Hw Ht; try (split; [by apply keeps_refl|by repeat constructor]);
    try (split; [by apply keeps_observe|by repeat constructor]).
  - split; [|constructor]. eapply put_client_inv; [done..|]. intros l. apply client_inv_close.
  - split.
    + eapply keeps_trans; [|eapply keeps_trans; [apply keeps_db|apply keeps_metrics]|done].
      intros _. eapply put_client_inv; [done..|]. intros l. by eapply client_inv_read.
    + destruct out as [o|]; repeat constructor. simpl.
      apply read_step_out in E as (_&_&_&_&_&_&->&_). apply room_nonempty.
  - split; [by eapply keeps_finish|]. destruct r; by repeat constructor.
  - split; [by apply keeps_gauge|by repeat constructor].
  - split; [by eapply keeps_finish_send|by repeat constructor].
  - split; [|constructor]. eapply put_client_inv; [done..|]. intros l. apply client_inv_close.
Qed.

Lemma writer_step_keeps t w ts w' : writer_step t w ts w' → step_keeps t w ts w'.
Proof.
  intros [i c w0 Hc Hd|i ok b w0 w1 E]; intros Hw Ht.
  - split; [by apply keeps_refl|constructor].
  - split; [by eapply keeps_write|]. destruct b; by repeat constructor.
Qed.

Lemma run_step_keeps t w ts w' : run_step t w ts w' → step_keeps t w ts w'.
Proof.
  intros [w0 Hd|m q w0 Hq|m order w0 w1 Ho ->|i w0 w1 ->]; intros Hw Ht.
  - split; [by apply keeps_other|constructor].
  - pose proof (wi_broadcast _ Hw) as Hb. rewrite Hq in Hb. apply queue_inv_tail in Hb as [Hm Hb].
    split; [by apply keeps_broadcast|by repeat constructor].
  - split; [|constructor; [done|apply spawn_leave_inv]].
    eapply keeps_trans; [by apply keeps_fanout|apply keeps_count|done].
  - split; [by apply keeps_disconnect|]. constructor; [done|apply spawn_leave_inv].
Qed.

Lemma leave_step_keeps t w ts w' : leave_step t w ts w' → step_keeps t w ts w'.
Proof.
  intros [dr m q w0 Hq _|dr m d m' w0 w1 E|w0 _|w0 _]; intros Hw Ht.
  - pose proof (wi_leave _ Hw) as Hb. rewrite Hq in Hb. apply queue_inv_tail in Hb as [Hm Hb].
    split; [by apply keeps_leave|by repeat constructor].
  - destruct (keeps_persist _ _ _ _ _ E) as [Hm Hk]. split; [by apply Hk|].
    repeat constructor. simpl. by rewrite Hm.
  - split; [by apply keeps_refl|by repeat constructor].
  - split; [|constructor]. apply keeps_leave; [|done]. apply Hw.
Qed.

Lemma validate_room e : validate e = Ok tt → env_Room e ≠ "".
Proof.
  intros (_&_&_&_&_&_&_&Hr&_)%validate_iff. intros E. by rewrite E in Hr.
Qed.

Lemma broker_step_keeps t w ts w' : broker_step t w ts w' → step_keeps t w ts w'.
Proof.
  intros [e w0 Hv|e w0 _|e w0 _|e w0 w1 E|e w0 w1 E|e w0 _|e w0 _|e pick w0|w0|e q w0 Hq|w0 _|
          d cut w0|d cut w0]; intros Hw Ht;
    try (split; [by apply keeps_refl|by repeat constructor]);
    try (split; [by apply keeps_count|by repeat constructor]);
    try (split; [by apply keeps_db|by repeat constructor]).
  - split; [by apply keeps_refl|]. repeat constructor. by apply validate_room.
  - split; [|by repeat constructor].
    eapply keeps_trans; [by eapply keeps_remember|apply keeps_count|done].
  - split; [by eapply keeps_remember|by repeat constructor].
  - split; [by apply keeps_remote_send|by repeat constructor].
  - split; [|constructor]. apply keeps_broker; [apply Hw|done].
  - split; [|by repeat constructor]. apply keeps_broker; [|done].
    destruct (wi_broker _ Hw) as (Hpub&Hseen). split; [|done]. intros q' [= <-].
    destruct (Hpub _ Hq) as [Hf Hlen]. apply Forall_cons in Hf as [_ Hf]. simpl in Hlen.
    split; [done|lia].
  - split; [|constructor]. apply keeps_broker; [apply Hw|done].
Qed.

Lemma drain_step_keeps t w ts w' : drain_step t w ts w' → step_keeps t w ts w'.
Proof.
  intros []; intros Hw Ht; (split; [|by repeat constructor]);
    try by (apply keeps_refl || apply keeps_metrics).
  - by eapply keeps_drain_lock.
  - unfold stopBroker. case_match; [|by apply keeps_refl]. apply keeps_broker; [apply Hw|done].
  - by apply keeps_closeForShutdown.
  - by eapply keeps_drain_receive.
  - by apply keeps_other.
  - apply keeps_leave; [apply Hw|done].
  - apply keeps_leave; [apply Hw|done].
  - apply keeps_leave; [apply Hw|done].
Qed.

Lemma thread_step_keeps t w ts w' : thread_step t w ts w' → step_keeps t w ts w'.
Proof.
  intros []; eauto using publish_step_keeps, register_step_keeps, history_step_keeps,
    reader_step_keeps, writer_step_keeps, run_step_keeps, leave_step_keeps, broker_step_keeps,
    drain_step_keeps.
Qed.

(** ** The system invariant *)
Definition sys_inv (s : State (S:=S)) : Prop :=
  world_inv (world s) ∧ Forall (thread_inv (world s)) (pool s).

Lemma newHub_inv fanout db : world_inv (mk_world (newHub fanout) ∅ db ∅ ∅).
Proof.
  split; simpl; try done; try (split; [by constructor|simpl; lia]).
  split; [by intros q|]. split_and!; [done|constructor|simpl; lia].
Qed.

Lemma keeps_startBroker w : keeps w (startBroker w).
Proof.
  intros Hw. unfold startBroker. case_match; [by apply keeps_refl|]. apply keeps_broker; [|done].
  destruct (wi_broker _ Hw) as [_ Hseen]. split; [|done].
  intros q [= <-]. split; [constructor|simpl; lia].
Qed.

Lemma initial_inv db fanout : sys_inv (initial db fanout).
Proof.
  split; [|destruct fanout; by repeat constructor]. apply keeps_startBroker, newHub_inv.
Qed.

Lemma step_inv s s' : sys_inv s → step s s' → sys_inv s'.
Proof.
  intros [Hw Ht] Hstep. destruct Hstep as [t ts rest p w w' Hp Hts|i rest p w Hp|i c p w Hi Hc];
    simpl in *.
  - rewrite Hp in Ht. apply Forall_cons in Ht as [Ht Hrest].
    destruct (thread_step_keeps _ _ _ _ Hts Hw Ht) as [[Hw' Hext] Hts'].
    split; [done|]. apply Forall_app. split; [done|].
    eapply Forall_impl; [done|]. intros t' Ht'. by eapply thread_inv_extends.
  - split; [done|]. rewrite Hp in Ht. apply Forall_cons in Ht as [_ Ht].
    apply Forall_cons in Ht as [_ Ht]. by repeat constructor.
  - destruct Hc as (Hs&Hd&Hn). destruct Hw as [[Hc Hwire] Hreg Hb Hl Hbr Hdr].
    assert (Hext : extends w (put_client w i c)).
    { intros j d Hj. simpl. rewrite lookup_insert_ne by congruence. eauto. }
    assert (Hroom : room c = c_Room c).
    { unfold room. case_decide as E; [|done]. rewrite E in Hn. by vm_compute in Hn. }
    split; [split|]; try done.
    + split; intros j; simpl.
      * intros d. destruct (decide (i = j)) as [<-|Hne].
        -- rewrite lookup_insert_eq. intros [= <-]. rewrite Hwire by done. simpl.
           split_and!; [by rewrite Hs; constructor|rewrite Hs; simpl; lia|by rewrite Hroom].
        -- rewrite lookup_insert_ne by done. apply Hc.
      * destruct (decide (i = j)) as [<-|Hne]; [by rewrite lookup_insert_eq|].
        rewrite lookup_insert_ne by done. apply Hwire.
    + intros j Hj. simpl. destruct (decide (i = j)) as [<-|]; [by rewrite lookup_insert_eq|].
      rewrite lookup_insert_ne by done. auto.
    + constructor; [simpl; by rewrite lookup_insert_eq|]. constructor; [done|].
      eapply Forall_impl; [done|]. intros t' Ht'. by eapply thread_inv_extends.
Qed.

Lemma reachable_inv db fanout s : reachable db fanout s → sys_inv s.
Proof.
  intros Hr. unfold reachable in Hr. remember (initial db fanout) as s0 eqn:E.
  assert (Hs0 : sys_inv s0) by (subst; apply initial_inv). clear E.
  induction Hr as [|s1 s2 s3 H12 H23 IH]; [done|]. apply IH. by eapply step_inv.
Qed.
End invariant.
