(* ===== verification/HubDrain.v ===== *)
(** Shutdown of the hub: the accounting between [drain] and the clients'
    goroutines.  [drainEvents] never overflows, every client [drain] waits for is
    still owed exactly one notification by a running goroutine, and nobody joins
    a draining hub. *)
From S2P Require Import Prelude.
From S2P Require Import GoUnicode.
From S2P Require Import GoString.
From S2P Require Import GoTime.
From S2P Require Import Metrics.
From S2P Require Import Rooms.
From S2P Require Import Events.
From S2P Require Import Storage.
From S2P Require Import Client.
From S2P Require Import Hub.
From S2P Require Import HubFacts.
From S2P Require Import HubSystem.

Section drain.
Context `{RateLimiter} {S : Type} `{Repository S}.
Notation W := (World (S:=S)).
Implicit Types (w : W) (p ts : list thread).

(** ** Terms *)

(** The client whose reader (or registration) a goroutine runs, until it has
    called [notifyClientFinished]. *)
Definition owner (t : thread) : option nat :=
  match t with
  | TJoin i | TServe i | TReader i | TReaderExit i | TUnregCheck i | TUnregSend i | TFinish i =>
    Some i
  | TCheck _ (KJoin i) | TCheck _ (KRead i) | TSend _ (KJoin i) | TSend _ (KRead i) => Some i
  | _ => None
  end.

(** A goroutine about to do [events <- client]. *)
Definition sending (t : thread) : option nat :=
  match t with TFinishGauge i _ | TFinishSend i => Some i | _ => None end.

(** What the drain loop still waits for. *)
Definition waiting (t : thread) : option (gset nat) :=
  match t with
  | TDrainBroker all | TDrainBrokerWait all | TDrainGauge all | TDrainClose _ all => Some all
  | TDrainWait pending => Some pending
  | _ => None
  end.

Definition drains (t : thread) : bool :=
  match t with
  | TDrain | TDrainBroker _ | TDrainBrokerWait _ | TDrainGauge _ | TDrainClose _ _ | TDrainWait _ =>
    true
  | _ => false
  end.
Definition drainers p : nat := length (List.filter drains p).

Definition owners p : list nat := omap owner p.
Definition senders p : list nat := omap sending p.

#[local] Arguments owners : simpl never.
#[local] Arguments senders : simpl never.
#[local] Arguments drainers : simpl never.

(** The part of the world the shutdown touches. *)
Definition drain_view w : gset nat * gset nat * Drain :=
  (h_clients (w_hub w), h_finished (w_hub w), h_drain (w_hub w)).

(** The invariant, over the pool and that view. *)
Record drain_inv p (v : gset nat * gset nat * Drain) : Prop := {
  di_registered i : i ∈ v.1.1 → i ∈ v.1.2 ∨ i ∈ owners p;
  di_pending i : i ∈ d_pending v.2 → i ∈ owners p;
  di_single : (drainers p <= 1)%nat;
  di_state :
    match d_events v.2 with
    | None => d_draining v.2 = false ∧ d_pending v.2 = ∅ ∧ senders p = []
              ∧ ∀ t, t ∈ p → waiting t = None
    | Some (cap, q) =>
      d_draining v.2 = true ∧ v.1.1 = ∅ ∧ TDrain ∉ p
      ∧ (length q + length (senders p) + size (d_pending v.2) <= cap)%nat
      ∧ ∀ t all, t ∈ p → waiting t = Some all →
          ∀ i, i ∈ all → i ∈ d_pending v.2 ∨ i ∈ q ∨ i ∈ senders p
    end
}.

(** ** Steps that leave the view alone *)

(** A goroutine that hands its obligations on to the goroutines it becomes. *)
Definition passes_on (t : thread) ts : Prop :=
  (∀ i, owner t = Some i → i ∈ owners ts) ∧ senders ts = option_list (sending t)
  ∧ (∀ t' all, t' ∈ ts → waiting t' = Some all → waiting t = Some all)
  ∧ TDrain ∉ ts ∧ (drainers ts <= drainers [t])%nat.

Lemma owners_cons t p : owners (t :: p) = option_list (owner t) ++ owners p.
Proof. unfold owners. simpl. by destruct (owner t). Qed.
Lemma senders_cons t p : senders (t :: p) = option_list (sending t) ++ senders p.
Proof. unfold senders. simpl. by destruct (sending t). Qed.
Lemma owners_app p p' : owners (p ++ p') = owners p ++ owners p'.
Proof. apply omap_app. Qed.
Lemma senders_app p p' : senders (p ++ p') = senders p ++ senders p'.
Proof. apply omap_app. Qed.

Lemma drainers_cons t p : drainers (t :: p) = ((if drains t then 1 else 0) + drainers p)%nat.
Proof. unfold drainers. simpl. by destruct (drains t). Qed.
Lemma drainers_app p p' : drainers (p ++ p') = (drainers p + drainers p')%nat.
Proof. unfold drainers. by rewrite List.filter_app, length_app. Qed.
Lemma drainers_none p t : drainers p = 0%nat → t ∈ p → drains t = false.
Proof.
  intros Hp Ht. destruct (drains t) eqn:E; [|done].
  assert (Hin : t ∈ List.filter drains p) by by apply elem_of_filter_bool.
  unfold drainers in Hp. apply length_zero_iff_nil in Hp. rewrite Hp in Hin. by apply not_elem_of_nil in Hin.
Qed.

#[export] Instance drainers_perm : Proper ((≡ₚ) ==> (=)) drainers.
Proof. intros p p' Hp. unfold drainers. rewrite !filter_bool. by rewrite Hp. Qed.
#[export] Instance owners_perm : Proper ((≡ₚ) ==> (≡ₚ)) owners.
Proof. intros p p' Hp. unfold owners. by rewrite Hp. Qed.
#[export] Instance senders_perm : Proper ((≡ₚ) ==> (≡ₚ)) senders.
Proof. intros p p' Hp. unfold senders. by rewrite Hp. Qed.

Lemma drain_inv_perm p p' v : p ≡ₚ p' → drain_inv p v → drain_inv p' v.
Proof.
  intros Hp [Hr Hpe H1 Hs]. split.
  - intros i Hi. rewrite <- Hp. auto.
  - intros i Hi. rewrite <- Hp. auto.
  - by rewrite <- Hp.
  - destruct (d_events v.2) as [[cap q]|].
    + destruct Hs as (?&?&Hd&Hlen&Hw). split_and!; [done|done|by rewrite <- Hp| |].
      * by rewrite <- Hp.
      * intros t all Ht. rewrite <- Hp in Ht. intros Hwt i Hi. rewrite <- Hp. eauto.
    + destruct Hs as (?&?&Hsend&Hw). split_and!; [done..| |].
      * apply Permutation_nil. by rewrite <- Hp, Hsend.
      * intros t Ht. rewrite <- Hp in Ht. auto.
Qed.

Lemma passes_on_inv t ts rest v : passes_on t ts → drain_inv (t :: rest) v → drain_inv (ts ++ rest) v.
Proof.
  intros (Ho&Hs&Hwt&Hd&Hn) [Hr Hpe H1 Hst].
  assert (Hown : ∀ i, i ∈ owners (t :: rest) → i ∈ owners (ts ++ rest)).
  { intros i. rewrite owners_cons, owners_app, !elem_of_app. destruct (owner t); simpl; set_solver. }
  assert (Hsend : senders (ts ++ rest) = senders (t :: rest)).
  { by rewrite senders_app, senders_cons, Hs. }
  split.
  - intros i Hi. destruct (Hr i Hi); auto.
  - auto.
  - rewrite drainers_app. rewrite drainers_cons in H1. unfold drainers in Hn at 2. simpl in Hn.
    destruct (drains t); simpl in Hn; lia.
  - rewrite Hsend. destruct (d_events v.2) as [[cap q]|].
    + destruct Hst as (?&?&Hdn&?&Hw). split_and!; try done.
      * rewrite elem_of_app. intros [?|?]; [done|]. apply Hdn. by right.
      * intros t' all [Ht'|Ht']%elem_of_app Hwt'.
        -- eapply (Hw t all); [by left|]. by eapply Hwt.
        -- eapply (Hw t' all); [by right|done].
    + destruct Hst as (?&?&?&Hw). split_and!; try done.
      intros t' [Ht'|Ht']%elem_of_app; [|apply Hw; by right].
      destruct (waiting t') as [all|] eqn:E; [|done]. apply (Hwt _ _ Ht') in E.
      by rewrite (Hw t) in E by by left.
Qed.

(** ** Steps that drop clients *)

(** Clients are only dropped, each together with its entry in [finished]. *)
Definition shrinks w w' : Prop :=
  h_clients (w_hub w') ⊆ h_clients (w_hub w)
  ∧ (∀ i, i ∈ h_clients (w_hub w') → i ∈ h_finished (w_hub w) → i ∈ h_finished (w_hub w'))
  ∧ h_drain (w_hub w') = h_drain (w_hub w).

#[export] Instance shrinks_preorder : PreOrder shrinks.
Proof.
  split; [by intros w|]. intros w1 w2 w3 (Hc&Hf&Hd) (Hc'&Hf'&Hd'). split_and!; [set_solver|eauto|].
  by rewrite Hd'.
Qed.

Lemma shrinks_same w w' : drain_view w' = drain_view w → shrinks w w'.
Proof. unfold drain_view, shrinks. intros [= -> -> ->]. done. Qed.

Lemma queueLeave_shrinks m w : shrinks w (queueLeaveNotification m w).
Proof. unfold queueLeaveNotification. by destruct (_ <? _)%nat. Qed.

Lemma disconnect_shrinks i w : shrinks w (disconnectClientLocked i w).
Proof.
  unfold disconnectClientLocked. case_decide; [|done].
  destruct (w_clients w !! i) as [c|]; [|done]. cbv zeta. set (w1 := put_client _ _ _).
  assert (Hw1 : shrinks w w1).
  { unfold shrinks, w1. simpl. split_and!; [set_solver..|done]. }
  case_decide; [done|]. etransitivity; [done|apply queueLeave_shrinks].
Qed.

Lemma fanout_shrinks m order w : shrinks w (fanout_all order m w).
Proof.
  unfold fanout_all. revert w. induction order as [|i order IH]; intros w; [done|]. simpl.
  etransitivity; [|apply IH]. unfold fanout_step.
  destruct (w_clients w !! i) as [c|]; [|done]. destruct (_ && _); [done|].
  destruct (enqueue c m) as [[] c']; [done|].
  etransitivity; [|apply disconnect_shrinks]. by apply shrinks_same.
Qed.

Lemma shrinks_inv p w w' : shrinks w w' → drain_inv p (drain_view w) → drain_inv p (drain_view w').
Proof.
  intros (Hc&Hf&Hd) [Hr Hp H1 Hs]. unfold drain_view in *. simpl in *.
  split; simpl; rewrite ?Hd; [|done..|].
  - intros i Hi. destruct (Hr i); auto.
  - destruct (d_events _) as [[cap q]|]; [|done].
    destruct Hs as (?&He&?). split_and!; [done|set_solver|naive_solver..].
Qed.

(** ** Steps of the view *)

Lemma register_inv i rest w w' :
  register_lock i w = (true, w') →
  drain_inv (TRegister i :: rest) (drain_view w) →
  drain_inv ([TJoin i; THistory i] ++ rest) (drain_view w').
Proof.
  intros E [Hr Hp H1 Hs]. unfold register_lock in E. destruct (isDraining w) eqn:Hd; [done|].
  injection E as <-. unfold drain_view, isDraining in *. simpl in *.
  rewrite !owners_cons in *. rewrite drainers_cons in H1. simpl in *.
  split; simpl; rewrite ?owners_cons, ?drainers_cons; simpl; [| |done|].
  - intros j. rewrite elem_of_union, elem_of_singleton. intros [->|Hj]; [set_solver|].
    destruct (Hr j Hj); [by left|set_solver].
  - intros j Hj%Hp. set_solver.
  - destruct (d_events _) as [[cap q]|]; [by destruct Hs as [? _]; congruence|].
    destruct Hs as (?&?&?&Hw). split_and!; try done.
    intros t [->|[->|Ht]%elem_of_cons]%elem_of_cons; [done|done|]. apply Hw. by right.
Qed.

Lemma finish_inv i r rest w w' :
  finish_lock i w = (r, w') →
  drain_inv (TFinish i :: rest) (drain_view w) →
  drain_inv (match r with Some n => [TFinishGauge i n] | None => [TReaderClose i] end ++ rest)
    (drain_view w').
Proof.
  intros E [Hr Hp H1 Hs]. unfold finish_lock, drain_view in *. simpl in *.
  rewrite owners_cons in Hr, Hp. rewrite drainers_cons in H1. simpl in Hr, Hp, H1.
  destruct (h_drain (w_hub w)) as [dr ev pend] eqn:Hdr. simpl in *. destruct ev as [[cap q]|].
  - destruct Hs as (->&Hcl&Hdn&Hlen&Hw). simpl in E.
    assert (Hdn' : TDrain ∉ rest) by (intros ?; apply Hdn; by right).
    destruct (bool_decide (i ∈ pend)) eqn:Hi; injection E as <- <-; simpl.
    + apply bool_decide_eq_true in Hi.
      split; simpl; rewrite ?owners_cons, ?senders_cons, ?drainers_cons; simpl; [| |done|].
      * rewrite Hcl. by intros j ?%not_elem_of_empty.
      * intros j [Hj Hji]%elem_of_difference.
        apply Hp, elem_of_cons in Hj as [->|?]; [|done]. destruct Hji. by apply elem_of_singleton.
      * rewrite senders_cons in Hlen. simpl in Hlen.
        rewrite size_difference, size_singleton by by apply singleton_subseteq_l.
        assert (size pend ≠ 0%nat).
        { intros Hz%size_empty_inv. by apply (not_elem_of_empty (C:=gset nat) i), Hz. }
        split_and!; [done|done|by rewrite not_elem_of_cons|lia|].
        intros t all [->|Ht]%elem_of_cons Hwt j Hj; [done|].
        destruct (Hw t all ltac:(by right) Hwt j Hj) as [?|[?|Hse]]; [|by auto|].
        -- destruct (decide (j = i)) as [->|]; [right; right; left|left].
           apply elem_of_difference. by rewrite elem_of_singleton.
        -- rewrite senders_cons in Hse. simpl in Hse. right. right. by right.
    + apply bool_decide_eq_false in Hi.
      split; simpl; rewrite ?Hdr; simpl;
        rewrite ?owners_cons, ?senders_cons, ?drainers_cons; simpl; [| |done|].
      * rewrite Hcl. by intros j ?%not_elem_of_empty.
      * intros j Hj. pose proof (Hp j Hj) as Ho. by apply elem_of_cons in Ho as [->|?].
      * split_and!; [done|done|by rewrite not_elem_of_cons|done|].
        intros t all [->|Ht]%elem_of_cons Hwt j Hj; [done|]. eapply Hw; [by right|done|done].
  - injection E as <- <-.
    split; simpl; rewrite ?Hdr; simpl;
      rewrite ?owners_cons, ?senders_cons, ?drainers_cons; simpl; [| |done|].
    + intros j Hj. destruct (Hr j Hj) as [?|Ho].
      * left. apply elem_of_union. by right.
      * apply elem_of_cons in Ho as [->|?]; [left; apply elem_of_union_l, elem_of_singleton; done|by right].
    + destruct Hs as (_&->&_). by intros j ?%not_elem_of_empty.
    + destruct Hs as (?&?&?&Hw). split_and!; try done.
      intros t [->|Ht]%elem_of_cons; [done|]. apply Hw. by right.
Qed.

Lemma finish_send_inv i rest w w' :
  finish_send i w = Some w' →
  drain_inv (TFinishSend i :: rest) (drain_view w) →
  drain_inv (TReaderClose i :: rest) (drain_view w').
Proof.
  intros E [Hr Hp H1 Hs]. unfold finish_send, drain_view in *. simpl in *.
  destruct (h_drain (w_hub w)) as [dr [[cap q]|] pend] eqn:Hdr; simpl in *; [|done].
  destruct (_ <? _)%nat; [|done]. injection E as <-. simpl.
  rewrite owners_cons in *. rewrite drainers_cons in H1. simpl in *.
  split; simpl; rewrite ?owners_cons, ?senders_cons, ?drainers_cons; simpl; [done|done|done|].
  rewrite senders_cons in Hs. destruct Hs as (?&?&Hdn&Hlen&Hw).
  split_and!; [done|done|rewrite not_elem_of_cons in *; naive_solver| |].
  - rewrite length_app. simpl in *. lia.
  - intros t all [->|Ht]%elem_of_cons Hwt j Hj; [done|].
    destruct (Hw t all ltac:(by right) Hwt j Hj) as [?|[?|Hse]]; [by auto|set_solver|].
    simpl in Hse. set_solver.
Qed.

Lemma drain_lock_inv all rest w w' :
  drain_lock w = (all, w') → drain_inv (TDrain :: rest) (drain_view w) →
  drain_inv (TDrainBroker all :: rest) (drain_view w').
Proof.
  intros E [Hr Hp H1 Hs]. unfold drain_lock, drain_view in *. injection E as <- <-. simpl in *.
  rewrite owners_cons in *. rewrite drainers_cons in H1. simpl in *.
  assert (Hdn : TDrain ∉ rest).
  { intros Hin. apply (drainers_none rest) in Hin; [done|lia]. }
  destruct (d_events _) as [[cap q]|]; [destruct Hs as (_&_&Hd&_); destruct Hd; by left|].
  destruct Hs as (_&_&Hse&Hw). rewrite senders_cons in Hse. simpl in Hse.
  split; simpl; rewrite ?owners_cons, ?senders_cons, ?drainers_cons; simpl; [| |done|].
  - set_solver.
  - intros i Hi. destruct (Hr i); [set_solver|set_solver|done].
  - rewrite Hse. split_and!; [done|done|by rewrite not_elem_of_cons|simpl; lia|].
    intros t all' [->|Ht]%elem_of_cons Hwt j Hj; simpl in Hwt; simplify_eq; [by left|].
    by rewrite Hw in Hwt by by right.
Qed.

Lemma drain_receive_inv pending pending' rest w w' :
  drain_receive pending w = Some (pending', w') →
  drain_inv (TDrainWait pending :: rest) (drain_view w) →
  drain_inv (TDrainWait pending' :: rest) (drain_view w').
Proof.
  intros E [Hr Hp H1 Hs]. unfold drain_receive, drain_view in *. simpl in *.
  destruct (h_drain (w_hub w)) as [dr [[cap [|i q]]|] pend] eqn:Hdr; simpl in *; [done| |done].
  injection E as <- <-. simpl. rewrite owners_cons in *. rewrite drainers_cons in H1. simpl in *.
  assert (Hone : ∀ t, t ∈ rest → waiting t = None).
  { intros t Ht. apply (drainers_none rest) in Ht; [by destruct t|lia]. }
  split; simpl; rewrite ?owners_cons, ?senders_cons, ?drainers_cons; simpl; [done|done|done|].
  rewrite senders_cons in Hs. destruct Hs as (?&?&Hdn&Hlen&Hw).
  split_and!; [done|done|rewrite not_elem_of_cons in *; naive_solver|simpl in *; lia|].
  intros t all [->|Ht]%elem_of_cons Hwt j Hj; simpl in Hwt; simplify_eq; [|by rewrite Hone in Hwt].
  apply elem_of_difference in Hj as [Hj Hji].
  destruct (Hw (TDrainWait pending) pending ltac:(by left) eq_refl j Hj) as [?|[Hq|?]]; [by auto| |by auto].
  apply elem_of_cons in Hq as [->|?]; [set_solver|by auto].
Qed.

(** ** Operations that leave the view alone *)

Lemma queueBroker_view e m w : drain_view (queueBrokerMessage e m w) = drain_view w.
Proof. unfold queueBrokerMessage. by repeat case_match. Qed.

Lemma publish_send_view pick e m w b w' :
  publish_send pick e m w = Some (b, w') → drain_view w' = drain_view w.
Proof.
  unfold publish_send. repeat case_match; intros [= <- <-]; [|done]. by rewrite queueBroker_view.
Qed.

Lemma persist_view d m w m' w' :
  persist_notification d m w = (m', w') → drain_view w' = drain_view w.
Proof. unfold persist_notification. case_match. case_match. by intros [= <- <-]. Qed.

Lemma remember_view e w b w' : rememberBrokerEvent e w = (b, w') → drain_view w' = drain_view w.
Proof. unfold rememberBrokerEvent. case_match; [|case_match]; by intros [= <- <-]. Qed.

Lemma remote_send_view pick m w : drain_view (remote_send pick m w) = drain_view w.
Proof. unfold remote_send. by repeat case_match. Qed.

Lemma closeForShutdown_view i w : drain_view (closeForShutdown i w) = drain_view w.
Proof. unfold closeForShutdown. by case_match. Qed.

Lemma stopBroker_view w : drain_view (stopBroker w) = drain_view w.
Proof. unfold stopBroker. by case_match. Qed.

Lemma write_view ok i w b w' : write_one ok i w = Some (b, w') → drain_view w' = drain_view w.
Proof. unfold write_one. repeat case_match; by intros [= <- <-]. Qed.

Lemma same_view_inv t ts rest w w' :
  drain_view w' = drain_view w → passes_on t ts →
  drain_inv (t :: rest) (drain_view w) → drain_inv (ts ++ rest) (drain_view w').
Proof. intros ->. apply passes_on_inv. Qed.

Ltac in_list Hin :=
  repeat (apply elem_of_cons in Hin as [Hin|Hin];
          [try discriminate Hin; try (subst; simplify_eq/=; done)|]);
  try by apply not_elem_of_nil in Hin.

Ltac solve_passes :=
  unfold passes_on, owners, senders, drainers; simpl; split_and!;
  [ intros ? ?; simplify_eq/=; by repeat (left || right)
  | done
  | intros ?t' ?all ?Hin ?Hw; in_list Hin
  | intros ?Hin; in_list Hin
  | lia ].

(** The goroutines of a client's reader keep their owner. *)
Lemma passes_resume m k b : passes_on (TSend m k) (resume k b).
Proof. destruct k, b; solve_passes. Qed.
Lemma passes_resume_check m k b : passes_on (TCheck m k) (resume k b).
Proof. destruct k, b; solve_passes. Qed.
Lemma passes_check_send m k : passes_on (TCheck m k) [TSend m k].
Proof. destruct k; solve_passes. Qed.

Lemma passes_spawn t w w' :
  owner t = None → sending t = None → drains t = false →
  passes_on t (TRun :: spawn_leave w w').
Proof. intros Ho Hs Hd. unfold spawn_leave. destruct (_ && _); unfold passes_on; rewrite Ho, Hs; solve_passes. Qed.

(** ** Every step keeps the accounting *)

#[local] Hint Resolve queueBroker_view publish_send_view persist_view remember_view
  remote_send_view closeForShutdown_view stopBroker_view write_view : hub_view.
#[local] Hint Resolve passes_resume passes_resume_check passes_check_send : hub_view.

(** A step that neither touches the view nor loses an obligation. *)
Ltac keeps_view :=
  eapply same_view_inv; [..|eassumption];
  [solve [done | eauto with hub_view]
  |solve [eauto with hub_view | repeat case_match; solve_passes]].

Lemma run_step_drain t w ts w' rest :
  run_step t w ts w' →
  drain_inv (t :: rest) (drain_view w) → drain_inv (ts ++ rest) (drain_view w').
Proof.
  intros [] Hinv; [keeps_view..| |]; subst;
    (eapply shrinks_inv; [|eapply passes_on_inv; [|exact Hinv]; by apply passes_spawn]).
  - apply fanout_shrinks.
  - apply disconnect_shrinks.
Qed.

Lemma reader_step_drain t w ts w' rest :
  reader_step t w ts w' →
  drain_inv (t :: rest) (drain_view w) → drain_inv (ts ++ rest) (drain_view w').
Proof.
  intros [] Hinv; try keeps_view.
  - by eapply finish_inv.
  - by eapply finish_send_inv.
Qed.

Lemma drain_step_drain t w ts w' rest :
  drain_step t w ts w' →
  drain_inv (t :: rest) (drain_view w) → drain_inv (ts ++ rest) (drain_view w').
Proof.
  intros [] Hinv; try keeps_view.
  - by eapply drain_lock_inv.
  - by eapply drain_receive_inv.
Qed.

Lemma thread_step_drain t w ts w' rest :
  thread_step t w ts w' →
  drain_inv (t :: rest) (drain_view w) → drain_inv (ts ++ rest) (drain_view w').
Proof.
  intros [St|St|St|St|St|St|St|St|St] Hinv;
    eauto using run_step_drain, reader_step_drain, drain_step_drain;
    destruct St; try keeps_view.
  - by eapply register_inv.
  - eapply same_view_inv; [..|exact Hinv]; [|solve_passes].
    etransitivity; [|by eapply remember_view]. done.
Qed.

Lemma handoff_drain i rest v :
  drain_inv (TUnregSend i :: TRun :: rest) v → drain_inv (TFinish i :: TRunUnreg i :: rest) v.
Proof.
  intros Hinv.
  assert (H1 : drain_inv ([TFinish i] ++ TRun :: rest) v).
  { eapply passes_on_inv; [|done]. solve_passes. }
  eapply drain_inv_perm; [apply Permutation_swap|].
  apply (passes_on_inv TRun [TRunUnreg i]); [solve_passes|].
  eapply drain_inv_perm; [apply Permutation_swap|done].
Qed.

Lemma step_drain s s' :
  step s s' → drain_inv (pool s) (drain_view (world s)) → drain_inv (pool s') (drain_view (world s')).
Proof.
  intros [t ts rest p w w' Hp Ht|i rest p w Hp|i c p w Hi Hc] Hinv; simpl in *.
  - eapply thread_step_drain; [done|]. by eapply drain_inv_perm.
  - apply handoff_drain. by eapply drain_inv_perm.
  - destruct Hinv as [Hr Hp H1 Hs]. unfold drain_view in *. simpl in *.
    split; simpl; rewrite ?owners_cons, ?senders_cons, ?drainers_cons; simpl; [done..|].
    destruct (d_events _) as [[cap q]|].
    + destruct Hs as (?&?&?&?&Hw). split_and!; [done|done| |done|].
      * intros Hin. by in_list Hin.
      * intros t all Hin Hwt. in_list Hin. eauto.
    + destruct Hs as (?&?&?&Hw). split_and!; [done..|]. intros t Hin. in_list Hin. auto.
Qed.

Lemma initial_drain (db : S) fanout :
  drain_inv (pool (initial db fanout)) (drain_view (world (initial db fanout))).
Proof.
  unfold initial, startBroker, drain_view. destruct fanout; simpl; (split; simpl;
    [set_solver|set_solver|unfold drainers; simpl; lia|]);
    (split_and!; [done|done|done|]; intros t Hin; in_list Hin).
Qed.

Lemma reachable_drain (db : S) fanout s :
  reachable db fanout s → drain_inv (pool s) (drain_view (world s)).
Proof.
  intros Hr. unfold reachable in Hr. remember (initial db fanout) as s0 eqn:E.
  assert (Hs0 : drain_inv (pool s0) (drain_view (world s0))) by (subst; apply initial_drain).
  clear E. induction Hr as [|s1 s2 s3 H12 H23 IH]; [done|]. apply IH. by eapply step_drain.
Qed.

(** [drain] sized the channel for every client it waits for. *)
Lemma sender_has_room p w i :
  drain_inv p (drain_view w) → i ∈ senders p → is_Some (finish_send i w).
Proof.
  intros [_ _ _ Hst] Hin. unfold drain_view in Hst. simpl in Hst. unfold finish_send.
  destruct (d_events _) as [[cap q]|].
  - destruct Hst as (_&_&_&Hlen&_). destruct (_ <? _)%nat eqn:E; [eauto|].
    apply Nat.ltb_ge in E. destruct (senders p); [by apply not_elem_of_nil in Hin|].
    simpl in Hlen. lia.
  - destruct Hst as (_&_&Hs&_). rewrite Hs in Hin. by apply not_elem_of_nil in Hin.
Qed.

(** What [drain] waits for: a client is in the channel, or owed by a goroutine. *)
Definition drain_queue w : list nat := from_option snd [] (d_events (h_drain (w_hub w))).

Lemma waiting_accounted p w t all i :
  drain_inv p (drain_view w) → t ∈ p → waiting t = Some all → i ∈ all →
  i ∈ drain_queue w ∨ i ∈ senders p ∨ i ∈ d_pending (h_drain (w_hub w)) ∧ i ∈ owners p.
Proof.
  intros [_ Hp _ Hst] Ht Hwt Hi. unfold drain_view, drain_queue in *. simpl in *.
  destruct (d_events _) as [[cap q]|].
  - destruct Hst as (_&_&_&_&Hw). destruct (Hw t all Ht Hwt i Hi) as [?|[?|?]]; [|by auto..].
    right. right. split; [done|by apply Hp].
  - destruct Hst as (_&_&_&Hw). by rewrite (Hw t Ht) in Hwt.
Qed.

(** ** Draining is for ever *)

Lemma view_draining w w' : drain_view w' = drain_view w → isDraining w' = isDraining w.
Proof. unfold drain_view, isDraining. by intros [= _ _ ->]. Qed.

Lemma shrinks_draining w w' : shrinks w w' → isDraining w' = isDraining w.
Proof. unfold isDraining. by intros (_&_&->). Qed.

Lemma finish_draining i r w w' : finish_lock i w = (r, w') → isDraining w' = isDraining w.
Proof. unfold finish_lock, isDraining. repeat case_match; by intros [= <- <-]. Qed.

Lemma finish_send_draining i w w' : finish_send i w = Some w' → isDraining w' = isDraining w.
Proof. unfold finish_send, isDraining. repeat case_match; by intros [= <-]. Qed.

Lemma receive_draining pending w pending' w' :
  drain_receive pending w = Some (pending', w') → isDraining w' = isDraining w.
Proof. unfold drain_receive, isDraining. repeat case_match; by intros [= <- <-]. Qed.

Lemma thread_step_draining t w ts w' :
  thread_step t w ts w' → isDraining w = true → isDraining w' = true.
Proof.
  intros [St|St|St|St|St|St|St|St|St] Hd; destruct St; subst; try done;
    try (erewrite view_draining; [exact Hd|]; solve [eauto with hub_view]).
  - unfold register_lock in *. by rewrite Hd in *.
  - by erewrite finish_draining.
  - by erewrite finish_send_draining.
  - exact (eq_trans (shrinks_draining _ _ (fanout_shrinks _ _ _)) Hd).
  - by rewrite (shrinks_draining _ _ (disconnect_shrinks _ _)).
  - erewrite view_draining; [exact Hd|]. etransitivity; [|by eapply remember_view]. done.
  - unfold drain_lock in *. by simplify_eq.
  - by erewrite receive_draining.
Qed.

Lemma steps_draining s s' :
  rtc step s s' → isDraining (world s) = true → isDraining (world s') = true.
Proof.
  induction 1 as [|s1 s2 s3 Hstep _ IH]; [done|]. intros Hd. apply IH.
  destruct Hstep; simpl in *; [by eapply thread_step_draining|done|done].
Qed.

(** ** Entries of [finished] that nothing removes *)

(** A client that is gone but still recorded as finished. *)
Definition leaked (i : nat) w : Prop :=
  i ∈ h_finished (w_hub w) ∧ i ∉ h_clients (w_hub w).

Lemma leaked_view i w w' : drain_view w' = drain_view w → leaked i w → leaked i w'.
Proof. unfold drain_view, leaked. by intros [= -> -> _]. Qed.

Lemma leaked_disconnect i j w : leaked i w → leaked i (disconnectClientLocked j w).
Proof.
  intros [Hf Hc]. unfold disconnectClientLocked. case_decide as Hj; [|done].
  assert (i ≠ j) by (intros ->; done).
  destruct (w_clients w !! j) as [c|]; [|done]. cbv zeta. set (w1 := put_client _ _ _).
  assert (Hw1 : leaked i w1) by (unfold leaked, w1; simpl; set_solver).
  case_decide; [done|]. unfold queueLeaveNotification. by destruct (_ <? _)%nat.
Qed.

Lemma leaked_fanout i m order w : leaked i w → leaked i (fanout_all order m w).
Proof.
  unfold fanout_all. revert w. induction order as [|j order IH]; intros w Hl; [done|]. apply IH.
  unfold fanout_step. destruct (w_clients w !! j) as [c|]; [|done]. destruct (_ && _); [done|].
  destruct (enqueue c m) as [[] c']; [done|]. by apply leaked_disconnect.
Qed.

Lemma thread_step_leaked i t w ts w' :
  thread_step t w ts w' → t ≠ TRegister i → leaked i w → leaked i w' ∧ TRegister i ∉ ts.
Proof.
  intros Hstep Ht Hl. split.
  - destruct Hstep as [St|St|St|St|St|St|St|St|St]; destruct St; subst; try done;
      try (eapply leaked_view; [|exact Hl]; solve [eauto with hub_view]).
    + unfold register_lock in *. destruct (isDraining w); simplify_eq. unfold leaked in *. simpl.
      assert (i ≠ i0) by congruence. set_solver.
    + unfold finish_lock, leaked in *. repeat case_match; simplify_eq; simpl; set_solver.
    + unfold finish_send, leaked in *. repeat case_match; by simplify_eq.
    + by apply leaked_fanout.
    + by apply leaked_disconnect.
    + eapply leaked_view; [|exact Hl]. etransitivity; [|by eapply remember_view]. done.
    + unfold drain_lock, leaked in *. simplify_eq. simpl. set_solver.
    + unfold drain_receive, leaked in *. repeat case_match; by simplify_eq.
  - destruct Hstep as [St|St|St|St|St|St|St|St|St]; destruct St; unfold spawn_leave, resume;
      repeat case_match; intros Hin; in_list Hin.
Qed.

End drain.
