(* ===== verification/HubProgress.v ===== *)
(** What a shutdown can still do: from every reachable state in which [drain]
    waits, the system can go on so that every client reports itself finished and
    [drain] completes without its deadline. *)
From S2P Require Import Prelude.
From S2P Require Import GoUnicode.
From S2P Require Import GoString.
From S2P Require Import GoTime.
From S2P Require Import Metrics.
From S2P Require Import Rooms.
From S2P Require Import Events.
From S2P Require Import Storage.
From S2P Require Import Client.
From S2P Require Import Hub.
From S2P Require Import HubFacts.
From S2P Require Import HubSystem.
From S2P Require Import HubInvariant.
From S2P Require Import HubDrain.

Section progress.
Context `{RateLimiter} {S : Type} `{Repository S}.
Notation W := (World (S:=S)).
Notation St := (State (S:=S)).
Implicit Types (w : W) (s : St) (p ts : list thread).

(** ** Possible continuations *)

(** Some continuation of [s] reaches [P]. *)
Definition can (P : St → Prop) s : Prop := ∃ s', rtc step s s' ∧ P s'.

Lemma can_now (P : St → Prop) s : P s → can P s.
Proof. intros Hp. exists s. split; [apply rtc_refl|done]. Qed.

Lemma can_bind (P Q : St → Prop) s :
  can P s → (∀ s', rtc step s s' → P s' → can Q s') → can Q s.
Proof.
  intros (s1&H1&Hp) HQ. destruct (HQ s1 H1 Hp) as (s2&H2&Hq). exists s2.
  split; [by etransitivity|done].
Qed.

Lemma can_step (P : St → Prop) s s' : step s s' → can P s' → can P s.
Proof. intros Hs (s2&H2&Hp). exists s2. split; [by eapply rtc_l|done]. Qed.

(** A goroutine of the pool acts; the others stay where they are. *)
Lemma act t s ts w' :
  t ∈ pool s → thread_step t (world s) ts w' →
  ∃ s', step s s' ∧ world s' = w' ∧ (∀ u, u ∈ ts → u ∈ pool s')
        ∧ ∀ u, u ∈ pool s → u ≠ t → u ∈ pool s'.
Proof.
  destruct s as [p w]. simpl. intros [rest Hp]%elem_of_Permutation Ht.
  exists (mk_state (ts ++ rest) w'). split_and!; [by eapply step_thread|done|..]; simpl.
  - intros u Hu. apply elem_of_app. by left.
  - intros u. rewrite Hp, elem_of_cons, elem_of_app. naive_solver.
Qed.

(** ** The hub's loop runs until the hub is done *)

Definition hub_done w : bool := h_done (w_hub w).
Definition running (t : thread) : bool :=
  match t with TRun | TRunFan _ | TRunUnreg _ => true | _ => false end.
Definition run_alive s : Prop := hub_done (world s) = true ∨ ∃ t, t ∈ pool s ∧ running t = true.

Ltac same_done := intros; repeat case_match; simplify_eq/=; done.

Lemma done_queueBroker e m w : hub_done (queueBrokerMessage e m w) = hub_done w.
Proof. unfold queueBrokerMessage. same_done. Qed.
Lemma done_publish pick e m w b w' : publish_send pick e m w = Some (b, w') → hub_done w' = hub_done w.
Proof. unfold publish_send. repeat case_match; intros; simplify_eq/=; [by rewrite done_queueBroker|done]. Qed.
Lemma done_persist d m w m' w' : persist_notification d m w = (m', w') → hub_done w' = hub_done w.
Proof. unfold persist_notification. same_done. Qed.
Lemma done_register i w b w' : register_lock i w = (b, w') → hub_done w' = hub_done w.
Proof. unfold register_lock. same_done. Qed.
Lemma done_close i w : hub_done (closeForShutdown i w) = hub_done w.
Proof. unfold closeForShutdown. same_done. Qed.
Lemma done_disconnect i w : hub_done (disconnectClientLocked i w) = hub_done w.
Proof. unfold disconnectClientLocked, queueLeaveNotification. same_done. Qed.
Lemma done_fanout m order w : hub_done (fanout_all order m w) = hub_done w.
Proof.
  unfold fanout_all. revert w. induction order as [|i order IH]; intros w; [done|]. simpl.
  rewrite IH. unfold fanout_step. destruct (w_clients w !! i) as [c|]; [|done].
  destruct (_ && _); [done|]. destruct (enqueue c m) as [[] c']; [done|].
  exact (done_disconnect i (count WSOutboundDrops "slow_client" w)).
Qed.
Lemma done_write ok i w b w' : write_one ok i w = Some (b, w') → hub_done w' = hub_done w.
Proof. unfold write_one. same_done. Qed.
Lemma done_finish i w r w' : finish_lock i w = (r, w') → hub_done w' = hub_done w.
Proof. unfold finish_lock. same_done. Qed.
Lemma done_finish_send i w w' : finish_send i w = Some w' → hub_done w' = hub_done w.
Proof. unfold finish_send. same_done. Qed.
Lemma done_remember e w b w' : rememberBrokerEvent e w = (b, w') → hub_done w' = hub_done w.
Proof. unfold rememberBrokerEvent. same_done. Qed.
Lemma done_remote pick m w : hub_done (remote_send pick m w) = hub_done w.
Proof. unfold remote_send. same_done. Qed.
Lemma done_lock w all w' : drain_lock w = (all, w') → hub_done w' = hub_done w.
Proof. unfold drain_lock. same_done. Qed.
Lemma done_stopBroker w : hub_done (stopBroker w) = hub_done w.
Proof. unfold stopBroker. same_done. Qed.
Lemma done_receive pending w pending' w' :
  drain_receive pending w = Some (pending', w') → hub_done w' = hub_done w.
Proof. unfold drain_receive. same_done. Qed.

#[local] Hint Resolve done_publish done_persist done_register done_write done_finish
  done_finish_send done_lock done_receive done_close done_disconnect done_remote
  done_stopBroker : hub_done.

Lemma thread_step_alive t w ts w' :
  thread_step t w ts w' →
  (hub_done w = true → hub_done w' = true)
  ∧ (running t = true → hub_done w' = true ∨ ∃ u, u ∈ ts ∧ running u = true).
Proof.
  intros Hstep. split.
  - intros Hd. destruct Hstep as [St|St|St|St|St|St|St|St|St]; destruct St; subst; try done;
      lazymatch goal with
      | Hd : hub_done ?v = true |- hub_done ?v' = true =>
        enough (E : hub_done v' = hub_done v) by (rewrite E; exact Hd)
      end; eauto with hub_done.
    + exact (done_fanout _ _ _).
    + etransitivity; [|by eapply done_remember]. done.
    + by eapply done_remember.
  - intros Hrun. destruct Hstep as [St|St|St|St|St|St|St|St|St]; destruct St; try discriminate Hrun.
    + by left.
    + right. eexists. split; [by left|done].
    + right. eexists. split; [by left|done].
    + right. eexists. split; [by left|done].
Qed.

Lemma initial_alive (db : S) fanout : run_alive (initial db fanout).
Proof. right. exists TRun. split; [by left|done]. Qed.

Lemma step_alive s s' : step s s' → run_alive s → run_alive s'.
Proof.
  unfold run_alive. intros [t ts rest p w w' Hp Ht|i rest p w Hp|i c p w Hi Hc]; simpl.
  - destruct (thread_step_alive _ _ _ _ Ht) as [Hd Hrun]. intros [?|(u&Hu&Hr)]; [by auto|].
    rewrite Hp in Hu. apply elem_of_cons in Hu as [->|Hu].
    + destruct (Hrun Hr) as [?|(u&Hu&Hr')]; [by left|right]. exists u. rewrite elem_of_app. auto.
    + right. exists u. rewrite elem_of_app. auto.
  - intros [?|_]; [by left|right]. exists (TRunUnreg i). split; [right; by left|done].
  - intros [?|(u&Hu&Hr)]; [by left|right]. exists u. split; [by do 2 right|done].
Qed.

(** ** One client's way out *)
Context `{!RoomScoped S} (db : S) (fanout : option string).

Definition live s : Prop := reachable db fanout s.

Lemma live_steps s s' : live s → rtc step s s' → live s'.
Proof. unfold live, reachable. intros. by etransitivity. Qed.

Lemma live_alive s : live s → run_alive s.
Proof.
  intros Hr. unfold live, reachable in Hr. remember (initial db fanout) as s0 eqn:E.
  assert (Hs0 : run_alive s0) by (subst; apply initial_alive). clear E.
  induction Hr as [|s1 s2 s3 H12 _ IH]; [done|]. apply IH. by eapply step_alive.
Qed.

(** The loop comes back to its select. *)
Lemma run_ready s :
  live s → hub_done (world s) = false →
  can (λ s', TRun ∈ pool s' ∧ hub_done (world s') = false
             ∧ ∀ u, u ∈ pool s → running u = false → u ∈ pool s') s.
Proof.
  intros Hl Hd. destruct (live_alive s Hl) as [?|(t&Ht&Hr)]; [congruence|].
  destruct t; try discriminate Hr; [by apply can_now| |].
  - edestruct (act (TRunUnreg i) s) as (s1&Hs&Hw&Hin&Hk); [done|by apply by_run, run_unregister|].
    eapply can_step; [done|]. apply can_now. split_and!; [apply Hin; by left| |].
    + by rewrite Hw, done_disconnect.
    + intros u Hu Hn. apply Hk; [done|]. by intros ->.
  - edestruct (act (TRunFan m) s) as (s1&Hs&Hw&Hin&Hk);
      [done|by eapply by_run, (run_fanout m (elements (h_clients (w_hub (world s)))))|].
    eapply can_step; [done|]. apply can_now. split_and!; [apply Hin; by left| |].
    + rewrite Hw. etransitivity; [apply done_fanout|done].
    + intros u Hu Hn. apply Hk; [done|]. by intros ->.
Qed.

(** [t] is in the pool, and so is the waiting [drain]. *)
Definition both (pending : gset nat) (t : thread) s : Prop :=
  t ∈ pool s ∧ TDrainWait pending ∈ pool s.

Lemma both_step pending t s ts w' t' (P : St → Prop) :
  both pending t s → t ≠ TDrainWait pending → thread_step t (world s) ts w' → t' ∈ ts → live s →
  (∀ s', live s' → world s' = w' → both pending t' s' → can P s') → can P s.
Proof.
  intros [Ht Hd] Hne Hstep Hin Hl HP. destruct (act t s ts w' Ht Hstep) as (s1&Hs&Hw&Hi&Hk).
  eapply can_step; [done|]. apply HP; [|done|split; [by apply Hi|by apply Hk]].
  eapply live_steps; [done|by apply rtc_once].
Qed.

Section exit.
Variable pending : gset nat.
Variable i : nat.
Notation finishing := (can (both pending (TFinish i))).

Lemma unreg_send_finishes s : live s → both pending (TUnregSend i) s → finishing s.
Proof.
  intros Hl Hb. destruct (hub_done (world s)) eqn:Hd.
  - eapply (both_step _ _ _ _ _ (TFinish i)); [done|done|by apply by_reader, reader_unregister_abandoned
      |by left|done|]. intros s1 _ _ Hb1. by apply can_now.
  - eapply can_bind; [by apply run_ready|]. intros [p w] _ (Hrun&_&Hk). simpl in *.
    destruct Hb as [Hu%Hk Hdr%Hk]; [|done..].
    apply elem_of_Permutation in Hrun as [rest Hp].
    assert (Hu' : TUnregSend i ∈ rest) by (rewrite Hp in Hu; by apply elem_of_cons in Hu as [?|?]).
    apply elem_of_Permutation in Hu' as [rest' Hp'].
    eapply can_step; [apply (step_unregister i rest')|apply can_now].
    + by rewrite Hp, Hp', Permutation_swap.
    + split; [by left|]. simpl in *. rewrite Hp, Hp' in Hdr.
      do 2 (apply elem_of_cons in Hdr as [?|Hdr]; [done|]). by do 2 right.
Qed.

Lemma unreg_check_finishes s : live s → both pending (TUnregCheck i) s → finishing s.
Proof.
  intros Hl Hb. destruct (hub_done (world s)) eqn:Hd.
  - eapply (both_step _ _ _ _ _ (TFinish i)); [done|done|by apply by_reader, reader_unregister_done
      |by left|done|]. intros s1 _ _ Hb1. by apply can_now.
  - eapply (both_step _ _ _ _ _ (TUnregSend i)); [done|done|by apply by_reader, reader_unregister
      |by left|done|]. intros s1 Hl1 _. by apply unreg_send_finishes.
Qed.

Lemma exit_finishes s : live s → both pending (TReaderExit i) s → finishing s.
Proof.
  intros Hl Hb. eapply (both_step _ _ _ _ _ (TUnregCheck i));
    [done|done|apply by_reader, reader_exit|by left|done|].
  intros s1 Hl1 _. by apply unreg_check_finishes.
Qed.

Lemma reader_finishes s : live s → both pending (TReader i) s → finishing s.
Proof.
  intros Hl Hb. eapply (both_step _ _ _ _ _ (TReaderExit i));
    [done|done|apply by_reader, reader_error|by left|done|].
  intros s1 Hl1 _. by apply exit_finishes.
Qed.

Lemma serve_finishes s : live s → both pending (TServe i) s → finishing s.
Proof.
  intros Hl Hb. eapply (both_step _ _ _ _ _ (TReader i));
    [done|done|apply by_reader, reader_start|by left|done|].
  intros s1 Hl1 _. by apply reader_finishes.
Qed.

(** A publish can end, whether the hub is done or its loop takes a message. *)
Lemma resumed_finishes k b s :
  (k = KJoin i ∨ k = KRead i) → live s →
  (∀ t, t ∈ resume k b → both pending t s) → finishing s.
Proof.
  intros [-> | ->] Hl Hb; [|destruct b]; simpl in Hb.
  - apply serve_finishes; [done|]. apply Hb. by left.
  - apply reader_finishes; [done|]. apply Hb. by left.
  - apply exit_finishes; [done|]. apply Hb. by left.
Qed.

Lemma resume_step m k b s t w' :
  (k = KJoin i ∨ k = KRead i) → live s → both pending t s → t ∈ [TCheck m k; TSend m k] →
  thread_step t (world s) (resume k b) w' → finishing s.
Proof.
  intros Hk Hl [Ht Hd] Hin Hstep. destruct (act _ _ _ _ Ht Hstep) as (s1&Hs&_&Hi&Hkeep).
  eapply can_step; [done|]. eapply (resumed_finishes k b); [done|by eapply live_steps, rtc_once|].
  intros u Hu. split; [by apply Hi|]. apply Hkeep; [done|]. intros <-.
  apply elem_of_cons in Hin as [?|Hin%list_elem_of_singleton]; done.
Qed.

Lemma send_room_finishes m k s :
  (k = KJoin i ∨ k = KRead i) → live s → both pending (TSend m k) s →
  is_Some (publish_send true "" m (world s)) → finishing s.
Proof.
  intros Hk Hl Hb [[b w'] Hp]. eapply (resume_step m k b _ (TSend m k)); [done..|right; by left|].
  by eapply by_publish, publish_selected.
Qed.

Lemma publish_some m w :
  hub_done w = true ∨ (length (h_broadcast (w_hub w)) < broadcastQueueSize)%nat →
  is_Some (publish_send true "" m w).
Proof.
  unfold publish_send, hub_done. intros Hd. destruct (_ && _) eqn:E; [eauto|].
  destruct (h_done (w_hub w)) eqn:Hdone; [eauto|]. destruct Hd as [?|Hlt%Nat.ltb_lt]; [done|].
  by rewrite Hlt in E.
Qed.

Lemma send_finishes m k s :
  (k = KJoin i ∨ k = KRead i) → live s → both pending (TSend m k) s → finishing s.
Proof.
  intros Hk Hl Hb. destruct (hub_done (world s)) eqn:Hd.
  { apply (send_room_finishes m k); [done..|]. apply publish_some. by left. }
  eapply can_bind; [by apply run_ready|]. intros s1 H1 (Hrun&_&Hkeep).
  assert (Hl1 : live s1) by by eapply live_steps.
  assert (Hb1 : both pending (TSend m k) s1) by (split; apply Hkeep; [apply Hb|done|apply Hb|done]).
  destruct (reachable_inv db fanout s1 Hl1) as [Hw _]. destruct (wi_broadcast _ Hw) as [_ Hlen].
  destruct (h_broadcast (w_hub (world s1))) as [|m' q] eqn:Hq.
  { apply (send_room_finishes m k); [done..|]. apply publish_some. right. rewrite Hq. simpl.
    unfold broadcastQueueSize. lia. }
  edestruct (act TRun s1) as (s2&Hs&Hw2&_&Hk2); [done|by apply by_run, run_receive|].
  eapply can_step; [done|]. apply (send_room_finishes m k); [done| |split; apply Hk2; [apply Hb1|done|apply Hb1|done]|].
  - by eapply live_steps, rtc_once.
  - apply publish_some. right. rewrite Hw2. simpl in *. lia.
Qed.

Lemma check_finishes m k s :
  (k = KJoin i ∨ k = KRead i) → live s → both pending (TCheck m k) s → finishing s.
Proof.
  intros Hk Hl Hb. destruct (publish_check (world s)) eqn:Hc.
  - eapply (both_step _ _ _ _ _ (TSend m k)); [done|done|by apply by_publish, publish_go|by left|done|].
    intros s1 Hl1 _. by apply send_finishes.
  - eapply (resume_step m k false _ (TCheck m k)); [done..|by left|]. by apply by_publish, publish_stopped.
Qed.

Lemma join_finishes s : live s → both pending (TJoin i) s → finishing s.
Proof.
  intros Hl Hb. destruct (reachable_inv db fanout s Hl) as [_ Ht]. rewrite Forall_forall in Ht.
  destruct (Ht _ (proj1 Hb)) as [c Hc].
  set (d := mk_call zero_time 0 None NoEffect).
  destruct (persist_notification d (join_notification c) (world s)) as [m w'] eqn:E.
  eapply (both_step _ _ _ _ _ (TCheck m (KJoin i)));
    [done|done|by eapply by_register, register_joined|by left|done|].
  intros s1 Hl1 _. apply check_finishes; [by left|done].
Qed.

(** Whatever a client's goroutine does, it can come to [notifyClientFinished]. *)
Lemma owner_finishes s t : live s → both pending t s → owner t = Some i → finishing s.
Proof.
  intros Hl Hb Ho. destruct t; try discriminate Ho; try (destruct k; try discriminate Ho);
    injection Ho as ->;
    eauto using join_finishes, check_finishes, send_finishes, serve_finishes, reader_finishes,
      exit_finishes, unreg_check_finishes, unreg_send_finishes, can_now.
Qed.

(** ** The notification *)
Notation notified := (can (λ s, TDrainWait pending ∈ pool s ∧ i ∈ drain_queue (world s))).

Lemma sent_notified s : live s → both pending (TFinishSend i) s → notified s.
Proof.
  intros Hl [Ht Hd].
  destruct (sender_has_room (pool s) (world s) i) as [w' E].
  { by eapply reachable_drain. }
  { apply list_elem_of_omap. by exists (TFinishSend i). }
  edestruct (act (TFinishSend i) s) as (s1&Hs&Hw&_&Hk); [done|by eapply by_reader, reader_finish_send|].
  eapply can_step; [done|]. apply can_now. split; [by apply Hk|]. rewrite Hw.
  revert E. unfold finish_send, drain_queue. destruct (d_events _) as [[cap q]|]; [|done].
  destruct (_ <? _)%nat; [|done]. intros [= <-]. simpl. apply elem_of_app. right. by left.
Qed.

Lemma sender_notified s t : live s → both pending t s → sending t = Some i → notified s.
Proof.
  intros Hl Hb Hs. destruct t; try discriminate Hs; injection Hs as ->; [|by apply sent_notified].
  eapply (both_step _ _ _ _ _ (TFinishSend i));
    [done|done|apply by_reader, reader_finish_gauge|by left|done|].
  intros s1 Hl1 _. by apply sent_notified.
Qed.

Lemma finish_notified s : live s → both pending (TFinish i) s → i ∈ pending → notified s.
Proof.
  intros Hl Hb Hi. pose proof (reachable_drain db fanout s Hl) as Hinv.
  destruct (waiting_accounted _ _ _ pending i Hinv (proj2 Hb) eq_refl Hi) as [Hq|[Hs|[Hp _]]].
  - apply can_now. split; [apply Hb|done].
  - apply list_elem_of_omap in Hs as (t&Ht&Hs). eapply sender_notified; [done|split; [done|apply Hb]|done].
  - pose proof (di_state _ _ Hinv) as Hst. unfold drain_view in Hst. simpl in Hst.
    destruct (finish_lock i (world s)) as [r w'] eqn:E. pose proof E as E'. unfold finish_lock in E.
    simpl in E. destruct (d_events _) as [[cap q]|]; [|destruct Hst as (_&Hst&_); rewrite Hst in Hp; by apply not_elem_of_empty in Hp].
    destruct Hst as (Hdr&_). rewrite Hdr, bool_decide_true in E by done. simpl in E.
    injection E as <- <-.
    eapply (both_step _ _ _ _ _ (TFinishGauge i (size (d_pending (h_drain (w_hub (world s))) ∖ {[i]}))));
      [done|done|by eapply by_reader, reader_finish|by left|done|].
    intros s1 Hl1 _ Hb1. by eapply sender_notified.
Qed.

Lemma pending_notified s : live s → TDrainWait pending ∈ pool s → i ∈ pending → notified s.
Proof.
  intros Hl Hd Hi. pose proof (reachable_drain db fanout s Hl) as Hinv.
  destruct (waiting_accounted _ _ _ pending i Hinv Hd eq_refl Hi) as [Hq|[Hs|[_ Ho]]].
  - by apply can_now.
  - apply list_elem_of_omap in Hs as (t&Ht&Hs). by eapply sender_notified.
  - apply list_elem_of_omap in Ho as (t&Ht&Ho).
    eapply can_bind; [by eapply owner_finishes|]. intros s1 H1 Hb1.
    eapply finish_notified; [by eapply live_steps|done|done].
Qed.
End exit.

(** ** The drain *)

Lemma receive_next pending w j q :
  drain_queue w = j :: q →
  ∃ w', drain_receive pending w = Some (pending ∖ {[j]}, w') ∧ drain_queue w' = q.
Proof.
  unfold drain_receive, drain_queue. destruct (d_events _) as [[cap q']|]; [|done].
  simpl. intros ->. eexists. split; [done|]. done.
Qed.

Lemma received_shrinks pending i s :
  live s → TDrainWait pending ∈ pool s → i ∈ pending → i ∈ drain_queue (world s) →
  can (λ s', ∃ pending', TDrainWait pending' ∈ pool s' ∧ pending' ⊂ pending) s.
Proof.
  remember (drain_queue (world s)) as q eqn:Hq. revert s Hq.
  induction q as [|j q IH]; intros s Hq Hl Hd Hi Hin; [by apply not_elem_of_nil in Hin|].
  destruct (receive_next pending (world s) j q) as (w'&E&Hq'); [done|].
  assert (Hne : pending ≠ ∅) by (intros ->; by apply not_elem_of_empty in Hi).
  destruct (act (TDrainWait pending) s [TDrainWait (pending ∖ {[j]})] w') as (s1&Hs&Hw&Hts&_);
    [done|by eapply by_drain, drain_finished|].
  eapply can_step; [done|].
  destruct (decide (j ∈ pending)) as [Hj|Hj].
  - apply can_now. exists (pending ∖ {[j]}). split; [apply Hts; by left|set_solver].
  - assert (pending ∖ {[j]} = pending) as Heq by set_solver. rewrite Heq in Hts.
    apply IH; [by rewrite Hw|by eapply live_steps, rtc_once|apply Hts; by left|done|].
    apply elem_of_cons in Hin as [->|?]; done.
Qed.

(** From any state in which [drain] waits, it can complete without its
    deadline. *)
Lemma drain_can_complete pending s :
  live s → TDrainWait pending ∈ pool s → can (λ s', TDrainStop false ∈ pool s') s.
Proof.
  revert s. induction (set_wf pending) as [pending _ IH]. intros s Hl Hd.
  destruct (decide (pending = ∅)) as [->|Hne].
  { destruct (act (TDrainWait ∅) s [TDrainStop false] (world s)) as (s1&Hs&_&Hi&_);
      [done|apply by_drain, drain_empty|].
    eapply can_step; [done|]. apply can_now, Hi. by left. }
  apply set_choose_L in Hne as [i Hi].
  eapply can_bind; [by apply (pending_notified pending i)|]. intros s1 H1 [Hd1 Hq1].
  eapply can_bind; [by eapply received_shrinks; [eapply live_steps|..]|].
  intros s2 H2 (pending'&Hd2&Hlt). eapply IH; [done| |done].
  eapply live_steps; [|done]. by eapply live_steps.
Qed.
End progress.
