(* ===== verification/HubHistory.v ===== *)
(** History on connect: what the goroutine [sendMessageHistory] does to a client's
    stream of messages while everything else in the hub goes on. *)
From S2P Require Import Prelude.
From S2P Require Import GoUnicode.
From S2P Require Import GoString.
From S2P Require Import GoTime.
From S2P Require Import Metrics.
From S2P Require Import Rooms.
From S2P Require Import Events.
From S2P Require Import Storage.
From S2P Require Import Client.
From S2P Require Import Hub.
From S2P Require Import HubFacts.
From S2P Require Import HubSystem.
From S2P Require Import HubInvariant.

Section history.
Context `{RateLimiter} {S : Type} `{Repository S}.
Notation W := (World (S:=S)).
Notation St := (State (S:=S)).
Implicit Types (w : W) (s : St) (p ts : list thread) (c : Client) (m : Msg).

(** ** Terms *)

(** A client's stream: what was written to its socket, then what waits in its
    queue. *)
Definition received w (i : nat) : list Msg := sent w i ++ from_option c_send [] (w_clients w !! i).

(** A step with the goroutine that takes it. *)
Inductive acts : thread → St → St → Prop :=
| acts_thread t ts rest p w w' :
    p ≡ₚ t :: rest → thread_step t w ts w' → acts t (mk_state p w) (mk_state (ts ++ rest) w')
| acts_unregister i rest p w :
    p ≡ₚ TUnregSend i :: TRun :: rest →
    acts (TUnregSend i) (mk_state p w) (mk_state (TFinish i :: TRunUnreg i :: rest) w)
| acts_connect i c p w :
    w_clients w !! i = None → fresh_client c →
    acts (TRegister i) (mk_state p w) (mk_state (TRegister i :: TWriter i :: p) (put_client w i c)).

Lemma step_acts s s' : step s s' ↔ ∃ t, acts t s s'.
Proof.
  split.
  - intros []; eexists; by econstructor.
  - intros [t []]; by econstructor.
Qed.

(** The messages a run appends to client [i]'s stream, each with whether the
    client's history goroutine queued it. *)
Definition queues_history (i : nat) (t : thread) : bool :=
  match t with TBacklog j (_ :: _) => bool_decide (j = i) | _ => false end.
Definition appended (i : nat) w w' : list Msg := drop (length (received w i)) (received w' i).

Inductive deliveries (i : nat) (s : St) : list (bool * Msg) → St → Prop :=
| deliveries_none : deliveries i s [] s
| deliveries_step l s' t s'' :
    deliveries i s l s' → acts t s' s'' →
    deliveries i s (l ++ ((queues_history i t,.) <$> appended i (world s') (world s''))) s''.

Definition by_history_goroutine (l : list (bool * Msg)) : list Msg := (List.filter fst l).*2.

(** Every run has its deliveries. *)
Lemma steps_deliveries i s s' : rtc step s s' → ∃ l, deliveries i s l s'.
Proof.
  revert s'. apply (rtc_ind_r (λ s', ∃ l, deliveries i s l s')); [eexists; constructor|].
  intros s2 s3 _ [t Ht]%step_acts (l&IH). eexists. by econstructor.
Qed.

Lemma deliveries_steps i s l s' : deliveries i s l s' → rtc step s s'.
Proof.
  induction 1 as [|l s1 t s2 _ IH Ha]; [done|]. eapply rtc_r; [done|]. apply step_acts. eauto.
Qed.

(** ** Streams only grow *)

(** The client stays; while it is open, messages are only appended. *)
Definition flows (i : nat) w w' : Prop :=
  ∀ c, w_clients w !! i = Some c →
  ∃ c', w_clients w' !! i = Some c'
    ∧ (c_done c' = false → c_done c = false ∧ ∃ new, received w' i = received w i ++ new).

#[export] Instance flows_preorder i : PreOrder (flows i).
Proof.
  split.
  - intros w c Hc. exists c. split; [done|]. intros Hd. split; [done|]. exists []. by rewrite app_nil_r.
  - intros w1 w2 w3 H12 H23 c Hc. destruct (H12 c Hc) as (c2&Hc2&F12).
    destruct (H23 c2 Hc2) as (c3&Hc3&F23). exists c3. split; [done|]. intros Hd.
    destruct (F23 Hd) as (Hd2&new'&E'). destruct (F12 Hd2) as (Hd1&new&E). split; [done|].
    exists (new ++ new'). by rewrite E', E, app_assoc.
Qed.

Definition store_view w : gmap nat Client * gmap nat (list Msg) := (w_clients w, w_wire w).

Lemma flows_same i w w' : store_view w' = store_view w → flows i w w'.
Proof.
  intros [= Ec Ew] c Hc. exists c. rewrite Ec. split; [done|]. intros Hd. split; [done|].
  exists []. unfold received, sent. by rewrite Ec, Ew, app_nil_r.
Qed.

(** One client is updated: closed, or messages are queued. *)
Lemma flows_put i j w c c' :
  w_clients w !! j = Some c →
  (c_done c' = false → c_done c = false ∧ ∃ new, c_send c' = c_send c ++ new) →
  flows i w (put_client w j c').
Proof.
  intros Hc Hupd d Hd. unfold received, sent. simpl. destruct (decide (j = i)) as [->|Hne].
  - rewrite lookup_insert_eq. exists c'. split; [done|]. intros Ho. destruct (Hupd Ho) as (Ho'&new&E).
    simplify_eq. split; [done|]. exists new. rewrite Hc. simpl. by rewrite E, app_assoc.
  - rewrite lookup_insert_ne by done. exists d. split; [done|]. intros Ho. split; [done|].
    exists []. by rewrite Hd, app_nil_r.
Qed.

Lemma flows_close i j w c : w_clients w !! j = Some c → flows i w (put_client w j (close c)).
Proof. intros Hc. by eapply flows_put. Qed.

Lemma flows_enqueue i j w c m b c' :
  w_clients w !! j = Some c → enqueue c m = (b, c') → flows i w (put_client w j c').
Proof.
  intros Hc He. eapply flows_put; [done|]. apply enqueue_spec in He. destruct b.
  - destruct He as (Hd&_&->). split; [done|]. by exists [m].
  - destruct He as [-> _]. split; [done|]. exists []. by rewrite app_nil_r.
Qed.

Lemma view_queueBroker e m w : store_view (queueBrokerMessage e m w) = store_view w.
Proof. unfold queueBrokerMessage. by repeat case_match. Qed.
Lemma view_publish pick e m w b w' :
  publish_send pick e m w = Some (b, w') → store_view w' = store_view w.
Proof. unfold publish_send. repeat case_match; intros [= <- <-]; [|done]. by rewrite view_queueBroker. Qed.
Lemma view_persist d m w m' w' : persist_notification d m w = (m', w') → store_view w' = store_view w.
Proof. unfold persist_notification. case_match. case_match. by intros [= <- <-]. Qed.
Lemma view_register i w b w' : register_lock i w = (b, w') → store_view w' = store_view w.
Proof. unfold register_lock. case_match; by intros [= <- <-]. Qed.
Lemma view_finish i w r w' : finish_lock i w = (r, w') → store_view w' = store_view w.
Proof. unfold finish_lock. repeat case_match; by intros [= <- <-]. Qed.
Lemma view_finish_send i w w' : finish_send i w = Some w' → store_view w' = store_view w.
Proof. unfold finish_send. repeat case_match; by intros [= <-]. Qed.
Lemma view_remember e w b w' : rememberBrokerEvent e w = (b, w') → store_view w' = store_view w.
Proof. unfold rememberBrokerEvent. case_match; [|case_match]; by intros [= <- <-]. Qed.
Lemma view_remote pick m w : store_view (remote_send pick m w) = store_view w.
Proof. unfold remote_send. by repeat case_match. Qed.
Lemma view_drain_lock w all w' : drain_lock w = (all, w') → store_view w' = store_view w.
Proof. unfold drain_lock. by intros [= <- <-]. Qed.
Lemma view_stopBroker w : store_view (stopBroker w) = store_view w.
Proof. unfold stopBroker. by case_match. Qed.
Lemma view_receive pending w pending' w' :
  drain_receive pending w = Some (pending', w') → store_view w' = store_view w.
Proof. unfold drain_receive. repeat case_match; by intros [= <- <-]. Qed.
Lemma view_queueLeave m w : store_view (queueLeaveNotification m w) = store_view w.
Proof. unfold queueLeaveNotification. by case_match. Qed.

Lemma flows_closeForShutdown i j w : flows i w (closeForShutdown j w).
Proof. unfold closeForShutdown. destruct (w_clients w !! j) eqn:E; [by apply flows_close|done]. Qed.

Lemma flows_disconnect i j w : flows i w (disconnectClientLocked j w).
Proof.
  unfold disconnectClientLocked. case_decide; [|done].
  destruct (w_clients w !! j) as [c|] eqn:Hc; [|done]. cbv zeta. set (w1 := put_client _ _ _).
  assert (Hw1 : flows i w w1).
  { etransitivity; [apply (flows_same i w)|by eapply flows_close]. done. }
  case_decide; [done|]. etransitivity; [done|]. apply flows_same, view_queueLeave.
Qed.

Lemma flows_fanout i m order w : flows i w (fanout_all order m w).
Proof.
  unfold fanout_all. revert w. induction order as [|j order IH]; intros w; [done|]. simpl.
  etransitivity; [|apply IH]. unfold fanout_step.
  destruct (w_clients w !! j) as [c|] eqn:Hc; [|done]. destruct (_ && _); [done|].
  destruct (enqueue c m) as [[] c'] eqn:He; [by eapply flows_enqueue|].
  etransitivity; [by apply (flows_same i w (count WSOutboundDrops "slow_client" w))|apply flows_disconnect].
Qed.

Lemma flows_write i ok j w b w' : write_one ok j w = Some (b, w') → flows i w w'.
Proof.
  unfold write_one. destruct (w_clients w !! j) as [c|] eqn:Hc; [|done].
  destruct (c_send c) as [|m q] eqn:Hq; [done|]. destruct ok; intros [= <- <-].
  - intros d Hd. unfold received, sent. simpl. destruct (decide (j = i)) as [->|Hne].
    + assert (d = c) as -> by congruence. rewrite !lookup_insert_eq. eexists. split; [done|].
      simpl. intros Ho. split; [done|]. exists []. rewrite Hc. simpl. by rewrite Hq, app_nil_r, <- app_assoc.
    + rewrite !lookup_insert_ne by done. exists d. split; [done|]. intros Ho. split; [done|].
      exists []. by rewrite app_nil_r.
  - etransitivity; [|by apply (flows_same i (put_client w j (close (with_send c q))))].
    by eapply flows_put.
Qed.

Lemma flows_read i j rw c m c' db' ms' out w :
  w_clients w !! j = Some c → read_step rw c (w_db w) (w_metrics w) m = (c', db', ms', out) →
  flows i w (put_client w j c').
Proof.
  intros Hc E. apply read_step_client in E as (_&_&Hs&Hd). eapply flows_put; [done|].
  rewrite Hd. intros Ho. split; [done|]. destruct Hs as [-> |[_ ->]]; [|by eexists].
  exists []. by rewrite app_nil_r.
Qed.

#[local] Hint Resolve view_publish view_persist view_register view_finish view_finish_send
  view_remember view_remote view_drain_lock view_stopBroker view_receive : store_view.

Lemma thread_step_flows i t w ts w' : thread_step t w ts w' → flows i w w'.
Proof.
  intros [St|St|St|St|St|St|St|St|St]; destruct St; subst; try done;
    try solve [apply flows_same; eauto with store_view].
  - apply flows_closeForShutdown.
  - by eapply flows_enqueue.
  - by apply flows_close.
  - etransitivity; [by eapply flows_read|]. by apply flows_same.
  - by apply flows_close.
  - by eapply flows_write.
  - etransitivity; [apply flows_fanout|]. by apply flows_same.
  - apply flows_disconnect.
  - apply flows_same. etransitivity; [|by eapply view_remember]. done.
  - apply flows_closeForShutdown.
Qed.

(** ** One history goroutine per client *)

Definition history_of (i : nat) (t : thread) : bool :=
  match t with
  | TRegister j | THistory j | TBacklog j _ => bool_decide (j = i)
  | _ => false
  end.
Definition starters (i : nat) p : nat := length (List.filter (history_of i) p).

#[export] Instance starters_perm i : Proper ((≡ₚ) ==> (=)) (starters i).
Proof. intros p p' Hp. unfold starters. rewrite !filter_bool. by rewrite Hp. Qed.
Lemma starters_cons i t p : starters i (t :: p) = ((if history_of i t then 1 else 0) + starters i p)%nat.
Proof. unfold starters. simpl. by destruct (history_of i t). Qed.
Lemma starters_app i p p' : starters i (p ++ p') = (starters i p + starters i p')%nat.
Proof. unfold starters. by rewrite List.filter_app, length_app. Qed.
Lemma starters_none i p t : starters i p = 0%nat → t ∈ p → history_of i t = false.
Proof.
  intros Hp Ht. destruct (history_of i t) eqn:E; [|done].
  assert (Hin : t ∈ List.filter (history_of i) p) by by apply elem_of_filter_bool.
  unfold starters in Hp. apply length_zero_iff_nil in Hp. rewrite Hp in Hin.
  by apply not_elem_of_nil in Hin.
Qed.

Lemma thread_step_starters i t w ts w' :
  thread_step t w ts w' → (starters i ts <= if history_of i t then 1 else 0)%nat.
Proof.
  intros [St|St|St|St|St|St|St|St|St]; destruct St; unfold spawn_leave, resume, starters, history_of;
    repeat case_match; simplify_eq/=; repeat case_bool_decide; simpl; try lia.
Qed.

Context `{!RoomScoped S}.

Definition history_inv (i : nat) s : Prop := sys_inv s ∧ (starters i (pool s) <= 1)%nat.

Lemma history_has_client i s : history_inv i s → (0 < starters i (pool s))%nat → is_Some (w_clients (world s) !! i).
Proof.
  intros [[_ Ht] _] Hs. rewrite Forall_forall in Ht. unfold starters in Hs.
  destruct (List.filter (history_of i) (pool s)) as [|t ts] eqn:E; [simpl in Hs; lia|].
  assert (Hin : t ∈ List.filter (history_of i) (pool s)) by (rewrite E; by left).
  apply elem_of_filter_bool in Hin as [Hi Hin]. specialize (Ht t Hin).
  destruct t; try discriminate Hi; apply bool_decide_eq_true in Hi as ->; simpl in Ht; [done..|].
  destruct Ht as (c&?&_). eauto.
Qed.

Lemma step_history_inv i s s' : history_inv i s → step s s' → history_inv i s'.
Proof.
  intros Hinv Hstep. pose proof Hinv as [Hsys Hone]. split; [by eapply step_inv|].
  pose proof (history_has_client i s Hinv) as Hcl.
  destruct Hstep as [t ts rest p w w' Hp Ht|j rest p w Hp|j c p w Hj Hc]; simpl in *.
  - apply (thread_step_starters i) in Ht. rewrite Hp, starters_cons in Hone. rewrite starters_app. lia.
  - rewrite Hp, !starters_cons in Hone. rewrite !starters_cons. simpl in *. lia.
  - rewrite !starters_cons. simpl. case_bool_decide as E; [|lia]. subst j.
    destruct (starters i p); [lia|]. destruct Hcl as [c' Hc']; [lia|]. congruence.
Qed.

Lemma steps_history_inv i s s' : rtc step s s' → history_inv i s → history_inv i s'.
Proof.
  induction 1 as [|s1 s2 s3 H12 _ IH]; [done|]. intros Hinv. apply IH. by eapply step_history_inv.
Qed.

Lemma reachable_history (db : S) fanout s i : reachable db fanout s → history_inv i s.
Proof.
  intros Hr. eapply steps_history_inv; [exact Hr|]. split; [apply initial_inv|].
  destruct fanout; unfold starters; simpl; lia.
Qed.

(** ** The history of one client along a run *)
Section run.
Variables (i : nat) (s0 : St).

(** An enqueue for client [i] was refused between [s1] and [s]. *)
Definition refused_between s1 s : Prop :=
  ∃ s2 c, rtc step s1 s2 ∧ rtc step s2 s ∧ w_clients (world s2) !! i = Some c
          ∧ (c_done c = true ∨ (outboundQueueSize <= length (c_send c))%nat).

Inductive stage (queued : list Msg) s : Prop :=
| not_queried : THistory i ∈ pool s → queued = [] → stage queued s
| queueing s1 d c rest :
    rtc step s0 s1 → rtc step s1 s → w_clients (world s1) !! i = Some c →
    history_backlog d c (w_db (world s1)) = queued ++ rest → TBacklog i rest ∈ pool s → stage queued s
| ended s1 d c rest :
    rtc step s0 s1 → rtc step s1 s → w_clients (world s1) !! i = Some c →
    history_backlog d c (w_db (world s1)) = queued ++ rest → starters i (pool s) = 0%nat →
    rest = [] ∨ refused_between s1 s → stage queued s.

Lemma refused_step s1 s s' : refused_between s1 s → step s s' → refused_between s1 s'.
Proof. intros (s2&c&H1&H2&Hc&Hr) Hs. exists s2, c. split_and!; [done|by eapply rtc_r|done|done]. Qed.

Lemma others_queue_no_history t : history_of i t = false → queues_history i t = false.
Proof. destruct t; try done. by destruct ms. Qed.

(** A step that is not the history goroutine's leaves the stage. *)
Lemma stage_other queued s s' :
  (∀ u, u ∈ pool s → history_of i u = true → u ∈ pool s') →
  (starters i (pool s') <= starters i (pool s))%nat →
  step s s' → stage queued s → stage queued s'.
Proof.
  intros Hkeep Hle Hs [Ht ->|s1 d c rest H1 H2 Hc Hb Ht|s1 d c rest H1 H2 Hc Hb Hn Hend].
  - apply not_queried; [|done]. apply Hkeep; [done|]. simpl. by rewrite bool_decide_true.
  - eapply queueing; [done|by eapply rtc_r|done..|]. apply Hkeep; [done|]. simpl.
    by rewrite bool_decide_true.
  - eapply ended; [done|by eapply rtc_r|done|done|lia|].
    destruct Hend; [by left|right; by eapply refused_step].
Qed.

Lemma appended_enqueue w c m b c' :
  w_clients w !! i = Some c → enqueue c m = (b, c') →
  appended i w (put_client w i c') = if b then [m] else [].
Proof.
  intros Hc He. unfold appended, received, sent. simpl. rewrite lookup_insert_eq, Hc. simpl.
  apply enqueue_spec in He. destruct b.
  - destruct He as (_&_&->). simpl. by rewrite app_assoc, drop_app_length.
  - destruct He as [-> _]. apply drop_all.
Qed.

(** The history goroutine's own steps. *)
Lemma stage_own queued t ts rest w w' p :
  p ≡ₚ t :: rest → thread_step t w ts w' → history_of i t = true → starters i rest = 0%nat →
  rtc step s0 (mk_state p w) → stage queued (mk_state p w) →
  stage (queued ++ if queues_history i t then appended i w w' else []) (mk_state (ts ++ rest) w').
Proof.
  intros Hp Hts Hi Hrest Hs0 Hst.
  assert (Hstep : step (mk_state p w) (mk_state (ts ++ rest) w')) by by eapply step_thread.
  assert (Hme : ∀ u, u ∈ p → history_of i u = true → u = t).
  { intros u. rewrite Hp, elem_of_cons. intros [->|Hu] Hiu; [done|].
    by rewrite (starters_none i rest u Hrest Hu) in Hiu. }
  destruct Hst as [Ht ->|s1 d c bl H1 H2 Hc Hb Ht|s1 d c bl H1 H2 Hc Hb Hn Hend]; simpl in *.
  - apply Hme in Ht as <-; [|simpl; by rewrite bool_decide_true].
    destruct Hts as [St|St|St|St|St|St|St|St|St]; inversion St; subst.
    eapply (queueing _ _ (mk_state p w')); [done|by apply rtc_once|done..|by left].
  - apply Hme in Ht as <-; [|simpl; by rewrite bool_decide_true].
    destruct Hts as [St|St|St|St|St|St|St|St|St]; inversion St; subst; simpl.
    + eapply ended; [done|by eapply rtc_r|done|by rewrite app_nil_r|done|by left].
    + rewrite bool_decide_true by done. erewrite appended_enqueue by done. destruct b.
      * apply (queueing _ _ s1 d c ms); [done|by eapply rtc_r|done|by rewrite <- app_assoc|by left].
      * apply (ended _ _ s1 d c (m :: ms)); [done|by eapply rtc_r|done|by rewrite app_nil_r|done|].
        right. exists (mk_state p w), c0. split_and!; [done|by apply rtc_once|done|].
        by lazymatch goal with He : enqueue _ _ = _ |- _ => apply enqueue_spec in He as [_ ?] end.
  - exfalso. rewrite Hp, starters_cons, Hi in Hn. lia.
Qed.

Lemma stage_acts queued t s s' :
  acts t s s' → history_inv i s → rtc step s0 s → is_Some (w_clients (world s) !! i) → stage queued s →
  stage (queued ++ if queues_history i t then appended i (world s) (world s') else []) s'.
Proof.
  intros Ha [Hsys Hone] Hs0 Hcl Hst. assert (Hstep : step s s') by (apply step_acts; eauto).
  destruct Ha as [t ts rest p w w' Hp Hts|j rest p w Hp|j c p w Hj Hc]; simpl in *.
  - rewrite Hp, starters_cons in Hone. destruct (history_of i t) eqn:Hi.
    + eapply stage_own; [done..| |done|done]. lia.
    + rewrite (others_queue_no_history t Hi), app_nil_r. eapply stage_other; [..|done|done]; simpl.
      * intros u. rewrite Hp, elem_of_cons, elem_of_app. intros [->|?] ?; [congruence|by right].
      * apply (thread_step_starters i) in Hts. rewrite Hi in Hts.
        rewrite Hp, starters_app, starters_cons, Hi. lia.
  - rewrite app_nil_r. eapply stage_other; [..|done|done]; simpl.
    + intros u. rewrite Hp, !elem_of_cons. intros [->|[->|?]] ?; [done|done|by auto].
    + rewrite Hp, !starters_cons. done.
  - rewrite app_nil_r. eapply stage_other; [..|done|done]; simpl.
    + intros u Hu _. by do 2 right.
    + rewrite !starters_cons. simpl. rewrite bool_decide_false; [done|].
      intros ->. rewrite Hj in Hcl. by destruct Hcl.
Qed.

Lemma by_history_app l b new :
  by_history_goroutine (l ++ ((b,.) <$> new)) = by_history_goroutine l ++ if b : bool then new else [].
Proof.
  unfold by_history_goroutine. rewrite List.filter_app, fmap_app. f_equal.
  induction new as [|m new IH]; destruct b; simpl in *; [done..|by f_equal|done].
Qed.

(** What was appended is what an open client's stream has grown by. *)
Lemma deliveries_received l s c0 :
  deliveries i s0 l s → w_clients (world s0) !! i = Some c0 →
  ∃ c, w_clients (world s) !! i = Some c
    ∧ (c_done c = false → c_done c0 = false ∧ received (world s) i = received (world s0) i ++ l.*2).
Proof.
  intros Hd Hc0. induction Hd as [|l s1 t s2 _ (c1&Hc1&IH) Ha].
  { exists c0. split; [done|]. intros Ho. by rewrite app_nil_r. }
  assert (Hf : flows i (world s1) (world s2)).
  { destruct Ha as [? ? ? ? ? ? _ Ht|j rest p w Hp|j c p w Hj Hc]; simpl; [by eapply thread_step_flows|done|].
    simpl in *. assert (Hne : j ≠ i) by congruence. intros d Hd. exists d. unfold received, sent. simpl.
    rewrite lookup_insert_ne by done. split; [done|]. intros Ho. split; [done|]. exists [].
    by rewrite app_nil_r. }
  destruct (Hf c1 Hc1) as (c2&Hc2&Hgrow). exists c2. split; [done|]. intros Ho.
  destruct (Hgrow Ho) as (Ho1&new&E). destruct (IH Ho1) as (Ho0&E0). split; [done|].
  unfold appended. rewrite E, drop_app_length, fmap_app, <- list_fmap_compose, list_fmap_id, E0.
  by rewrite app_assoc.
Qed.

Lemma deliveries_stage l s :
  deliveries i s0 l s → history_inv i s0 → THistory i ∈ pool s0 → stage (by_history_goroutine l) s.
Proof.
  intros Hd Hinv Hin.
  assert (Hc0 : is_Some (w_clients (world s0) !! i)).
  { destruct Hinv as [[_ Ht] _]. rewrite Forall_forall in Ht. apply (Ht _ Hin). }
  destruct Hc0 as [c0 Hc0]. induction Hd as [|l s1 t s2 Hd IH Ha]; [by apply not_queried|].
  rewrite by_history_app. assert (Hs1 : rtc step s0 s1) by by eapply deliveries_steps.
  apply stage_acts; [done| |done| |by apply IH].
  - by eapply steps_history_inv.
  - destruct (deliveries_received _ _ _ Hd Hc0) as (c&?&_). eauto.
Qed.
End run.

(** ** The property *)

(** C20: history on connect, in the running hub.  From any reachable state in which
    [registerClient] has started a client's history goroutine, along any run,
    whatever the other goroutines do meanwhile: while the client is open, its
    stream (socket, then queue) grows exactly by the messages of the run's
    deliveries, so nothing is lost or reordered.  The ones its history goroutine
    queued are, in order and each once, a beginning of the backlog it read when it
    queried the storage; the rest of it is still with the goroutine, or empty, or an
    enqueue was refused because the client was closed or its queue full.  On a
    query without a fault the backlog is the last 50 messages of the client's room,
    in chronological order, and then the welcome. *)
Theorem history_on_connect `{!HistoryContract S} (db : S) fanout s0 i l s :
  reachable db fanout s0 → THistory i ∈ pool s0 → deliveries i s0 l s →
  (∃ c, w_clients (world s) !! i = Some c
     ∧ (c_done c = false → received (world s) i = received (world s0) i ++ l.*2))
  ∧ (THistory i ∈ pool s ∧ by_history_goroutine l = []
     ∨ ∃ s1 d c rest,
         rtc step s0 s1 ∧ rtc step s1 s ∧ w_clients (world s1) !! i = Some c
         ∧ history_backlog d c (w_db (world s1)) = by_history_goroutine l ++ rest
         ∧ (healthy d → hist_wf (w_db (world s1)) →
            by_history_goroutine l ++ rest
            = (history_message <$> last_n 50 (history (w_db (world s1)) (room c)))
              ++ [notification welcome (room c)])
         ∧ (TBacklog i rest ∈ pool s ∨ rest = [] ∨ refused_between i s1 s)).
Proof.
  intros Hr Hin Hd. pose proof (reachable_history db fanout s0 i Hr) as Hinv. split.
  { destruct (reachable_inv db fanout s0 Hr) as [_ Ht]. rewrite Forall_forall in Ht.
    destruct (Ht _ Hin) as [c0 Hc0]. destruct (deliveries_received i s0 l s c0 Hd Hc0) as (c&Hc&Ho).
    exists c. split; [done|]. intros Hopen. by apply Ho. }
  assert (Hback : ∀ s1 d c q, rtc step s0 s1 → w_clients (world s1) !! i = Some c →
    history_backlog d c (w_db (world s1)) = q → healthy d → hist_wf (w_db (world s1)) →
    q = (history_message <$> last_n 50 (history (w_db (world s1)) (room c)))
        ++ [notification welcome (room c)]).
  { intros s1 d c q Hs1 Hc <- Hh Hwf. unfold history_backlog.
    destruct (reachable_inv db fanout s1) as [Hw _]; [unfold reachable; by etransitivity|].
    destruct (si_client _ _ (wi_store _ Hw) i c Hc) as (_&_&Hn).
    by rewrite (hist_recent d _ (room c) (room c) 50). }
  destruct (deliveries_stage i s0 l s Hd Hinv Hin) as
    [? ?|s1 d c rest H1 H2 Hc Hb Ht|s1 d c rest H1 H2 Hc Hb _ Hend]; [by left|right..];
    exists s1, d, c, rest; split_and!; try done; eauto.
Qed.
End history.
