(* ===== verification/HubBroker.v ===== *)
(** The broker's goroutines and [stopBroker]: the wait group counts exactly the
    goroutines that are left, the publisher lives until it is cancelled, and only
    a drain cancels it. *)
From S2P Require Import Prelude.
From S2P Require Import GoUnicode.
From S2P Require Import GoString.
From S2P Require Import GoTime.
From S2P Require Import Metrics.
From S2P Require Import Rooms.
From S2P Require Import Events.
From S2P Require Import Storage.
From S2P Require Import Client.
From S2P Require Import Hub.
From S2P Require Import HubFacts.
From S2P Require Import HubSystem.
From S2P Require Import HubDrain.

Section broker.
Context `{RateLimiter} {S : Type} `{Repository S}.
Notation W := (World (S:=S)).
Implicit Types (w : W) (p ts : list thread).

(** The goroutines of [startBroker], inside the handler included. *)
Definition is_broker (t : thread) : bool :=
  match t with
  | TSubscriber | TSubOrigin _ | TSubRemember _ | TSubDraining _ | TSubSend _ | TPublisher => true
  | _ => false
  end.
Definition brokers p : nat := length (List.filter is_broker p).

(** What these goroutines and [stopBroker] change. *)
Definition broker_view w : nat * bool * bool :=
  let b := h_broker (w_hub w) in
  (b_running b, b_cancelled b, bool_decide (is_Some (b_publish b))).

(** The invariant, over the pool and that view. *)
Record broker_acct p w : Prop := {
  ba_count : b_running (h_broker (w_hub w)) = brokers p;
  ba_publisher :
    is_Some (b_publish (h_broker (w_hub w))) → b_cancelled (h_broker (w_hub w)) = false →
    TPublisher ∈ p;
  ba_cancelled : b_cancelled (h_broker (w_hub w)) = true → isDraining w = true
}.

#[export] Instance brokers_perm : Proper ((≡ₚ) ==> (=)) brokers.
Proof. intros p p' Hp. unfold brokers. rewrite !filter_bool. by rewrite Hp. Qed.

Lemma brokers_cons t p : brokers (t :: p) = ((if is_broker t then 1 else 0) + brokers p)%nat.
Proof. unfold brokers. simpl. by destruct (is_broker t). Qed.
Lemma brokers_app p p' : brokers (p ++ p') = (brokers p + brokers p')%nat.
Proof. unfold brokers. by rewrite List.filter_app, length_app. Qed.

(** ** Operations that leave the broker alone *)

Lemma queueBroker_broker e m w : broker_view (queueBrokerMessage e m w) = broker_view w.
Proof.
  unfold queueBrokerMessage, broker_view. destruct (b_publish _) as [q|] eqn:Hq; [|by rewrite Hq].
  repeat case_match; simpl; by rewrite ?Hq.
Qed.

Lemma publish_send_broker pick e m w b w' :
  publish_send pick e m w = Some (b, w') → broker_view w' = broker_view w.
Proof.
  unfold publish_send. repeat case_match; intros [= <- <-]; [|done].
  by rewrite queueBroker_broker.
Qed.

Lemma persist_broker d m w m' w' :
  persist_notification d m w = (m', w') → broker_view w' = broker_view w.
Proof.
  unfold persist_notification. destruct (saveMessageObservedInRoomContext _ _ _ _ _ _ _) as [[? ?] ?].
  by intros [= <- <-].
Qed.

Lemma register_broker i w b w' : register_lock i w = (b, w') → broker_view w' = broker_view w.
Proof. unfold register_lock. case_match; by intros [= <- <-]. Qed.

Lemma disconnect_broker i w : broker_view (disconnectClientLocked i w) = broker_view w.
Proof.
  unfold disconnectClientLocked, queueLeaveNotification. repeat case_match; done.
Qed.

Lemma fanout_broker m order w : broker_view (fanout_all order m w) = broker_view w.
Proof.
  unfold fanout_all. revert w. induction order as [|i order IH]; intros w; [done|].
  cbn [foldl]. rewrite IH. unfold fanout_step. repeat case_match; try done.
  by rewrite disconnect_broker.
Qed.

Lemma remember_broker e w b w' :
  rememberBrokerEvent e w = (b, w') → broker_view w' = broker_view w.
Proof. unfold rememberBrokerEvent. repeat case_match; by intros [= <- <-]. Qed.

Lemma remote_send_broker pick m w : broker_view (remote_send pick m w) = broker_view w.
Proof. unfold remote_send. by repeat case_match. Qed.

Lemma closeForShutdown_broker i w : broker_view (closeForShutdown i w) = broker_view w.
Proof. unfold closeForShutdown. by case_match. Qed.

Lemma write_broker ok i w b w' : write_one ok i w = Some (b, w') → broker_view w' = broker_view w.
Proof. unfold write_one. repeat case_match; by intros [= <- <-]. Qed.

Lemma finish_broker i w b w' : finish_lock i w = (b, w') → broker_view w' = broker_view w.
Proof. unfold finish_lock. repeat case_match; by intros [= <- <-]. Qed.

Lemma finish_send_broker i w w' : finish_send i w = Some w' → broker_view w' = broker_view w.
Proof. unfold finish_send. repeat case_match; by intros [= <-]. Qed.

Lemma drain_lock_broker w all w' : drain_lock w = (all, w') → broker_view w' = broker_view w.
Proof. by intros [= <- <-]. Qed.

Lemma receive_broker pending w pending' w' :
  drain_receive pending w = Some (pending', w') → broker_view w' = broker_view w.
Proof. unfold drain_receive. repeat case_match; by intros [= <- <-]. Qed.

#[local] Hint Resolve queueBroker_broker publish_send_broker persist_broker register_broker
  disconnect_broker fanout_broker remember_broker remote_send_broker closeForShutdown_broker
  write_broker finish_broker finish_send_broker drain_lock_broker receive_broker : broker_view.

(** ** Steps *)

(** A step that changes neither the view nor the broker's goroutines. *)
Lemma acct_same t ts rest w w' :
  broker_view w' = broker_view w → brokers ts = brokers [t] →
  (t = TPublisher → TPublisher ∈ ts) → (isDraining w = true → isDraining w' = true) →
  broker_acct (t :: rest) w → broker_acct (ts ++ rest) w'.
Proof.
  unfold broker_view. intros [= Hrun Hcan Hpub] Hts Ht Hd [Hc Hp Hdr].
  change (t :: rest) with ([t] ++ rest) in Hc. rewrite brokers_app in Hc.
  split; rewrite ?Hrun, ?Hcan, ?brokers_app, ?Hts; [done| |by auto].
  intros Hs Hn. rewrite bool_decide_eq_true_2 in Hpub by exact Hs.
  symmetry in Hpub. apply bool_decide_eq_true_1 in Hpub.
  specialize (Hp Hpub Hn). apply elem_of_app.
  apply elem_of_cons in Hp as [<-|Hp]; [left; auto|by right].
Qed.

Lemma ended_acct t rest w :
  is_broker t = true → (t = TPublisher → b_cancelled (h_broker (w_hub w)) = true) →
  broker_acct (t :: rest) w → broker_acct rest (broker_ended w).
Proof.
  intros Hb Hcan [Hc Hp Hd]. rewrite brokers_cons, Hb in Hc. split; simpl; [by rewrite Hc| |done].
  intros Hs Hn. specialize (Hp Hs Hn). apply elem_of_cons in Hp as [<-|?]; [|done].
  by rewrite Hcan in Hn.
Qed.

Lemma stop_acct all rest w :
  isDraining w = true →
  broker_acct (TDrainBroker all :: rest) w → broker_acct (TDrainBrokerWait all :: rest) (stopBroker w).
Proof.
  intros Hdr [Hc Hp Hd]. rewrite brokers_cons in Hc. unfold stopBroker.
  destruct (b_publish (h_broker (w_hub w))) as [q|] eqn:Hq; split; rewrite ?brokers_cons; simpl;
    try done.
  rewrite Hq. by intros [].
Qed.

Ltac same_acct Hd Hinv :=
  eapply acct_same; [..|exact Hinv];
  [solve [done | eauto with broker_view]
  |solve [done | unfold resume, spawn_leave; repeat case_match; done]
  |solve [done | intros _; left]
  |exact Hd].

Lemma thread_step_broker t w ts w' rest :
  thread_step t w ts w' → (isDraining w = true → isDraining w' = true) →
  (∀ all, t = TDrainBroker all → isDraining w = true) →
  broker_acct (t :: rest) w → broker_acct (ts ++ rest) w'.
Proof.
  intros [St|St|St|St|St|St|St|St|St] Hd Hw Hinv; destruct St; subst; try same_acct Hd Hinv.
  - eapply acct_same; [..|exact Hinv]; [exact (fanout_broker _ _ _)|unfold spawn_leave; by case_match|done|exact Hd].
  - eapply acct_same; [..|exact Hinv]; [|done|done|exact Hd].
    etransitivity; [|by eapply remember_broker]. done.
  - by apply (ended_acct TSubscriber).
  - eapply acct_same; [..|exact Hinv]; [|done|by left|exact Hd].
    match goal with Hq : b_publish _ = _ |- _ => unfold broker_view; simpl; by rewrite Hq end.
  - by apply (ended_acct TPublisher).
  - apply stop_acct; [by eapply Hw|done].
Qed.

(** A goroutine that is past [drain]'s first critical section. *)
Lemma waiting_draining p w t all :
  drain_inv p (drain_view w) → t ∈ p → waiting t = Some all → isDraining w = true.
Proof.
  intros [_ _ _ Hs] Ht Hw. unfold drain_view in Hs. simpl in Hs. unfold isDraining.
  destruct (d_events _) as [[cap q]|]; [apply Hs|].
  destruct Hs as (_&_&_&Hs). by rewrite (Hs t Ht) in Hw.
Qed.

Lemma step_broker s s' :
  step s s' → drain_inv (pool s) (drain_view (world s)) →
  broker_acct (pool s) (world s) → broker_acct (pool s') (world s').
Proof.
  assert (Hperm : ∀ p p' w, p ≡ₚ p' → broker_acct p w → broker_acct p' w).
  { intros p p' w Hp [Hc Hpub Hd]. split; [by rewrite <- Hp| |done]. intros. rewrite <- Hp. auto. }
  intros [t ts rest p w w' Hp Ht|i rest p w Hp|i c p w Hi Hc] Hdr Hinv; simpl in *.
  - eapply thread_step_broker; [exact Ht| | |by eapply Hperm].
    + by eapply thread_step_draining.
    + intros all ->. eapply (waiting_draining p w (TDrainBroker all)); [done| |done].
      rewrite Hp. by left.
  - apply (Hperm _ _ _ Hp) in Hinv as [Hn Hpub Hd]. split; [done| |done].
    intros Hs Hcan. specialize (Hpub Hs Hcan). rewrite !elem_of_cons in *. naive_solver.
  - destruct Hinv as [Hn Hpub Hd]. split; [done| |done]. intros Hs Hcan. do 2 right. by apply Hpub.
Qed.

Lemma initial_broker (db : S) fanout :
  broker_acct (pool (initial db fanout)) (world (initial db fanout)).
Proof.
  unfold initial. destruct fanout; split; simpl; try done.
  intros _ _. do 2 right. by left.
Qed.

(** In every reachable state [brokerWG] counts the goroutines of the broker that
    still run, so [stopBroker] waits for exactly those; the publisher runs until
    [brokerCtx] is cancelled, and only a drain cancels it. *)
Lemma reachable_broker (db : S) fanout s :
  reachable db fanout s → broker_acct (pool s) (world s).
Proof.
  intros Hr. pose proof (initial_broker db fanout) as Hi. pose proof (initial_drain db fanout) as Hd.
  unfold reachable in Hr. revert Hi Hd. generalize (initial db fanout) Hr. clear Hr.
  induction 1 as [|s1 s2 s3 H12 H23 IH]; [done|]. intros Hb Hdr. apply IH.
  - by eapply step_broker.
  - by eapply step_drain.
Qed.
End broker.
