(* ===== verification/HubMetrics.v ===== *)
(** What the hub's goroutines do to the metrics: they only write declared series
    (no input of a client becomes a label value), counters only grow, the gauge of
    connected clients is exact and that of a drain is not negative. *)
From S2P Require Import Prelude.
From S2P Require Import GoUnicode.
From S2P Require Import GoString.
From S2P Require Import GoTime.
From S2P Require Import Metrics.
From S2P Require Import Rooms.
From S2P Require Import Events.
From S2P Require Import Storage.
From S2P Require Import Client.
From S2P Require Import Hub.
From S2P Require Import HubFacts.
From S2P Require Import HubSystem.
Open Scope Z_scope.

(** A literal series of a collector that only grows. *)
Ltac in_growing := apply (bool_decide_unpack _); vm_compute; exact I.
Create HintDb counting discriminated.
#[export] Hint Constants Opaque : counting.
#[export] Hint Extern 1 (series _ _ ∈ growing) => in_growing : counting.
#[export] Hint Resolve counts_inc counts_add : counting.

Section metrics.
Context `{RateLimiter} {S : Type} `{Repository S}.
Notation W := (World (S:=S)).
Implicit Types (w : W) (p ts : list thread).

(** ** Operations *)

Lemma counts_count c l w :
  series c l ∈ growing → counts (w_metrics w) (w_metrics (count c l w)).
Proof. apply counts_inc. Qed.
#[local] Hint Resolve counts_count : counting.

Lemma counts_queueBroker e m w : counts (w_metrics w) (w_metrics (queueBrokerMessage e m w)).
Proof. unfold queueBrokerMessage. repeat case_match; eauto with counting; done. Qed.

Lemma counts_publish_send pick e m w b w' :
  publish_send pick e m w = Some (b, w') → counts (w_metrics w) (w_metrics w').
Proof.
  unfold publish_send. repeat case_match; intros [= <- <-]; [|done].
  etransitivity; [|apply counts_queueBroker]. done.
Qed.

Lemma counts_saved {E A} (res : result E A) ms :
  counts ms (inc MessagePersistDuration (if is_ok res then "ok" else "error") ms).
Proof. destruct (is_ok res); eauto with counting. Qed.

Lemma counts_persist d m w m' w' :
  persist_notification d m w = (m', w') → counts (w_metrics w) (w_metrics w').
Proof.
  unfold persist_notification, saveMessageObservedInRoomContext, saveMessageObservedForUserInRoomContext.
  destruct (SaveMessageForUserInRoomContext _ _ _ _ _ _ _) as [res db].
  intros [= <- <-]. apply counts_saved.
Qed.

Lemma counts_register i w b w' :
  register_lock i w = (b, w') → counts (w_metrics w) (w_metrics w').
Proof. unfold register_lock. case_match; by intros [= <- <-]. Qed.

Lemma counts_disconnect i w : counts (w_metrics w) (w_metrics (disconnectClientLocked i w)).
Proof.
  unfold disconnectClientLocked, queueLeaveNotification. repeat case_match; try done.
  apply (counts_count WSOutboundDrops "leave_backpressure" w). in_growing.
Qed.

Lemma counts_fanout m order w : counts (w_metrics w) (w_metrics (fanout_all order m w)).
Proof.
  unfold fanout_all. revert w. induction order as [|i order IH]; intros w; [done|].
  cbn [foldl]. etransitivity; [|apply IH]. unfold fanout_step. repeat case_match; try done.
  etransitivity; [|apply counts_disconnect]. eauto with counting.
Qed.

Lemma counts_remember e w b w' :
  rememberBrokerEvent e w = (b, w') → counts (w_metrics w) (w_metrics w').
Proof. unfold rememberBrokerEvent. repeat case_match; by intros [= <- <-]. Qed.

Lemma counts_remote_send pick m w : counts (w_metrics w) (w_metrics (remote_send pick m w)).
Proof. unfold remote_send. repeat case_match; eauto with counting; done. Qed.

Lemma counts_closeForShutdown i w : counts (w_metrics w) (w_metrics (closeForShutdown i w)).
Proof. unfold closeForShutdown. by case_match. Qed.

Lemma counts_write ok i w b w' :
  write_one ok i w = Some (b, w') → counts (w_metrics w) (w_metrics w').
Proof.
  unfold write_one. repeat case_match; intros [= <- <-]; [done|].
  apply (counts_count WSOutboundDrops "write_error" w). in_growing.
Qed.

Lemma counts_finish i w r w' : finish_lock i w = (r, w') → counts (w_metrics w) (w_metrics w').
Proof. unfold finish_lock. repeat case_match; by intros [= <- <-]. Qed.

Lemma counts_finish_send i w w' : finish_send i w = Some w' → counts (w_metrics w) (w_metrics w').
Proof. unfold finish_send. repeat case_match; by intros [= <-]. Qed.

Lemma counts_drain_lock w all w' : drain_lock w = (all, w') → counts (w_metrics w) (w_metrics w').
Proof.
  intros [= <- <-]. apply (counts_count WSDrainStarted "" w). in_growing.
Qed.

Lemma counts_stopBroker w : counts (w_metrics w) (w_metrics (stopBroker w)).
Proof. unfold stopBroker. by case_match. Qed.

Lemma counts_receive pending w pending' w' :
  drain_receive pending w = Some (pending', w') → counts (w_metrics w) (w_metrics w').
Proof. unfold drain_receive. repeat case_match; by intros [= <- <-]. Qed.

Lemma counts_read rw c (db : S) ms m c' db' ms' out :
  read_step rw c db ms m = (c', db', ms', out) → counts ms ms'.
Proof.
  unfold read_step, saveMessageObservedForUserInRoomContext. repeat case_match; intros; simplify_eq;
    eauto with counting; try done;
    (etransitivity; [|apply counts_inc; in_growing]; apply counts_inc; in_growing).
Qed.

(** ** Steps *)

(** The goroutines between the [Inc] of [serveWs] and the [Dec] of the reader's
    defer. *)
Definition reading (t : thread) : bool :=
  match t with
  | TReader _ | TReaderExit _ | TCheck _ (KRead _) | TSend _ (KRead _) => true
  | _ => false
  end.
Definition readers p : Z := Z.of_nat (length (List.filter reading p)).

Definition connected w : Z := metric ConnectedClients "" (w_metrics w).
Definition draining_clients w : Z := metric WSDrainClientsRemaining "" (w_metrics w).

#[export] Instance readers_perm : Proper ((≡ₚ) ==> (=)) readers.
Proof. intros p p' Hp. unfold readers. rewrite !filter_bool. by rewrite Hp. Qed.
Lemma readers_app p p' : readers (p ++ p') = readers p + readers p'.
Proof. unfold readers. rewrite List.filter_app, length_app. lia. Qed.
Lemma readers_cons t p : readers (t :: p) = readers [t] + readers p.
Proof. apply (readers_app [t]). Qed.

(** The two gauges, which move both ways. *)
Definition is_moving (k : string * string) : bool :=
  bool_decide (k = series ConnectedClients "") || bool_decide (k = series WSDrainClientsRemaining "").

Lemma gauges_move c l : c ∈ collectors → is_gauge c = false → is_moving (series c l) = false.
Proof.
  intros Hc Hg. apply not_true_iff_false. unfold is_moving, series. rewrite orb_true_iff, !bool_decide_eq_true.
  intros E. assert (Hn : fq_name c = fq_name ConnectedClients ∨ fq_name c = fq_name WSDrainClientsRemaining)
    by (destruct E as [[= ? _]|[= ? _]]; auto).
  assert (Hall : Forall (λ c, fq_name c = fq_name ConnectedClients
      ∨ fq_name c = fq_name WSDrainClientsRemaining → is_gauge c = true) collectors).
  { repeat (constructor; [intros [[=]|[=]]; reflexivity|]). constructor. }
  rewrite Forall_forall in Hall. rewrite Hall in Hg by done. done.
Qed.

(** The effect of a step on the metrics. *)
Definition metrics_step (t : thread) w ts w' : Prop :=
  (declared (w_metrics w) → declared (w_metrics w'))
  ∧ connected w' - readers ts = connected w - readers [t]
  ∧ (0 <= draining_clients w → 0 <= draining_clients w')
  ∧ ∀ c l, is_moving (series c l) = false → metric c l (w_metrics w) <= metric c l (w_metrics w').

Lemma counting_step t w ts w' :
  counts (w_metrics w) (w_metrics w') → readers ts = readers [t] → metrics_step t w ts w'.
Proof.
  intros Hc Hr. split; [by apply counts_declared|].
  split; [|split; [|intros; by apply counts_metric]].
  - unfold connected. rewrite (counts_gauge _ _ ConnectedClients "" Hc), Hr; [done|].
    apply (bool_decide_unpack _). vm_compute. exact I.
  - unfold draining_clients. rewrite (counts_gauge _ _ WSDrainClientsRemaining "" Hc); [done|].
    apply (bool_decide_unpack _). vm_compute. exact I.
Qed.

Lemma gauge_step t w ts n :
  readers ts = readers [t] + n → metrics_step t w ts (observe ConnectedClients "" n w).
Proof.
  intros Hr. unfold metrics_step, connected, draining_clients, observe. cbn [w_metrics set_metrics].
  split_and!.
  - apply declared_add. apply (bool_decide_unpack _). vm_compute. exact I.
  - rewrite metric_add, bool_decide_true by done. lia.
  - rewrite metric_add, bool_decide_false by done. lia.
  - intros c l Hc. apply orb_false_iff in Hc as [Hc _]. rewrite metric_add, Hc. lia.
Qed.

Lemma drain_gauge_step t w ts n :
  readers ts = readers [t] → 0 <= n → metrics_step t w ts (set_gauge WSDrainClientsRemaining n w).
Proof.
  intros Hr Hn. unfold metrics_step, connected, draining_clients, set_gauge.
  cbn [w_metrics set_metrics]. split_and!.
  - apply declared_set. apply (bool_decide_unpack _). vm_compute. exact I.
  - rewrite metric_set, bool_decide_false by done. lia.
  - intros _. rewrite metric_set, bool_decide_true by done. done.
  - intros c l Hc. apply orb_false_iff in Hc as [_ Hc]. rewrite metric_set, Hc. done.
Qed.

#[local] Hint Resolve counts_publish_send counts_persist counts_register counts_disconnect
  counts_fanout counts_remember counts_remote_send counts_closeForShutdown counts_write counts_finish
  counts_finish_send counts_drain_lock counts_stopBroker counts_receive counts_read : counting.

Lemma counts_same w w' : w_metrics w' = w_metrics w → counts (w_metrics w) (w_metrics w').
Proof. by intros ->. Qed.

Ltac metrics_step :=
  lazymatch goal with
  | |- metrics_step _ _ _ (observe ConnectedClients _ _ _) => by apply gauge_step
  | |- metrics_step _ _ _ (set_gauge _ _ _) => apply drain_gauge_step; [done|lia]
  | |- _ =>
    apply counting_step;
    [first [solve [eauto 3 with counting] | apply counts_same; reflexivity]
    |unfold resume, spawn_leave; repeat case_match; reflexivity]
  end.

Lemma thread_step_metrics t w ts w' : thread_step t w ts w' → metrics_step t w ts w'.
Proof.
  intros [St|St|St|St|St|St|St|St|St]; destruct St; subst.
  all: try metrics_step.
  - apply counting_step; [done|]. by destruct k.
  - apply counting_step; [|unfold spawn_leave; by case_match].
    etransitivity; [apply counts_fanout|eauto with counting].
  - apply counting_step; [|done]. etransitivity; [by eapply counts_remember|eauto with counting].
  - apply counting_step; [|done]. apply counts_add; [in_growing|lia].
Qed.

(** ** The system *)

Definition metrics_inv (s : State (S:=S)) : Prop :=
  declared (w_metrics (world s)) ∧ connected (world s) = readers (pool s)
  ∧ 0 <= draining_clients (world s).

Lemma step_metrics s s' :
  step s s' →
  (metrics_inv s → metrics_inv s')
  ∧ ∀ c l, is_moving (series c l) = false →
      metric c l (w_metrics (world s)) <= metric c l (w_metrics (world s')).
Proof.
  unfold metrics_inv. intros [t ts rest p w w' Hp Ht|i rest p w Hp|i c p w Hi Hc]; simpl.
  - destruct (thread_step_metrics _ _ _ _ Ht) as (Hd&Hg&Hn&Hm). split; [|done].
    intros (Hw&Hr&Hp0). split_and!; [by apply Hd| |by apply Hn]. rewrite Hp, readers_cons in Hr. rewrite readers_app. lia.
  - split; [|done]. intros (Hw&Hr&Hn). split_and!; [done|by rewrite Hr, Hp|done].
  - by split.
Qed.

Lemma steps_metrics s s' :
  rtc step s s' →
  (metrics_inv s → metrics_inv s')
  ∧ ∀ c l, is_moving (series c l) = false →
      metric c l (w_metrics (world s)) <= metric c l (w_metrics (world s')).
Proof.
  induction 1 as [|s1 s2 s3 Hstep _ [IHi IHm]]; [done|].
  destruct (step_metrics _ _ Hstep) as [Hi Hm]. split; [by auto|].
  intros c l Hc. specialize (IHm c l Hc). specialize (Hm c l Hc). lia.
Qed.

Lemma initial_metrics (db : S) fanout : metrics_inv (initial db fanout).
Proof. unfold initial, metrics_inv. destruct fanout; (split_and!; [apply empty_declared|done..]). Qed.

Lemma reachable_metrics (db : S) fanout s : reachable db fanout s → metrics_inv s.
Proof. intros Hr. apply (steps_metrics _ _ Hr), initial_metrics. Qed.
End metrics.
