(* ===== verification/HubTheorems.v ===== *)
(** The guarantees of the hub: room isolation, bounded queues, exact fan-out,
    the duplicate window, shutdown and the events handed to the broker. *)
From S2P Require Import Prelude.
From S2P Require Import GoUnicode.
From S2P Require Import GoString.
From S2P Require Import GoTime.
From S2P Require Import Metrics.
From S2P Require Import Rooms.
From S2P Require Import Events.
From S2P Require Import Storage.
From S2P Require Import Sqlite.
From S2P Require Import Client.
From S2P Require Import Hub.
From S2P Require Import HubFacts.
From S2P Require Import HubSystem.
From S2P Require Import HubInvariant.
From S2P Require Import HubDrain.
From S2P Require Import HubProgress.
Open Scope Z_scope.

Section theorems.
Context `{RateLimiter} {S : Type} `{Repository S}.
Notation W := (World (S:=S)).
Implicit Types (w : W) (s : State (S:=S)) (c : Client) (m : Msg).

Lemma steps_leaked `{!RoomScoped S} i s s' :
  sys_inv s → rtc step s s' →
  leaked i (world s) → TRegister i ∉ pool s → is_Some (w_clients (world s) !! i) →
  leaked i (world s').
Proof.
  intros Hinv Hsteps. induction Hsteps as [|s1 s2 s3 Hstep _ IH]; [done|].
  pose proof (step_inv _ _ Hinv Hstep) as Hinv2. intros Hl Hreg Hst.
  destruct Hinv as [Hw Ht].
  destruct Hstep as [t ts rest p w w' Hp Hts|j rest p w Hp|j c p w Hj Hc]; simpl in *.
  - rewrite Hp in Ht. apply Forall_cons in Ht as [Ht _].
    destruct (thread_step_keeps _ _ _ _ Hts Hw Ht) as [[_ Hext] _].
    rewrite Hp, not_elem_of_cons in Hreg. destruct Hreg as [Hne Hrest].
    destruct (thread_step_leaked i _ _ _ _ Hts ltac:(congruence) Hl) as [Hl' Hn].
    apply IH; [done|done| |].
    + rewrite elem_of_app. naive_solver.
    + destruct Hst as [c Hc]. destruct (Hext i c Hc) as (c'&?&_). eauto.
  - apply IH; [done|done| |done]. rewrite Hp, !not_elem_of_cons in Hreg.
    rewrite !not_elem_of_cons. naive_solver.
  - assert (i ≠ j) by (intros ->; rewrite Hj in Hst; by destruct Hst).
    apply IH; simpl; [done|done| |by rewrite lookup_insert_ne].
    rewrite !not_elem_of_cons. split_and!; [congruence|done|done].
Qed.

(** C1: room isolation.  In every state the hub can reach, whatever the
    interleaving, the frames clients send, the remote events and the storage
    failures: every message queued for a client or written to its socket is
    addressed to that client's room. *)
Theorem room_isolation `{!RoomScoped S} (db : S) fanout s i c m :
  reachable db fanout s → w_clients (world s) !! i = Some c →
  m ∈ c_send c ++ sent (world s) i → m_Room m = room c.
Proof.
  intros Hr Hc Hm. destruct (reachable_inv db fanout s Hr) as [Hw _].
  destruct (si_client _ _ (wi_store _ Hw) i c Hc) as [Hf _].
  by eapply Forall_forall in Hf.
Qed.

(** C7: no queue ever exceeds its capacity: the broadcast queue, the leave
    queue, the broker queue, every client's outbound queue, and the window of
    remembered event ids, which the map and the slice agree on. *)
Theorem queues_bounded `{!RoomScoped S} (db : S) fanout s :
  reachable db fanout s →
  let h := w_hub (world s) in
  (length (h_broadcast h) <= broadcastQueueSize)%nat
  ∧ (length (l_queue (h_leave h)) <= leaveNotificationQueueSize)%nat
  ∧ (∀ q, b_publish (h_broker h) = Some q → (length q <= brokerPublishQueueSize)%nat)
  ∧ (∀ i c, w_clients (world s) !! i = Some c → (length (c_send c) <= outboundQueueSize)%nat)
  ∧ (length (b_seenEventIDs (h_broker h)) <= maxSeenBrokerEvents)%nat
  ∧ (∀ e, e ∈ b_seenEvents (h_broker h) ↔ e ∈ b_seenEventIDs (h_broker h)).
Proof.
  intros Hr. destruct (reachable_inv db fanout s Hr) as [Hw _]. cbv zeta.
  destruct (wi_broadcast _ Hw), (wi_leave _ Hw), (wi_broker _ Hw) as (Hp&Hs&_&Hlen).
  split_and!; [done|done|..|done|].
  - intros q Hq. by apply Hp.
  - intros i c Hc. by apply (si_client _ _ (wi_store _ Hw) i c Hc).
  - intros e. rewrite Hs. apply elem_of_list_to_set.
Qed.

(** C3: the fan-out of one broadcast is exact and does not depend on the map's
    iteration order: each registered client of the room gets the message once,
    at the end of its queue, unless its queue is full or closed, in which case it
    is closed and dropped; nobody else is touched, and the leave notifications of
    the dropped are queued as far as there is room. *)
Theorem fanout_exact `{!RoomScoped S} (db : S) fanout s m order :
  reachable db fanout s → order ≡ₚ elements (h_clients (w_hub (world s))) →
  let w := world s in
  let w' := fanout_all order m w in
  (∀ i, w_clients w' !! i
        = (if bool_decide (i ∈ h_clients (w_hub w)) then deliver m else id) <$> w_clients w !! i)
  ∧ (∀ i, i ∈ h_clients (w_hub w') ↔
       i ∈ h_clients (w_hub w) ∧ ¬ ∃ c, w_clients w !! i = Some c ∧ refuses m c = true)
  ∧ l_queue (h_leave (w_hub w'))
    = leave_after (l_queue (h_leave (w_hub w)))
        (omap (λ i, w_clients w !! i ≫= farewell m) order)
  ∧ same_rest w w'.
Proof.
  intros Hr Ho. destruct (reachable_inv db fanout s Hr) as [Hw _]. cbv zeta.
  assert (Hin : ∀ i, i ∈ order ↔ i ∈ h_clients (w_hub (world s))).
  { intros i. by rewrite Ho, elem_of_elements. }
  destruct (fanout_all_spec m order (world s)) as (Hs&Hc&_&Hl&Hrest).
  { rewrite Ho. apply NoDup_elements. }
  { intros i. by rewrite Hin. }
  { intros i Hi. by apply (wi_registered _ Hw), Hin. }
  split_and!; [|intros i; rewrite Hc, Hin; naive_solver|done|done].
  intros i. by rewrite Hs, (bool_decide_ext _ _ (Hin i)).
Qed.

(** C8: the duplicate filter is a sliding window: a remote event id is accepted
    iff it is not among the last 4096 accepted ones, so two deliveries of one
    id that both reach the clients are more than 4096 accepted events apart. *)
Theorem duplicate_window `{!RoomScoped S} (db : S) fanout s es :
  reachable db fanout s →
  let before := seen_ids (world s) in
  let accepted := (remember_all es (world s)).1 in
  before ++ accepted = dedup maxSeenBrokerEvents before es
  ∧ apart maxSeenBrokerEvents (before ++ accepted).
Proof.
  intros Hr. destruct (reachable_inv db fanout s Hr) as [Hw _]. cbv zeta.
  destruct (wi_broker _ Hw) as (_&Hs&Hnd&Hlen).
  destruct (remember_all_spec es (seen_ids (world s)) (world s)) as (Heq&_&_).
  { by split. }
  { by rewrite last_n_all. }
  split; [done|]. rewrite Heq. apply dedup_apart. intros p q x Hp Hq Hlt.
  pose proof (NoDup_lookup _ _ _ _ Hnd Hp Hq). lia.
Qed.

(** C19: a draining hub has no registered client and admits none: registration
    is refused from the moment [drain] holds the lock, and draining is for
    ever. *)
Theorem draining_is_closed `{!RoomScoped S} (db : S) fanout s :
  reachable db fanout s → isDraining (world s) = true →
  h_clients (w_hub (world s)) = ∅
  ∧ (∀ i, register_lock i (world s) = (false, world s))
  ∧ ∀ s', rtc step s s' → isDraining (world s') = true.
Proof.
  intros Hr Hd. destruct (reachable_inv db fanout s Hr) as [Hw _].
  split; [by apply wi_drained|]. split; [intros i; unfold register_lock; by rewrite Hd|].
  intros s' Hs'. by eapply steps_draining.
Qed.

(** C6: a client's exit never blocks on [events <- client]: [drain] sized the
    channel for every client it waits for and each sends once. *)
Theorem finish_never_blocks (db : S) fanout s i :
  reachable db fanout s → TFinishSend i ∈ pool s → is_Some (finish_send i (world s)).
Proof.
  intros Hr Hi. apply (sender_has_room (pool s)); [by eapply reachable_drain|].
  unfold senders. apply list_elem_of_omap. by exists (TFinishSend i).
Qed.

(** C5: no lost wake-up in shutdown.  Whenever [drain] waits, for every client it
    waits for, that client's own notification is in the channel, or a goroutine
    that owes it is running (one of the client's, before or at [events <- client]).
    From every such state the system can go on until that notification is in the
    channel, and until [drain] completes without its deadline: nothing a client, a
    full queue or another goroutine has done can have lost a notification. *)
Theorem drain_waits_for_running `{!RoomScoped S} (db : S) fanout s pending :
  reachable db fanout s → TDrainWait pending ∈ pool s →
  (∀ i, i ∈ pending →
     (i ∈ drain_queue (world s) ∨ ∃ t, t ∈ pool s ∧ (owner t = Some i ∨ sending t = Some i))
     ∧ ∃ s', rtc step s s' ∧ TDrainWait pending ∈ pool s' ∧ i ∈ drain_queue (world s'))
  ∧ ∃ s', rtc step s s' ∧ TDrainStop false ∈ pool s'.
Proof.
  intros Hr Ht. split; [|by eapply drain_can_complete].
  intros i Hi. split; [|by eapply (pending_notified db fanout)].
  destruct (waiting_accounted (pool s) (world s) (TDrainWait pending) pending i)
    as [?|[Hs|[_ Ho]]]; [by eapply reachable_drain|done..|by left| |].
  - apply list_elem_of_omap in Hs as (t&?&?). eauto.
  - apply list_elem_of_omap in Ho as (t&?&?). eauto.
Qed.

(** [finished] leaks: a client that is recorded as finished after it was
    unregistered stays in the map for the rest of the process; nothing but the
    unregistration that already happened would remove it, [drain] included. *)
Theorem finished_never_forgotten `{!RoomScoped S} (db : S) fanout s s' i :
  reachable db fanout s → rtc step s s' →
  leaked i (world s) → is_Some (w_clients (world s) !! i) → TRegister i ∉ pool s →
  i ∈ h_finished (w_hub (world s')).
Proof.
  intros Hr Hs Hl Hst Hreg. eapply (steps_leaked i s s'); try done. by eapply reachable_inv.
Qed.

(** ** The broker *)

(** A message that was saved is never refused as an invalid event: for a
    client whose identity is what the server assigns, on a hub with a canonical
    instance id, [events.New] succeeds on what [readMessages] publishes. *)
Theorem saved_message_is_valid_event rw c (db : S) ms m out row eventID instance :
  (read_step rw c db ms m).2 = Some out →
  (SaveMessageForUserInRoomContext (rw_save rw) db (room c) (c_UserID c) (c_Username c)
     (trim_space (m_Content m)) "message").1 = Ok row →
  1 <= row_ID row → is_zero (row_Timestamp row) = false →
  normalize_room (room c) = Ok (room c) →
  (c_UserID c = "" ∨ valid_user_id (c_UserID c) = true ∧ c_UserID c = trim_space (c_UserID c)) →
  trim_space (c_Username c) ≠ "" →
  eventID ≠ "" → eventID = trim_space eventID → rune_count eventID <= maxEventIDRunes →
  canonical_token instance = true →
  is_ok (new_event eventID (m_Room out) instance
    (mk_event_message (m_ID out) (m_UserID out) (m_Username out) (m_Content out) (m_Type out))
    (m_Timestamp out)) = true.
Proof.
  destruct (read_step rw c db ms m) as [[[c' db'] ms'] o] eqn:E. simpl. intros -> Hsave Hid Hts Hroom.
  intros Huser Hname He1 He2 He3 Hinst.
  apply read_step_out in E as (_&_&_&Hty&Hu&Hn&Hr&Hc&Hv&Hids). rewrite Hsave in Hids.
  injection Hids as Hi Ht. apply validMessageBody_spec in Hv as [Hne _].
  unfold new_event. set (e := mk_envelope _ _ _ _ _ _ _).
  assert (Hwf : validate e = Ok tt).
  { apply validate_iff. unfold well_formed, e. simpl. rewrite Hty, Hu, Hn, Hr, Hi, Ht.
    unfold is_zero in Hts. apply canonical_room_iff in Hroom.
    split_and!; try done; lia. }
  by rewrite Hwf.
Qed.

(** The guard against unsaved messages trusts the frame: when the insert
    fails, a frame that claims an id and a timestamp passes it, and other
    instances get an event with the claimed id. *)
Theorem unsaved_message_passes_guard rw c (db : S) ms m out eventID w q :
  (read_step rw c db ms m).2 = Some out →
  is_ok (SaveMessageForUserInRoomContext (rw_save rw) db (room c) (c_UserID c) (c_Username c)
           (trim_space (m_Content m)) "message").1 = false →
  0 < m_ID m → is_zero (m_Timestamp m) = false →
  b_fanout (h_broker (w_hub w)) = true → b_publish (h_broker (w_hub w)) = Some q →
  (∃ event, em_ID (env_Message event) = m_ID m ∧ env_Timestamp event = utc (m_Timestamp m)
     ∧ b_publish (h_broker (w_hub (queueBrokerMessage eventID out w))) = Some (q ++ [event]))
  ∨ ∃ reason, reason ∈ ["invalid_event"; "publish_backpressure"]
      ∧ queueBrokerMessage eventID out w = count RedisDrops reason w.
Proof.
  destruct (read_step rw c db ms m) as [[[c' db'] ms'] o] eqn:E. simpl. intros -> Hs Hid Hts Hf Hq.
  apply read_step_out in E as (_&_&_&_&_&_&_&_&_&Hids).
  destruct (_ .1); [done|]. injection Hids as Hi Ht.
  unfold queueBrokerMessage. rewrite Hi, Ht, Hts, Hq, Hf.
  replace (m_ID m <=? 0) with false by lia. simpl.
  destruct (new_event _ _ _ _ _) as [event|] eqn:He; simpl.
  - destruct (_ <? _)%nat; simpl.
    + left. exists event. by apply new_event_ok in He as [_ ->].
    + right. exists "publish_backpressure". split; [set_solver|done].
  - right. exists "invalid_event". split; [set_solver|done].
Qed.
End theorems.
