(* ===== verification/HubExamples.v ===== *)
(** A run of the hub on concrete data, on the SQLite backend: a client connects,
    joins, reads its own join notice, leaves, and the hub shuts down.  The
    theorems of [HubTheorems] applied to the states of that run. *)
From S2P Require Import Prelude.
From S2P Require Import GoUnicode.
From S2P Require Import GoString.
From S2P Require Import GoTime.
From S2P Require Import Metrics.
From S2P Require Import Rooms.
From S2P Require Import Events.
From S2P Require Import Storage.
From S2P Require Import Sqlite.
From S2P Require Import Client.
From S2P Require Import Hub.
From S2P Require Import HubFacts.
From S2P Require Import HubSystem.
From S2P Require Import HubInvariant.
From S2P Require Import HubDrain.
From S2P Require Import HubProgress.
From S2P Require Import HubHistory.
From S2P Require Import HubTheorems.
Open Scope Z_scope.

#[local] Existing Instances text_driver text_driver_laws fixed_bucket.

Notation St := (State (S:=DB)).
Notation Wd := (World (S:=DB)).

(** The goroutine at position [k] of the pool takes a step. *)
Lemma step_at k t ts (p : list thread) (w w' : Wd) :
  p !! k = Some t → thread_step t w ts w' →
  step (mk_state p w) (mk_state (ts ++ delete k p) w').
Proof. intros Hk Ht. apply (step_thread t); [by apply delete_Permutation|done]. Qed.

Lemma pair_eq {A B} (p : A * B) a : p.1 = a → p = (a, p.2).
Proof. intros <-. apply surjective_pairing. Qed.

Lemma some_eq {A} (x : option A) d : (if x then true else false) = true → x = Some (default d x).
Proof. by destruct x. Qed.
Lemma some_pair_eq {A B} (x : option (A * B)) a d : fst <$> x = Some a → x = Some (a, from_option snd d x).
Proof. destruct x as [[]|]; simpl; by intros [= <-]. Qed.

Definition start : St := initial empty_db (Some "instance-a").
Definition ana : Client := ClientExample.ana.

(** Connected, registered, joined and published, broadcast. *)
Definition w1 : Wd := put_client (world start) 0 ana.
Definition w2 : Wd := (register_lock 0 w1).2.
Definition joined : Msg * Wd := persist_notification (Example.call_at 100) (join_notification ana) w2.
Definition w3 : Wd := from_option snd w2 (publish_send true "event_1" joined.1 joined.2).
Definition w4 : Wd := observe ConnectedClients "" 1 w3.
Definition w5 : Wd := set_hub w4 (set_broadcast (w_hub w4) []).
Definition w6 : Wd := count BroadcastFanoutDuration "" (fanout_all [0%nat] joined.1 w5).

Definition s5 : St :=
  mk_state [TRunFan joined.1; TReader 0; THeartbeat 0; THistory 0; TWriter 0; TSubscriber;
            TPublisher; TRetention; TDrain] w5.
Definition s6 : St :=
  mk_state [TRun; TReader 0; THeartbeat 0; THistory 0; TWriter 0; TSubscriber; TPublisher;
            TRetention; TDrain] w6.

Lemma reach5 : reachable empty_db (Some "instance-a") s5.
Proof.
  eapply rtc_l; [eapply (step_connect 0 ana); [reflexivity|]|].
  { split; [reflexivity|]. split; [reflexivity|vm_compute; reflexivity]. }
  eapply rtc_l; [eapply (step_at 0); [reflexivity|]|].
  { apply by_register, (register_accepted 0 _ w2), pair_eq. reflexivity. }
  cbn [delete list_delete app].
  eapply rtc_l; [eapply (step_at 0); [reflexivity|]|].
  { apply by_register, (register_joined 0 ana (Example.call_at 100) w2 joined.1 joined.2); [reflexivity|].
    apply surjective_pairing. }
  cbn [delete list_delete app].
  eapply rtc_l; [eapply (step_at 0); [reflexivity|]|].
  { apply by_publish, publish_go. reflexivity. }
  cbn [delete list_delete app].
  eapply rtc_l; [eapply (step_at 0); [reflexivity|]|].
  { eapply by_publish, (publish_selected _ _ true "event_1" _ true w3). reflexivity. }
  cbn [delete list_delete app resume].
  eapply rtc_l; [eapply (step_at 0); [reflexivity|apply by_reader, reader_start]|].
  cbn [delete list_delete app].
  eapply rtc_l; [eapply (step_at 4); [reflexivity|]|].
  { apply by_run, (run_receive joined.1 [] w4). reflexivity. }
  cbn [delete list_delete app]. apply rtc_refl.
Qed.

Lemma reach6 : reachable empty_db (Some "instance-a") s6.
Proof.
  eapply rtc_r; [apply reach5|].
  replace s6 with (mk_state ((TRun :: spawn_leave w5 w6) ++ delete 0%nat (pool s5)) w6) by reflexivity.
  eapply (step_at 0); [reflexivity|]. apply by_run, (run_fanout _ [0%nat]); reflexivity.
Qed.

(** The client leaves; the hub unregisters it before it reports itself
    finished. *)
Definition w6' : Wd := observe ConnectedClients "" (-1) w6.
Definition w7 : Wd := disconnectClientLocked 0 w6'.
Definition w8 : Wd := (finish_lock 0 w7).2.
Definition w9 : Wd := closeForShutdown 0 w8.

Definition s9 : St :=
  mk_state [TRun; TLeave false; THeartbeat 0; THistory 0; TWriter 0; TSubscriber; TPublisher;
            TRetention; TDrain] w9.

Lemma reach9 : reachable empty_db (Some "instance-a") s9.
Proof.
  unfold reachable. etransitivity; [apply reach6|].
  eapply rtc_l; [eapply (step_at 1); [reflexivity|apply by_reader, reader_error]|].
  cbn [delete list_delete app].
  eapply rtc_l; [eapply (step_at 0); [reflexivity|apply by_reader, reader_exit]|].
  cbn [delete list_delete app].
  eapply rtc_l; [eapply (step_at 0); [reflexivity|apply by_reader, reader_unregister; reflexivity]|].
  cbn [delete list_delete app].
  eapply rtc_l; [apply (step_unregister 0); reflexivity|].
  eapply rtc_l; [eapply (step_at 1); [reflexivity|apply by_run, (run_unregister 0 w6' w7); reflexivity]|].
  replace (spawn_leave w6' w7) with [TLeave false] by reflexivity.
  cbn [delete list_delete app].
  eapply rtc_l; [eapply (step_at 2); [reflexivity|apply by_reader, (reader_finish 0 None w7 w8);
    unfold w8; apply pair_eq; vm_compute; reflexivity]|].
  cbn [delete list_delete app].
  eapply rtc_l; [eapply (step_at 0); [reflexivity|]|].
  { apply by_reader, (reader_close 0 (close (with_send ana [joined.1])) w8). reflexivity. }
  cbn [delete list_delete app]. apply rtc_refl.
Qed.

(** Instead, the hub shuts down while the client is connected. *)
Definition d0 : Wd := (drain_lock w6).2.
Definition d1 : Wd := stopBroker d0.
Definition d2 : Wd := closeForShutdown 0 (set_gauge WSDrainClientsRemaining 1 d1).
Definition d2' : Wd := observe ConnectedClients "" (-1) d2.
Definition d3 : Wd := (finish_lock 0 d2').2.
Definition d4 : Wd := set_gauge WSDrainClientsRemaining 0 d3.

Definition s_wait : St :=
  mk_state [TDrainWait {[0%nat]}; TRun; TReader 0; THeartbeat 0; THistory 0; TWriter 0; TSubscriber;
            TPublisher; TRetention] d2.
Definition s_finish : St :=
  mk_state [TFinishSend 0; TRunUnreg 0; TDrainWait {[0%nat]}; THeartbeat 0; THistory 0; TWriter 0;
            TSubscriber; TPublisher; TRetention] d4.

Lemma reach_wait : reachable empty_db (Some "instance-a") s_wait.
Proof.
  unfold reachable. etransitivity; [apply reach6|].
  eapply rtc_l; [eapply (step_at 8); [reflexivity|apply by_drain, (drain_start _ {[0%nat]} d0); reflexivity]|].
  cbn [delete list_delete app].
  eapply rtc_l; [eapply (step_at 0); [reflexivity|by eapply by_drain, drain_broker]|].
  cbn [delete list_delete app].
  eapply rtc_l; [eapply (step_at 0); [reflexivity|apply by_drain, drain_broker_deadline]|].
  cbn [delete list_delete app].
  eapply rtc_l; [eapply (step_at 0); [reflexivity|apply by_drain, drain_gauge]|].
  cbn [delete list_delete app].
  eapply rtc_l; [eapply (step_at 0); [reflexivity|apply by_drain, (drain_close 0); set_solver]|].
  replace ({[0%nat]} ∖ {[0%nat]} : gset nat) with (∅ : gset nat) by reflexivity.
  cbn [delete list_delete app].
  eapply rtc_l; [eapply (step_at 0); [reflexivity|apply by_drain, drain_closed]|].
  cbn [delete list_delete app]. apply rtc_refl.
Qed.

Lemma reach_finish : reachable empty_db (Some "instance-a") s_finish.
Proof.
  unfold reachable. etransitivity; [apply reach_wait|].
  eapply rtc_l; [eapply (step_at 2); [reflexivity|apply by_reader, reader_error]|].
  cbn [delete list_delete app].
  eapply rtc_l; [eapply (step_at 0); [reflexivity|apply by_reader, reader_exit]|].
  cbn [delete list_delete app].
  eapply rtc_l; [eapply (step_at 0); [reflexivity|apply by_reader, reader_unregister; reflexivity]|].
  cbn [delete list_delete app].
  eapply rtc_l.
  { apply (step_unregister 0 [TDrainWait {[0%nat]}; THeartbeat 0; THistory 0; TWriter 0; TSubscriber;
      TPublisher; TRetention]). apply perm_skip, Permutation_swap. }
  eapply rtc_l; [eapply (step_at 0); [reflexivity|apply by_reader, (reader_finish 0 (Some 0%nat) d2' d3);
    unfold d3; apply pair_eq; vm_compute; reflexivity]|].
  cbn [delete list_delete app].
  eapply rtc_l; [eapply (step_at 0); [reflexivity|apply by_reader, reader_finish_gauge]|].
  cbn [delete list_delete app]. apply rtc_refl.
Qed.

(** Or the client leaves while [drain] stops the broker: its notification sets the
    gauge of remaining clients to 0, and [drain] then overwrites it with the number
    it started with. *)
Definition g1 : Wd := observe ConnectedClients "" (-1) d0.
Definition g2 : Wd := (finish_lock 0 g1).2.
Definition g3 : Wd := set_gauge WSDrainClientsRemaining 0 g2.
Definition g4 : Wd := default g3 (finish_send 0 g3).
Definition g5 : Wd := set_gauge WSDrainClientsRemaining 1 (stopBroker g4).
Definition g6 : Wd := closeForShutdown 0 g5.
Definition g7 : Wd := from_option snd g6 (drain_receive {[0%nat]} g6).

Ltac next k tac := eapply rtc_l; [eapply (step_at k); [reflexivity|tac]|]; cbn [delete list_delete app].

(** The drain is over, nobody remains, and the gauge says one. *)
Lemma drain_gauge_stale :
  ∃ s : St, reachable empty_db (Some "instance-a") s ∧ TDrainStop false ∈ pool s
    ∧ metric WSDrainClientsRemaining "" (w_metrics (world s)) = 1.
Proof.
  exists (mk_state (TDrainStop false :: [TReaderClose 0; TRunUnreg 0; THeartbeat 0; THistory 0; TWriter 0;
    TSubscriber; TPublisher; TRetention]) g7).
  split; [|split; [by left|vm_compute; reflexivity]].
  unfold reachable. etransitivity; [apply reach6|].
  next 8%nat ltac:(apply by_drain, (drain_start _ {[0%nat]} d0); reflexivity).
  next 2%nat ltac:(apply by_reader, reader_error).
  next 0%nat ltac:(apply by_reader, reader_exit).
  next 0%nat ltac:(apply by_reader, reader_unregister; reflexivity).
  eapply rtc_l.
  { apply (step_unregister 0 [TDrainBroker {[0%nat]}; THeartbeat 0; THistory 0; TWriter 0; TSubscriber;
      TPublisher; TRetention]). apply perm_skip, Permutation_swap. }
  next 0%nat ltac:(apply by_reader, (reader_finish 0 (Some 0%nat) g1 g2); unfold g2; apply pair_eq;
    vm_compute; reflexivity).
  next 0%nat ltac:(apply by_reader, reader_finish_gauge).
  next 0%nat ltac:(apply by_reader, (reader_finish_send 0 g3 g4), some_eq; vm_compute; reflexivity).
  next 2%nat ltac:(by eapply by_drain, drain_broker).
  next 0%nat ltac:(apply by_drain, drain_broker_deadline).
  next 0%nat ltac:(apply by_drain, drain_gauge).
  next 0%nat ltac:(apply by_drain, (drain_close 0); set_solver).
  replace ({[0%nat]} ∖ {[0%nat]} : gset nat) with (∅ : gset nat) by reflexivity.
  next 0%nat ltac:(apply by_drain, drain_closed).
  next 0%nat ltac:(apply by_drain, (drain_finished _ ∅ g6 g7); [discriminate|apply some_pair_eq; vm_compute; reflexivity]).
  next 0%nat ltac:(apply by_drain, drain_empty).
  apply rtc_refl.
Qed.

(** ** Witnesses *)

Lemma room_isolation_witness :
  ∃ c m, w_clients w6 !! 0%nat = Some c ∧ m ∈ c_send c ++ sent w6 0 ∧ m_Room m = "general".
Proof.
  exists (with_send ana [joined.1]), joined.1. split; [reflexivity|]. split; [left|].
  apply (room_isolation empty_db (Some "instance-a") s6 0 (with_send ana [joined.1]) joined.1 reach6);
    [reflexivity|left].
Defined.

Lemma queues_bounded_witness : (length (h_broadcast (w_hub w4)) <= broadcastQueueSize)%nat
  ∧ (length (l_queue (h_leave (w_hub w9))) <= leaveNotificationQueueSize)%nat
  ∧ length (l_queue (h_leave (w_hub w9))) = 1%nat.
Proof.
  split; [vm_compute; lia|]. split; [|reflexivity].
  destruct (queues_bounded empty_db (Some "instance-a") s9 reach9) as (_&H&_). exact H.
Defined.

Lemma fanout_exact_witness :
  c_send <$> w_clients (fanout_all [0%nat] joined.1 w5) !! 0%nat = Some [joined.1].
Proof.
  destruct (fanout_exact empty_db (Some "instance-a") s5 joined.1 [0%nat] reach5) as [H _];
    [reflexivity|].
  etransitivity; [exact (f_equal (fmap c_send) (H 0%nat))|vm_compute; reflexivity].
Defined.

Lemma duplicate_window_witness :
  (remember_all ["e1"; "e2"; "e1"] w6).1 = ["e1"; "e2"]
  ∧ apart maxSeenBrokerEvents (seen_ids w6 ++ ["e1"; "e2"]).
Proof.
  split; [reflexivity|].
  apply (duplicate_window empty_db (Some "instance-a") s6 ["e1"; "e2"; "e1"] reach6).
Defined.

Lemma draining_is_closed_witness :
  isDraining d2 = true ∧ register_lock 7 d2 = (false, d2).
Proof.
  split; [reflexivity|].
  apply (draining_is_closed empty_db (Some "instance-a") s_wait reach_wait). reflexivity.
Defined.

Lemma finish_never_blocks_witness : is_Some (finish_send 0 d4).
Proof.
  apply (finish_never_blocks empty_db (Some "instance-a") s_finish 0 reach_finish). left.
Defined.

Lemma drain_waits_for_running_witness :
  0%nat ∈ ({[0%nat]} : gset nat) ∧ drain_queue d2 = []
  ∧ (∃ t, t ∈ pool s_wait ∧ (owner t = Some 0%nat ∨ sending t = Some 0%nat))
  ∧ ∃ s', rtc step s_wait s' ∧ TDrainStop false ∈ pool s'.
Proof.
  destruct (drain_waits_for_running empty_db (Some "instance-a") s_wait {[0%nat]} reach_wait)
    as [Hrun Hend]; [left|].
  split; [by apply elem_of_singleton|]. split; [reflexivity|]. split; [|exact Hend].
  destruct (Hrun 0%nat) as [[Hq|Ht] _]; [by apply elem_of_singleton| |exact Ht].
  assert (E : drain_queue (world s_wait) = []) by reflexivity. rewrite E in Hq.
  destruct (not_elem_of_nil _ Hq).
Defined.

Lemma finished_never_forgotten_witness :
  0%nat ∈ h_finished (w_hub w9) ∧ h_clients (w_hub w9) = ∅.
Proof.
  split; [|vm_compute; reflexivity].
  apply (finished_never_forgotten empty_db (Some "instance-a") s9 s9 0 reach9).
  - apply rtc_refl.
  - split; [vm_compute|intros Hin; vm_compute in Hin]; [constructor|discriminate Hin].
  - vm_compute. eexists. reflexivity.
  - unfold s9. cbn [pool]. rewrite !elem_of_cons. intros Hin.
    repeat (destruct Hin as [Hin|Hin]; [discriminate Hin|]). inversion Hin.
Defined.

Definition saved_frame := read_step
  (mk_read_world (Example.at_second 9) (Example.call_at 9) (Example.call_at 9))
  ana empty_db ∅ ClientExample.forged.

Lemma saved_message_is_valid_event_witness :
  ∃ out, saved_frame.2 = Some out ∧
  is_ok (new_event "event_2" (m_Room out) "instance-a"
    (mk_event_message (m_ID out) (m_UserID out) (m_Username out) (m_Content out) (m_Type out))
    (m_Timestamp out)) = true.
Proof.
  eexists. split; [vm_compute; reflexivity|].
  eapply (saved_message_is_valid_event
    (mk_read_world (Example.at_second 9) (Example.call_at 9) (Example.call_at 9))
    ana empty_db ∅ ClientExample.forged);
    try (vm_compute; reflexivity); try (vm_compute; discriminate).
  left. reflexivity.
Defined.

Lemma unsaved_message_passes_guard_witness :
  ∃ out, ClientExample.forged_result.2 = Some out ∧
  ∃ event, b_publish (h_broker (w_hub (queueBrokerMessage "event_3" out w6))) = Some event
    ∧ em_ID ∘ env_Message <$> event !! 1%nat = Some 99.
Proof.
  assert (H := λ out, unsaved_message_passes_guard ClientExample.failing_save ClientExample.ana
    empty_db ∅ ClientExample.forged out "event_3" w6).
  eexists. split; [vm_compute; reflexivity|].
  destruct (H _ _ ltac:(vm_compute; reflexivity) ltac:(vm_compute; reflexivity) ltac:(vm_compute; reflexivity)
    ltac:(vm_compute; reflexivity) ltac:(vm_compute; reflexivity) ltac:(vm_compute; reflexivity))
    as [(event&Hid&_&E)|(reason&Hin&E)].
  - eexists. split; [exact E|exact (f_equal Some Hid)].
  - exfalso. apply (f_equal (λ w, length <$> b_publish (h_broker (w_hub w)))) in E.
    vm_compute in E. discriminate E.
Defined.

(** The history goroutine of the client reads the join notice from the storage
    and queues it; the live broadcast of the same notice comes in between; then the
    welcome follows. *)
Definition call9 : call := Example.call_at 9.
Definition backlog : list Msg := history_backlog call9 ana (w_db w5).
Definition row : Msg := nth 0 backlog (notification "" "").
Definition h1 : Wd := put_client w5 0 (with_send ana [row]).
Definition h2 : Wd := count BroadcastFanoutDuration "" (fanout_all [0%nat] joined.1 h1).
Definition h3 : Wd := put_client h2 0 (with_send ana [row; joined.1; notification welcome "general"]).
Definition s_history : St :=
  mk_state [TBacklog 0 []; TRun; TReader 0; THeartbeat 0; TWriter 0; TSubscriber; TPublisher;
            TRetention; TDrain] h3.

Lemma acts_at k t ts (p : list thread) (w w' : Wd) :
  p !! k = Some t → thread_step t w ts w' →
  acts t (mk_state p w) (mk_state (ts ++ delete k p) w').
Proof. intros Hk Ht. apply (acts_thread t); [by apply delete_Permutation|done]. Qed.

Lemma deliveries_at i (s s' s'' : St) l t new b l' :
  deliveries i s l s' → acts t s' s'' →
  queues_history i t = b → appended i (world s') (world s'') = new → l' = l ++ ((b,.) <$> new) →
  deliveries i s l' s''.
Proof. intros Hd Ha <- <- ->. by eapply deliveries_step. Qed.

Definition rest_of_pool : list thread :=
  [TReader 0; THeartbeat 0; TWriter 0; TSubscriber; TPublisher; TRetention; TDrain].
Definition a1 : St := mk_state (TBacklog 0 backlog :: TRunFan joined.1 :: rest_of_pool) w5.
Definition a2 : St :=
  mk_state (TBacklog 0 [notification welcome "general"] :: TRunFan joined.1 :: rest_of_pool) h1.
Definition a3 : St :=
  mk_state (TRun :: TBacklog 0 [notification welcome "general"] :: rest_of_pool) h2.

Lemma acts1 : acts (THistory 0) s5 a1.
Proof.
  apply (acts_at 3 _ [TBacklog 0 backlog]); [reflexivity|]. apply by_history, history_query. reflexivity.
Qed.
Lemma acts2 : acts (TBacklog 0 backlog) a1 a2.
Proof.
  apply (acts_at 0 _ [TBacklog 0 [notification welcome "general"]]); [reflexivity|].
  replace backlog with [row; notification welcome "general"] by (vm_compute; reflexivity).
  eapply by_history, (history_queue 0 row [notification welcome "general"] ana true); reflexivity.
Qed.
Lemma acts3 : acts (TRunFan joined.1) a2 a3.
Proof.
  apply (acts_at 1 _ (TRun :: spawn_leave h1 h2)); [reflexivity|].
  apply by_run, (run_fanout _ [0%nat]); reflexivity.
Qed.
Lemma acts4 : acts (TBacklog 0 [notification welcome "general"]) a3 s_history.
Proof.
  apply (acts_at 1 _ [TBacklog 0 []]); [reflexivity|].
  eapply by_history, (history_queue 0 _ [] (with_send ana [row; joined.1]) true); reflexivity.
Qed.

Lemma history_deliveries :
  deliveries 0 s5 [(true, row); (false, joined.1); (true, notification welcome "general")] s_history.
Proof.
  eapply deliveries_at; [|apply acts4|vm_compute; reflexivity|vm_compute; reflexivity|].
  eapply deliveries_at; [|apply acts3|vm_compute; reflexivity|vm_compute; reflexivity|].
  eapply deliveries_at; [|apply acts2|vm_compute; reflexivity|vm_compute; reflexivity|].
  eapply deliveries_at; [|apply acts1|vm_compute; reflexivity|vm_compute; reflexivity|].
  constructor. all: vm_compute; reflexivity.
Qed.

Lemma history_on_connect_witness :
  received (world s_history) 0 = [row; joined.1; notification welcome "general"]
  ∧ ∃ s1 d c rest, w_clients (world s1) !! 0%nat = Some c
    ∧ history_backlog d c (w_db (world s1)) = [row; notification welcome "general"] ++ rest.
Proof.
  destruct (history_on_connect empty_db (Some "instance-a") s5 0 _ s_history reach5
    ltac:(do 3 right; left) history_deliveries) as [(c&Hc&Hr) [[Hin _]|(s1&d&c1&rest&_&_&Hc1&Hb&_)]].
  - exfalso. revert Hin. cbn [pool s_history]. rewrite !elem_of_cons. intros Hin.
    repeat (destruct Hin as [Hin|Hin]; [discriminate Hin|]). inversion Hin.
  - split; [|exists s1, d, c1, rest; exact (conj Hc1 Hb)].
    etransitivity; [apply Hr|reflexivity].
    assert (E : c_done <$> w_clients (world s_history) !! 0%nat = Some false) by reflexivity.
    rewrite Hc in E. by injection E.
Defined.
