(* ===== verification/Broker.v ===== *)
(** Redis fan-out ([internal/broker/redis.go]): the wire form of an event,
    publishing, and the subscription loop with its reconnects.

    The Redis client is third-party code: what it answers ([ParseURL], [Ping],
    [Publish], [Receive], [ReceiveMessage]) are arguments of the definitions
    here, so nothing is assumed of the server; it may deliver any bytes on any
    channel.  [zone] is the process time zone, which the codec of [time.Time]
    consults.  The calls to [handler] are returned as the list of its arguments,
    in order. *)
From S2P Require Import Prelude.
From S2P Require Import GoUnicode.
From S2P Require Import GoString.
From S2P Require Import GoTime.
From S2P Require Import Metrics.
From S2P Require Import Json.
From S2P Require Import Rooms.
From S2P Require Import Events.
From S2P Require Import Storage.
From S2P Require Import Client.
From S2P Require Import Cursor.
Open Scope Z_scope.

Definition redisMinBackoff : Z := 100 * 1000000.
Definition redisMaxBackoff : Z := 5 * Second.

(** ** The wire form of [events.Envelope] *)

Definition message_names : list string := ["id"; "user_id"; "username"; "content"; "type"].
Definition envelope_names : list string :=
  ["schema"; "version"; "event_id"; "room"; "origin_instance"; "timestamp"; "message"].

Definition zero_event_message : EventMessage := mk_event_message 0 "" "" "" "".
Definition zero_envelope : Envelope := mk_envelope "" 0 "" "" "" zero_time zero_event_message.

Definition marshal_event_message (m : EventMessage) : json :=
  JObj ((bytes "id", json_int (em_ID m))
        :: (if bool_decide (em_UserID m = "") then [] else [(bytes "user_id", json_string (em_UserID m))])
        ++ [(bytes "username", json_string (em_Username m));
            (bytes "content", json_string (em_Content m));
            (bytes "type", json_string (em_Type m))]).

(** [json.Marshal] of an envelope whose time is UTC: fails on the year alone. *)
Definition marshal_envelope (zone : Z → Z * Z * Z) (e : Envelope) : option json :=
  timestamp ← marshal_utc_time zone (env_Timestamp e);
  Some (JObj [(bytes "schema", json_string (env_Schema e));
              (bytes "version", json_int (env_Version e));
              (bytes "event_id", json_string (env_EventID e));
              (bytes "room", json_string (env_Room e));
              (bytes "origin_instance", json_string (env_OriginInstance e));
              (bytes "timestamp", timestamp);
              (bytes "message", marshal_event_message (env_Message e))]).

Definition set_message_field (name : string) (v : json) (m : EventMessage) : option EventMessage :=
  if bool_decide (name = "id") then
    n ← decode_int64 (em_ID m) v;
    Some (mk_event_message n (em_UserID m) (em_Username m) (em_Content m) (em_Type m))
  else if bool_decide (name = "user_id") then
    s ← decode_string (em_UserID m) v;
    Some (mk_event_message (em_ID m) s (em_Username m) (em_Content m) (em_Type m))
  else if bool_decide (name = "username") then
    s ← decode_string (em_Username m) v;
    Some (mk_event_message (em_ID m) (em_UserID m) s (em_Content m) (em_Type m))
  else if bool_decide (name = "content") then
    s ← decode_string (em_Content m) v;
    Some (mk_event_message (em_ID m) (em_UserID m) (em_Username m) s (em_Type m))
  else
    s ← decode_string (em_Type m) v;
    Some (mk_event_message (em_ID m) (em_UserID m) (em_Username m) (em_Content m) s).

Definition set_envelope_field (zone : Z → Z * Z * Z) (name : string) (v : json) (e : Envelope) :
    option Envelope :=
  let '(mk_envelope schema version eventID room origin timestamp message) := e in
  if bool_decide (name = "schema") then
    s ← decode_string schema v; Some (mk_envelope s version eventID room origin timestamp message)
  else if bool_decide (name = "version") then
    n ← decode_int64 version v; Some (mk_envelope schema n eventID room origin timestamp message)
  else if bool_decide (name = "event_id") then
    s ← decode_string eventID v; Some (mk_envelope schema version s room origin timestamp message)
  else if bool_decide (name = "room") then
    s ← decode_string room v; Some (mk_envelope schema version eventID s origin timestamp message)
  else if bool_decide (name = "origin_instance") then
    s ← decode_string origin v; Some (mk_envelope schema version eventID room s timestamp message)
  else if bool_decide (name = "timestamp") then
    t ← decode_time zone timestamp v;
    Some (mk_envelope schema version eventID room origin t message)
  else
    m ← decode_open_struct message_names set_message_field message v;
    Some (mk_envelope schema version eventID room origin timestamp m).

(** [json.Unmarshal] into a fresh envelope. *)
Definition unmarshal_envelope (zone : Z → Z * Z * Z) (payload : list Z) : option Envelope :=
  v ← unmarshal_value payload;
  decode_open_struct envelope_names (set_envelope_field zone) zero_envelope v.

(** ** Connecting *)

(** [Config] *)
Record BrokerConfig := mk_broker_config {
  bc_URL : string; bc_Namespace : string; bc_InstanceID : string
}.

(** [RedisFanout]: [ready] is closed, and the result of the first [Close]. *)
Record RedisFanout := mk_fanout {
  rf_namespace : string; rf_instanceID : string; rf_ready : bool; rf_closed : option bool
}.

Inductive new_redis_error :=
| URLRequired | BadNamespace (e : token_error) | BadInstanceID (e : token_error) | BadURL | PingFailed.

(** [NewRedis]; [parse_url] and [ping] say whether [redis.ParseURL] and the
    first [PING] succeed. *)
Definition new_redis (parse_url ping : string → bool) (cfg : BrokerConfig) (ms : metrics) :
    result new_redis_error RedisFanout * metrics :=
  if bool_decide (trim_space (bc_URL cfg) = "") then (Err URLRequired, ms)
  else
    let namespace := to_lower (trim_space (bc_Namespace cfg)) in
    match channel_pattern namespace with
    | Err e => (Err (BadNamespace e), ms)
    | Ok _ =>
      let instanceID := to_lower (trim_space (bc_InstanceID cfg)) in
      match validate_instance_id instanceID with
      | Err e => (Err (BadInstanceID e), ms)
      | Ok _ =>
        if negb (parse_url (trim_space (bc_URL cfg))) then (Err BadURL, ms)
        else if negb (ping (trim_space (bc_URL cfg))) then
          (Err PingFailed, inc RedisConnections "error" ms)
        else (Ok (mk_fanout namespace instanceID false None), inc RedisConnections "ok" ms)
      end
    end.

(** [Close]: the client is closed once, with the result [ok]. *)
Definition close_fanout (ok : bool) (b : RedisFanout) : bool * RedisFanout :=
  match rf_closed b with
  | Some result => (result, b)
  | None => (ok, mk_fanout (rf_namespace b) (rf_instanceID b) (rf_ready b) (Some ok))
  end.

(** ** Publishing *)

Inductive publish_error :=
| InvalidEvent (e : event_error) | ForeignOrigin | BadChannel (e : channel_error) | EncodeFailed
| TransportFailed.

(** [Publish]; [accept] says whether the PUBLISH command succeeds.  The middle
    component is the command that was issued. *)
Definition publish (zone : Z → Z * Z * Z) (accept : string → list Z → bool) (b : RedisFanout)
    (event : Envelope) (ms : metrics) :
    result publish_error unit * option (string * list Z) * metrics :=
  let failed := inc RedisPublishes "error" ms in
  match validate event with
  | Err e => (Err (InvalidEvent e), None, failed)
  | Ok _ =>
    if bool_decide (env_OriginInstance event ≠ rf_instanceID b) then (Err ForeignOrigin, None, failed)
    else match channel (rf_namespace b) (env_Room event) with
    | Err e => (Err (BadChannel e), None, failed)
    | Ok channel =>
      match marshal_envelope zone event with
      | None => (Err EncodeFailed, None, failed)
      | Some v =>
        let payload := print v in
        if accept channel payload
        then (Ok tt, Some (channel, payload), inc RedisPublishes "ok" ms)
        else (Err TransportFailed, Some (channel, payload), failed)
      end
    end
  end.

(** ** Subscribing *)

(** [redis.Message] *)
Record redis_message := mk_redis_message { rm_Channel : string; rm_Payload : string }.

(** One message of [subscribeOnce]: the event passed to [handler], if any. *)
Definition process_message (zone : Z → Z * Z * Z) (b : RedisFanout) (message : redis_message)
    (ms : metrics) : option Envelope * metrics :=
  let failed := inc RedisDecodes "error" ms in
  match unmarshal_envelope zone (bytes (rm_Payload message)) with
  | None => (None, failed)
  | Some event =>
    match validate event with
    | Err _ => (None, failed)
    | Ok _ =>
      match channel (rf_namespace b) (env_Room event) with
      | Err _ => (None, failed)
      | Ok channel =>
        if bool_decide (channel ≠ rm_Channel message) then (None, failed)
        else (Some event, inc RedisDecodes "ok" ms)
      end
    end
  end.

(** The loop of [subscribeOnce] over the messages received before the error. *)
Fixpoint process_messages (zone : Z → Z * Z * Z) (b : RedisFanout) (messages : list redis_message)
    (ms : metrics) : list Envelope * metrics :=
  match messages with
  | [] => ([], inc RedisSubscriptions "error" ms)
  | message :: messages =>
    let '(event, ms) := process_message zone b message ms in
    let '(events, ms) := process_messages zone b messages ms in
    (option_list event ++ events, ms)
  end.

(** What the connection does during one [subscribeOnce]: whether the
    subscription is confirmed, and the messages before the receive that fails. *)
Record subscription := mk_subscription { ss_confirmed : bool; ss_messages : list redis_message }.

Inductive subscribe_error := SubscribeFailed | ReceiveFailed.

(** [subscribeOnce] returns with an error only. *)
Definition subscribe_once (zone : Z → Z * Z * Z) (b : RedisFanout) (s : subscription) (ms : metrics) :
    subscribe_error * list Envelope * RedisFanout * metrics :=
  if negb (ss_confirmed s) then (SubscribeFailed, [], b, inc RedisSubscriptions "error" ms)
  else
    let b := mk_fanout (rf_namespace b) (rf_instanceID b) true (rf_closed b) in
    let '(events, ms) := process_messages zone b (ss_messages s) (inc RedisSubscriptions "ok" ms) in
    (ReceiveFailed, events, b, ms).

(** ** Reconnecting *)

(** One iteration of [Run]: the subscription, whether the context is cancelled when
    it has ended, and whether the timer of [waitForBackoff] fires before the
    context is cancelled. *)
Record attempt := mk_attempt { at_subscription : subscription; at_cancelled : bool; at_fired : bool }.

(** [backoff *= 2] and its cap. *)
Definition next_backoff (backoff : Z) : Z :=
  let backoff := wrap64 (backoff * 2) in
  if redisMaxBackoff <? backoff then redisMaxBackoff else backoff.

(** The state of [Run] after some iterations: whether it has returned (always
    nil), the waits it has begun and the events it has passed to [handler]. *)
Record run_state := mk_run_state {
  rn_returned : bool; rn_waits : list Z; rn_events : list Envelope; rn_fanout : RedisFanout;
  rn_metrics : metrics
}.

Fixpoint run_loop (zone : Z → Z * Z * Z) (backoff : Z) (b : RedisFanout) (ms : metrics)
    (attempts : list attempt) : run_state :=
  match attempts with
  | [] => mk_run_state false [] [] b ms
  | a :: attempts =>
    let '(_, events, b, ms) := subscribe_once zone b (at_subscription a) ms in
    if at_cancelled a then mk_run_state true [] events b ms
    else
      let ms := inc RedisReconnects "" ms in
      if negb (at_fired a) then mk_run_state true [backoff] events b ms
      else
        let r := run_loop zone (next_backoff backoff) b ms attempts in
        mk_run_state (rn_returned r) (backoff :: rn_waits r) (events ++ rn_events r) (rn_fanout r)
          (rn_metrics r)
  end.

Inductive run_error := HandlerRequired | BadPattern (e : token_error).

(** [Run]; [handler] says whether it is not nil. *)
Definition run_broker (zone : Z → Z * Z * Z) (handler : bool) (b : RedisFanout) (ms : metrics)
    (attempts : list attempt) : result run_error run_state :=
  if negb handler then Err HandlerRequired
  else match channel_pattern (rf_namespace b) with
  | Err e => Err (BadPattern e)
  | Ok _ => Ok (run_loop zone redisMinBackoff b ms attempts)
  end.

(** ** The codec *)

(** The strings JSON transports unchanged: valid UTF-8. *)
Notation clean s := (string_of_runes (runes s) = s).

Definition text_ok (e : Envelope) : Prop :=
  utf8 (env_EventID e) ∧ utf8 (em_Username (env_Message e)) ∧ utf8 (em_Content (env_Message e))
  ∧ utf8 (em_Type (env_Message e)).

Lemma room_chars_clean s : forallb room_char (bytes s) = true → clean s.
Proof.
  intros H%room_chars_ascii. apply string_of_runes_ascii. by rewrite (runes_ascii s H).
Qed.

Lemma token_clean s : canonical_token s = true → clean s.
Proof. unfold canonical_token. intros H. unbool. by apply room_chars_clean. Qed.

Lemma user_id_clean s : valid_user_id s = true → clean s.
Proof.
  unfold valid_user_id. destruct (_ || _); [done|]. intros H. apply string_of_runes_ascii.
  unfold ascii_bytes. rewrite forallb_forall in *. intros r Hr. specialize (H r Hr).
  unfold user_id_rune in H. lia.
Qed.

Lemma decode_clean old s : clean s → decode_string old (json_string s) = Some s.
Proof. intros H. by rewrite decode_json_string, H. Qed.

(** Decode the printed member [k] with the setter [f]: its key is the field [k],
    and the field's decoder reads back what was printed. *)
Ltac field_value :=
  repeat first [rewrite bool_decide_true by reflexivity | rewrite bool_decide_false by discriminate];
  cbv iota; rewrite ?decode_clean, ?decode_json_int by (done || lia);
  cbn [mbind option_bind em_ID em_UserID em_Username em_Content em_Type].

Ltac message_member k :=
  known_member k;
  match goal with |- context [set_message_field k ?v ?m] =>
    let e := eval cbv beta iota delta [set_message_field] in (set_message_field k v m) in
    change (set_message_field k v m) with e
  end; field_value.

Ltac envelope_member k :=
  known_member k;
  match goal with |- context [set_envelope_field ?z k ?v ?m] =>
    let e := eval cbv beta iota delta [set_envelope_field] in (set_envelope_field z k v m) in
    change (set_envelope_field z k v m) with e
  end; field_value.

Lemma decode_marshal_message m :
  0 <= em_ID m < 2 ^ 63 → clean (em_UserID m) → clean (em_Username m) → clean (em_Content m) →
  clean (em_Type m) →
  decode_open_struct message_names set_message_field zero_event_message (marshal_event_message m)
  = Some m.
Proof.
  destruct m as [id u n c t]. cbn [em_ID em_UserID em_Username em_Content em_Type].
  intros Hid Hu Hn Hc Ht. unfold marshal_event_message, zero_event_message.
  cbn [em_ID em_UserID em_Username em_Content em_Type decode_open_struct].
  case_bool_decide as He; [subst u|]; cbn [app].
  - message_member "id". message_member "username".
    message_member "content". by message_member "type".
  - message_member "id". message_member "user_id".
    message_member "username". message_member "content".
    by message_member "type".
Qed.

Section codec.
Context (zone : Z → Z * Z * Z).
Implicit Types (e : Envelope) (b : RedisFanout).

Lemma marshal_time_nesting t v : marshal_utc_time zone t = Some v → nesting v = 0.
Proof. unfold marshal_utc_time. destruct (_ && _); [|done]. by intros <-%(inj Some). Qed.

Lemma printable_message m : 0 <= em_ID m < 2 ^ 63 → printable (marshal_event_message m).
Proof.
  intros Hid. unfold marshal_event_message. case_bool_decide; cbn [app];
    split_and!; try (by apply key_ok); first [apply printable_int; lia | apply printable_string | done].
Qed.

(** What is marshalled is one value, which decodes to the event in UTC. *)
Lemma unmarshal_marshal e v :
  marshal_envelope zone e = Some v → well_formed e → text_ok e → em_ID (env_Message e) < 2 ^ 63 →
  unmarshal_envelope zone (print v) = Some e.
Proof.
  destruct e as [schema version eid room origin ts m]. unfold marshal_envelope, well_formed, text_ok.
  cbn [env_Schema env_Version env_EventID env_Room env_OriginInstance env_Timestamp env_Message].
  intros (tv&Htv&<-%(inj Some))%bind_Some. intros (->&->&_&_&_&_&Hloc&Hroom&Horigin&Hid&Hu&_).
  intros (Heid%utf8_string_of_runes&Hn%utf8_string_of_runes&Hc%utf8_string_of_runes&Ht%utf8_string_of_runes)
    Hmax.
  assert (Huid : clean (em_UserID m)).
  { destruct Hu as [->|[Hu _]]; [done|by apply user_id_clean]. }
  apply token_clean in Horigin. pose proof (canonical_string_of_runes room Hroom) as Hroomc.
  pose proof (marshal_time_nesting _ _ Htv) as Hnest.
  apply (decode_marshal_time _ zero_time) in Htv as [Hp Hd].
  unfold unmarshal_envelope, unmarshal_value. rewrite decode_print.
  2:{ split_and!; try (by apply key_ok);
        first [done | apply printable_int; unfold Version; lia | apply printable_message; lia | apply printable_string]. }
  cbn [mbind option_bind].
  replace (nesting _ <=? maxNestingDepth) with true.
  2:{ cbn [nesting json_string json_int marshal_event_message]. rewrite Hnest.
      unfold marshal_event_message. case_bool_decide; reflexivity. }
  cbn [mbind option_bind decode_open_struct]. unfold zero_envelope.
  envelope_member "schema". envelope_member "version". envelope_member "event_id".
  envelope_member "room". envelope_member "origin_instance". envelope_member "timestamp".
  rewrite Hd. cbn [mbind option_bind].
  envelope_member "message". rewrite decode_marshal_message by (done || lia). cbn [mbind option_bind].
  cbn [set_known_members]. do 2 f_equal. destruct ts as [ns l]. cbn in Hloc. by subst l.
Qed.
End codec.

(** ** Facts *)
Section facts.
Context (zone : Z → Z * Z * Z).
Implicit Types (e : Envelope) (b : RedisFanout) (ms : metrics).

(** The text of a UTC time does not depend on the process zone. *)
Lemma marshal_envelope_zone zone' e : marshal_envelope zone e = marshal_envelope zone' e.
Proof. reflexivity. Qed.

Lemma marshal_envelope_bytes e v : marshal_envelope zone e = Some v → is_bytes (print v).
Proof.
  unfold marshal_envelope. intros (ts&Hts&<-%(inj Some))%bind_Some.
  unfold marshal_utc_time in Hts. destruct ((0 <=? _) && _); [|done]. apply (inj Some) in Hts as <-.
  assert (Hm : is_bytes (print (marshal_event_message (env_Message e)))).
  { unfold marshal_event_message. apply print_obj_bytes.
    case_bool_decide; cbn [app]; repeat (apply Forall_cons; split); try apply Forall_nil_2;
      (split; cbn [fst snd]; auto with go). }
  apply print_obj_bytes. repeat (apply Forall_cons; split); try apply Forall_nil_2;
    (split; cbn [fst snd]; auto with go).
Qed.

(** What a publish that issues a command has checked. *)
Lemma publish_command accept b e ms r c payload ms' :
  publish zone accept b e ms = (r, Some (c, payload), ms') →
  well_formed e ∧ env_OriginInstance e = rf_instanceID b ∧ channel (rf_namespace b) (env_Room e) = Ok c
  ∧ (∃ v, marshal_envelope zone e = Some v ∧ payload = print v)
  ∧ (r = Ok tt ↔ accept c payload = true).
Proof.
  unfold publish. destruct (validate e) as [[]|] eqn:Hv; [|done]. case_bool_decide as Ho; [done|].
  destruct (channel _ _) as [ch|] eqn:Hc; [|done]. destruct (marshal_envelope zone e) as [v|] eqn:Hm; [|done].
  apply validate_iff in Hv.
  destruct (accept ch (print v)) eqn:Ha; intros [= <- -> <- <-];
    (split; [done|]); (split; [done|]); (split; [done|]); (split; [by exists v|by rewrite Ha]).
Qed.

(** The event a message carries, independently of the counters. *)
Definition carried b (m : redis_message) : option Envelope := (process_message zone b m ∅).1.

Lemma process_message_carried b m ms :
  process_message zone b m ms
  = (carried b m, inc RedisDecodes (if carried b m then "ok" else "error") ms).
Proof.
  unfold carried, process_message. destruct (unmarshal_envelope _ _) as [e|]; [|done].
  destruct (validate e); [|done]. destruct (channel _ _); [|done]. by case_bool_decide.
Qed.

Lemma carried_sound b m e :
  carried b m = Some e → well_formed e ∧ channel (rf_namespace b) (env_Room e) = Ok (rm_Channel m).
Proof.
  unfold carried, process_message. destruct (unmarshal_envelope _ _) as [e'|]; [|done].
  destruct (validate e') as [[]|] eqn:Hv; [|done]. destruct (channel _ _) as [ch|] eqn:Hc; [|done].
  case_bool_decide as Hch; [done|]. intros [= <-].
  apply validate_iff in Hv. by rewrite Hc, Hch.
Qed.

(** A published command reaches the subscribers of the namespace as the event,
    and no others. *)
Lemma carried_published zone' accept b b' e ms r c payload ms' :
  publish zone' accept b e ms = (r, Some (c, payload), ms') → text_ok e →
  em_ID (env_Message e) < 2 ^ 63 →
  carried b' (mk_redis_message c (of_bytes payload))
  = (if decide (normalize_token (rf_namespace b') = normalize_token (rf_namespace b))
     then Some e else None).
Proof.
  intros (Hwf&_&Hc&(v&Hv&->)&_)%publish_command Ht Hid.
  unfold carried, process_message. cbn [rm_Payload rm_Channel].
  change (marshal_envelope zone' e) with (marshal_envelope zone e) in Hv.
  rewrite bytes_of_bytes by by eauto using marshal_envelope_bytes with go.
  rewrite (unmarshal_marshal zone e v) by done.
  pose proof (proj2 (validate_iff e) Hwf) as ->.
  destruct (decide _) as [Hns|Hns].
  - assert (channel (rf_namespace b') (env_Room e) = Ok c) as ->.
    { rewrite <- Hc. unfold channel. by rewrite Hns. }
    by rewrite bool_decide_false by auto.
  - destruct (channel (rf_namespace b') (env_Room e)) as [c'|] eqn:Hc'; [|done].
    case_bool_decide as Hch; [done|]. subst c'.
    by destruct (channel_same _ _ _ _ _ Hc' Hc).
Qed.

(** A session hands over what its messages carry, in order. *)
Lemma process_messages_events b messages ms :
  (process_messages zone b messages ms).1 = omap (carried b) messages.
Proof.
  revert ms. induction messages as [|m messages IH]; intros ms; cbn [process_messages]; [done|].
  rewrite process_message_carried.
  specialize (IH (inc RedisDecodes (if carried b m then "ok" else "error") ms)).
  destruct (process_messages _ _ _ _) as [events ms']. cbn [fst] in *. subst events.
  cbn [omap list_omap]. by destruct (carried b m).
Qed.
End facts.

(** ** Reconnecting *)
Section running.
Context (zone : Z → Z * Z * Z).
Implicit Types (b : RedisFanout) (ms : metrics) (a : attempt).

(** The wait before reconnect [k]: doubled from the minimum up to the maximum. *)
Definition backoff_after (k : nat) : Z := Z.min (redisMinBackoff * 2 ^ Z.of_nat k) redisMaxBackoff.

Lemma next_backoff_after k : next_backoff (backoff_after k) = backoff_after (S k).
Proof.
  unfold next_backoff, backoff_after. rewrite Nat2Z.inj_succ, Z.pow_succ_r by lia.
  pose proof (Z.pow_pos_nonneg 2 (Z.of_nat k) ltac:(lia) ltac:(lia)) as Hp.
  set (p := 2 ^ Z.of_nat k) in *.
  assert (redisMinBackoff = 100000000) as -> by done. assert (redisMaxBackoff = 5000000000) as -> by done.
  assert (wrap64 (Z.min (100000000 * p) 5000000000 * 2) = Z.min (100000000 * p) 5000000000 * 2) as ->.
  { unfold wrap64. rewrite Z.mod_small; lia. }
  case_match; lia.
Qed.

(** An attempt after which [Run] returns, and the attempts it makes. *)
Definition last_attempt a : bool := at_cancelled a || negb (at_fired a).

Fixpoint attempts_made (l : list attempt) : list attempt :=
  match l with
  | [] => []
  | a :: l => a :: (if last_attempt a then [] else attempts_made l)
  end.

Definition attempt_messages a : list redis_message :=
  if ss_confirmed (at_subscription a) then ss_messages (at_subscription a) else [].

Lemma subscribe_once_events b s ms :
  let '(_, events, b', _) := subscribe_once zone b s ms in
  events = omap (carried zone b) (if ss_confirmed s then ss_messages s else [])
  ∧ (∀ m, carried zone b' m = carried zone b m).
Proof.
  unfold subscribe_once. destruct (ss_confirmed s); cbn [negb]; [|done].
  set (b' := mk_fanout _ _ _ _).
  pose proof (process_messages_events zone b' (ss_messages s) (inc RedisSubscriptions "ok" ms)) as He.
  destruct (process_messages _ _ _ _) as [events ms']. cbn [fst] in He. by split.
Qed.

Lemma run_loop_spec k b ms attempts :
  let r := run_loop zone (backoff_after k) b ms attempts in
  rn_returned r = existsb last_attempt attempts
  ∧ rn_waits r = backoff_after <$>
      seq k (length (List.filter (λ a, negb (at_cancelled a)) (attempts_made attempts)))
  ∧ rn_events r = attempts_made attempts ≫= λ a, omap (carried zone b) (attempt_messages a).
Proof.
  revert k b ms. induction attempts as [|a attempts IH]; intros k b ms; cbn [run_loop]; [done|].
  pose proof (subscribe_once_events b (at_subscription a) ms) as Hs.
  destruct (subscribe_once _ _ _ _) as [[[err events] b'] ms']. destruct Hs as [-> Hb].
  fold (attempt_messages a). cbn [existsb attempts_made].
  assert (Hl : last_attempt a = at_cancelled a || negb (at_fired a)) by done.
  destruct (at_cancelled a) eqn:Hc.
  { rewrite Hl. cbn. rewrite Hc, app_nil_r. done. }
  destruct (at_fired a) eqn:Hf; cbn [negb orb] in *; rewrite Hl.
  2:{ cbn. rewrite Hc, app_nil_r. done. }
  specialize (IH (S k) b' (inc RedisReconnects "" ms')) as (Hr&Hw&He).
  rewrite next_backoff_after. cbn zeta. cbn [rn_returned rn_waits rn_events].
  rewrite Hr, Hw, He. split_and!; [done|..].
  - cbn [List.filter]. by rewrite Hc.
  - cbn [mbind list_bind]. f_equal. apply list_bind_ext; [|done].
    intros x. apply list_omap_ext, Forall_Forall2_diag, Forall_true. done.
Qed.
End running.

(** A valid event of this instance is sent, whatever Redis answers. *)
Lemma publish_valid zone accept b e ms :
  well_formed e → four_digit_year (env_Timestamp e) → env_OriginInstance e = rf_instanceID b →
  is_ok (normalize_token (rf_namespace b)) = true →
  ∃ c payload,
    publish zone accept b e ms
    = (if accept c payload then Ok tt else Err TransportFailed, Some (c, payload),
       inc RedisPublishes (if accept c payload then "ok" else "error") ms)
    ∧ channel (rf_namespace b) (env_Room e) = Ok c.
Proof.
  intros Hwf Hy Ho Hns. destruct (normalize_token (rf_namespace b)) as [ns|] eqn:Hn; [|done].
  assert (is_Some (marshal_envelope zone e)) as [v Hv].
  { unfold marshal_envelope, marshal_utc_time. unfold four_digit_year in Hy.
    replace ((0 <=? year (env_Timestamp e)) && _) with true by lia. cbn [mbind option_bind]. eauto. }
  assert (∃ c, channel (rf_namespace b) (env_Room e) = Ok c) as [c Hc].
  { unfold channel. rewrite Hn. destruct Hwf as (_&_&_&_&_&_&_&Hroom&_).
    rewrite normalize_room_canonical by done. eauto. }
  exists c, (print v). split; [|done]. unfold publish.
  rewrite (proj2 (validate_iff e) Hwf), bool_decide_false by auto.
  rewrite Hc, Hv. by destruct (accept c (print v)).
Qed.

(** ** Properties *)

Definition example_envelope : Envelope :=
  mk_envelope Schema Version "event_01" "general" "instance-a" (mk_time 63921787200123456789 UTC)
    (mk_event_message 42 "usr_alice" "Alice" "hello from the room" "message").
Definition example_fanout (namespace instanceID : string) : RedisFanout :=
  mk_fanout namespace instanceID false None.
Definition no_zone : Z → Z * Z * Z := λ _, (0, 0, 0).

Lemma example_envelope_ok :
  well_formed example_envelope ∧ text_ok example_envelope
  ∧ four_digit_year (env_Timestamp example_envelope).
Proof.
  split; [apply validate_iff; vm_compute; reflexivity|]. split.
  - split_and!; apply plain_utf8; vm_compute; reflexivity.
  - vm_compute. split; discriminate.
Qed.

(** C14: publish and receive are inverse.  A valid event of this instance, with
    text in UTF-8 and a year of four digits, is sent to its room's channel, and
    [Publish] reports exactly whether Redis took the command.  Whoever receives
    it, in whatever time zone, gets the very event: every field and the
    timestamp to the nanosecond.  A subscriber of another namespace that is
    handed the message all the same refuses and counts it. *)
Theorem broker_round_trip zone accept b e ms :
  well_formed e → text_ok e → em_ID (env_Message e) < 2 ^ 63 → four_digit_year (env_Timestamp e) →
  env_OriginInstance e = rf_instanceID b → is_ok (normalize_token (rf_namespace b)) = true →
  ∃ c payload,
    publish zone accept b e ms
    = (if accept c payload then Ok tt else Err TransportFailed, Some (c, payload),
       inc RedisPublishes (if accept c payload then "ok" else "error") ms)
    ∧ channel (rf_namespace b) (env_Room e) = Ok c
    ∧ ∀ zone' b' ms',
      process_message zone' b' (mk_redis_message c (of_bytes payload)) ms'
      = if decide (normalize_token (rf_namespace b') = normalize_token (rf_namespace b))
        then (Some e, inc RedisDecodes "ok" ms') else (None, inc RedisDecodes "error" ms').
Proof.
  intros Hwf Ht Hid Hy Ho Hns.
  destruct (publish_valid zone accept b e ms Hwf Hy Ho Hns) as (c&payload&Hp&Hc).
  exists c, payload. split_and!; [done..|]. intros zone' b' ms'. rewrite process_message_carried.
  rewrite (carried_published zone' _ _ _ _ _ _ _ _ _ _ Hp Ht Hid). by destruct (decide _).
Qed.

Lemma broker_round_trip_witness :
  ∃ c payload,
    publish no_zone (λ _ _, true) (example_fanout "production" "instance-a") example_envelope ∅
    = (Ok tt, Some (c, payload), inc RedisPublishes "ok" ∅)
    ∧ process_message no_zone (example_fanout "production" "instance-b")
        (mk_redis_message c (of_bytes payload)) ∅
      = (Some example_envelope, inc RedisDecodes "ok" ∅).
Proof.
  destruct example_envelope_ok as (Hwf&Ht&Hy).
  destruct (broker_round_trip no_zone (λ _ _, true) (example_fanout "production" "instance-a")
              example_envelope ∅ Hwf Ht) as (c&payload&Hp&_&Hr);
    [reflexivity|exact Hy|reflexivity|vm_compute; reflexivity|].
  exists c, payload. split; [exact Hp|]. rewrite Hr. by rewrite decide_True.
Defined.

(** C15: nothing unchecked reaches the hub.  Whatever bytes Redis delivers on
    whatever channel, over any number of reconnects, the handler is called with
    exactly the events the messages of the confirmed subscriptions carry, in
    order; each is well formed and came on the channel of its own room in this
    namespace. *)
Theorem run_delivers_valid_events zone b ms attempts r :
  run_broker zone true b ms attempts = Ok r →
  rn_events r = attempts_made attempts ≫= (λ a, omap (carried zone b) (attempt_messages a))
  ∧ Forall (λ e, well_formed e
      ∧ ∃ m, m ∈ attempts_made attempts ≫= attempt_messages
        ∧ channel (rf_namespace b) (env_Room e) = Ok (rm_Channel m)) (rn_events r).
Proof.
  unfold run_broker. cbn [negb]. destruct (channel_pattern _); [|done]. intros <-%(inj Ok).
  destruct (run_loop_spec zone 0 b ms attempts) as (_&_&He). change (backoff_after 0) with redisMinBackoff in He.
  rewrite He. split; [done|]. apply Forall_forall. intros e (x&He'&Hx)%list_elem_of_bind.
  apply list_elem_of_omap in He' as (m&Hm&Hc). apply carried_sound in Hc as [Hwf Hch].
  split; [done|]. exists m. split; [|done]. apply list_elem_of_bind. eauto.
Qed.

(** C16: reconnecting backs off exponentially and is bounded.  The k-th wait is
    min (100 ms * 2^k) 5 s, there is one per attempt that the context survived,
    and [Run] returns (without error) exactly when an attempt sees the context
    cancelled, never because of what Redis does. *)
Theorem reconnect_backoff zone b ms attempts r :
  run_broker zone true b ms attempts = Ok r →
  rn_returned r = existsb last_attempt attempts
  ∧ rn_waits r = backoff_after <$>
      seq 0 (length (List.filter (λ a, negb (at_cancelled a)) (attempts_made attempts)))
  ∧ Forall (λ d, redisMinBackoff <= d <= redisMaxBackoff) (rn_waits r).
Proof.
  unfold run_broker. cbn [negb]. destruct (channel_pattern _); [|done]. intros <-%(inj Ok).
  destruct (run_loop_spec zone 0 b ms attempts) as (Hr&Hw&_). change (backoff_after 0) with redisMinBackoff in *.
  split; [done|]. split; [done|]. rewrite Hw. apply Forall_fmap, Forall_forall. intros k _. cbn.
  unfold backoff_after. assert (redisMinBackoff = 100000000) as -> by done.
  assert (redisMaxBackoff = 5000000000) as -> by done.
  pose proof (Z.pow_pos_nonneg 2 (Z.of_nat k) ltac:(lia) ltac:(lia)). lia.
Qed.

(** A run: a foreign payload, an event on the wrong channel, the event itself,
    a refused subscription, and the event again before the context ends. *)
Definition example_publish : result publish_error unit * option (string * list Z) * metrics :=
  publish no_zone (λ _ _, true) (example_fanout "production" "instance-a") example_envelope ∅.
Definition example_payload : string := of_bytes (default [] (snd <$> example_publish.1.2)).
Definition example_channel : string := "chatster:v1:production:room:general".
Definition example_attempts : list attempt :=
  [ mk_attempt (mk_subscription true
      [ mk_redis_message example_channel "{}";
        mk_redis_message "chatster:v1:production:room:random" example_payload;
        mk_redis_message example_channel example_payload ]) false true;
    mk_attempt (mk_subscription false [mk_redis_message example_channel example_payload]) false true;
    mk_attempt (mk_subscription true [mk_redis_message example_channel example_payload]) true true ].
Definition example_run : run_state :=
  run_loop no_zone redisMinBackoff (example_fanout "production" "instance-b") ∅ example_attempts.

Lemma example_run_ok :
  run_broker no_zone true (example_fanout "production" "instance-b") ∅ example_attempts = Ok example_run.
Proof. vm_compute. reflexivity. Qed.

Lemma run_delivers_valid_events_witness :
  rn_events example_run = [example_envelope; example_envelope]
  ∧ Forall (λ e, well_formed e
      ∧ ∃ m, m ∈ attempts_made example_attempts ≫= attempt_messages
        ∧ channel "production" (env_Room e) = Ok (rm_Channel m)) (rn_events example_run).
Proof.
  split; [vm_compute; reflexivity|].
  exact (proj2 (run_delivers_valid_events no_zone _ ∅ example_attempts example_run example_run_ok)).
Defined.

Lemma reconnect_backoff_witness :
  rn_returned example_run = true ∧ rn_waits example_run = [100000000; 200000000].
Proof.
  destruct (reconnect_backoff no_zone _ ∅ example_attempts example_run example_run_ok) as (Hr&Hw&_).
  rewrite Hr, Hw. split; reflexivity.
Defined.
