(* ===== verification/Delivery.v ===== *)
(** Cross-instance delivery: the hub's publisher and subscriber ([hub.go]) over
    the Redis fan-out ([internal/broker/redis.go]).  An event the hub of one
    instance queues is followed through the wire into the broadcast queue of
    another. *)
From S2P Require Import Prelude.
From S2P Require Import GoUnicode.
From S2P Require Import GoString.
From S2P Require Import GoTime.
From S2P Require Import Metrics.
From S2P Require Import Json.
From S2P Require Import Rooms.
From S2P Require Import Events.
From S2P Require Import Storage.
From S2P Require Import Sqlite.
From S2P Require Import Client.
From S2P Require Import Hub.
From S2P Require Import HubFacts.
From S2P Require Import Broker.
Open Scope Z_scope.

Section delivery.
Context `{RateLimiter} {S : Type} `{Repository S}.
Implicit Types (w : World (S:=S)) (m : Msg) (e : Envelope) (b : RedisFanout).

(** The case [event := <-h.brokerPublish] of [runBrokerPublisher], with the
    command [Publish] issues; its error is only logged. *)
Definition publish_next (zone : Z → Z * Z * Z) (accept : string → list Z → bool) b w :
    option (option (string * list Z) * World (S:=S)) :=
  match b_publish (h_broker (w_hub w)) with
  | Some (event :: q) =>
    let h := h_broker (w_hub w) in
    let w := set_hub w (set_broker (w_hub w) (set_publish h q)) in
    let '(_, command, ms) := publish zone accept b event (w_metrics w) in
    Some (command, set_metrics w ms)
  | _ => None
  end.

(** [handleRemoteEvent] is the handler of [runBrokerSubscriber]. *)
Definition handle_events (pick : bool) (es : list Envelope) w : World (S:=S) :=
  foldl (λ w e, handleRemoteEvent pick e w) w es.

(** ** Facts *)

(** The hub of the origin drops its own events. *)
Lemma own_events_dropped pick es w :
  Forall (λ e, env_OriginInstance e = b_instanceID (h_broker (w_hub w))) es →
  w_hub (handle_events pick es w) = w_hub w.
Proof.
  unfold handle_events. revert w. induction es as [|e es IH]; intros w Hes; [done|].
  apply Forall_cons in Hes as [He Hes]. cbn [foldl].
  assert (Hw : handleRemoteEvent pick e w = count RedisDrops "loop" w).
  { unfold handleRemoteEvent. by rewrite decide_True. }
  rewrite Hw, IH; done.
Qed.

(** Remembering an event changes the window only. *)
Lemma remember_hub id w :
  ∃ seen ids, w_hub (rememberBrokerEvent id w).2
    = set_broker (w_hub w) (set_seen (h_broker (w_hub w)) seen ids).
Proof.
  unfold rememberBrokerEvent. destruct (decide _).
  - exists (b_seenEvents (h_broker (w_hub w))), (b_seenEventIDs (h_broker (w_hub w))).
    by destruct w as [[? ? ? ? ? ? [] ?] ? ? ? ?].
  - destruct (maxSeenBrokerEvents <? _)%nat; [destruct (b_seenEventIDs _ ++ _)|]; simpl; eauto.
Qed.

(** A hub that accepts remote events: it is open and has room. *)
Definition open_hub (h : Hub) : Prop :=
  d_draining (h_drain h) = false ∧ h_done h = false ∧ (length (h_broadcast h) < broadcastQueueSize)%nat.

(** A new event of another instance is queued once and remembered. *)
Lemma handle_fresh pick e w :
  env_OriginInstance e ≠ b_instanceID (h_broker (w_hub w)) →
  seen_ok w → env_EventID e ∉ seen_ids w → open_hub (w_hub w) →
  let w' := handleRemoteEvent pick e w in
  h_broadcast (w_hub w') = h_broadcast (w_hub w) ++ [remote_message e]
  ∧ seen_ok w' ∧ env_EventID e ∈ seen_ids w'
  ∧ b_instanceID (h_broker (w_hub w')) = b_instanceID (h_broker (w_hub w)).
Proof.
  intros Ho Hseen Hnew (Hd&Hdone&Hroom). cbv zeta. unfold handleRemoteEvent. rewrite decide_False by done.
  destruct (remember_spec (env_EventID e) w Hseen) as (Hf&Hids&Hok&_&_).
  destruct (remember_hub (env_EventID e) w) as (seen&ids&Hh).
  destruct (rememberBrokerEvent (env_EventID e) w) as [fresh w1]. cbn [fst snd] in *.
  rewrite bool_decide_false in Hf by done. subst fresh. cbn [negb].
  unfold isDraining. rewrite Hh. cbn [set_broker h_drain]. rewrite Hd.
  unfold remote_send. rewrite Hh. cbn [set_broker h_broadcast h_done]. rewrite Hdone.
  replace (_ <? _)%nat with true by (symmetry; by apply Nat.ltb_lt).
  cbn [negb orb andb]. unfold seen_ok, seen_ids in *. rewrite Hh in Hok, Hids.
  cbn in *. split_and!; try done; try apply Hok.
  rewrite Hids. apply elem_of_last_n_snoc. unfold maxSeenBrokerEvents. lia.
Qed.

(** A remembered event changes nothing but a counter. *)
Lemma handle_known pick e w :
  seen_ok w → env_EventID e ∈ seen_ids w → w_hub (handleRemoteEvent pick e w) = w_hub w.
Proof.
  intros (Hs&_) Hin. unfold handleRemoteEvent. destruct (decide _); [done|].
  unfold rememberBrokerEvent. rewrite decide_True; [done|].
  rewrite Hs. by apply elem_of_list_to_set.
Qed.

Lemma handle_known_all pick e n w :
  seen_ok w → env_EventID e ∈ seen_ids w →
  w_hub (handle_events pick (replicate n e) w) = w_hub w.
Proof.
  unfold handle_events. revert w. induction n as [|n IH]; intros w Hs Hin; [done|].
  cbn [replicate foldl]. pose proof (handle_known pick e w Hs Hin) as Hw.
  rewrite IH; [done|..]; unfold seen_ok, seen_ids in *; by rewrite Hw.
Qed.

(** What [queueBrokerMessage] appends. *)
Lemma queue_appends eventID m w q e :
  b_publish (h_broker (w_hub w)) = Some q →
  b_publish (h_broker (w_hub (queueBrokerMessage eventID m w))) = Some (q ++ [e]) →
  new_event eventID (m_Room m) (b_instanceID (h_broker (w_hub w)))
    (mk_event_message (m_ID m) (m_UserID m) (m_Username m) (m_Content m) (m_Type m)) (m_Timestamp m)
  = Ok e.
Proof.
  intros Hq. unfold queueBrokerMessage. rewrite Hq.
  assert (Hno : Some q ≠ Some (q ++ [e])).
  { intros [= Hq']. apply (f_equal length) in Hq'. rewrite length_app in Hq'. simpl in Hq'. lia. }
  destruct (negb _); [by rewrite Hq|]. destruct (_ || _); [cbn; by rewrite Hq|].
  destruct (new_event _ _ _ _ _) as [e'|]; [|cbn; by rewrite Hq].
  destruct (_ <? _)%nat; [|cbn; by rewrite Hq]. cbn. by intros [= <-%(inj (app q))%(inj (λ x, [x]))].
Qed.

(** Copies of one command are so many copies of its event. *)
Lemma process_replicate zone b (rm : redis_message) e n ms :
  carried zone b rm = Some e → (process_messages zone b (replicate n rm) ms).1 = replicate n e.
Proof.
  intros Hc. rewrite process_messages_events. induction n as [|n IH]; [done|].
  cbn [replicate omap list_omap]. by rewrite Hc, IH.
Qed.

(** C13: a message crosses instances once, unchanged.  When the hub of an
    instance has queued the event of a saved message, its publisher sends it on
    the channel of the room; every open hub of another instance in the same
    namespace that has not seen it puts the message, with the id, identity,
    name, text, type, room and instant it had, into its broadcast queue exactly
    once, however often the command is delivered; and an instance that gets its
    own event back changes nothing. *)
Theorem event_delivered_once zone accept fa eventID m (wA : World (S:=S)) q e ms :
  b_publish (h_broker (w_hub wA)) = Some q →
  b_publish (h_broker (w_hub (queueBrokerMessage eventID m wA))) = Some (q ++ [e]) →
  m_ID m < 2 ^ 63 → four_digit_year (m_Timestamp m) →
  utf8 eventID → utf8 (m_Username m) → utf8 (m_Content m) → utf8 (m_Type m) →
  rf_instanceID fa = b_instanceID (h_broker (w_hub wA)) →
  is_ok (normalize_token (rf_namespace fa)) = true →
  ∃ command,
    (publish zone accept fa e ms).1.2 = Some command
    ∧ ∀ zone' fb n pick (wB : World (S:=S)) ms',
      normalize_token (rf_namespace fb) = normalize_token (rf_namespace fa) →
      seen_ok wB → eventID ∉ seen_ids wB → open_hub (w_hub wB) →
      let messages := replicate (Datatypes.S n) (mk_redis_message command.1 (of_bytes command.2)) in
      let wB' := handle_events pick (process_messages zone' fb messages ms').1 wB in
      if decide (b_instanceID (h_broker (w_hub wB)) = b_instanceID (h_broker (w_hub wA)))
      then w_hub wB' = w_hub wB
      else h_broadcast (w_hub wB') = h_broadcast (w_hub wB)
             ++ [mk_msg (m_ID m) (m_UserID m) (m_Username m) (m_Content m) (m_Type m) (m_Room m)
                   (utc (m_Timestamp m))].
Proof.
  intros Hq Hq' Hid Hy Hue Hun Huc Hut Hi Hns.
  apply (queue_appends _ _ _ _ _ Hq) in Hq' as [Hwf He]%new_event_ok.
  destruct (publish_valid zone accept fa e ms Hwf) as (c&payload&Hp&_); [by subst e..|done|].
  assert (Ht : text_ok e) by by subst e.
  exists (c, payload). split; [by rewrite Hp|].
  intros zone' fb n pick wB ms' Hsame Hseen Hnew Hopen. cbn [fst snd].
  rewrite (process_replicate _ _ _ e).
  2:{ rewrite (carried_published zone' zone accept fa fb e ms _ c payload _ Hp Ht) by by subst e.
      by rewrite decide_True. }
  assert (Horigin : env_OriginInstance e = b_instanceID (h_broker (w_hub wA))) by by subst e.
  assert (Heid : env_EventID e = eventID) by by subst e.
  destruct (decide _) as [Hb|Hb].
  { apply own_events_dropped, Forall_replicate. congruence. }
  cbn [replicate]. unfold handle_events. cbn [foldl].
  destruct (handle_fresh pick e wB) as (Hbc&Hok&Hin&_); [congruence|done|congruence|done|].
  fold (handle_events pick (replicate n e) (handleRemoteEvent pick e wB)).
  rewrite handle_known_all by done. rewrite Hbc. by subst e.
Qed.
End delivery.

(** ** An example

    Two instances on SQLite; the message of one in the queue of the other. *)
Module DeliveryExample.
#[local] Existing Instances text_driver text_driver_laws fixed_bucket.

Definition instance (id : string) : World (S:=DB) :=
  startBroker (mk_world (newHub (Some id)) ∅ empty_db ∅ ∅).
Definition hello : Msg :=
  mk_msg 42 "usr_alice" "Alice" "hello from the room" "message" "general"
    (mk_time 63921787200123456789 UTC).

Lemma event_delivered_once_witness :
  ∃ command,
    (publish no_zone (λ _ _, true) (example_fanout "production" "instance-a") example_envelope ∅).1.2
      = Some command
    ∧ h_broadcast (w_hub (handle_events true
        (process_messages no_zone (example_fanout "Production" "instance-b")
           (replicate 3 (mk_redis_message command.1 (of_bytes command.2))) ∅).1
        (instance "instance-b"))) = [hello].
Proof.
  destruct (event_delivered_once no_zone (λ _ _, true) (example_fanout "production" "instance-a")
              "event_01" hello (instance "instance-a") [] example_envelope ∅) as (command&Hp&Hd);
    [reflexivity|vm_compute; reflexivity|reflexivity|exact (proj2 (proj2 example_envelope_ok))|
     apply plain_utf8; reflexivity..|reflexivity|reflexivity|].
  exists command. split; [exact Hp|].
  rewrite (Hd no_zone (example_fanout "Production" "instance-b") 2%nat true (instance "instance-b") ∅).
  - reflexivity.
  - reflexivity.
  - split; [reflexivity|]. split; [constructor|]. cbn. lia.
  - apply not_elem_of_nil.
  - split; [reflexivity|]. split; [reflexivity|]. apply Nat.ltb_lt. reflexivity.
Defined.
End DeliveryExample.
