(* ===== verification/Config.v ===== *)
(** Process configuration ([internal/config/config.go]).  The environment is the
    function [os.Getenv]: the empty string stands for an unset variable.
    [parse_float] and [parse_duration] are [strconv.ParseFloat(v, 64)] and
    [time.ParseDuration], whose floating-point arithmetic is not modelled: every
    statement holds for any such functions. *)
From Stdlib Require Import QArith_base.
From S2P Require Import Prelude.
From S2P Require Import GoUnicode.
From S2P Require Import GoString.
From S2P Require Import GoTime.
From S2P Require Import GoStrconv.
From S2P Require Import Http.
From S2P Require Import Storage.
From S2P Require Import Client.
Open Scope Z_scope.

Definition defaultHTTPAddr : string := ":8080".
Definition defaultDBPath : string := "./chatster.db".
Definition defaultStorage : string := "sqlite".
Definition defaultPostgresMinConns : Z := 2.
Definition defaultPostgresMaxConns : Z := 10.
Definition defaultWSUpgradeRPS : float64 := Finite (inject_Z 5).
Definition defaultWSUpgradeBurst : Z := 10.
Definition defaultMessageRPS : float64 := Finite (inject_Z 5).
Definition defaultMessageBurst : Z := 10.
Definition defaultMessageRetentionDays : Z := 0.
Definition defaultAuditRetentionDays : Z := 0.
Definition defaultRedisNamespace : string := "development".
Definition defaultAuthMode : string := "anonymous".
Definition defaultSessionTTL : Z := 3600 * Second.

Record Config := mk_config {
  HTTPAddr : string;
  DBPath : string;
  cfg_Storage : string;
  PostgresDSN : string;
  PostgresMinConns : Z;
  PostgresMaxConns : Z;
  RedisURL : string;
  RedisNamespace : string;
  InstanceID : string;
  StaticDir : string;
  AllowedOrigins : list string;
  AuthMode : string;
  SessionSecret : string;
  AuthUsersJSON : string;
  SessionTTL : Z;
  SessionCookieSecure : bool;
  WSUpgradeRPS : float64;
  WSUpgradeBurst : Z;
  DisableWSRateLimit : bool;
  cfg_MessageRPS : float64;
  cfg_MessageBurst : Z;
  cfg_DisableMessageRateLimit : bool;
  MessageRetentionDays : Z;
  AuditRetentionDays : Z
}.

(** What [newMessageLimiter] reads. *)
Definition limit_config (cfg : Config) : LimitConfig :=
  mk_limit_config (cfg_DisableMessageRateLimit cfg) (cfg_MessageRPS cfg) (cfg_MessageBurst cfg).

(** [splitCSV] *)
Definition split_csv (s : string) : list string :=
  if bool_decide (s = "") then []
  else List.filter (λ p, negb (bool_decide (p = "")))
         ((λ bs, trim_space (of_bytes bs)) <$> split_on (chr ",") (bytes s)).

Section env.
Context (getenv : string → string) (parse_float : string → option float64)
  (parse_duration : string → option Z).

(** [strings.TrimSpace(os.Getenv(name))] *)
Definition trimmed_env (name : string) : string := trim_space (getenv name).

(** [parsePoolSizeEnv] *)
Definition parse_pool_size_env (name : string) (defaultValue : Z) : Z :=
  let raw := trimmed_env name in
  if bool_decide (raw = "") then defaultValue
  else match parse_int 32 raw with
  | None => -1
  | Some n => if n <? 1 then -1 else n
  end.

(** [platformHTTPAddr] *)
Definition platform_http_addr : string :=
  let port := trimmed_env "PORT" in
  if bool_decide (port = "") then defaultHTTPAddr
  else match atoi port with
  | None => defaultHTTPAddr
  | Some portNumber =>
    if (portNumber <? 1) || (65535 <? portNumber) then defaultHTTPAddr
    else ":" +:+ itoa portNumber
  end.

(** A positive integer, or the default: the retention and burst variables. *)
Definition positive_env (name : string) (defaultValue : Z) : Z :=
  let v := trimmed_env name in
  if bool_decide (v = "") then defaultValue
  else match atoi v with
  | Some n => if 0 <? n then n else defaultValue
  | None => defaultValue
  end.

(** A rate variable: the rate, and whether limiting is disabled. *)
Definition rate_env (name : string) (defaultValue : float64) : float64 * bool :=
  let v := trimmed_env name in
  if bool_decide (v = "0") then (defaultValue, true)
  else if bool_decide (v = "") then (defaultValue, false)
  else match parse_float v with
  | Some f => if le_zero f then (defaultValue, true) else (f, false)
  | None => (defaultValue, false)
  end.

Definition session_ttl_env : Z :=
  let raw := trimmed_env "CHATSTER_SESSION_TTL" in
  if bool_decide (raw = "") then defaultSessionTTL
  else match parse_duration raw with None => -1 | Some parsed => parsed end.

Definition or_default (s defaultValue : string) : string :=
  if bool_decide (s = "") then defaultValue else s.

(** [FromEnv] *)
Definition from_env : Config :=
  let wsRate := rate_env "CHATSTER_WS_UPGRADE_RPS" defaultWSUpgradeRPS in
  let messageRate := rate_env "CHATSTER_MESSAGE_RPS" defaultMessageRPS in
  {| HTTPAddr := or_default (trimmed_env "CHATSTER_HTTP_ADDR") platform_http_addr;
     DBPath := or_default (trimmed_env "CHATSTER_DB_PATH") defaultDBPath;
     cfg_Storage := or_default (to_lower (trimmed_env "CHATSTER_STORAGE")) defaultStorage;
     PostgresDSN := trimmed_env "CHATSTER_POSTGRES_DSN";
     PostgresMinConns := parse_pool_size_env "CHATSTER_POSTGRES_MIN_CONNS" defaultPostgresMinConns;
     PostgresMaxConns := parse_pool_size_env "CHATSTER_POSTGRES_MAX_CONNS" defaultPostgresMaxConns;
     RedisURL := trimmed_env "CHATSTER_REDIS_URL";
     RedisNamespace := or_default (trimmed_env "CHATSTER_REDIS_NAMESPACE") defaultRedisNamespace;
     InstanceID := trimmed_env "CHATSTER_INSTANCE_ID";
     StaticDir := trimmed_env "CHATSTER_STATIC_DIR";
     AllowedOrigins := split_csv (getenv "CHATSTER_ALLOWED_ORIGINS");
     AuthMode := or_default (to_lower (trimmed_env "CHATSTER_AUTH_MODE")) defaultAuthMode;
     SessionSecret := getenv "CHATSTER_SESSION_SECRET";
     AuthUsersJSON := getenv "CHATSTER_AUTH_USERS_JSON";
     SessionTTL := session_ttl_env;
     SessionCookieSecure := negb (equal_fold (trimmed_env "CHATSTER_SESSION_COOKIE_SECURE") "false");
     WSUpgradeRPS := wsRate.1;
     WSUpgradeBurst := positive_env "CHATSTER_WS_UPGRADE_BURST" defaultWSUpgradeBurst;
     DisableWSRateLimit := wsRate.2;
     cfg_MessageRPS := messageRate.1;
     cfg_MessageBurst := positive_env "CHATSTER_MESSAGE_BURST" defaultMessageBurst;
     cfg_DisableMessageRateLimit := messageRate.2;
     MessageRetentionDays := positive_env "CHATSTER_MESSAGE_RETENTION_DAYS" defaultMessageRetentionDays;
     AuditRetentionDays := positive_env "CHATSTER_AUDIT_RETENTION_DAYS" defaultAuditRetentionDays |}.
End env.

(** ** Facts *)

(** An entry that [splitCSV] keeps. *)
Definition csv_entry (o : string) : Prop := o ≠ "" ∧ trim_space o = o.

Lemma split_csv_entries s : Forall csv_entry (split_csv s).
Proof.
  unfold split_csv. case_bool_decide; [constructor|]. apply Forall_forall. intros o Ho.
  apply elem_of_filter_bool in Ho as [Hne Ho]. unbool. split; [done|].
  apply list_elem_of_fmap in Ho as (bs&->&_). apply trim_space_idemp.
Qed.

Lemma split_csv_join (os : list string) s :
  bytes s = join_with (chr ",") (bytes <$> os) → Forall (λ o, csv_entry o ∧ chr "," ∉ bytes o) os →
  split_csv s = os.
Proof.
  intros Hs Hos. unfold split_csv. rewrite Hs. destruct os as [|o os].
  { by rewrite bool_decide_true by by apply bytes_inj. }
  rewrite bool_decide_false.
  2:{ intros ->. apply Forall_cons in Hos as [[[Ho _] _] _]. destruct o; [done|]. cbn in Hs. done. }
  rewrite split_join; [|done|].
  2:{ apply Forall_fmap. eapply Forall_impl; [exact Hos|]. by intros o' [_ ?]. }
  clear Hs. revert Hos. generalize (o :: os). clear o os. intros os Hos.
  induction Hos as [|o os [[Ho Ht] _] _ IH]; [done|]. rewrite !fmap_cons. cbn [List.filter].
  rewrite of_bytes_bytes, Ht, bool_decide_false by done. cbn [negb]. by rewrite IH.
Qed.

Lemma parse_pool_size_range getenv name d :
  1 <= d < 2 ^ 31 →
  parse_pool_size_env getenv name d = -1 ∨ 1 <= parse_pool_size_env getenv name d < 2 ^ 31.
Proof.
  intros Hd. unfold parse_pool_size_env. case_bool_decide; [by right|].
  destruct (parse_int 32 _) as [n|] eqn:Hn; [|by left]. apply parse_int_range in Hn.
  destruct (n <? 1) eqn:?; [by left|right; lia].
Qed.

Lemma positive_env_range getenv name d lo :
  lo <= d < 2 ^ 63 → lo <= 1 → lo <= positive_env getenv name d < 2 ^ 63.
Proof.
  intros Hd Hlo. unfold positive_env. case_bool_decide; [done|].
  destruct (atoi _) as [n|] eqn:Hn; [|done]. apply parse_int_range in Hn.
  destruct (0 <? n) eqn:?; lia.
Qed.

Lemma rate_env_positive getenv parse_float name d :
  le_zero d = false → le_zero (rate_env getenv parse_float name d).1 = false.
Proof.
  intros Hd. unfold rate_env. repeat case_bool_decide; [done..|].
  destruct (parse_float _) as [f|]; [|done]. by destruct (le_zero f) eqn:?.
Qed.

(** A rate is the default or what the variable says, and the limit is off exactly
    when the variable says zero or less. *)
Definition rate_ok (getenv : string → string) (parse_float : string → option float64) (name : string)
    (d f : float64) (disabled : bool) : Prop :=
  let v := trimmed_env getenv name in
  le_zero f = false ∧ (f = d ∨ disabled = false ∧ parse_float v = Some f)
  ∧ (disabled = true ↔ v = "0" ∨ v ≠ "" ∧ ∃ g, parse_float v = Some g ∧ le_zero g = true).

Lemma rate_env_ok getenv parse_float name d :
  le_zero d = false →
  rate_ok getenv parse_float name d (rate_env getenv parse_float name d).1
    (rate_env getenv parse_float name d).2.
Proof.
  intros Hd. split; [by apply rate_env_positive|]. unfold rate_env. set (v := trimmed_env getenv name).
  case_bool_decide as H0; [by split; [left|split; [left|]]|].
  case_bool_decide as H1; [split; [by left|split; [done|intros [?|[? _]]; done]]|].
  destruct (parse_float v) as [f|] eqn:Hf; [destruct (le_zero f) eqn:Hz|]; cbn [fst snd].
  - split; [by left|]. split; [intros _; right; eauto|done].
  - split; [by right|]. split; [done|]. intros [?|(_&g&[= ->]&?)]; [done|congruence].
  - split; [by left|]. split; [done|]. by intros [?|(_&g&?&_)].
Qed.

(** [SessionTTL]: the default, the duration of the variable, or -1 when it is none. *)
Definition ttl_ok (raw : string) (parsed : option Z) (ttl : Z) : Prop :=
  raw = "" ∧ ttl = defaultSessionTTL ∨ raw ≠ "" ∧ (parsed = Some ttl ∨ parsed = None ∧ ttl = -1).

Lemma session_ttl_ok getenv parse_duration :
  let raw := trimmed_env getenv "CHATSTER_SESSION_TTL" in
  ttl_ok raw (parse_duration raw) (session_ttl_env getenv parse_duration).
Proof.
  unfold ttl_ok, session_ttl_env. case_bool_decide as Hraw; [by left|right]. split; [done|].
  destruct (parse_duration _); [by left|by right].
Qed.

Lemma or_default_nonempty s d : d ≠ "" → or_default s d ≠ "".
Proof. unfold or_default. by case_bool_decide. Qed.

Lemma platform_addr_port getenv :
  platform_http_addr getenv = defaultHTTPAddr
  ∨ ∃ n, 1 <= n <= 65535 ∧ atoi (trimmed_env getenv "PORT") = Some n
      ∧ platform_http_addr getenv = ":" +:+ itoa n.
Proof.
  unfold platform_http_addr. case_bool_decide; [by left|].
  destruct (atoi _) as [n|]; [|by left]. destruct (_ || _) eqn:E; [by left|]. right.
  exists n. split; [lia|done].
Qed.

(** ** Properties *)

(** C29: whatever the environment holds, every field of the configuration is in
    its range or exactly what its variable says.  Names and addresses are never
    empty; without an address the server listens on the default or on a port
    between 1 and 65535; a pool size is -1, the mark of a bad value, or a positive
    32-bit integer; bursts are positive and retention periods not negative, within
    64 bits.  A rate is the default or the parsed variable and is not zero or less
    (NaN and infinity, which [ParseFloat] accepts, are let through), and its limit
    is off exactly when the variable says zero or less.  The session lifetime is the
    default, the parsed duration whatever it is, or -1 for a duration that does not
    parse (the session service checks its bounds).  The cookie is insecure exactly
    when that is asked for; secrets are passed on verbatim and URLs trimmed; and the
    allowed origins are non-empty trimmed strings, every such list of comma-free
    origins being configurable. *)
Theorem from_env_valid getenv parse_float parse_duration :
  let cfg := from_env getenv parse_float parse_duration in
  HTTPAddr cfg ≠ "" ∧ DBPath cfg ≠ "" ∧ cfg_Storage cfg ≠ "" ∧ RedisNamespace cfg ≠ ""
  ∧ AuthMode cfg ≠ ""
  ∧ (HTTPAddr cfg = trimmed_env getenv "CHATSTER_HTTP_ADDR" ∨ HTTPAddr cfg = defaultHTTPAddr
     ∨ ∃ n, 1 <= n <= 65535 ∧ HTTPAddr cfg = ":" +:+ itoa n)
  ∧ Forall (λ n, n = -1 ∨ 1 <= n < 2 ^ 31) [PostgresMinConns cfg; PostgresMaxConns cfg]
  ∧ Forall (λ n, 1 <= n < 2 ^ 63) [WSUpgradeBurst cfg; cfg_MessageBurst cfg]
  ∧ Forall (λ n, 0 <= n < 2 ^ 63) [MessageRetentionDays cfg; AuditRetentionDays cfg]
  ∧ rate_ok getenv parse_float "CHATSTER_WS_UPGRADE_RPS" defaultWSUpgradeRPS (WSUpgradeRPS cfg)
      (DisableWSRateLimit cfg)
  ∧ rate_ok getenv parse_float "CHATSTER_MESSAGE_RPS" defaultMessageRPS (cfg_MessageRPS cfg)
      (cfg_DisableMessageRateLimit cfg)
  ∧ (let raw := trimmed_env getenv "CHATSTER_SESSION_TTL" in
     ttl_ok raw (parse_duration raw) (SessionTTL cfg))
  ∧ (SessionCookieSecure cfg = false
     ↔ equal_fold (trimmed_env getenv "CHATSTER_SESSION_COOKIE_SECURE") "false" = true)
  ∧ (SessionSecret cfg = getenv "CHATSTER_SESSION_SECRET"
     ∧ AuthUsersJSON cfg = getenv "CHATSTER_AUTH_USERS_JSON")
  ∧ (PostgresDSN cfg, RedisURL cfg, InstanceID cfg, StaticDir cfg)
    = (trimmed_env getenv "CHATSTER_POSTGRES_DSN", trimmed_env getenv "CHATSTER_REDIS_URL",
       trimmed_env getenv "CHATSTER_INSTANCE_ID", trimmed_env getenv "CHATSTER_STATIC_DIR")
  ∧ Forall csv_entry (AllowedOrigins cfg)
  ∧ ∀ os, bytes (getenv "CHATSTER_ALLOWED_ORIGINS") = join_with (chr ",") (bytes <$> os) →
      Forall (λ o, csv_entry o ∧ chr "," ∉ bytes o) os → AllowedOrigins cfg = os.
Proof.
  cbv zeta. unfold from_env. cbn [HTTPAddr DBPath cfg_Storage RedisNamespace AuthMode PostgresMinConns
    PostgresMaxConns WSUpgradeBurst cfg_MessageBurst MessageRetentionDays AuditRetentionDays
    WSUpgradeRPS cfg_MessageRPS DisableWSRateLimit cfg_DisableMessageRateLimit SessionTTL
    SessionCookieSecure SessionSecret AuthUsersJSON PostgresDSN RedisURL InstanceID StaticDir
    AllowedOrigins].
  pose proof (platform_addr_port getenv) as Hport.
  do 5 (split; [(by apply or_default_nonempty)
               || (apply or_default_nonempty; destruct Hport as [->|(n&_&_&->)]; done)|]).
  split.
  { unfold or_default. case_bool_decide; [right|by left].
    destruct Hport as [->|(n&Hn&_&->)]; [by left|right; eauto]. }
  split; [rewrite Forall_cons, Forall_singleton; split; by apply parse_pool_size_range|].
  split; [rewrite Forall_cons, Forall_singleton; split; by apply positive_env_range|].
  split; [rewrite Forall_cons, Forall_singleton; split; by apply positive_env_range|].
  split; [by apply rate_env_ok|]. split; [by apply rate_env_ok|]. split; [apply session_ttl_ok|].
  split; [by rewrite negb_false_iff|]. split; [done|]. split; [done|].
  split; [apply split_csv_entries|]. intros os. apply split_csv_join.
Qed.

Definition example_env (name : string) : string :=
  if bool_decide (name = "PORT") then " 9000 "
  else if bool_decide (name = "CHATSTER_ALLOWED_ORIGINS") then "https://a.example,https://b.example"
  else if bool_decide (name = "CHATSTER_POSTGRES_MAX_CONNS") then "2147483648"
  else if bool_decide (name = "CHATSTER_WS_UPGRADE_BURST") then "-3"
  else "".

Lemma from_env_valid_witness :
  let cfg := from_env example_env (λ _, None) (λ _, None) in
  HTTPAddr cfg = ":9000" ∧ PostgresMaxConns cfg = -1 ∧ WSUpgradeBurst cfg = 10
  ∧ AllowedOrigins cfg = ["https://a.example"; "https://b.example"].
Proof.
  split; [vm_compute; reflexivity|]. split; [vm_compute; reflexivity|].
  split; [vm_compute; reflexivity|].
  destruct (from_env_valid example_env (λ _, None) (λ _, None))
    as (_&_&_&_&_&_&_&_&_&_&_&_&_&_&_&_&H).
  apply H; [vm_compute; reflexivity|].
  rewrite Forall_cons, Forall_singleton. split; (split; [split; [done|vm_compute; reflexivity]|]);
    apply (bool_decide_unpack _); vm_compute; exact I.
Defined.
