(* ===== verification/RateLimit.v ===== *)
(** The per-address limiter of WebSocket upgrades
    ([internal/ratelimit/ws_upgrade.go]): a map from client addresses to token
    buckets, which are those of the interface [RateLimiter]. *)
From S2P Require Import Prelude.
From S2P Require Import GoUnicode.
From S2P Require Import GoString.
From S2P Require Import GoTime.
From S2P Require Import Storage.
From S2P Require Import Client.
Open Scope Z_scope.

Section limiters.
Context `{RateLimiter}.

(** [WSUpgrade]; the mutex makes each call atomic. *)
Record WSUpgrade := mk_ws_upgrade {
  ws_limiters : gmap string limiter;
  ws_r : float64;
  ws_burst : Z
}.

(** [NewWSUpgrade] *)
Definition new_ws_upgrade (rps : float64) (burst : Z) : WSUpgrade :=
  let burst := if burst <? 1 then 1 else burst in
  mk_ws_upgrade ∅ rps burst.

(** [WSUpgrade.Allow] *)
Definition ws_allow (now : time) (w : WSUpgrade) (clientIP : string) : bool * WSUpgrade :=
  let lim := default (NewLimiter (ws_r w) (ws_burst w)) (ws_limiters w !! clientIP) in
  let '(ok, lim) := Allow now lim in
  (ok, mk_ws_upgrade (<[clientIP := lim]> (ws_limiters w)) (ws_r w) (ws_burst w)).

(** A sequence of calls, each with its time and address, and its answers. *)
Fixpoint ws_allow_all (w : WSUpgrade) (calls : list (time * string)) : list bool * WSUpgrade :=
  match calls with
  | [] => ([], w)
  | (now, ip) :: calls =>
    let '(ok, w) := ws_allow now w ip in
    let '(oks, w) := ws_allow_all w calls in (ok :: oks, w)
  end.

(** The reference: one bucket asked at the given times. *)
Fixpoint allow_all (lim : limiter) (times : list time) : list bool :=
  match times with
  | [] => []
  | now :: times => let '(ok, lim) := Allow now lim in ok :: allow_all lim times
  end.

Definition calls_of (ip : string) (calls : list (time * string)) : list (time * string) :=
  List.filter (λ c, bool_decide (c.2 = ip)) calls.

(** The answers given to one address. *)
Definition answers_to (ip : string) (calls : list (time * string)) (oks : list bool) : list bool :=
  (List.filter (λ c, bool_decide (c.1.2 = ip)) (zip calls oks)).*2.

Lemma ws_allow_all_bucket ip calls w :
  answers_to ip calls (ws_allow_all w calls).1
  = allow_all (default (NewLimiter (ws_r w) (ws_burst w)) (ws_limiters w !! ip))
      (calls_of ip calls).*1.
Proof.
  revert w. induction calls as [|[now ip'] calls IH]; intros w; [done|].
  cbn [ws_allow_all]. unfold ws_allow.
  destruct (Allow now _) as [ok lim'] eqn:Ha.
  set (w' := mk_ws_upgrade _ _ _). specialize (IH w').
  destruct (ws_allow_all w' calls) as [oks w'']. cbn [fst] in *.
  unfold answers_to, calls_of in *. cbn [zip zip_with List.filter fst snd].
  case_bool_decide as Hip; [subst ip'|].
  - cbn [fmap list_fmap allow_all snd fst]. rewrite IH, Ha. cbn [ws_limiters ws_r ws_burst w'].
    by rewrite lookup_insert_eq.
  - rewrite IH. cbn [ws_limiters ws_r ws_burst w']. by rewrite lookup_insert_ne.
Qed.
End limiters.

(** ** Properties *)

(** Addresses do not share their budget.  Whatever calls are made and
    however those of different addresses interleave, the answers an address gets
    are those of one token bucket of its own, with the configured rate and a
    burst of at least one, asked at the times of that address's calls alone. *)
Theorem upgrade_limiter_isolation `{RateLimiter} rps burst calls ip :
  answers_to ip calls (ws_allow_all (new_ws_upgrade rps burst) calls).1
  = allow_all (NewLimiter rps (Z.max 1 burst)) (calls_of ip calls).*1.
Proof.
  rewrite ws_allow_all_bucket. unfold new_ws_upgrade. cbn [ws_limiters ws_r ws_burst].
  rewrite lookup_empty. cbn [default]. do 2 f_equal. destruct (burst <? 1) eqn:?; lia.
Qed.
