(* ===== verification/Upgrade.v ===== *)
(** WebSocket upgrades ([serveWs] in [server.go]): the checks in front of an
    upgrade, the client that is made, and its registration at the hub.  The
    upgrade itself is third-party code: [upgraded] says whether it succeeds.
    Tracing spans have no part in it; the counters of this handler are kept
    apart from those of the hub's world. *)
From Stdlib Require Import QArith_base.
From S2P Require Import Prelude.
From S2P Require Import GoUnicode.
From S2P Require Import GoString.
From S2P Require Import GoTime.
From S2P Require Import Metrics.
From S2P Require Import GoStrconv.
From S2P Require Import Sha256.
From S2P Require Import Http.
From S2P Require Import Rooms.
From S2P Require Import Events.
From S2P Require Import Storage.
From S2P Require Import Sqlite.
From S2P Require Import Client.
From S2P Require Import Auth.
From S2P Require Import AuthFacts.
From S2P Require Import AuthTheorems.
From S2P Require Import Server.
From S2P Require Import Config.
From S2P Require Import RateLimit.
From S2P Require Import Hub.
From S2P Require Import HubSystem.
Open Scope Z_scope.

(** [newOpaqueID]; [random] is what [rand.Read] fills in, if it succeeds. *)
Definition unix_nano (t : time) : Z := wrap64 (t_ns t - unixToInternal * Second).
Definition new_opaque_id (prefix : string) (random : option (list Z)) (now : time) : string :=
  match random with
  | None => prefix +:+ itoa (unix_nano now)
  | Some b => prefix +:+ of_bytes (hex b)
  end.
Definition new_ws_session_id : option (list Z) → time → string := new_opaque_id "sess_".
Definition new_instance_id : option (list Z) → time → string := new_opaque_id "instance_".
Definition new_event_id : option (list Z) → time → string := new_opaque_id "event_".

(** [f > 0], false for NaN. *)
Definition gt_zero (f : float64) : bool :=
  match f with Finite q => negb (Qle_bool q 0) | PosInf => true | NegInf | NaN => false end.

Section upgrade.
Context `{RateLimiter} {S : Type} `{Repository S}.
Implicit Types (w : World (S:=S)) (cfg : Config) (r : request) (ms : metrics).

(** The limiter [mountWithAuth] makes. *)
Definition mount_limiter cfg : option WSUpgrade :=
  if negb (DisableWSRateLimit cfg) && gt_zero (WSUpgradeRPS cfg)
  then Some (new_ws_upgrade (WSUpgradeRPS cfg) (WSUpgradeBurst cfg)) else None.

(** [wsRL == nil || wsRL.Allow(ip)] *)
Definition ask_limiter (now : time) (wsRL : option WSUpgrade) (ip : string) :
    bool * option WSUpgrade :=
  match wsRL with
  | None => (true, None)
  | Some rl => let '(ok, rl) := ws_allow now rl ip in (ok, Some rl)
  end.

(** [serveWs] up to the upgrade: the refusal, or the room and the principal. *)
Definition check_upgrade cfg (auth : option Service) (now : time) (wsRL : option WSUpgrade) r w ms :
    result reply (string * Principal) * option WSUpgrade * metrics :=
  match normalize_room (get (rq_Query r) "room") with
  | Err _ => (Err (http_error ∅ "invalid room" StatusBadRequest), wsRL, ms)
  | Ok room =>
    if isDraining w then
      (Err (http_error ∅ "server shutting down" StatusServiceUnavailable), wsRL,
       inc WSUpgrades "draining" ms)
    else
      let '(allowed, wsRL) := ask_limiter now wsRL (client_ip r) in
      if negb allowed then
        (Err (http_error ∅ "too many connections" StatusTooManyRequests), wsRL,
         inc WSUpgrades "rate_limited" ms)
      else if negb (origin_allowed (AllowedOrigins cfg) r) then
        (Err (http_error ∅ "forbidden" StatusForbidden), wsRL,
         inc WSUpgrades "denied_origin" ms)
      else
        match authorize auth now r room with
        | Err e =>
          (Err (write_auth_error ∅ e), wsRL,
           inc WSUpgrades
             (if decide (e = ErrRoomDenied) then "forbidden_room" else "authentication_required") ms)
        | Ok principal => (Ok (room, principal), wsRL, ms)
        end
  end.

(** The client; [sessionID] is what [newSessionID] returns. *)
Definition ws_client cfg (sessionID room : string) (principal : Principal) : Client :=
  let '(sessionID, username) :=
    if authenticated principal then (p_SessionID principal, p_DisplayName principal)
    else (sessionID, "Anonymous") in
  mk_client sessionID (p_UserID principal) username (authenticated principal)
    (p_ExpiresAt principal) room (newMessageLimiter (limit_config cfg)) [] false.

Inductive upgrade_outcome := Refused (r : reply) | UpgradeError | Draining | Accepted.

(** [serveWs]; the new client is number [i], and [meanwhile] is what other
    goroutines do to the world during the upgrade, a drain included. *)
Definition serve_ws cfg (auth : option Service) (now : time) (sessionID : string) (upgraded : bool)
    (meanwhile : World (S:=S) → World (S:=S)) (wsRL : option WSUpgrade) (i : nat) r w ms :
    upgrade_outcome * option WSUpgrade * World (S:=S) * metrics :=
  match check_upgrade cfg auth now wsRL r w ms with
  | (Err reply, wsRL, ms) => (Refused reply, wsRL, w, ms)
  | (Ok (room, principal), wsRL, ms) =>
    let w := meanwhile w in
    if negb upgraded then (UpgradeError, wsRL, w, inc WSUpgrades "upgrade_error" ms)
    else
      let ms := inc WSUpgrades "ok" ms in
      let w := put_client w i (ws_client cfg sessionID room principal) in
      let '(registered, w) := register_lock i w in
      if registered then (Accepted, wsRL, w, ms)
      else (Draining, wsRL, closeForShutdown i w, inc WSUpgrades "draining" ms)
  end.
End upgrade.

(** ** Facts *)
Section facts.
Context `{RateLimiter} {S : Type} `{Repository S}.
Implicit Types (w : World (S:=S)) (cfg : Config) (r : request) (ms : metrics).

Lemma authorize_ok auth now r room p :
  canonical_room room = true → authorize auth now r room = Ok p →
  authenticate auth now r = Ok p ∧ (p_Anonymous p = true ∨ room ∈ p_Rooms p).
Proof.
  intros Hroom. unfold authorize. destruct (authenticate auth now r) as [q|]; [|done].
  rewrite normalize_room_canonical by done. destruct (p_Anonymous q) eqn:Ha; [intros [= <-]; by auto|].
  destruct (existsb _ _) eqn:He; [|done]. intros [= <-]. split; [done|right].
  apply existsb_exists in He as (x&Hx&->%bool_decide_eq_true). by apply list_elem_of_In.
Qed.

(** The upgrades that are let through. *)
Lemma check_upgrade_ok cfg auth now wsRL r w ms room p wsRL' ms' :
  check_upgrade cfg auth now wsRL r w ms = (Ok (room, p), wsRL', ms') ↔
  normalize_room (get (rq_Query r) "room") = Ok room ∧ isDraining w = false
  ∧ ask_limiter now wsRL (client_ip r) = (true, wsRL')
  ∧ origin_allowed (AllowedOrigins cfg) r = true ∧ authorize auth now r room = Ok p ∧ ms' = ms.
Proof.
  unfold check_upgrade. destruct (normalize_room _) as [room'|]; [|naive_solver].
  destruct (isDraining w); [naive_solver|].
  destruct (ask_limiter _ _ _) as [allowed rl]. destruct allowed; cbn [negb]; [|naive_solver].
  destruct (origin_allowed _ _); cbn [negb]; [|naive_solver].
  destruct (authorize auth now r room') as [q|e] eqn:Ha.
  - split; [intros [= -> -> -> ->]; by auto 10|]. intros (Hroom&_&Hask&_&Hq&->). congruence.
  - split; [done|]. intros (Hroom&_&_&_&Hq&_). congruence.
Qed.

Lemma ws_client_fresh cfg sid room p :
  canonical_room room = true → fresh_client (ws_client cfg sid room p).
Proof.
  intros Hroom. unfold ws_client. destruct (authenticated p); cbn;
    (split; [done|]); (split; [done|]); by apply normalize_room_canonical.
Qed.
End facts.

(** ** Properties *)

(** C9: who gets a socket.  An upgrade is let through exactly when the room has
    a valid name, the hub is not draining, the limiter grants the client's
    address, the origin is allowed and the session may enter the room.  When the
    server runs in session mode, the client that is made then carries the signed
    identity: it is authenticated, has the session id, the user id and the
    display name of a well-formed principal that holds a grant for the
    (canonical) room, and an expiry in the future, which bounds every read
    deadline. *)
Theorem upgrade_admission `{RateLimiter} {S : Type} `{Repository S}
    cfg auth now wsRL r (w : World (S:=S)) ms room p wsRL' ms' sid :
  (check_upgrade cfg auth now wsRL r w ms = (Ok (room, p), wsRL', ms') ↔
   normalize_room (get (rq_Query r) "room") = Ok room ∧ isDraining w = false
   ∧ ask_limiter now wsRL (client_ip r) = (true, wsRL')
   ∧ origin_allowed (AllowedOrigins cfg) r = true ∧ authorize auth now r room = Ok p ∧ ms' = ms)
  ∧ (check_upgrade cfg auth now wsRL r w ms = (Ok (room, p), wsRL', ms') →
     let c := ws_client cfg sid room p in
     fresh_client c ∧ canonical_room (c_Room c) = true
     ∧ ∀ s, auth = Some s → service_ok s →
       c_Authenticated c = true ∧ c_ID c = p_SessionID p ∧ c_UserID c = p_UserID p
       ∧ c_Username c = p_DisplayName p
       ∧ template_ok (mk_template (p_UserID p) (p_DisplayName p) (p_Rooms p))
       ∧ c_Room c ∈ p_Rooms p
       ∧ t_ns now < t_ns (c_AuthExpiresAt c)
       ∧ ∀ t, is_zero (c_AuthExpiresAt c) = false →
           t_ns (nextReadDeadline t c) <= t_ns (c_AuthExpiresAt c)).
Proof.
  split; [apply check_upgrade_ok|]. intros (Hroom&_&_&_&Ha&_)%check_upgrade_ok. apply normalize_room_ok in Hroom.
  cbv zeta. split; [by apply ws_client_fresh|].
  unfold ws_client. split; [by destruct (authenticated p)|].
  intros s -> Hs. destruct (authorize_ok _ _ _ _ _ Hroom Ha) as [Hauth Hgrant].
  destruct (authenticate_inv s Hs now r p Hauth) as (value&payload&_&_&_&Hp).
  destruct (check_payload_inv s Hs now payload p Hp) as (Htok&_&_&_&Hok&Hexp&_). rewrite Hok.
  assert (Hnot : p_Anonymous p = false).
  { unfold authenticated in Hok. by destruct (p_Anonymous p). }
  cbn. split_and!; try done; [by destruct Hgrant; [congruence|]|].
  intros t. by destruct (nextReadDeadline_bounds t (ws_client cfg sid room p)) as (_&Hle&_); unfold ws_client in Hle; rewrite Hok in Hle.
Qed.

(** C12: an upgrade is a run of the hub system.  Whatever goroutines are there,
    and whatever they do during the handshake, [serveWs] with a new client takes
    the system through the steps of connecting and registering: an accepted
    client is registered, with its writer, its history and its join notice
    pending; one that meets a drain that has begun meanwhile is closed and never
    registered, and only its writer is left; a refused upgrade, or one that
    fails, makes no step. *)
Theorem upgrade_runs_in_hub `{RateLimiter} {S : Type} `{Repository S}
    cfg auth now sid upgraded (meanwhile : World (S:=S) → World (S:=S)) wsRL i r w ms threads :
  let '(outcome, _, w', _) := serve_ws cfg auth now sid upgraded meanwhile wsRL i r w ms in
  w_clients (meanwhile w) !! i = None →
  match outcome with
  | Refused _ => w' = w
  | UpgradeError => w' = meanwhile w
  | Accepted =>
    isDraining (meanwhile w) = false ∧ i ∈ h_clients (w_hub w')
    ∧ rtc step (mk_state threads (meanwhile w))
        (mk_state (TJoin i :: THistory i :: TWriter i :: threads) w')
  | Draining =>
    isDraining (meanwhile w) = true ∧ w_hub w' = w_hub (meanwhile w)
    ∧ (∃ c, w_clients w' !! i = Some c ∧ c_done c = true)
    ∧ rtc step (mk_state threads (meanwhile w)) (mk_state (TWriter i :: threads) w')
  end.
Proof.
  unfold serve_ws.
  destruct (check_upgrade cfg auth now wsRL r w ms) as [[[[room p]|reply] rl] ms'] eqn:Hadm; [|done].
  apply check_upgrade_ok in Hadm as (Hroom&_). apply normalize_room_ok in Hroom.
  destruct upgraded; cbn [negb]; [|done].
  set (w0 := meanwhile w). clearbody w0. rename w into before, w0 into w.
  set (c := ws_client cfg sid room p). set (w1 := put_client w i c).
  destruct (register_lock i w1) as [registered w2] eqn:Hr.
  assert (Hconnect : w_clients w !! i = None →
    step (mk_state threads w) (mk_state (TRegister i :: TWriter i :: threads) w1)).
  { intros Hi. apply step_connect; [done|]. by apply ws_client_fresh. }
  assert (Hreg : isDraining w = negb registered).
  { unfold register_lock in Hr. change (isDraining w1) with (isDraining w) in Hr.
    by destruct (isDraining w); injection Hr as <- _. }
  destruct registered; intros Hi; (split; [done|]); specialize (Hconnect Hi).
  - split.
    { unfold register_lock in Hr. destruct (isDraining w1); [done|]. injection Hr as <-. cbn. set_solver. }
    eapply rtc_l; [exact Hconnect|]. apply rtc_once.
    apply (step_thread (TRegister i) [TJoin i; THistory i] (TWriter i :: threads)); [done|].
    by apply by_register, register_accepted.
  - assert (w2 = w1) as ->.
    { unfold register_lock in Hr. destruct (isDraining w1); [|done]. by injection Hr as <-. }
    assert (Hclose : closeForShutdown i w1 = put_client w1 i (close c)).
    { unfold closeForShutdown, w1, put_client. cbn. by rewrite lookup_insert_eq. }
    split; [by rewrite Hclose|]. split.
    { rewrite Hclose. exists (close c). cbn. by rewrite lookup_insert_eq. }
    eapply rtc_l; [exact Hconnect|]. apply rtc_once.
    apply (step_thread (TRegister i) [] (TWriter i :: threads)); [done|].
    apply by_register, register_refused. by rewrite Hr.
Qed.

(** A rate that parses as NaN is kept, and then no limiter is made although the
    configuration does not disable it. *)
Lemma nan_rate_unlimited `{RateLimiter} getenv parse_float parse_duration v :
  trimmed_env getenv "CHATSTER_WS_UPGRADE_RPS" = v → v ≠ "" → v ≠ "0" → parse_float v = Some NaN →
  let cfg := from_env getenv parse_float parse_duration in
  DisableWSRateLimit cfg = false ∧ mount_limiter cfg = None.
Proof.
  intros Hv Hne H0 Hf. cbv zeta. unfold mount_limiter, from_env. cbn [DisableWSRateLimit WSUpgradeRPS].
  assert (rate_env getenv parse_float "CHATSTER_WS_UPGRADE_RPS" defaultWSUpgradeRPS = (NaN, false)) as ->.
  { unfold rate_env. rewrite Hv. rewrite bool_decide_false, bool_decide_false by done. by rewrite Hf. }
  done.
Qed.

(** ** An example: a session of [AuthExample] opens a socket *)
Module UpgradeExample.
#[local] Existing Instances text_driver text_driver_laws fixed_bucket.

Definition cfg : Config := from_env example_env (λ _, None) (λ _, None).
Definition auth : option Service := Some AuthExample.service.
Definition visitor : request := AuthExample.return_visit.
Definition hub : World (S:=DB) := mk_world (newHub None) ∅ empty_db ∅ ∅.
Definition drained (w : World (S:=DB)) : World (S:=DB) := (drain_lock w).2.
Definition who : Principal :=
  mk_principal "alice" "Alice & Co" ["dev"; "general"] false "sid_00112233445566778899aabbccddeeff"
    (mk_time ((unixToInternal + 1709294400 + 90 * 60) * Second) UTC).

Lemma authorized : authorize auth AuthExample.later visitor "general" = Ok who.
Proof. vm_compute. reflexivity. Qed.

Lemma admitted :
  check_upgrade cfg auth AuthExample.later (mount_limiter cfg) visitor hub ∅
  = (Ok ("general", who), (ask_limiter AuthExample.later (mount_limiter cfg) (client_ip visitor)).2, ∅).
Proof.
  apply check_upgrade_ok. split; [vm_compute; reflexivity|]. split; [reflexivity|].
  split; [vm_compute; reflexivity|]. split; [vm_compute; reflexivity|].
  split; [exact authorized|reflexivity].
Qed.

Lemma upgrade_admission_witness :
  let c := ws_client cfg "sess_0" "general" who in
  fresh_client c ∧ c_Authenticated c = true ∧ c_UserID c = "alice" ∧ c_Room c ∈ ["dev"; "general"]
  ∧ t_ns AuthExample.later < t_ns (c_AuthExpiresAt c).
Proof.
  destruct (upgrade_admission cfg auth AuthExample.later (mount_limiter cfg) visitor hub ∅ "general"
              who (ask_limiter AuthExample.later (mount_limiter cfg) (client_ip visitor)).2 ∅ "sess_0")
    as [_ H].
  destruct (H admitted) as (Hf&_&Hs). split; [exact Hf|].
  destruct (Hs _ eq_refl AuthExample.service_well_formed) as (H1&_&H3&_&_&H5&H6&_).
  split; [exact H1|]. split; [exact H3|]. split; [exact H5|exact H6].
Defined.

(** Accepted by an open hub, and turned away when a drain begins meanwhile. *)
Definition upgrade (meanwhile : World (S:=DB) → World (S:=DB)) :=
  serve_ws cfg auth AuthExample.later "sess_0" true meanwhile (mount_limiter cfg) 7 visitor hub ∅.

Lemma upgrade_runs_in_hub_witness :
  rtc step (mk_state [TRun] hub)
    (mk_state [TJoin 7; THistory 7; TWriter 7; TRun] (upgrade id).1.2)
  ∧ rtc step (mk_state [TRun] (drained hub)) (mk_state [TWriter 7; TRun] (upgrade drained).1.2).
Proof.
  pose proof (upgrade_runs_in_hub cfg auth AuthExample.later "sess_0" true id (mount_limiter cfg) 7
                visitor hub ∅ [TRun]) as Hopen.
  pose proof (upgrade_runs_in_hub cfg auth AuthExample.later "sess_0" true drained (mount_limiter cfg) 7
                visitor hub ∅ [TRun]) as Hdrain.
  unfold upgrade. unfold serve_ws in *. rewrite admitted in *. split.
  - destruct (Hopen eq_refl) as (_&_&Hrun). exact Hrun.
  - destruct (Hdrain eq_refl) as (_&_&_&Hrun). exact Hrun.
Defined.
End UpgradeExample.
