(* ===== verification/MetricsTheorems.v ===== *)
(** The metrics of the whole process: the hub, WebSocket upgrades and the Redis
    broker write declared series only, and the gauge of connected clients is
    exact. *)
From S2P Require Import Prelude.
From S2P Require Import GoUnicode.
From S2P Require Import GoString.
From S2P Require Import GoTime.
From S2P Require Import Metrics.
From S2P Require Import Http.
From S2P Require Import Rooms.
From S2P Require Import Events.
From S2P Require Import Storage.
From S2P Require Import Sqlite.
From S2P Require Import Client.
From S2P Require Import Auth.
From S2P Require Import Server.
From S2P Require Import Hub.
From S2P Require Import HubSystem.
From S2P Require Import HubMetrics.
From S2P Require Import HubTheorems.
From S2P Require Import HubExamples.
From S2P Require Import Broker.
From S2P Require Import Config.
From S2P Require Import RateLimit.
From S2P Require Import Upgrade.
Open Scope Z_scope.

(** ** Upgrades *)
Section upgrades.
Context `{RateLimiter} {S : Type} `{Repository S}.

Lemma counts_check_upgrade cfg auth now wsRL r (w : World (S:=S)) ms res wsRL' ms' :
  check_upgrade cfg auth now wsRL r w ms = (res, wsRL', ms') → counts ms ms'.
Proof.
  unfold check_upgrade. repeat case_match; intros [= <- <- <-]; try done; apply counts_inc;
    try case_decide; in_growing.
Qed.

Lemma counts_serve_ws cfg auth now sid upgraded meanwhile wsRL i r (w : World (S:=S)) ms :
  let '(_, _, w', ms') := serve_ws cfg auth now sid upgraded meanwhile wsRL i r w ms in
  counts ms ms' ∧ (w_metrics w' = w_metrics w ∨ w_metrics w' = w_metrics (meanwhile w)).
Proof.
  unfold serve_ws. destruct (check_upgrade _ _ _ _ _ _ _) as [[[[room p]|reply] rl] ms1] eqn:E;
    apply counts_check_upgrade in E; [|by auto].
  destruct (negb upgraded); [split; [|by auto]; etransitivity; [done|eauto with counting]|].
  unfold register_lock, closeForShutdown.
  destruct (isDraining _); (split; [|right; by repeat case_match]).
  - do 2 (etransitivity; [|apply counts_inc; in_growing]). done.
  - etransitivity; [done|eauto with counting].
Qed.
End upgrades.

(** ** The broker *)

Lemma counts_new_redis parse_url ping cfg ms res ms' :
  new_redis parse_url ping cfg ms = (res, ms') → counts ms ms'.
Proof. unfold new_redis. repeat case_match; intros [= <- <-]; eauto with counting; done. Qed.

Lemma counts_publish zone accept b e ms res cmd ms' :
  publish zone accept b e ms = (res, cmd, ms') → counts ms ms'.
Proof. unfold publish. repeat case_match; intros [= <- <- <-]; eauto with counting. Qed.

Lemma counts_process zone b m ms : counts ms (process_message zone b m ms).2.
Proof. unfold process_message. repeat case_match; cbn [snd]; eauto with counting. Qed.

Lemma counts_process_messages zone b messages ms :
  counts ms (process_messages zone b messages ms).2.
Proof.
  revert ms. induction messages as [|m messages IH]; intros ms; cbn [process_messages snd];
    [eauto with counting|].
  pose proof (counts_process zone b m ms) as Hm. destruct (process_message _ _ _ _) as [e ms1].
  specialize (IH ms1). destruct (process_messages _ _ _ _) as [es ms2]. by etransitivity.
Qed.

Lemma counts_subscribe zone b s ms err es b' ms' :
  subscribe_once zone b s ms = (err, es, b', ms') → counts ms ms'.
Proof.
  unfold subscribe_once. destruct (negb _); [intros [= <- <- <- <-]; eauto with counting|].
  set (b1 := mk_fanout _ _ _ _).
  pose proof (counts_process_messages zone b1 (ss_messages s) (inc RedisSubscriptions "ok" ms)) as Hm.
  destruct (process_messages _ _ _ _) as [events ms1]. intros [= <- <- <- <-].
  etransitivity; [|exact Hm]. eauto with counting.
Qed.

Lemma counts_run zone backoff b ms attempts :
  counts ms (rn_metrics (run_loop zone backoff b ms attempts)).
Proof.
  revert backoff b ms. induction attempts as [|a attempts IH]; intros backoff b ms; cbn [run_loop rn_metrics]; [done|].
  destruct (subscribe_once _ _ _ _) as [[[err es] b1] ms1] eqn:E. apply counts_subscribe in E.
  destruct (at_cancelled a); [done|].
  assert (Hr : counts ms (inc RedisReconnects "" ms1)).
  { etransitivity; [done|eauto with counting]. }
  destruct (negb _); [done|]. cbn [rn_metrics]. etransitivity; [done|apply IH].
Qed.

(** ** Properties *)

(** C17: the metrics in every reachable state of the hub, whatever clients, Redis
    and storage do.  Every series that exists is a declared collector with one of
    the label values its help text lists (for the two collectors whose help lists
    none, one of the values in [undocumented_values]), so at most
    [length all_series] series exist and no input becomes a label.  The gauge of
    connected clients is the number of read loops that run, and the gauge of a
    drain's remaining clients is not negative.  Along any further run every series
    of a counter or histogram only grows; the two gauges, which the code sets, are
    the only exceptions.  Upgrades and the broker count on declared series of
    counters and histograms as well. *)
Theorem metrics_exact `{RateLimiter} {S : Type} `{Repository S} (db : S) fanout s s' :
  reachable db fanout s → rtc step s s' →
  declared (w_metrics (world s)) ∧ (size (w_metrics (world s)) <= length all_series)%nat
  ∧ metric ConnectedClients "" (w_metrics (world s)) = readers (pool s)
  ∧ 0 <= metric WSDrainClientsRemaining "" (w_metrics (world s))
  ∧ (∀ c l, c ∈ collectors → is_gauge c = false →
      metric c l (w_metrics (world s)) <= metric c l (w_metrics (world s')))
  ∧ (∀ cfg auth now sid upgraded meanwhile wsRL i r ms,
      counts ms (serve_ws cfg auth now sid upgraded meanwhile wsRL i r (world s) ms).2)
  ∧ (∀ zone accept b e ms, counts ms (publish zone accept b e ms).2)
  ∧ ∀ zone backoff b ms attempts, counts ms (rn_metrics (run_loop zone backoff b ms attempts)).
Proof.
  intros Hr Hs. destruct (reachable_metrics db fanout s Hr) as (Hd&Hg&Hn).
  split; [done|]. split; [by apply declared_size|]. split; [done|]. split; [done|]. split.
  { intros c l Hc Hk. apply (steps_metrics _ _ Hs). by apply gauges_move. }
  split_and!; [|intros|intros; apply counts_run].
  - intros cfg auth now sid upgraded meanwhile wsRL i r ms.
    pose proof (counts_serve_ws cfg auth now sid upgraded meanwhile wsRL i r (world s) ms) as Hc.
    destruct (serve_ws cfg auth now sid upgraded meanwhile wsRL i r (world s) ms) as [[[? ?] ?] ?].
    apply Hc.
  - destruct (publish zone accept b e ms) as [[? ?] ?] eqn:E. by eapply counts_publish.
Qed.

(** One client is connected and its read loop runs; when it has left, none is. *)
Lemma metrics_exact_witness :
  metric ConnectedClients "" (w_metrics w6) = 1 ∧ metric ConnectedClients "" (w_metrics w9) = 0
  ∧ (size (w_metrics w9) <= 41)%nat.
Proof.
  destruct (metrics_exact empty_db (Some "instance-a") s6 s6 reach6 ltac:(apply rtc_refl))
    as (_&_&H6&_).
  destruct (metrics_exact empty_db (Some "instance-a") s9 s9 reach9 ltac:(apply rtc_refl))
    as (_&Hs&H9&_).
  split; [exact H6|]. split; [exact H9|exact Hs].
Defined.
