(* ===== verification/Router.v ===== *)
(** The HTTP server as a whole ([mount], [mountWithAuth] and [staticHandler] in
    [server.go]): the routes, the CORS middleware around every handler, and the
    files a browser can reach.

    The router (gorilla/mux) is the class [Mux]: which pattern matches a request.
    It takes the first route that matches and runs the middleware only then.
    [net/http]'s file server and [promhttp] produce the bodies of [Static] and
    [Exposition]; for a file it is modelled which one is opened. *)
From Stdlib Require Import QArith_base.
From S2P Require Import Prelude.
From S2P Require Import GoUnicode.
From S2P Require Import GoString.
From S2P Require Import GoPath.
From S2P Require Import GoTime.
From S2P Require Import Metrics.
From S2P Require Import Http.
From S2P Require Import Rooms.
From S2P Require Import Storage.
From S2P Require Import Sqlite.
From S2P Require Import Client.
From S2P Require Import Auth.
From S2P Require Import AuthTheorems.
From S2P Require Import Server.
From S2P Require Import Hub.
From S2P Require Import Config.
From S2P Require Import RateLimit.
From S2P Require Import Upgrade.
Open Scope Z_scope.

(** ** Static files *)

(** What [staticHandler] answers with: the index, or the file server. *)
Inductive static_target := ServeIndex (file : string) | FileServer (file : string).
Definition target_file (t : static_target) : string :=
  match t with ServeIndex f | FileServer f => f end.

(** The file [http.FileServer(http.Dir(dir))] opens for a path. *)
Definition file_server (dir path : string) : string := join_path dir (clean ("/" +:+ path)).

(** [staticHandler]; [stat] says of a path that exists whether it is a
    directory. *)
Definition static_handler (stat : string → option bool) (staticDir path : string) : static_target :=
  let cleanPath := clean path in
  let index := ServeIndex (join_path staticDir "index.html") in
  if bool_decide (cleanPath = ".") || bool_decide (cleanPath = "/") then index
  else
    match stat (join_path staticDir cleanPath) with
    | Some false => FileServer (file_server staticDir path)
    | _ => index
    end.

(** ** Routes *)
Inductive pattern := ExactPath (path : string) | PathPrefix (prefix : string).

Inductive endpoint :=
| MetricsEndpoint | HealthEndpoint | MessagesEndpoint | SessionEndpoint | WSEndpoint
| StaticEndpoint | RootEndpoint.

(** The registrations of [mountWithAuth], in order. *)
Definition routes (cfg : Config) : list (pattern * endpoint) :=
  [(ExactPath "/metrics", MetricsEndpoint); (ExactPath "/health", HealthEndpoint);
   (ExactPath "/api/messages", MessagesEndpoint); (ExactPath "/api/session", SessionEndpoint);
   (ExactPath "/ws", WSEndpoint);
   if bool_decide (StaticDir cfg = "") then (ExactPath "/", RootEndpoint)
   else (PathPrefix "/", StaticEndpoint)].

(** gorilla/mux: a path template without variables matches that path, a prefix
    the paths that begin with it. *)
Class Mux := mux_match : pattern → request → bool.
Class MuxLaws `{Mux} := {
  mux_exact path r : mux_match (ExactPath path) r = bool_decide (rq_Path r = path);
  mux_prefix prefix r : mux_match (PathPrefix prefix) r = has_prefix (rq_Path r) prefix
}.

Section server.
Context `{Mux} `{RateLimiter} {S : Type} `{Repository S}.
Notation W := (World (S:=S)).

Definition dispatch (cfg : Config) (r : request) : option endpoint :=
  snd <$> List.find (λ route, mux_match route.1 r) (routes cfg).

(** What the process shares between requests: the hub's world (with the
    repository), the upgrade limiter and the counters of the handlers. *)
Record shared := mk_shared {
  sh_world : W; sh_limiter : option WSUpgrade; sh_metrics : metrics
}.

(** The outside world of one request. *)
Record http_world := mk_http_world {
  hw_now : time;
  hw_call : call;                            (* of its repository calls *)
  hw_zone : Z → Z * Z * Z;
  hw_random : option (list Z);               (* of a login *)
  hw_stat : string → option bool;
  hw_sessionID : string; hw_upgraded : bool; hw_meanwhile : W → W; hw_client : nat
}.

Inductive served :=
| NotFound
| Replied (r : reply)
| Exposition (h : values)
| Static (h : values) (t : static_target)
| Upgraded (o : upgrade_outcome).

(** The handlers, behind the middleware. *)
Definition serve_endpoint (cfg : Config) (auth : option Service) (env : http_world) (e : endpoint)
    (st : shared) (h : values) (r : request) : served * shared :=
  let db := w_db (sh_world st) in
  match e with
  | MetricsEndpoint => (Exposition h, st)
  | HealthEndpoint => (Replied (health_handler (hw_call env) db h), st)
  | MessagesEndpoint =>
    (Replied (messages_handler (hw_zone env) auth (hw_now env) (hw_call env) db h r), st)
  | SessionEndpoint =>
    (Replied (session_handler (AllowedOrigins cfg) auth (hw_now env) (hw_random env) h r), st)
  | WSEndpoint =>
    let '(o, limiter, w, ms) :=
      serve_ws cfg auth (hw_now env) (hw_sessionID env) (hw_upgraded env) (hw_meanwhile env)
        (sh_limiter st) (hw_client env) r (sh_world st) (sh_metrics st) in
    (Upgraded o, mk_shared w limiter ms)
  | StaticEndpoint => (Static h (static_handler (hw_stat env) (StaticDir cfg) (rq_Path r)), st)
  | RootEndpoint => (Replied (mk_response StatusOK h None (Text "Chatster API Server")), st)
  end.

(** The handler [mountWithAuth] returns. *)
Definition mount_with_auth (cfg : Config) (auth : option Service) (env : http_world) (st : shared)
    (r : request) : served * shared :=
  match dispatch cfg r with
  | None => (NotFound, st)
  | Some e =>
    enable_cors (λ reply, (Replied reply, st)) (AllowedOrigins cfg)
      (serve_endpoint cfg auth env e st) r
  end.

(** [mount]: an anonymous service; [None] is its panic. *)
Definition mount (cfg : Config) : option (http_world → shared → request → served * shared) :=
  match new_service (mk_auth_config ModeAnonymous "" "" 0 false) with
  | Err _ => None
  | Ok service => Some (mount_with_auth cfg (Some service))
  end.

Lemma mount_never_panics cfg : is_Some (mount cfg).
Proof. by eexists. Qed.
End server.
Arguments shared {_} S.
Arguments http_world {_} S.

(** ** Facts *)

Lemma file_server_beneath dir path : dir ≠ "" → beneath dir (file_server dir path).
Proof.
  intros Hd. apply join_rooted_beneath; [done|]. rewrite bytes_app. by apply bool_decide_eq_true.
Qed.

Lemma index_beneath dir : dir ≠ "" → beneath dir (join_path dir "index.html").
Proof.
  intros Hd. apply join_name_beneath; [done|]. split_and!; [done..|].
  apply (bool_decide_unpack _). vm_compute. exact I.
Qed.

Section facts.
Context `{Mux} `{!MuxLaws} `{RateLimiter} {S : Type} `{Repository S}.

(** An exact route is taken for its path only; [e] is behind no other path. *)
Lemma dispatch_ws cfg r : dispatch cfg r = Some WSEndpoint ↔ rq_Path r = "/ws".
Proof.
  unfold dispatch, routes. cbn [List.find fst]. rewrite !mux_exact.
  repeat case_bool_decide; cbn; try (split; congruence).
  all: try (case_match; cbn; split; congruence).
Qed.

Lemma dispatch_messages cfg r : dispatch cfg r = Some MessagesEndpoint ↔ rq_Path r = "/api/messages".
Proof.
  unfold dispatch, routes. cbn [List.find fst]. rewrite !mux_exact.
  repeat case_bool_decide; cbn; try (split; congruence).
  all: try (case_match; cbn; split; congruence).
Qed.

(** Handlers leave the header of the CORS middleware alone. *)
Definition allow_origin : string := "Access-Control-Allow-Origin".

Lemma set_header_other k v h : k ≠ allow_origin → set_header k v h !! allow_origin = h !! allow_origin.
Proof. intros Hk. unfold set_header. by rewrite lookup_insert_ne. Qed.

Lemma http_error_cors h m c : rs_Header (http_error h m c) !! allow_origin = h !! allow_origin.
Proof. unfold http_error. cbn [rs_Header]. by rewrite !set_header_other. Qed.
Lemma json_error_cors h s c m : rs_Header (write_json_error h s c m) !! allow_origin = h !! allow_origin.
Proof. unfold write_json_error. cbn [rs_Header]. by rewrite !set_header_other. Qed.
Lemma auth_error_cors h e : rs_Header (write_auth_error h e) !! allow_origin = h !! allow_origin.
Proof. destruct e; apply json_error_cors. Qed.

Lemma health_cors c (db : S) h : rs_Header (health_handler c db h) !! allow_origin = h !! allow_origin.
Proof. unfold health_handler. cbn [rs_Header]. by rewrite !set_header_other. Qed.

Lemma messages_cors zone auth now c (db : S) h r :
  rs_Header (messages_handler zone auth now c db h r) !! allow_origin = h !! allow_origin.
Proof.
  unfold messages_handler. repeat case_match; cbn [rs_Header];
    rewrite ?http_error_cors, ?auth_error_cors, ?set_header_other by done; done.
Qed.

Lemma session_cors origins auth now random h r :
  rs_Header (session_handler origins auth now random h r) !! allow_origin = h !! allow_origin.
Proof.
  unfold session_handler. repeat case_match; cbn [rs_Header];
    rewrite ?json_error_cors, ?set_header_other by done; done.
Qed.

(** The header this code sets on an answer: nothing on the router's 404 and on the
    upgrader's own replies; the file server and [promhttp] add to what they get. *)
Definition answer_header (out : served) : values :=
  match out with
  | Replied reply | Upgraded (Refused reply) => rs_Header reply
  | Exposition h | Static h _ => h
  | NotFound | Upgraded _ => ∅
  end.

(** A refused upgrade grants nothing: [serveWs] answers outside the middleware. *)
Lemma check_upgrade_cors cfg auth now wsRL r (w : World (S:=S)) ms reply wsRL' ms' :
  check_upgrade cfg auth now wsRL r w ms = (Err reply, wsRL', ms') →
  rs_Header reply !! allow_origin = None.
Proof.
  unfold check_upgrade. repeat case_match; intros; simplify_eq;
    (etransitivity; [apply http_error_cors || apply json_error_cors || apply auth_error_cors|reflexivity]).
Qed.

(** What the middleware does off [/ws]. *)
Lemma cors_cases {A} (respond : reply → A) origins next r :
  rq_Path r ≠ "/ws" →
  let origin := get (rq_Header r) "Origin" in
  let a := enable_cors respond origins next r in
  (origin_allowed origins r = false
   ∧ a = respond (write_json_error ∅ StatusForbidden "origin_forbidden"
                    "The request origin is not allowed."))
  ∨ (origin_allowed origins r = true
     ∧ ∃ h, (∀ vs, h !! allow_origin = Some vs → vs = [origin] ∧ origin ≠ "")
         ∧ (a = respond (mk_response StatusNoContent h None NoBody) ∨ a = next h r)).
Proof.
  intros Hws origin a. unfold a, enable_cors. rewrite bool_decide_false by done. fold origin.
  destruct (negb (bool_decide (origin = "")) && negb _) eqn:Hforb.
  { left. apply andb_true_iff in Hforb as [_ Ho]. by apply negb_true_iff in Ho. }
  right. split.
  { apply andb_false_iff in Hforb as [Hz|Ho]; [|by apply negb_false_iff].
    apply negb_false_iff in Hz. unfold origin_allowed. fold origin. rewrite Hz.
    by destruct (length _ =? 0)%nat. }
  set (h := set_header "Access-Control-Allow-Headers" _ _). exists h.
  split; [|destruct (bool_decide (rq_Method r = "OPTIONS")); [by left|by right]].
  intros vs. unfold h. rewrite !set_header_other by done. destruct (decide (origin = "")) as [Ho|Ho].
  { rewrite bool_decide_true by done. by rewrite lookup_empty. }
  rewrite bool_decide_false by done. unfold add_header. rewrite lookup_insert_ne by done.
  rewrite set_header_other by done. unfold set_header. rewrite lookup_insert_eq. by intros [= <-].
Qed.

(** What a page of history shows. *)
Lemma messages_page `{!RoomScoped S} zone auth now c (db : S) h r page :
  rs_Body (messages_handler zone auth now c db h r) = PageBody page →
  rq_Method r = "GET" ∧ normalize_room (get (rq_Query r) "room") = Ok (pg_room page)
  ∧ authorize auth now r (pg_room page) = Ok (pg_viewer page)
  ∧ Forall (λ m, row_Room m = pg_room page) (pg_messages page)
  ∧ Z.of_nat (length (pg_messages page)) <= pg_limit page ∧ 1 <= pg_limit page <= 100.
Proof.
  unfold messages_handler. case_bool_decide as Hm; cbn [negb]; [|done].
  destruct (normalize_room _) as [room|] eqn:Hr; [|done].
  destruct (authorize auth now r room) as [who|e] eqn:Ha; [|by destruct e].
  destruct (parse_limit _) as [limit|] eqn:Hl; [|done]. apply parse_limit_range in Hl.
  destruct (parse_before _ _ _) as [before|] eqn:Hb; [|done]. cbv zeta.
  destruct (fetch_history _ _ _ _ _) as [ms|] eqn:Hf; [|done].
  assert (Hrooms : Forall (λ m, row_Room m = room) ms).
  { assert (Hn : normalize_room room = Ok room) by by eapply normalize_room_canonical, normalize_room_ok.
    unfold fetch_history in Hf. destruct before as [cur|];
      [by eapply before_room|by eapply recent_room]. }
  destruct (limit <? Z.of_nat (length ms)) eqn:Hmore.
  - destruct (head _ ≫= _); [|done]. cbn [rs_Body]. intros [= <-]. cbn. split_and!; try done; try lia.
    + by apply Forall_drop.
    + unfold last_n. rewrite length_drop. lia.
  - cbn [rs_Body]. intros [= <-]. cbn. split_and!; try done; lia.
Qed.
End facts.

(** ** Properties *)
Section properties.
Context `{Mux} `{!MuxLaws} `{RateLimiter} {S : Type} `{Repository S}.
Implicit Types (env : http_world S) (st : shared S).

(** C10: the boundary of the server.  A request whose origin is not allowed
    reaches no handler on any route: it is answered 404 or 403, or its upgrade is
    refused, and the shared world is as it was.  Only [/ws] changes shared state.
    And whatever answers, a handler, the file server, the metrics page or a refused
    upgrade, the header the code sets grants access to the origin of the request
    alone, and only when it is allowed. *)
Theorem http_boundary cfg auth env st r out st' :
  mount_with_auth cfg auth env st r = (out, st') →
  let origin := get (rq_Header r) "Origin" in
  (origin_allowed (AllowedOrigins cfg) r = false →
    sh_world st' = sh_world st
    ∧ (out = NotFound
       ∨ (∃ reply, out = Replied reply ∧ rs_Status reply = StatusForbidden
            ∧ rs_Body reply = ApiError "origin_forbidden" "The request origin is not allowed.")
       ∨ rq_Path r = "/ws" ∧ ∃ reply, out = Upgraded (Refused reply)))
  ∧ (rq_Path r ≠ "/ws" → st' = st)
  ∧ (∀ vs, answer_header out !! allow_origin = Some vs →
      vs = [origin] ∧ origin ≠ "" ∧ origin_allowed (AllowedOrigins cfg) r = true).
Proof.
  intros Hm origin. unfold mount_with_auth in Hm.
  destruct (dispatch cfg r) as [e|] eqn:He.
  2:{ injection Hm as <- <-. split; [by auto|]. split; [done|]. intros vs. cbn [answer_header].
      by rewrite lookup_empty. }
  destruct (decide (rq_Path r = "/ws")) as [Hws|Hws].
  - apply (dispatch_ws cfg) in Hws as Hd. rewrite Hd in He. injection He as <-.
    unfold enable_cors in Hm. rewrite bool_decide_true in Hm by done. cbn [serve_endpoint] in Hm.
    destruct (serve_ws _ _ _ _ _ _ _ _ _ _ _) as [[[o rl] w] ms] eqn:Hserve.
    injection Hm as <- <-. unfold serve_ws in Hserve.
    destruct (check_upgrade _ _ _ _ _ _ _) as [[[[room p]|reply] rl'] ms'] eqn:Hc.
    { split; [|split; [done|]].
      - apply check_upgrade_ok in Hc as (_&_&_&Hok&_). congruence.
      - intros vs. assert (answer_header (Upgraded o) = ∅) as ->; [|by rewrite lookup_empty].
        revert Hserve. repeat case_match; by intros [= <- _ _ _]. }
    injection Hserve as <- <- <- <-. split; [|split; [done|]].
    + intros _. split; [done|]. right; right. split; [done|]. by eexists.
    + intros vs. cbn [answer_header]. by rewrite (check_upgrade_cors _ _ _ _ _ _ _ _ _ _ Hc).
  - assert (Hne : e ≠ WSEndpoint) by (intros ->; by apply dispatch_ws in He).
    destruct (cors_cases (λ reply, (Replied reply, st)) (AllowedOrigins cfg)
                (serve_endpoint cfg auth env e st) r Hws) as [[Ho E]|(Ho&h&Hh&[E|E])];
      rewrite Hm in E.
    + injection E as -> ->. split; [|split; [done|]].
      * intros _. split; [done|]. right; left. by eexists.
      * intros vs. cbn [answer_header]. by rewrite json_error_cors, lookup_empty.
    + injection E as -> ->. split; [by rewrite Ho|]. split; [done|].
      intros vs Hvs. destruct (Hh vs Hvs). by split_and!.
    + split; [by rewrite Ho|]. destruct e; try done; cbn [serve_endpoint] in E; injection E as -> ->;
        (split; [done|]); intros vs Hvs; cbn [answer_header rs_Header] in Hvs;
        rewrite ?health_cors, ?messages_cors, ?session_cors in Hvs; destruct (Hh vs Hvs); by split_and!.
Qed.

(** C11: history is served under guard.  A response that carries a page of
    messages answers [GET /api/messages] from an origin that is not forbidden; the
    session of the request may read the room of the page, which is the requested
    one; every message of the page belongs to that room, whatever the storage does;
    and the page has at most its limit of messages. *)
Theorem history_guarded `{!RoomScoped S} cfg auth env st r reply st' page :
  mount_with_auth cfg auth env st r = (Replied reply, st') → rs_Body reply = PageBody page →
  rq_Path r = "/api/messages" ∧ rq_Method r = "GET"
  ∧ origin_allowed (AllowedOrigins cfg) r = true
  ∧ normalize_room (get (rq_Query r) "room") = Ok (pg_room page)
  ∧ authorize auth (hw_now env) r (pg_room page) = Ok (pg_viewer page)
  ∧ Forall (λ m, row_Room m = pg_room page) (pg_messages page)
  ∧ Z.of_nat (length (pg_messages page)) <= pg_limit page <= 100.
Proof.
  intros Hm Hp. unfold mount_with_auth in Hm. destruct (dispatch cfg r) as [e|] eqn:He; [|done].
  destruct (decide (rq_Path r = "/ws")) as [Hws|Hws].
  { apply (dispatch_ws cfg) in Hws as Hd. rewrite Hd in He. injection He as <-.
    unfold enable_cors in Hm. rewrite bool_decide_true in Hm by done. cbn [serve_endpoint] in Hm.
    by destruct (serve_ws _ _ _ _ _ _ _ _ _ _ _) as [[[o rl] w] ms]. }
  destruct (cors_cases (λ reply, (Replied reply, st)) (AllowedOrigins cfg)
              (serve_endpoint cfg auth env e st) r Hws) as [[Ho E]|(Ho&h&_&[E|E])];
    rewrite Hm in E; [injection E as -> _; done|injection E as -> _; done|].
  destruct e; try (by apply dispatch_ws in He); cbn [serve_endpoint] in E; try discriminate E;
    injection E as -> ->; try done.
  - apply dispatch_messages in He. apply messages_page in Hp as (?&?&?&?&?&?). split_and!; try done; lia.
  - exfalso. revert Hp. unfold session_handler. by repeat case_match.
Qed.

(** C37: no request reads a file outside the static directory.  Whatever the path
    (with any number of "..", relative or rooted) and whatever the file system
    holds, the file [staticHandler] has served lies beneath the directory; for a
    rooted path a file server is asked only for the very file that was found to be
    a plain file. *)
Theorem static_contained stat dir path :
  dir ≠ "" →
  beneath dir (target_file (static_handler stat dir path))
  ∧ (rooted (bytes path) = true → ∀ file, static_handler stat dir path = FileServer file →
      stat file = Some false).
Proof.
  intros Hd. unfold static_handler. destruct (_ || _).
  { split; [by apply index_beneath|done]. }
  destruct (stat _) as [[]|] eqn:Hs; cbn [target_file];
    try (split; [by apply index_beneath|done]).
  split; [by apply file_server_beneath|]. intros Hp file [= <-]. unfold file_server.
  by rewrite clean_slash.
Qed.
End properties.

(** ** Examples: a SQLite server in session mode *)
Module RouterExample.
#[local] Existing Instances text_driver text_driver_laws fixed_bucket.

(** The documented behaviour of the router, as code. *)
Definition path_mux : Mux := λ p r,
  match p with
  | ExactPath path => bool_decide (rq_Path r = path)
  | PathPrefix prefix => has_prefix (rq_Path r) prefix
  end.
#[local] Existing Instance path_mux.
#[local] Instance path_mux_laws : MuxLaws.
Proof. by split. Qed.

Definition cfg : Config := UpgradeExample.cfg.
Definition auth : option Service := UpgradeExample.auth.
Definition st : shared DB := mk_shared (mk_world (newHub None) ∅ Example.db ∅ ∅) None ∅.
Definition env : http_world DB :=
  mk_http_world AuthExample.later (Example.call_at 200) utc_zone None (λ _, None) "sess_0" true id 0.

Definition foreign : request :=
  mk_request "GET" "/api/messages" ∅ {["Origin" := ["https://evil.example"]]}
    (rq_Cookies AuthExample.return_visit) "10.0.0.7:5123".

Lemma http_boundary_witness :
  ∃ reply, (mount_with_auth cfg auth env st foreign).1 = Replied reply
    ∧ rs_Status reply = StatusForbidden.
Proof.
  destruct (http_boundary cfg auth env st foreign _ _ (surjective_pairing _)) as [H _].
  destruct (H ltac:(vm_compute; reflexivity)) as [_ [Hn|[(reply&E&Hs&_)|[Hws _]]]].
  - vm_compute in Hn. discriminate Hn.
  - exists reply. split; [exact E|exact Hs].
  - discriminate Hws.
Defined.

Definition answer : served * shared DB := mount_with_auth cfg auth env st AuthExample.return_visit.
Definition reply_of (o : served) : reply :=
  match o with Replied r => r | _ => mk_response 0 ∅ None NoBody end.
Definition page_of (o : served) : history_page :=
  match rs_Body (reply_of o) with
  | PageBody page => page
  | _ => mk_page "" [] 0 false None anonymous_principal
  end.
Definition shows_page (o : served) : bool :=
  match o with
  | Replied r => match rs_Body r with PageBody _ => true | _ => false end
  | _ => false
  end.

Lemma shows_page_spec (a : served * shared DB) :
  shows_page a.1 = true →
  a = (Replied (reply_of a.1), a.2) ∧ rs_Body (reply_of a.1) = PageBody (page_of a.1).
Proof.
  destruct a as [[|r| | |] st']; try done. cbn. unfold page_of. cbn. by destruct (rs_Body r).
Qed.

Definition page : history_page := page_of answer.1.
Lemma shown : shows_page answer.1 = true.
Proof. vm_compute. reflexivity. Qed.

Lemma history_guarded_witness :
  row_Content <$> pg_messages page = ["hello"; "hi"] ∧ pg_room page = "general"
  ∧ Forall (λ m, row_Room m = pg_room page) (pg_messages page)
  ∧ authorize auth AuthExample.later AuthExample.return_visit (pg_room page) = Ok (pg_viewer page).
Proof.
  split; [vm_compute; reflexivity|]. split; [vm_compute; reflexivity|].
  destruct (shows_page_spec answer shown) as [E Hp].
  destruct (history_guarded cfg auth env st AuthExample.return_visit _ _ page E Hp)
    as (_&_&_&_&Ha&Hr&_).
  split; [exact Hr|exact Ha].
Defined.

Lemma static_contained_witness :
  beneath "./public" (target_file (static_handler (λ f, Some false) "./public" "/../../etc/passwd"))
  ∧ static_handler (λ f, Some false) "./public" "/../../etc/passwd" = FileServer "public/etc/passwd".
Proof.
  split; [|vm_compute; reflexivity].
  apply (static_contained (λ f, Some false) "./public" "/../../etc/passwd"). discriminate.
Defined.
End RouterExample.
