(* ===== verification/Tracing.v ===== *)
(** Tracing spans: which spans the operations of the server start, with which
    attributes, and when the span of a WebSocket session ends.

    A span is what the code records in it: its name, its attributes in order, and
    whether [telemetry.MarkError] was called.  Identifiers, times, parents and the
    export are the tracer's, which is third-party code. *)
From S2P Require Import Prelude.
From S2P Require Import GoUnicode.
From S2P Require Import GoString.
From S2P Require Import GoTime.
From S2P Require Import Metrics.
From S2P Require Import Http.
From S2P Require Import Rooms.
From S2P Require Import Storage.
From S2P Require Import Sqlite.
From S2P Require Import Cursor.
From S2P Require Import Auth.
From S2P Require Import AuthTheorems.
From S2P Require Import Server.
From S2P Require Import Client.
From S2P Require Import Hub.
From S2P Require Import Config.
From S2P Require Import RateLimit.
From S2P Require Import Upgrade.
From S2P Require Import Router.
Open Scope Z_scope.

Inductive attribute := AString (s : string) | AInt (z : Z) | ABool (b : bool).

Record span := mk_span {
  sp_Name : string; sp_Attributes : list (string * attribute); sp_Failed : bool
}.

(** [telemetry.Start], [span.SetAttributes] and [telemetry.MarkError] *)
Definition Start (name : string) (attrs : list (string * attribute)) : span := mk_span name attrs false.
Definition SetAttributes (k v : string) (sp : span) : span :=
  mk_span (sp_Name sp) (sp_Attributes sp ++ [(k, AString v)]) (sp_Failed sp).
Definition MarkError (sp : span) : span := mk_span (sp_Name sp) (sp_Attributes sp) true.
Definition mark_unless (ok : bool) (sp : span) : span := if ok then sp else MarkError sp.

Section spans.
Context `{RateLimiter} {S : Type} `{Repository S}.

(** ** Storage *)

(** The span of [healthHandler]. *)
Definition health_span (c : call) (db : S) : span :=
  mark_unless (PingContext c db)
    (Start "chatster.storage.ping" [("chatster.storage.operation", AString "ping")]).

(** The span of [saveMessageObservedForUserInRoomContext]. *)
Definition save_span (c : call) (db : S) (room userID username content msgType : string) : span :=
  let spanRoom := ok_or "invalid" (normalize_room room) in
  mark_unless (is_ok (SaveMessageForUserInRoomContext c db room userID username content msgType).1)
    (Start "chatster.storage.save_message"
       [("chatster.room", AString spanRoom); ("chatster.message.type", AString msgType)]).

(** The span of [auditRejectedMessage]. *)
Definition moderation_span (w : call) (db : S) (c : Client) (reason content : string) : span :=
  mark_unless
    (is_ok (SaveModerationEventForUserContext w db (c_ID c) (c_UserID c) (c_Username c) reason content).1)
    (Start "chatster.storage.moderation_event" [("chatster.moderation.reason", AString reason)]).

(** The span of [sendMessageHistory]. *)
Definition history_span (c : call) (client : Client) (db : S) : span :=
  mark_unless (is_ok (GetRecentMessagesInRoomContext c db (room client) 50))
    (Start "chatster.storage.history"
       [("chatster.room", AString (room client)); ("chatster.history.limit", AInt 50)]).

(** Whether [messagesHandler] has a page to send: the rows were read, and the cursor
    of the next page could be encoded. *)
Definition page_ok (zone : Z → Z * Z * Z) (c : call) (db : S) (room : string) (limit : Z)
    (before : option historyCursor) : bool :=
  match fetch_history c db room before (limit + 1) with
  | Err _ => false
  | Ok messages =>
    if limit <? Z.of_nat (length messages) then
      match head (last_n (Z.to_nat limit) messages) ≫= encode_history_cursor zone room with
      | Some _ => true
      | None => false
      end
    else true
  end.

(** The span of [messagesHandler], once the query is accepted. *)
Definition messages_span (zone : Z → Z * Z * Z) (auth : option Service) (now : time) (c : call) (db : S)
    (r : request) : option span :=
  if negb (bool_decide (rq_Method r = "GET")) then None
  else match normalize_room (get (rq_Query r) "room") with
  | Err _ => None
  | Ok room =>
    match authorize auth now r room with
    | Err _ => None
    | Ok _ =>
      limit ← parse_limit (get (rq_Query r) "limit");
      before ← parse_before zone room (rq_Query r !! "before");
      Some (mark_unless (page_ok zone c db room limit before)
        (Start "chatster.storage.history"
          [("chatster.room", AString room); ("chatster.history.limit", AInt limit);
           ("chatster.history.before", ABool (match before with Some _ => true | None => false end))]))
    end
  end.

(** ** The hub *)

(** The span of [publishContext]; [published] is its result, if it returns. *)
Definition enqueue_span (message : Msg) (published : option bool) : span :=
  let sp := Start "chatster.websocket.broadcast.enqueue"
    [("chatster.room", AString (m_Room message)); ("chatster.message.type", AString (m_Type message))] in
  match published with
  | None => sp
  | Some queued => SetAttributes "chatster.broadcast.result" (if queued then "queued" else "stopped") sp
  end.

(** A notification is saved and published: [registerClient], [persistAndPublish]. *)
Definition notification_spans (c : call) (db : S) (message : Msg) (published : option bool) : list span :=
  let '(saved, _) :=
    SaveMessageForUserInRoomContext c db (m_Room message) "" (m_Username message) (m_Content message)
      (m_Type message) in
  [save_span c db (m_Room message) "" (m_Username message) (m_Content message) (m_Type message);
   enqueue_span (match saved with Err _ => message | Ok persisted => stamp message persisted end) published].

(** One iteration of [readMessages]: the branches of [read_step]. *)
Definition read_spans (w : read_world) (c : Client) (db : S) (msg : Msg) (published : option bool) :
    list span :=
  if decide (m_Type msg = "username") then
    if c_Authenticated c then [moderation_span (rw_audit w) db c "identity_override" (m_Content msg)]
    else if negb (validUsername (trim_space (m_Content msg))) then
      [moderation_span (rw_audit w) db c "invalid_username" (m_Content msg)]
    else []
  else
    let body := trim_space (m_Content msg) in
    if negb (validMessageBody body) then
      [moderation_span (rw_audit w) db c "invalid_body" (m_Content msg)]
    else
      let '(allowed, c) := allowMessage (rw_now w) c in
      if negb allowed then [moderation_span (rw_audit w) db (sendRateLimitNotice c) "rate_limited" body]
      else
        let msg := mk_msg (m_ID msg) (c_UserID c) (c_Username c) body "message" (room c)
                     (m_Timestamp msg) in
        [save_span (rw_save w) db (m_Room msg) (m_UserID msg) (m_Username msg) (m_Content msg) (m_Type msg);
         enqueue_span msg published].

(** ** HTTP *)

(** [traceHTTP]; [current] is the route that matched. *)
Definition http_span (current : option pattern) (r : request) : span :=
  let route :=
    match current with
    | Some (ExactPath template) | Some (PathPrefix template) =>
      if bool_decide (template = "") then "unmatched" else template
    | None => "unmatched"
    end in
  Start "chatster.http.request"
    [("http.request.method", AString (rq_Method r)); ("http.route", AString route)].

(** The middleware runs for a route that matched, inside [enableCORS]. *)
Definition request_span `{Mux} (cfg : Config) (r : request) : option span :=
  match List.find (λ route, mux_match route.1 r) (routes cfg) with
  | None => None
  | Some (p, _) =>
    enable_cors (λ _, None) (AllowedOrigins cfg) (λ _ r, Some (http_span (Some p) r)) r
  end.

(** ** The span of a WebSocket session *)

(** [serveWs]: the span as the function leaves it, and whether it ended it. *)
Definition session_span cfg (auth : option Service) (now : time) (upgraded : bool)
    (meanwhile : World (S:=S) → World (S:=S)) (wsRL : option WSUpgrade) r (w : World (S:=S)) : span * bool :=
  let outcome := SetAttributes "chatster.websocket.result" in
  let sp := Start "chatster.websocket.session" [] in
  match normalize_room (get (rq_Query r) "room") with
  | Err _ => (outcome "invalid_room" sp, true)
  | Ok room =>
    let sp := SetAttributes "chatster.room" room sp in
    if isDraining w then (outcome "draining" sp, true)
    else if negb (ask_limiter now wsRL (client_ip r)).1 then (outcome "rate_limited" sp, true)
    else if negb (origin_allowed (AllowedOrigins cfg) r) then (outcome "denied_origin" sp, true)
    else match authorize auth now r room with
    | Err e =>
      (outcome (if decide (e = ErrRoomDenied) then "forbidden_room" else "authentication_required") sp, true)
    | Ok _ =>
      if negb upgraded then (outcome "upgrade_error" (MarkError sp), true)
      else
        let sp := outcome "accepted" sp in
        if isDraining (meanwhile w) then (outcome "draining" sp, true) else (sp, false)
    end
  end.

(** [finishTrace]: the span the client keeps afterwards, and the one it ended. *)
Definition finishTrace (traceSpan : option span) : option span * option span :=
  match traceSpan with
  | None => (None, None)
  | Some sp => (None, Some (SetAttributes "chatster.websocket.lifecycle" "closed" sp))
  end.
End spans.

(** ** What spans may contain ([docs/OBSERVABILITY.md]) *)

Inductive domain := OneOf (vs : list string) | RoomName | RequestMethod | HistoryLimit | Flag.

(** The values of an attribute in an operation of the request method [method] in
    the room [room]: method and room are those and nothing else. *)
Definition in_domain (method room : string) (d : domain) (v : attribute) : bool :=
  match d, v with
  | OneOf vs, AString s => bool_decide (s ∈ vs)
  | RoomName, AString s => bool_decide (s = room) && canonical_room s
  | RequestMethod, AString s => bool_decide (s = method)
  | HistoryLimit, AInt n => (1 <=? n) && (n <=? 100)
  | Flag, ABool _ => true
  | _, _ => false
  end.

Definition session_results : list string :=
  ["invalid_room"; "draining"; "rate_limited"; "denied_origin"; "forbidden_room";
   "authentication_required"; "upgrade_error"; "accepted"].

(** Every span with its attributes and their values. *)
Definition contract : list (string * list (string * domain)) :=
  [("chatster.http.request",
    [("http.request.method", RequestMethod);
     ("http.route", OneOf ["/metrics"; "/health"; "/api/messages"; "/api/session"; "/ws"; "/"])]);
   ("chatster.storage.ping", [("chatster.storage.operation", OneOf ["ping"])]);
   ("chatster.storage.history",
    [("chatster.room", RoomName); ("chatster.history.limit", HistoryLimit);
     ("chatster.history.before", Flag)]);
   ("chatster.websocket.session",
    [("chatster.room", RoomName); ("chatster.websocket.result", OneOf session_results);
     ("chatster.websocket.lifecycle", OneOf ["closed"])]);
   ("chatster.storage.save_message",
    [("chatster.room", RoomName); ("chatster.message.type", OneOf ["message"; "notification"])]);
   ("chatster.storage.moderation_event",
    [("chatster.moderation.reason", OneOf (label_values MessagesRejected))]);
   ("chatster.websocket.broadcast.enqueue",
    [("chatster.room", RoomName); ("chatster.message.type", OneOf ["message"; "notification"]);
     ("chatster.broadcast.result", OneOf ["queued"; "stopped"])])].

Definition attributes_of (name : string) : list (string * domain) :=
  from_option snd [] (List.find (λ s, bool_decide (s.1 = name)) contract).

Definition attribute_ok (method room : string) (keys : list (string * domain))
    (kv : string * attribute) : bool :=
  existsb (λ kd, bool_decide (kd.1 = kv.1) && in_domain method room kd.2 kv.2) keys.

Definition span_ok (method room : string) (sp : span) : Prop :=
  Forall (λ kv, attribute_ok method room (attributes_of (sp_Name sp)) kv = true) (sp_Attributes sp).

(** The room a request asks for, as spans name it; a name that is none is
    replaced by a fixed word. *)
Definition asked_room (r : request) : string :=
  ok_or "invalid" (normalize_room (get (rq_Query r) "room")).

(** *** Facts *)

Lemma span_ok_start method room name attrs :
  Forall (λ kv, attribute_ok method room (attributes_of name) kv = true) attrs →
  span_ok method room (Start name attrs).
Proof. done. Qed.

Lemma span_ok_set method room k v sp :
  attribute_ok method room (attributes_of (sp_Name sp)) (k, AString v) = true → span_ok method room sp →
  span_ok method room (SetAttributes k v sp).
Proof. intros Hk Hsp. apply Forall_app. split; [done|]. by constructor. Qed.

Lemma span_ok_mark method room b sp : span_ok method room sp → span_ok method room (mark_unless b sp).
Proof. by destruct b. Qed.

(** An attribute of the contract, by the place of its key. *)
Ltac known_attribute :=
  match goal with |- attribute_ok ?method ?room ?keys ?kv = true =>
    let keys := eval vm_compute in keys in change (attribute_ok method room keys kv = true)
  end; cbn [attribute_ok existsb fst snd in_domain];
  repeat first [rewrite bool_decide_true by reflexivity | rewrite bool_decide_false by discriminate];
  cbn [andb orb].

(** Close the attributes of a started span, up to the values that vary. *)
Ltac attributes :=
  apply span_ok_start; repeat (apply Forall_cons; split);
  first [apply List.Forall_nil | known_attribute; rewrite ?orb_false_r; try reflexivity].

Section contract.
Context `{RateLimiter} {S : Type} `{Repository S} `{Mux}.
Implicit Types (db : S) (m : Msg).

Lemma moderation_span_ok w db c reason content :
  reason ∈ label_values MessagesRejected → ∀ rm, span_ok "" rm (moderation_span w db c reason content).
Proof.
  intros Hr rm. apply span_ok_mark. attributes. by apply bool_decide_eq_true.
Qed.

Lemma save_span_ok c db room userID username content msgType :
  canonical_room room = true → msgType ∈ ["message"; "notification"] →
  span_ok "" room (save_span c db room userID username content msgType).
Proof.
  intros Hr Ht. apply span_ok_mark. rewrite normalize_room_canonical by done. attributes.
  - cbn [ok_or]. by rewrite Hr.
  - by apply bool_decide_eq_true.
Qed.

Lemma enqueue_span_ok m published :
  canonical_room (m_Room m) = true → m_Type m ∈ ["message"; "notification"] →
  span_ok "" (m_Room m) (enqueue_span m published).
Proof.
  intros Hr Ht. assert (Hs : span_ok "" (m_Room m) (enqueue_span m None)).
  { attributes; [by rewrite Hr|]. by apply bool_decide_eq_true. }
  destruct published as [b|]; [|done]. apply span_ok_set; [|done]. by destruct b.
Qed.

Lemma history_span_ok c client db :
  canonical_room (room client) = true → span_ok "" (room client) (history_span c client db).
Proof.
  intros Hr. apply span_ok_mark. attributes. by rewrite Hr.
Qed.

Lemma messages_span_ok zone auth now c db r sp :
  messages_span zone auth now c db r = Some sp → span_ok "" (asked_room r) sp.
Proof.
  unfold messages_span, asked_room. destruct (negb _); [done|]. destruct (normalize_room _) as [room|] eqn:Hr; [|done].
  destruct (authorize _ _ _ _); [|done]. intros (limit&Hl&(before&_&[= <-])%bind_Some)%bind_Some.
  apply parse_limit_range in Hl. apply span_ok_mark. apply normalize_room_ok in Hr. cbn [ok_or].
  attributes; [by rewrite Hr|lia].
Qed.

(** The span of a history request fails exactly when the response is an internal
    error, and there is none for a request that is refused. *)
Lemma messages_span_agrees zone auth now c db h r :
  let status := rs_Status (messages_handler zone auth now c db h r) in
  match messages_span zone auth now c db r with
  | None => status ∈ [StatusMethodNotAllowed; StatusBadRequest; StatusUnauthorized; StatusForbidden]
  | Some sp => status = (if sp_Failed sp then StatusInternalServerError else StatusOK)
  end.
Proof.
  unfold messages_span, messages_handler. destruct (negb _); [by apply (bool_decide_unpack _)|].
  destruct (normalize_room _) as [room|]; [|by apply (bool_decide_unpack _)].
  destruct (authorize _ _ _ _) as [p|e].
  2:{ unfold write_auth_error. repeat case_match; by apply (bool_decide_unpack _). }
  destruct (parse_limit _) as [limit|]; [|by apply (bool_decide_unpack _)].
  destruct (parse_before _ _ _) as [before|]; [|by apply (bool_decide_unpack _)].
  cbn [mbind option_bind]. unfold page_ok. destruct (fetch_history _ _ _ _ _) as [messages|]; [|done].
  destruct (limit <? _); [|done]. by destruct (head _ ≫= _).
Qed.

Lemma request_span_ok `{!MuxLaws} cfg r sp : request_span cfg r = Some sp → span_ok (rq_Method r) "" sp.
Proof.
  unfold request_span. destruct (List.find _ _) as [[p e]|] eqn:Hp; [|done].
  apply List.find_some in Hp as [Hin _]. unfold enable_cors. intros Hs.
  assert (sp = http_span (Some p) r) as ->.
  { revert Hs. repeat case_match; naive_solver. }
  attributes.
  apply list_elem_of_In in Hin. unfold routes in Hin.
  destruct (bool_decide (StaticDir cfg = "")); repeat (apply elem_of_cons in Hin as [[= -> _]|Hin]);
    first [reflexivity | by apply not_elem_of_nil in Hin].
Qed.

Lemma session_span_ok cfg auth now upgraded meanwhile wsRL r (w : World (S:=S)) :
  span_ok "" (asked_room r) (session_span cfg auth now upgraded meanwhile wsRL r w).1.
Proof.
  unfold session_span, asked_room. cbv zeta. destruct (normalize_room _) as [room|] eqn:Hr; cbn [fst].
  2:{ apply span_ok_set; [reflexivity|]. by apply span_ok_start. }
  cbn [ok_or]. apply normalize_room_ok in Hr.
  assert (Hs : span_ok "" room (SetAttributes "chatster.room" room (Start "chatster.websocket.session" []))).
  { apply span_ok_set; [|by apply span_ok_start]. known_attribute. rewrite orb_false_r.
    by rewrite Hr. }
  assert (Ho : ∀ v sp, bool_decide (v ∈ session_results) = true → sp_Name sp = "chatster.websocket.session" → span_ok "" room sp →
    span_ok "" room (SetAttributes "chatster.websocket.result" v sp)).
  { intros v sp Hv Hn Hsp. apply span_ok_set; [|done]. rewrite Hn. known_attribute.
    by rewrite orb_false_r. }
  destruct (isDraining w); [by apply Ho|].
  destruct (negb (ask_limiter _ _ _).1); [by apply Ho|].
  destruct (negb (origin_allowed _ _)); [by apply Ho|].
  destruct (authorize _ _ _ _) as [p|e]; [|by destruct (decide _); apply Ho].
  destruct (negb upgraded); [by apply Ho|].
  destruct (isDraining (meanwhile w)); by repeat (apply Ho; [reflexivity..|]).
Qed.

Lemma session_span_name cfg auth now upgraded meanwhile wsRL r (w : World (S:=S)) :
  sp_Name (session_span cfg auth now upgraded meanwhile wsRL r w).1 = "chatster.websocket.session".
Proof.
  unfold session_span. destruct (normalize_room _); [|done]. destruct (isDraining w); [done|].
  destruct (negb (ask_limiter _ _ _).1); [done|]. destruct (negb (origin_allowed _ _)); [done|].
  destruct (authorize _ _ _ _); [|done]. destruct (negb upgraded); [done|].
  by destruct (isDraining (meanwhile w)).
Qed.

Lemma read_spans_ok w c db msg published :
  canonical_room (room c) = true → Forall (span_ok "" (room c)) (read_spans w c db msg published).
Proof.
  intros Hr. unfold read_spans. cbv zeta.
  assert (Hm : ∀ c' reason content, reason ∈ label_values MessagesRejected →
    Forall (span_ok "" (room c)) [moderation_span (rw_audit w) db c' reason content]).
  { intros. apply Forall_singleton. by apply moderation_span_ok. }
  destruct (decide (m_Type msg = "username")).
  { destruct (c_Authenticated c); [by apply Hm, (bool_decide_unpack _)|].
    destruct (negb _); [by apply Hm, (bool_decide_unpack _)|constructor]. }
  destruct (negb (validMessageBody _)); [by apply Hm, (bool_decide_unpack _)|].
  destruct (allowMessage (rw_now w) c) as [allowed c'] eqn:Hc.
  assert (Hroom : room c' = room c).
  { revert Hc. unfold allowMessage. by repeat case_match; intros [= <- <-]. }
  destruct (negb allowed); [by apply Hm, (bool_decide_unpack _)|].
  repeat (apply Forall_cons; split); [| |constructor].
  - cbn [m_Room m_Type]. rewrite Hroom. apply save_span_ok; [done|by left].
  - rewrite <- Hroom in *. lazymatch goal with |- span_ok _ _ (enqueue_span ?out _) =>
      apply (enqueue_span_ok out) end; [done|by left].
Qed.

Lemma notification_spans_ok c db m published :
  canonical_room (m_Room m) = true → m_Type m = "notification" →
  Forall (span_ok "" (m_Room m)) (notification_spans c db m published).
Proof.
  intros Hr Ht. unfold notification_spans. destruct (SaveMessageForUserInRoomContext _ _ _ _ _ _ _) as [saved db'].
  assert (m_Type m ∈ ["message"; "notification"]) by (rewrite Ht; right; by left).
  repeat (apply Forall_cons; split); [by apply save_span_ok| |constructor].
  destruct saved as [row|]; [by apply (enqueue_span_ok (stamp m row))|by apply enqueue_span_ok].
Qed.

(** The session span ends once: in [serveWs] unless the client is registered, and
    then with the client's read loop, whose second call finds none. *)
Lemma session_span_ends cfg auth now sid upgraded meanwhile wsRL i r (w : World (S:=S)) ms sp ended o rl w' ms' :
  session_span cfg auth now upgraded meanwhile wsRL r w = (sp, ended) →
  serve_ws cfg auth now sid upgraded meanwhile wsRL i r w ms = (o, rl, w', ms') →
  (ended = false ↔ o = Accepted)
  ∧ finishTrace (finishTrace (Some sp)).1 = (None, None).
Proof.
  unfold session_span, serve_ws, check_upgrade. intros Hs Ho. split; [|done]. revert Hs Ho.
  destruct (normalize_room _) as [room|]; [|by intros [= _ <-] [= <- _ _ _]].
  destruct (isDraining w); [by intros [= _ <-] [= <- _ _ _]|].
  destruct (ask_limiter _ _ _) as [allowed wsRL']. cbn [fst].
  destruct (negb allowed); [by intros [= _ <-] [= <- _ _ _]|].
  destruct (negb (origin_allowed _ _)); [by intros [= _ <-] [= <- _ _ _]|].
  destruct (authorize _ _ _ _) as [p|e]; [|by intros [= _ <-] [= <- _ _ _]].
  destruct (negb upgraded); [by intros [= _ <-] [= <- _ _ _]|].
  unfold register_lock. change (isDraining (put_client _ _ _)) with (isDraining (meanwhile w)).
  destruct (isDraining (meanwhile w)); by intros [= _ <-] [= <- _ _ _].
Qed.

(** C18: the privacy contract of tracing.  Every span of a frame, a notification, a
    replay, a request or a session is one of the documented kinds, and each of its
    attributes is documented: the canonical name of the very room the operation is
    about (a request's room after normalisation, or a fixed word when it is none),
    the very method of the request, a bounded limit, a flag, or one of a fixed list
    of words.  So no message body, user name, user
    id, session id, token, URL or database error reaches a span. *)
Theorem spans_documented `{!MuxLaws} cfg auth :
  (∀ w c db msg published, canonical_room (room c) = true →
     Forall (span_ok "" (room c)) (read_spans w c db msg published))
  ∧ (∀ c db m published, canonical_room (m_Room m) = true → m_Type m = "notification" →
     Forall (span_ok "" (m_Room m)) (notification_spans c db m published))
  ∧ (∀ c client db, canonical_room (room client) = true →
     span_ok "" (room client) (history_span c client db))
  ∧ (∀ c db, span_ok "" "" (health_span c db))
  ∧ (∀ zone now c db r sp, messages_span zone auth now c db r = Some sp → span_ok "" (asked_room r) sp)
  ∧ (∀ r sp, request_span cfg r = Some sp → span_ok (rq_Method r) "" sp)
  ∧ (∀ now upgraded meanwhile wsRL r (w : World (S:=S)),
      let sp := (session_span cfg auth now upgraded meanwhile wsRL r w).1 in
      span_ok "" (asked_room r) sp
      ∧ ∀ ended, (finishTrace (Some sp)).2 = Some ended → span_ok "" (asked_room r) ended).
Proof.
  split_and!; intros *.
  - apply read_spans_ok.
  - apply notification_spans_ok.
  - apply history_span_ok.
  - apply span_ok_mark. attributes.
  - apply messages_span_ok.
  - apply request_span_ok.
  - subst sp. generalize (session_span_ok cfg auth now upgraded meanwhile wsRL r w).
    generalize (session_span_name cfg auth now upgraded meanwhile wsRL r w).
    generalize (session_span cfg auth now upgraded meanwhile wsRL r w).1. intros sp Hn Hs.
    split; [exact Hs|]. intros ended [= <-]. apply span_ok_set; [|exact Hs]. by rewrite Hn.
Qed.
End contract.

Module TracingExample.
#[local] Existing Instances text_driver fixed_bucket RouterExample.path_mux RouterExample.path_mux_laws.
Import ClientExample.

(** A frame that claims an id, an author and a room, and whose insert fails. *)
Lemma spans_documented_witness :
  canonical_room (room ana) = true
  ∧ read_spans failing_save ana empty_db forged (Some true)
    = [mk_span "chatster.storage.save_message"
         [("chatster.room", AString "general"); ("chatster.message.type", AString "message")] true;
       mk_span "chatster.websocket.broadcast.enqueue"
         [("chatster.room", AString "general"); ("chatster.message.type", AString "message");
          ("chatster.broadcast.result", AString "queued")] false]
  ∧ Forall (span_ok "" "general") (read_spans failing_save ana empty_db forged (Some true)).
Proof.
  assert (Hr : canonical_room (room ana) = true) by reflexivity.
  split; [exact Hr|]. split; [vm_compute; reflexivity|].
  destruct (spans_documented (S := DB) RouterExample.cfg RouterExample.auth) as [H _].
  exact (H failing_save ana empty_db forged (Some true) Hr).
Defined.

Lemma session_traced :
  session_span RouterExample.cfg RouterExample.auth AuthExample.later true id None RouterExample.foreign
    (mk_world (newHub None) ∅ Example.db ∅ ∅)
  = (mk_span "chatster.websocket.session"
       [("chatster.room", AString "general"); ("chatster.websocket.result", AString "denied_origin")] false,
     true).
Proof. vm_compute. reflexivity. Qed.
End TracingExample.
