(* ===== verification/Wsload.v ===== *)
(** The load generator ([cmd/wsload/main.go]): what its readers count, what its
    senders write, and the report it makes of both.

    The readers and the senders run concurrently and share only counters, so a
    run is the sequence of frames the readers received, in the order in which
    they handled them, and each sender's sequence of writes. *)
From Stdlib Require Import QArith.
From stdpp Require Import gmap strings sorting.
From S2P Require Import Prelude.
From S2P Require Import GoUnicode.
From S2P Require Import GoString.
From S2P Require Import GoFloat.
From S2P Require Import GoTime.
From S2P Require Import Json.
From S2P Require Import GoStrconv.
From S2P Require Import GoFmt.
From S2P Require Import Client.
Open Scope Z_scope.

(** ** Frames *)

Record outboundMessage := mk_outbound { out_Type : string; out_Content : string }.
Record inboundMessage := mk_inbound { in_Type : string; in_Content : string }.

#[export] Instance inbound_eq_dec : EqDecision inboundMessage.
Proof. solve_decision. Defined.

Definition marshal_outbound (m : outboundMessage) : json :=
  JObj [(bytes "type", json_string (out_Type m)); (bytes "content", json_string (out_Content m))].

Definition inbound_names : list string := ["type"; "content"].

Definition set_inbound_field (name : string) (v : json) (m : inboundMessage) : option inboundMessage :=
  if bool_decide (name = "type") then
    s ← decode_string (in_Type m) v; Some (mk_inbound s (in_Content m))
  else
    s ← decode_string (in_Content m) v; Some (mk_inbound (in_Type m) s).

(** [json.Unmarshal(data, &msg)] of a fresh [msg]. *)
Definition unmarshal_inbound (data : list Z) : option inboundMessage :=
  v ← unmarshal_value data;
  decode_open_struct inbound_names set_inbound_field (mk_inbound "" "") v.

(** The content of a load message, and its scan. *)
Definition load_content (nanos clientID j : Z) : string :=
  "wsload " +:+ itoa nanos +:+ " " +:+ itoa clientID +:+ " " +:+ itoa j.

Definition load_format : list directive :=
  (Literal <$> bytes "wsload") ++ [Spaces; Decimal; Spaces; Decimal; Spaces; Decimal].

Definition scan_tag (content : string) : option (Z * Z * Z) :=
  match sscanf content load_format with
  | [sentNanos; cid; seq] => Some (sentNanos, cid, seq)
  | _ => None
  end.

Definition frame_tag (data : list Z) : option (Z * Z * Z) :=
  msg ← unmarshal_inbound data; scan_tag (in_Content msg).

(** ** Readers *)

Record reader := mk_reader { seen : gset string; samples : list Z }.

(** What the goroutines share: every reader's slot and the atomics. *)
Record readers := mk_readers { slots : list reader; received : Z; lastRecvNanos : Z }.

Definition start_readers (n : nat) : readers := mk_readers (replicate n (mk_reader ∅ [])) 0 0.

Definition tag_key (cid seq : Z) : string := itoa cid +:+ "/" +:+ itoa seq.

(** A frame [data] received by the reader [slot] at [now]. *)
Record frame := mk_frame { f_slot : nat; f_now : Z; f_data : list Z }.

(** One iteration of a reader's loop after a successful [ReadMessage]. *)
Definition read_frame (f : frame) (st : readers) : readers :=
  match slots st !! f_slot f with
  | None => st
  | Some r =>
    let received := wrap64 (received st + 1) in
    match frame_tag (f_data f) with
    | None => mk_readers (slots st) received (lastRecvNanos st)
    | Some (sentNanos, cid, seq) =>
      let key := tag_key cid seq in
      if bool_decide (key ∈ seen r) then mk_readers (slots st) received (lastRecvNanos st)
      else
        let r := mk_reader ({[ key ]} ∪ seen r) (samples r ++ [wrap64 (f_now f - sentNanos)]) in
        mk_readers (<[f_slot f := r]> (slots st)) received (f_now f)
    end
  end.

Definition run_readers (n : nat) (fs : list frame) : readers :=
  foldl (λ st f, read_frame f st) (start_readers n) fs.

(** ** Senders *)

(** The sender of a client: [clock] and [write] give the time and the outcome of
    its [j]-th write.  The messages it wrote, and whether a write failed. *)
Section sender.
Context (clientID : Z) (clock : nat → Z) (write : nat → bool).

Fixpoint send_from (j todo : nat) : list string * bool :=
  match todo with
  | O => ([], false)
  | S todo =>
    let content := load_content (clock j) clientID (Z.of_nat j) in
    if write j then let '(sent, failed) := send_from (S j) todo in (content :: sent, failed)
    else ([], true)
  end.

Definition send (messages : nat) : list string * bool := send_from 0 messages.
End sender.

(** ** The report *)

(** [sort.Slice] with [<] *)
Definition sort_samples (l : list Z) : list Z := merge_sort (≤)%Z l.

(** [percentile]: [None] for an index out of range. *)
Definition percentile (sorted : list Z) (p : Q) : option Z :=
  match sorted with
  | [] => Some 0
  | _ =>
    let idx := to_int (fmul p (of_int (Z.of_nat (length sorted) - 1))) in
    if idx <? 0 then None else sorted !! Z.to_nat idx
  end.

Definition msFromNanos (ns : Z) : Q := fdiv (of_int ns) (of_int 1000000).

(** The constants 0.50, 0.95 and 0.99 as [float64]. *)
Definition p50 : Q := round64 (50 # 100).
Definition p95 : Q := round64 (95 # 100).
Definition p99 : Q := round64 (99 # 100).

(** The flags a run depends on; the other two are the dial timeout and a sleep. *)
Record options := mk_options {
  o_url : string; o_clients : Z; o_messages : Z; o_prefix : string;
  o_settleFor : Z; o_sendInterval : Z; o_failOnLoss : bool
}.

(** [result] *)
Record load_result := mk_load_result {
  URL : string; Clients : Z; MessagesPerClient : Z; SettleFor : string; SendInterval : string;
  TotalSent : Z; ExpectedDelivered : Z; TotalReceived : Z; Delivered : Z; Lost : Z; Errors : Z;
  SendDurationMS : Z; DeliveredThroughput : Q;
  LatencyP50MS : Q; LatencyP95MS : Q; LatencyP99MS : Q; LatencyMaxMS : Q; LatencyMeanMS : Q
}.

Definition sum64 (l : list Z) : Z := foldl (λ sum v, wrap64 (sum + v)) 0 l.

(** The report of a run: [sent] and [errors] as the senders left them, the
    readers' state, the start of the send window and its length. *)
Definition make_result (o : options) (sent errors : Z) (st : readers) (start sendDuration : Z) :
    option load_result :=
  let latencies := mjoin (samples <$> slots st) in
  let n := Z.of_nat (length latencies) in
  let expected := wrap64 (sent * o_clients o) in
  let lost := wrap64 (expected - n) in
  let lost := if lost <? 0 then 0 else lost in
  let window := wrap64 (lastRecvNanos st - start) in
  let throughput :=
    if (0 <? lastRecvNanos st) && (0 <? n) && (0 <? window) then fdiv (of_int n) (seconds window)
    else 0%Q in
  let report := mk_load_result (o_url o) (o_clients o) (o_messages o)
    (duration_string (o_settleFor o)) (duration_string (o_sendInterval o))
    sent expected (received st) n lost errors (milliseconds sendDuration) throughput in
  match sort_samples latencies with
  | [] => Some (report 0 0 0 0 0)%Q
  | sorted =>
    v50 ← percentile sorted p50;
    v95 ← percentile sorted p95;
    v99 ← percentile sorted p99;
    vmax ← last sorted;
    Some (report (msFromNanos v50) (msFromNanos v95) (msFromNanos v99) (msFromNanos vmax)
            (msFromNanos (Z.quot (sum64 sorted) n)))
  end.

(** ** [main] *)

(** What happens around a run: the dials, the username frames, every client's
    clock and writes, the frames the readers get, the send window. *)
Record load_world := mk_load_world {
  w_dial : nat → bool;
  w_username : nat → bool;
  w_clock : nat → nat → Z;
  w_write : nat → nat → bool;
  w_frames : list frame;
  w_start : Z;
  w_elapsed : Z
}.

Inductive load_fatal :=
| ClientsTooFew | MessagesTooFew | DialFailed (i : nat) | UsernameFailed (i : nat) | IndexPanic.

Inductive load_exit := ExitOk | SendErrors (n : Z) | MissingDeliveries (n : Z).

(** [for i := 0; i < n; i++ { if !ok(i) { log.Fatalf(...) } }] *)
Definition first_failure (ok : nat → bool) (n : nat) : option nat :=
  List.find (λ i, negb (ok i)) (seq 0 n).

(** The username frames: the readers are running, so frames may come in. *)
Definition username_frame (o : options) (i : nat) : outboundMessage :=
  let d := print_int (Z.of_nat i) in
  mk_outbound "username"
    (o_prefix o +:+ "-" +:+ of_bytes (replicate (3 - length d) (chr "0") ++ d)).

Definition run_senders (w : load_world) (clients messages : nat) : list (list string * bool) :=
  (λ i, send (Z.of_nat i) (w_clock w i) (w_write w i) messages) <$> seq 0 clients.

Definition total_sent (ss : list (list string * bool)) : Z :=
  Z.of_nat (sum_list_with (λ s, length s.1) ss).
Definition total_errors (ss : list (list string * bool)) : Z :=
  Z.of_nat (length (List.filter snd ss)).

(** The exit status after the report. *)
Definition exit_of (o : options) (r : load_result) : load_exit :=
  if 0 <? Errors r then SendErrors (Errors r)
  else if o_failOnLoss o && (0 <? Lost r) then MissingDeliveries (Lost r) else ExitOk.

Definition main (o : options) (w : load_world) : result load_fatal (load_result * load_exit) :=
  if o_clients o <? 1 then Err ClientsTooFew
  else if o_messages o <? 1 then Err MessagesTooFew
  else
    let clients := Z.to_nat (o_clients o) in
    match first_failure (w_dial w) clients with
    | Some i => Err (DialFailed i)
    | None =>
      match first_failure (w_username w) clients with
      | Some i => Err (UsernameFailed i)
      | None =>
        let ss := run_senders w clients (Z.to_nat (o_messages o)) in
        let st := run_readers clients (w_frames w) in
        match make_result o (total_sent ss) (total_errors ss) st (w_start w) (w_elapsed w) with
        | None => Err IndexPanic
        | Some r => Ok (r, exit_of o r)
        end
      end
    end.

(** ** Percentiles *)

Lemma p_values :
  p50 = (1 # 2)%Q ∧ p95 = (4278419646001971 # 4503599627370496)%Q
  ∧ p99 = (4458563631096791 # 4503599627370496)%Q.
Proof. split_and!; vm_compute; reflexivity. Qed.

(** The three constants with their per cent. *)
Definition percent_constant (P : Z) (p : Q) : Prop :=
  P = 50 ∧ p = p50 ∨ P = 95 ∧ p = p95 ∨ P = 99 ∧ p = p99.

Lemma percent_index P p n :
  percent_constant P p → 0 <= n <= 2 ^ 45 → to_int (fmul p (of_int n)) = P * n / 100.
Proof.
  destruct p_values as (E50&E95&E99). intros [[-> ->]|[[-> ->]|[-> ->]]] Hn.
  - rewrite E50. apply (percent_exact 50 1 2 0); lia.
  - rewrite E95. by apply (percent_exact 95 _ _ 20).
  - rewrite E99. by apply (percent_exact 99 _ _ 4).
Qed.

Lemma percentile_lookup P p l :
  percent_constant P p → l ≠ [] → Z.of_nat (length l) <= 2 ^ 45 →
  percentile l p = l !! Z.to_nat (P * (Z.of_nat (length l) - 1) / 100)
  ∧ (Z.to_nat (P * (Z.of_nat (length l) - 1) / 100) < length l)%nat.
Proof.
  intros Hp Hl Hn. destruct l as [|x l]; [done|]. clear Hl.
  set (n := Z.of_nat (length (x :: l))) in *. assert (1 <= n) by (unfold n; cbn [length]; lia).
  assert (HP : 0 <= P <= 99) by (destruct Hp as [[-> _]|[[-> _]|[-> _]]]; lia).
  unfold percentile. fold n. rewrite (percent_index P) by (done || lia).
  assert (0 <= P * (n - 1) / 100 < n) by (split; [apply Z.div_pos|apply Z.div_lt_upper_bound]; nia).
  split; [|unfold n in *; lia]. by replace (_ <? 0) with false by lia.
Qed.

(** The element at an index of a sorted list has that many elements in front. *)
Lemma sorted_rank l i v :
  StronglySorted (≤)%Z l → l !! i = Some v →
  (length (List.filter (λ x, (x <? v)%Z) l) <= i < length (List.filter (λ x, (x <=? v)%Z) l))%nat.
Proof.
  intros Hs Hv. rewrite <- (take_drop_middle l i v Hv) in Hs |- *.
  pose proof (lookup_lt_Some _ _ _ Hv) as Hi.
  assert (Hlen : length (take i l) = i) by (rewrite length_take; lia).
  set (a := take i l) in *. set (b := drop (S i) l) in *. clearbody a b. clear Hv Hi.
  assert (Forall (λ x, x <= v)%Z a ∧ Forall (λ x, v <= x)%Z b) as [Ha Hb].
  { clear Hlen. induction a as [|x a IH]; cbn [app] in Hs; apply StronglySorted_inv in Hs as [Hs Hx];
      [by split|].
    destruct (IH Hs) as [IHa IHb]. split; [|done]. constructor; [|done].
    rewrite Forall_app in Hx. by destruct Hx as [_ [Hx _]%Forall_cons]. }
  rewrite !List.filter_app, !length_app. cbn [List.filter]. rewrite Z.ltb_irrefl, Z.leb_refl. split.
  - rewrite (filter_none (λ x, (x <? v)%Z) b).
    + pose proof (List.filter_length_le (λ x, (x <? v)%Z) a). cbn [length]. lia.
    + intros x Hx. rewrite Forall_forall in Hb. specialize (Hb x Hx). lia.
  - rewrite (filter_all (λ x, (x <=? v)%Z) a).
    + cbn [length]. lia.
    + intros x Hx. rewrite Forall_forall in Ha. specialize (Ha x Hx). lia.
Qed.

Lemma count_sorted (f : Z → bool) l : length (List.filter f (sort_samples l)) = length (List.filter f l).
Proof.
  rewrite !filter_bool. apply Permutation_length, filter_Permutation. apply merge_sort_Permutation.
Qed.

(** C39: the latency percentiles are order statistics.  For at most [2 ^ 45] samples
    the index [int(p * float64(len-1))] is [P * (len - 1) / 100] exactly, although
    neither 0.95 nor 0.99 is a [float64]; it is in range, and the value is a
    sample with at most that many samples below it and more not above it. *)
Theorem percentile_order_statistic P p l :
  percent_constant P p → l ≠ [] → Z.of_nat (length l) <= 2 ^ 45 →
  ∃ v, percentile (sort_samples l) p = Some v ∧ v ∈ l
       ∧ Z.of_nat (length (List.filter (λ x, x <? v) l)) <= P * (Z.of_nat (length l) - 1) / 100
         < Z.of_nat (length (List.filter (λ x, x <=? v) l)).
Proof.
  intros Hp Hl Hn. pose proof (merge_sort_Permutation (≤)%Z l) as Hperm. fold (sort_samples l) in Hperm.
  pose proof (Permutation_length Hperm) as Hlen.
  assert (Hs : sort_samples l ≠ []) by (intros E; rewrite E in Hlen; by destruct l).
  destruct (percentile_lookup P p (sort_samples l) Hp Hs) as [E Hi]; [by rewrite Hlen|].
  apply lookup_lt_is_Some in Hi as [v Hv]. rewrite Hlen in *. exists v. rewrite E.
  split; [exact Hv|]. split.
  - rewrite <- Hperm. by eapply list_elem_of_lookup_2.
  - apply sorted_rank in Hv; [|apply StronglySorted_merge_sort; intros ??; lia].
    rewrite !count_sorted in Hv.
    assert (0 <= P * (Z.of_nat (length l) - 1) / 100); [|lia].
    destruct l; [done|]. cbn [length].
    apply Z.div_pos; [|lia]. destruct Hp as [[-> _]|[[-> _]|[-> _]]]; lia.
Qed.

Lemma percentile_witness :
  percent_constant 95 p95 ∧ ∃ v, percentile (sort_samples [5; 3; 9; 1; 7]) p95 = Some v ∧ v ∈ [5; 3; 9; 1; 7]
    ∧ Z.of_nat (length (List.filter (λ x, x <? v) [5; 3; 9; 1; 7])) <= 95 * (Z.of_nat 5 - 1) / 100
      < Z.of_nat (length (List.filter (λ x, x <=? v) [5; 3; 9; 1; 7])).
Proof.
  assert (H : percent_constant 95 p95) by (right; left; split; reflexivity).
  split; [exact H|]. apply (percentile_order_statistic 95 p95 [5; 3; 9; 1; 7] H); [discriminate|].
  cbn. lia.
Defined.

(** ** Tags *)

Notation int64 n := (- 2 ^ 63 <= n < 2 ^ 63).

Lemma bytes_itoa n : bytes (itoa n) = print_int n.
Proof. apply bytes_of_bytes, is_bytes_forallb, print_int_bytes. Qed.

Lemma bytes_load_content nanos cid j :
  bytes (load_content nanos cid j)
  = bytes "wsload" ++ chr " " :: print_int nanos ++ chr " " :: print_int cid ++ chr " " :: print_int j.
Proof. unfold load_content. by rewrite !bytes_app, !bytes_itoa. Qed.

Lemma load_content_ascii nanos cid j :
  int64 nanos → int64 cid → int64 j → ascii_bytes (bytes (load_content nanos cid j)) = true.
Proof.
  intros Hn Hc Hj. rewrite bytes_load_content. unfold ascii_bytes.
  repeat (rewrite forallb_app || cbn [forallb]).
  pose proof print_int_ascii as H. unfold ascii_bytes in H. by rewrite !H.
Qed.

Lemma runes_load_content nanos cid j :
  int64 nanos → int64 cid → int64 j → runes (load_content nanos cid j) = bytes (load_content nanos cid j).
Proof. intros. by apply runes_ascii, load_content_ascii. Qed.

Lemma scan_load_content nanos cid j :
  int64 nanos → int64 cid → int64 j → scan_tag (load_content nanos cid j) = Some (nanos, cid, j).
Proof.
  intros Hn Hc Hj. unfold scan_tag, sscanf. rewrite runes_load_content, bytes_load_content by done.
  unfold load_format. rewrite scan_literals, scan_space, print_int_head, scan_print by done.
  rewrite scan_space, print_int_head, scan_print by done.
  rewrite scan_space. rewrite <- (app_nil_r (print_int j)).
  by rewrite print_int_head, scan_print by done.
Qed.

(** The members of a frame that name no field of [inboundMessage]. *)
Definition other_members (ms : list (list Z * json)) : Prop :=
  Forall (λ m, field_of inbound_names (unquote m.1) = None) ms.

Lemma skip_others ms ms' x :
  other_members ms →
  set_known_members inbound_names set_inbound_field x (ms ++ ms')
  = set_known_members inbound_names set_inbound_field x ms'.
Proof.
  induction 1 as [|m ms Hm Hms IH]; [done|]. cbn [app set_known_members]. unfold set_known_member at 1.
  by rewrite Hm.
Qed.

Lemma set_content s m :
  set_inbound_field "content" (json_string s) m = Some (mk_inbound (in_Type m) (string_of_runes (runes s))).
Proof. unfold set_inbound_field. by rewrite bool_decide_false, decode_json_string. Qed.

Lemma set_type s m :
  set_inbound_field "type" (json_string s) m = Some (mk_inbound (string_of_runes (runes s)) (in_Content m)).
Proof. unfold set_inbound_field. by rewrite bool_decide_true, decode_json_string. Qed.

Lemma unmarshal_frame pre post content typ :
  let v := JObj (pre ++ (bytes "content", json_string content) :: (bytes "type", json_string typ) :: post) in
  printable v → nesting v <= maxNestingDepth → other_members pre → other_members post →
  unmarshal_inbound (print v)
  = Some (mk_inbound (string_of_runes (runes typ)) (string_of_runes (runes content))).
Proof.
  intros v Hv Hn Hpre Hpost. unfold unmarshal_inbound, unmarshal_value. rewrite decode_print by done.
  cbn [mbind option_bind]. apply Z.leb_le in Hn. rewrite Hn. cbn [mbind option_bind].
  unfold v, decode_open_struct. rewrite skip_others by done.
  known_member "content". rewrite set_content. cbn [mbind option_bind].
  known_member "type". rewrite set_type. cbn [mbind option_bind in_Content].
  rewrite <- (app_nil_r post). by rewrite skip_others.
Qed.

(** The content is a valid body, and trimming does not change it. *)
Lemma load_content_body nanos cid j :
  int64 nanos → int64 cid → int64 j →
  trim_space (load_content nanos cid j) = load_content nanos cid j
  ∧ validMessageBody (load_content nanos cid j) = true.
Proof.
  intros Hn Hc Hj. pose proof (runes_load_content nanos cid j Hn Hc Hj) as Hr.
  destruct (print_int_last j Hj) as (d&Hlast&Hd). split.
  - apply trim_space_fix. rewrite Hr, bytes_load_content. split; intros r.
    + by intros [= <-].
    + rewrite last_app, last_cons, last_app, last_cons, last_app, last_cons, Hlast. intros [= <-].
      unfold is_digit in Hd. unfold is_space. lia.
  - unfold validMessageBody. destruct (decide _) as [E|_]; [by destruct (itoa nanos)|].
    unfold rune_count. rewrite Hr, bytes_load_content. rewrite !length_app. cbn [length].
    rewrite !length_app. cbn [length]. rewrite !length_app. cbn [length].
    pose proof (length_print_int nanos). pose proof (length_print_int cid). pose proof (length_print_int j).
    unfold maxMessageRunes. apply Z.leb_le. change (length (bytes "wsload")) with 6%nat. lia.
Qed.

(** C40: a load message survives its way through the server.  Its content is a valid
    body that trimming does not change, and the frame that carries it back, with
    whatever other fields the server adds, is scanned to the time, the sender and
    the number it was written with. *)
Theorem load_tag_roundtrip nanos cid j pre post typ :
  int64 nanos → int64 cid → int64 j →
  let content := load_content nanos cid j in
  let v := JObj (pre ++ (bytes "content", json_string content) :: (bytes "type", json_string typ) :: post) in
  printable v → nesting v <= maxNestingDepth → other_members pre → other_members post →
  trim_space content = content ∧ validMessageBody content = true
  ∧ frame_tag (print v) = Some (nanos, cid, j).
Proof.
  intros Hn Hc Hj content v Hv Hnest Hpre Hpost.
  destruct (load_content_body nanos cid j) as [Ht Hb]; [done..|]. split_and!; [done|done|].
  unfold frame_tag, v. rewrite unmarshal_frame by done. cbn [mbind option_bind in_Content].
  rewrite string_of_runes_ascii; [by apply scan_load_content|].
  unfold content. rewrite runes_load_content by done. by apply load_content_ascii.
Qed.

(** The broadcast of a load message, as [main.Message] is written. *)
Definition broadcast_pre : list (list Z * json) :=
  [(bytes "id", json_int 7); (bytes "username", json_string "load-001")].
Definition broadcast_post : list (list Z * json) := [(bytes "room", json_string "general")].

Lemma load_tag_roundtrip_witness :
  other_members broadcast_pre ∧ other_members broadcast_post
  ∧ frame_tag (print (JObj (broadcast_pre
        ++ (bytes "content", json_string (load_content 1700000000123456789 1 4))
           :: (bytes "type", json_string "message") :: broadcast_post)))
    = Some (1700000000123456789, 1, 4).
Proof.
  assert (Hpre : other_members broadcast_pre) by (repeat constructor).
  assert (Hpost : other_members broadcast_post) by (repeat constructor).
  split; [exact Hpre|]. split; [exact Hpost|].
  apply (load_tag_roundtrip 1700000000123456789 1 4 broadcast_pre broadcast_post "message");
    [lia|lia|lia| | |exact Hpre|exact Hpost].
  - unfold broadcast_pre, broadcast_post. cbn [app].
    split_and!; first [apply printable_string | apply printable_int; lia | apply key_ok; reflexivity | exact I].
  - vm_compute. discriminate.
Defined.

(** ** Losses *)

Definition pair_of (t : Z * Z * Z) : Z * Z := (t.1.2, t.2).

(** The messages whose tag the reader [slot] received. *)
Definition delivered (slot : nat) (fs : list frame) : gset (Z * Z) :=
  list_to_set (omap (λ f, if decide (f_slot f = slot) then pair_of <$> frame_tag (f_data f) else None) fs).

(** The messages the senders wrote, by the tags of their contents. *)
Definition sent_tags (ss : list (list string * bool)) : gset (Z * Z) :=
  list_to_set (omap (λ s, pair_of <$> scan_tag s) (mjoin ss.*1)).

Definition key_of (p : Z * Z) : string := tag_key p.1 p.2.
Definition in_range (p : Z * Z) : Prop := int64 p.1 ∧ int64 p.2.

Lemma print_int_no_slash n : int64 n → chr "/" ∉ print_int n.
Proof.
  intros Hn Hin. destruct (print_int_shape n Hn) as (sign&c&t&E&Hd&Hs). rewrite E in Hin.
  apply elem_of_app in Hin as [Hin|Hin].
  - destruct Hs as [-> | ->]; [by apply not_elem_of_nil in Hin|]. by apply list_elem_of_singleton in Hin.
  - apply list_elem_of_In in Hin. rewrite forallb_forall in Hd. by apply Hd in Hin.
Qed.

Lemma print_int_inj n m : int64 n → int64 m → print_int n = print_int m → n = m.
Proof.
  intros Hn Hm E. pose proof (atoi_itoa n Hn) as An. pose proof (atoi_itoa m Hm) as Am.
  unfold itoa in *. rewrite E in An. congruence.
Qed.

(** Different tags have different keys. *)
Lemma key_inj p q : in_range p → in_range q → key_of p = key_of q → p = q.
Proof.
  destruct p as [a b], q as [a' b']. intros [Ha Hb] [Ha' Hb'] E. cbn [fst snd] in *.
  unfold key_of, tag_key in E. apply (f_equal bytes) in E. cbn [fst snd] in E.
  rewrite !bytes_app, !bytes_itoa in E. change (bytes "/") with [chr "/"] in E. cbn [app] in E.
  apply (f_equal (split_on (chr "/"))) in E.
  rewrite !split_on_sep in E by (by apply print_int_no_slash). injection E as E1 E2.
  apply print_int_inj in E1; [|done..]. subst a'. f_equal.
  rewrite <- (app_nil_r (print_int b)), <- (app_nil_r (print_int b')) in E2.
  rewrite !split_on_app in E2 by (by apply print_int_no_slash). injection E2 as E2.
  rewrite !app_nil_r in E2. by apply print_int_inj.
Qed.

Lemma scan_decimal_range rs n rest : scan_decimal rs = Some (n, rest) → int64 n.
Proof.
  unfold scan_decimal. repeat case_match; try done; intros H'; apply bind_Some in H' as (k&Hk%parse_int_range&[= <- <-]); lia.
Qed.

Lemma scan_range format rs n : n ∈ scan format rs → int64 n.
Proof.
  revert rs. induction format as [|d format IH]; intros rs; cbn [scan]; [by intros ?%not_elem_of_nil|].
  destruct d as [|c|].
  - destruct (match_spaces rs); [apply IH|by intros ?%not_elem_of_nil].
  - destruct rs as [|r rs]; [by intros ?%not_elem_of_nil|]. destruct (r =? c); [apply IH|by intros ?%not_elem_of_nil].
  - destruct (skip_blanks rs ≫= scan_decimal) as [[m rest]|] eqn:E; [|by intros ?%not_elem_of_nil].
    apply bind_Some in E as (rs'&_&E%scan_decimal_range).
    intros [->|H]%elem_of_cons; [done|]. by apply (IH rest).
Qed.

Lemma scan_tag_range s t : scan_tag s = Some t → in_range (pair_of t).
Proof.
  unfold scan_tag, sscanf. intros H.
  pose proof (scan_range load_format (runes s)) as Hr.
  destruct (scan load_format (runes s)) as [|a [|b [|c [|]]]]; try done. injection H as <-.
  split; apply Hr; repeat (apply elem_of_cons; (left + right); reflexivity || idtac); set_solver.
Qed.

Lemma frame_tag_range data t : frame_tag data = Some t → in_range (pair_of t).
Proof. unfold frame_tag. intros (m&_&H)%bind_Some. by eapply scan_tag_range. Qed.

Lemma delivered_snoc slot fs f :
  delivered slot (fs ++ [f])
  = delivered slot fs ∪ (if decide (f_slot f = slot)
                         then match frame_tag (f_data f) with Some t => {[ pair_of t ]} | None => ∅ end
                         else ∅).
Proof.
  unfold delivered. rewrite omap_app, list_to_set_app_L. f_equal. cbn [omap list_omap].
  destruct (decide _); [|done]. destruct (frame_tag _); [|done]. cbn. set_solver.
Qed.

Lemma delivered_range slot fs p : p ∈ delivered slot fs → in_range p.
Proof.
  unfold delivered. rewrite elem_of_list_to_set, list_elem_of_omap. intros (f&_&Hf).
  destruct (decide _); [|done]. destruct (frame_tag _) as [t|] eqn:E; [|done].
  injection Hf as <-. by eapply frame_tag_range.
Qed.

(** What a reader's slot holds: the keys of what it received, a sample for each. *)
Definition slot_ok (slot : nat) (fs : list frame) (r : reader) : Prop :=
  seen r = set_map key_of (delivered slot fs) ∧ length (samples r) = size (delivered slot fs).

Lemma seen_key slot fs r p :
  slot_ok slot fs r → in_range p → key_of p ∈ seen r ↔ p ∈ delivered slot fs.
Proof.
  intros [Hs _] Hp. rewrite Hs, elem_of_map. split; [|by exists p].
  intros (q&E&Hq). pose proof (delivered_range _ _ _ Hq). by rewrite (key_inj p q).
Qed.

Lemma slot_ok_snoc slot fs f r :
  slot_ok slot fs r →
  slot_ok slot (fs ++ [f])
    (if decide (f_slot f = slot) then
       match frame_tag (f_data f) with
       | Some (sentNanos, cid, seq) =>
         if bool_decide (tag_key cid seq ∈ seen r) then r
         else mk_reader ({[ tag_key cid seq ]} ∪ seen r) (samples r ++ [wrap64 (f_now f - sentNanos)])
       | None => r
       end
     else r).
Proof.
  intros Hok. pose proof Hok as [Hseen Hlen]. unfold slot_ok. rewrite delivered_snoc.
  destruct (decide (f_slot f = slot)); [|by rewrite union_empty_r_L].
  destruct (frame_tag (f_data f)) as [[[n c] s]|] eqn:E; [|by rewrite union_empty_r_L].
  apply frame_tag_range in E. unfold pair_of in *. cbn [fst snd] in *.
  change (tag_key c s) with (key_of (c, s)).
  pose proof (seen_key slot fs r (c, s) Hok E) as Hk. case_bool_decide as Hin.
  - apply Hk in Hin. by replace (delivered slot fs ∪ {[(c, s)]}) with (delivered slot fs) by set_solver.
  - rewrite Hk in Hin. cbn [seen samples]. split.
    + rewrite set_map_union_L, set_map_singleton_L, Hseen. set_solver.
    + rewrite length_app, Hlen, size_union by set_solver. by rewrite size_singleton.
Qed.

Lemma run_readers_ok n fs :
  length (slots (run_readers n fs)) = n
  ∧ ∀ slot r, slots (run_readers n fs) !! slot = Some r → slot_ok slot fs r.
Proof.
  unfold run_readers. induction fs as [|f fs [IHl IH]] using rev_ind.
  { cbn. rewrite length_replicate. split; [done|]. intros slot r [-> _]%lookup_replicate. done. }
  rewrite foldl_snoc. set (st := foldl _ _ fs) in *. clearbody st. unfold read_frame.
  destruct (slots st !! f_slot f) as [r0|] eqn:Hr0.
  - assert (Hkeep : ∀ slot r, slots st !! slot = Some r →
      (slot = f_slot f → match frame_tag (f_data f) with
                          | Some (_, c, s) => tag_key c s ∈ seen r0 | None => True end) →
      slot_ok slot (fs ++ [f]) r).
    { intros slot r Hr Hkey. pose proof (slot_ok_snoc slot fs f r (IH _ _ Hr)) as H.
      destruct (decide (f_slot f = slot)) as [<-|]; [|done]. specialize (Hkey eq_refl).
      assert (r = r0) as -> by congruence.
      destruct (frame_tag (f_data f)) as [[[n' c] s]|]; [|done]. by rewrite bool_decide_true in H. }
    destruct (frame_tag (f_data f)) as [[[n' c] s]|] eqn:E; [|cbn [slots]; eauto].
    case_bool_decide as Hin; cbn [slots]; [split; [done|]; eauto|].
    rewrite length_insert. split; [done|]. intros slot r Hr.
    apply list_lookup_insert_Some in Hr as [(<-&<-&_)|[Hne Hr]].
    + pose proof (slot_ok_snoc (f_slot f) fs f r0 (IH _ _ Hr0)) as H.
      rewrite decide_True, E, bool_decide_false in H by done. done.
    + apply (Hkeep _ _ Hr). by intros ->.
  - split; [done|]. intros slot r Hr. pose proof (slot_ok_snoc slot fs f r (IH _ _ Hr)) as H.
    by rewrite decide_False in H by congruence.
Qed.

Lemma sum_slots {A} (f : A → nat) (g : nat → nat) (l : list A) :
  (∀ i x, l !! i = Some x → f x = g i) → sum_list_with f l = sum_list_with g (seq 0 (length l)).
Proof.
  induction l as [|x l IH] using rev_ind; intros H; [done|].
  rewrite length_app. cbn [length]. rewrite Nat.add_1_r, seq_S, !sum_list_with_app. cbn [sum_list_with].
  rewrite (H (length l) x) by (by rewrite lookup_app_r, Nat.sub_diag by done).
  f_equal. apply IH. intros i y Hy. apply H. by apply lookup_app_l_Some.
Qed.

Lemma length_samples (l : list reader) :
  length (mjoin (samples <$> l)) = sum_list_with (λ r, length (samples r)) l.
Proof. induction l as [|r l IH]; [done|]. csimpl. by rewrite length_app, IH. Qed.

Lemma delivered_count n fs :
  length (mjoin (samples <$> slots (run_readers n fs)))
  = sum_list_with (λ slot, size (delivered slot fs)) (seq 0 n).
Proof.
  destruct (run_readers_ok n fs) as [Hl Hok]. rewrite length_samples.
  rewrite (sum_slots _ (λ slot, size (delivered slot fs))), Hl; [done|].
  intros i r Hr. by apply Hok in Hr as [_ ?].
Qed.

(** A sender writes its messages in order, up to the first failure. *)
Lemma send_from_spec cid clock write todo : ∀ j,
  ∃ k, (k <= todo)%nat
       ∧ (send_from cid clock write j todo).1
         = (λ j, load_content (clock j) cid (Z.of_nat j)) <$> seq j k.
Proof.
  induction todo as [|todo IH]; intros j; cbn [send_from]; [by exists 0%nat|].
  destruct (write j); [|exists 0%nat; split; [lia|done]].
  destruct (IH (S j)) as (k&Hk&E). destruct (send_from cid clock write (S j) todo) as [sent failed].
  exists (S k). split; [lia|]. cbn [fst] in *. by rewrite E.
Qed.

Section sent.
Context (w : load_world) (clients messages : nat).
Hypothesis (Hclock : ∀ i j, (i < clients)%nat → (j < messages)%nat → int64 (w_clock w i j)).
Hypothesis (Hclients : Z.of_nat clients < 2 ^ 63) (Hmessages : Z.of_nat messages < 2 ^ 63).

Definition sent_by (i : nat) : list string :=
  (send (Z.of_nat i) (w_clock w i) (w_write w i) messages).1.

Definition sent_pairs (i : nat) : list (Z * Z) :=
  (λ j, (Z.of_nat i, Z.of_nat j)) <$> seq 0 (length (sent_by i)).

Lemma scan_sent i :
  (i < clients)%nat → omap (λ s, pair_of <$> scan_tag s) (sent_by i) = sent_pairs i.
Proof.
  intros Hi. unfold sent_pairs, sent_by, send.
  destruct (send_from_spec (Z.of_nat i) (w_clock w i) (w_write w i) messages 0) as (k&Hk&->).
  rewrite length_fmap, length_seq.
  assert (H : ∀ js, Forall (λ j, j < messages)%nat js →
    omap (λ s, pair_of <$> scan_tag s) ((λ j, load_content (w_clock w i j) (Z.of_nat i) (Z.of_nat j)) <$> js)
    = (λ j, (Z.of_nat i, Z.of_nat j)) <$> js).
  { induction 1 as [|j js Hj Hjs IH]; [done|]. csimpl.
    rewrite scan_load_content by (done || lia || by apply Hclock). cbn. by f_equal. }
  apply H, Forall_forall. intros j Hj%elem_of_seq. lia.
Qed.

Lemma omap_sent (l : list nat) :
  Forall (λ i, i < clients)%nat l →
  omap (λ s, pair_of <$> scan_tag s)
    (mjoin ((λ i, send (Z.of_nat i) (w_clock w i) (w_write w i) messages) <$> l).*1) = l ≫= sent_pairs.
Proof.
  induction 1 as [|i l Hi Hl IH]; [done|]. csimpl. rewrite omap_app, IH. f_equal. by apply scan_sent.
Qed.

Lemma NoDup_sent : NoDup (seq 0 clients ≫= sent_pairs).
Proof.
  apply NoDup_bind; [| |apply NoDup_ListNoDup, List.seq_NoDup].
  - intros i i' p _ _ (j&->&_)%list_elem_of_fmap (j'&E&_)%list_elem_of_fmap. injection E. lia.
  - intros i _. apply NoDup_fmap_2; [intros ?? [=]; lia|]. apply NoDup_ListNoDup, List.seq_NoDup.
Qed.

Lemma sent_tags_list :
  sent_tags (run_senders w clients messages) = list_to_set (seq 0 clients ≫= sent_pairs).
Proof.
  unfold sent_tags, run_senders. rewrite omap_sent; [done|]. apply Forall_forall.
  intros i Hi%elem_of_seq. lia.
Qed.

(** As many tags as messages. *)
Lemma size_sent_tags :
  Z.of_nat (size (sent_tags (run_senders w clients messages)))
  = total_sent (run_senders w clients messages).
Proof.
  rewrite sent_tags_list, size_list_to_set by apply NoDup_sent. unfold total_sent, run_senders. f_equal.
  induction (seq 0 clients) as [|i l IH]; [done|]. csimpl. rewrite length_app, IH. f_equal.
  unfold sent_pairs, sent_by. by rewrite length_fmap, length_seq.
Qed.
End sent.

(** ** Reports *)

Lemma make_result_some o sent errors st start d :
  Z.of_nat (length (mjoin (samples <$> slots st))) <= 2 ^ 45 →
  ∃ r, make_result o sent errors st start d = Some r ∧ TotalSent r = sent ∧ Errors r = errors
       ∧ Delivered r = Z.of_nat (length (mjoin (samples <$> slots st)))
       ∧ Lost r = Z.max 0 (wrap64 (wrap64 (sent * o_clients o) - Delivered r)).
Proof.
  intros Hn. unfold make_result. set (l := mjoin _) in *.
  assert (Hlost : ∀ x, (if x <? 0 then 0 else x) = Z.max 0 x) by (intros x; destruct (x <? 0) eqn:?; lia).
  pose proof (Permutation_length (merge_sort_Permutation (≤)%Z l)) as Hlen. fold (sort_samples l) in Hlen.
  destruct (sort_samples l) as [|x s] eqn:E; [eexists; split_and!; [done..|apply Hlost]|].
  assert (H : ∀ P p, percent_constant P p → is_Some (percentile (x :: s) p)).
  { intros P p Hp. destruct (percentile_lookup P p (x :: s) Hp) as [-> Hi]; [done|by rewrite Hlen|].
    by apply lookup_lt_is_Some. }
  destruct (H 50 p50) as [v50 ->]; [by left|]. destruct (H 95 p95) as [v95 ->]; [by right; left|].
  destruct (H 99 p99) as [v99 ->]; [by right; right|].
  destruct (last (x :: s)) as [vm|] eqn:Em; [|by apply last_None in Em].
  cbn [mbind option_bind]. eexists. split_and!; [done..|apply Hlost].
Qed.

Lemma first_failure_none ok n : (∀ i, ok i = true) → first_failure ok n = None.
Proof.
  intros H. unfold first_failure. induction (seq 0 n) as [|i l IH]; [done|]. cbn. by rewrite H.
Qed.

Lemma sum_missing (S : gset (Z * Z)) (D : nat → gset (Z * Z)) l :
  Forall (λ slot, D slot ⊆ S) l →
  (sum_list_with (λ slot, size (S ∖ D slot)) l + sum_list_with (λ slot, size (D slot)) l
   = length l * size S)%nat
  ∧ (sum_list_with (λ slot, size (S ∖ D slot)) l = 0%nat ↔ Forall (λ slot, D slot = S) l).
Proof.
  induction 1 as [|slot l HS _ [IH1 IH2]]; [by split|]. cbn [sum_list_with length].
  pose proof (size_difference S (D slot) HS) as Hd. pose proof (subseteq_size _ _ HS) as Hle.
  split; [lia|].
  rewrite Forall_cons, <- IH2. split.
  - intros H0. split; [|lia]. assert (H : size (S ∖ D slot) = 0%nat) by lia.
    apply size_empty_inv in H. apply leibniz_equiv, (anti_symm (⊆)); [done|]. intros x Hx.
    destruct (decide (x ∈ D slot)) as [|Hn]; [done|]. exfalso.
    by apply (not_elem_of_empty (C := gset (Z * Z)) x), H, elem_of_difference.
  - intros [E ->]. rewrite E, difference_diag_L, size_empty. lia.
Qed.

(** C38: the loss count is exact when no frame is left over from another run.  A run
    that could dial and name its clients, and that expects at most [2 ^ 45]
    deliveries, makes its report; if every load message delivered is one that was
    sent, then [lost] is the number of (reader, message) pairs that are missing,
    whatever was delivered twice, in whatever order, to however many readers, and
    with -fail-on-loss the program succeeds exactly when no write failed and
    every reader received every message. *)
Theorem loss_exact o w :
  let n := Z.to_nat (o_clients o) in
  let ss := run_senders w n (Z.to_nat (o_messages o)) in
  1 <= o_clients o < 2 ^ 63 → 1 <= o_messages o < 2 ^ 63 →
  (∀ i, w_dial w i = true) → (∀ i, w_username w i = true) →
  (∀ i j, (i < n)%nat → (j < Z.to_nat (o_messages o))%nat → int64 (w_clock w i j)) →
  total_sent ss * o_clients o <= 2 ^ 45 →
  (∀ slot, (slot < n)%nat → delivered slot (w_frames w) ⊆ sent_tags ss) →
  ∃ r e, main o w = Ok (r, e)
    ∧ Lost r = Z.of_nat (sum_list_with (λ slot, size (sent_tags ss ∖ delivered slot (w_frames w))) (seq 0 n))
    ∧ (o_failOnLoss o = true →
       e = ExitOk ↔ Errors r = 0 ∧ ∀ slot, (slot < n)%nat → delivered slot (w_frames w) = sent_tags ss).
Proof.
  intros n ss Hc Hm Hdial Huser Hclock Hbound Hsub.
  assert (Hsize : Z.of_nat (size (sent_tags ss)) = total_sent ss) by (apply size_sent_tags; [done|lia..]).
  destruct (sum_missing (sent_tags ss) (λ slot, delivered slot (w_frames w)) (seq 0 n)) as [Hsum Hzero].
  { apply Forall_forall. intros slot Hs%elem_of_seq. apply Hsub. lia. }
  rewrite length_seq in Hsum. pose proof (delivered_count n (w_frames w)) as Hcount.
  set (missing := sum_list_with (λ slot, size (_ ∖ _)) _) in *.
  assert (Hn : Z.of_nat n = o_clients o) by lia.
  assert (HZ : Z.of_nat missing + Z.of_nat (length (mjoin (samples <$> slots (run_readers n (w_frames w)))))
               = total_sent ss * o_clients o) by (rewrite Hcount, <- Hsize, <- Hn; lia).
  destruct (make_result_some o (total_sent ss) (total_errors ss) (run_readers n (w_frames w)) (w_start w)
              (w_elapsed w)) as (r&Hr&_&Herr&Hdel&Hlost); [lia|].
  assert (HL : Lost r = Z.of_nat missing).
  { rewrite Hlost, Hdel, !wrap64_id; [lia| |rewrite wrap64_id]; lia. }
  exists r, (exit_of o r). split_and!; [|done|].
  - unfold main. replace (o_clients o <? 1) with false by lia. replace (o_messages o <? 1) with false by lia.
    fold n. rewrite !first_failure_none by done. fold ss. by rewrite Hr.
  - intros Hf. unfold exit_of. rewrite Hf, HL. cbn [andb].
    assert (Hall : missing = 0%nat ↔ ∀ slot, (slot < n)%nat → delivered slot (w_frames w) = sent_tags ss).
    { rewrite Hzero, Forall_forall. setoid_rewrite elem_of_seq. split; intros H slot Hs; apply H; lia. }
    rewrite <- Hall. assert (0 <= Errors r) by (rewrite Herr; unfold total_errors; lia).
    destruct (0 <? Errors r) eqn:?; [split; [done|lia]|].
    destruct (0 <? Z.of_nat missing) eqn:?; (split; [intros Hz|intros [_ Hz]]); try done; try lia.
Qed.

(** *** A run of two clients, two messages each *)

Module LoadExample.

Definition flags : options := mk_options "ws://127.0.0.1:8080/ws" 2 2 "load" 500000000 0 true.

Definition clock (i j : nat) : Z := 1000 * Z.of_nat i + 10 * Z.of_nat j + 5.

Definition text_frame (slot : nat) (now : Z) (content : string) : frame :=
  mk_frame slot now (print (JObj [(bytes "username", json_string "load-000");
                                  (bytes "content", json_string content);
                                  (bytes "type", json_string "message")])).

Definition load_frame (slot : nat) (now : Z) (i j : nat) : frame :=
  text_frame slot now (load_content (clock i j) (Z.of_nat i) (Z.of_nat j)).

Definition world (frames : list frame) : load_world :=
  mk_load_world (λ _, true) (λ _, true) clock (λ _ _, true) frames 1 5000.

(** Client 1 misses its own second message; a notice and a replay change nothing. *)
Definition lossy : list frame :=
  [text_frame 0 1 "ana joined the chat"; load_frame 0 1100 0 0; load_frame 1 1200 0 0;
   load_frame 0 1300 1 0; load_frame 0 1350 1 0; load_frame 1 1400 1 0; load_frame 0 1500 0 1;
   load_frame 1 1600 0 1; load_frame 0 1700 1 1].

Definition sent := run_senders (world lossy) 2 2.

Lemma lossy_in_scope slot : (slot < 2)%nat → delivered slot lossy ⊆ sent_tags sent.
Proof.
  intros Hs. destruct slot as [|[|slot]]; [..|lia]; apply (bool_decide_unpack _); vm_compute; exact I.
Qed.

Lemma loss_exact_witness :
  (∀ slot, (slot < 2)%nat → delivered slot lossy ⊆ sent_tags sent)
  ∧ ∃ r e, main flags (world lossy) = Ok (r, e)
      ∧ Lost r = Z.of_nat (sum_list_with (λ slot, size (sent_tags sent ∖ delivered slot lossy)) (seq 0 2))
      ∧ (true = true → e = ExitOk ↔ Errors r = 0 ∧ ∀ slot, (slot < 2)%nat → delivered slot lossy = sent_tags sent).
Proof.
  split; [exact lossy_in_scope|].
  apply (loss_exact flags (world lossy)); [cbn; lia|cbn; lia|reflexivity|reflexivity| | |exact lossy_in_scope].
  - intros i j Hi Hj. cbn in *. unfold clock. lia.
  - vm_compute. discriminate.
Defined.

Example lossy_report :
  match main flags (world lossy) with
  | Ok (r, e) => Some (Lost r, Delivered r, TotalReceived r, LatencyP50MS r, e)
  | Err _ => None
  end = Some (1, 7, 9, msFromNanos 1095, MissingDeliveries 1).
Proof. vm_compute. reflexivity. Qed.

(** The frames of an earlier run carry the same tags, and the time in them is
    not compared with the start: replayed as history, the old message 1/1 stands
    for the one client 1 misses. *)
Definition replayed : list frame := text_frame 1 900 (load_content (-77) 1 1) :: lossy.

Lemma history_masks_loss :
  ¬ (∃ now, load_frame 1 now 1 1 ∈ replayed)
  ∧ match main flags (world replayed) with
    | Ok (r, e) => Some (Lost r, Delivered r, LatencyMaxMS r, e)
    | Err _ => None
    end = Some (0, 8, msFromNanos 1585, ExitOk).
Proof.
  split; [|vm_compute; reflexivity]. intros (now&Hin).
  apply (list_elem_of_fmap_2 (λ f, (f_slot f, f_data f))) in Hin. revert Hin.
  apply (bool_decide_unpack (¬ _)). vm_compute. exact I.
Qed.
End LoadExample.
