(* ===== verification/Migrations.v ===== *)
(** Opening the repositories: schema migrations and connection set-up
    ([db/database.go], [db/postgres.go], [db/repository.go]).

    A [catalog] is what the migrations touch: the tables with their columns and
    rows, the index names, and the table [schema_migrations].  The SQL of a
    migration is its list of statements.  Column types and constraints are not
    modelled; a row is the map of its columns to the text of their values. *)
From S2P Require Import Prelude.
From S2P Require Import GoUnicode.
From S2P Require Import GoString.
From S2P Require Import GoTime.
From S2P Require Import Rooms.
From S2P Require Import Storage.
Open Scope Z_scope.

(** ** Schemas *)

Record table := mk_table { t_columns : list string; t_rows : list (gmap string string) }.

Record catalog := mk_catalog {
  ct_tables : gmap string table;
  ct_indexes : list string;
  ct_applied : option (list (Z * string))    (* schema_migrations, once it exists *)
}.

Definition empty_catalog : catalog := mk_catalog ∅ [] None.

Definition set_tables (ct : catalog) (ts : gmap string table) : catalog :=
  mk_catalog ts (ct_indexes ct) (ct_applied ct).

(** The statements of the migrations.  [AddColumn] says whether it has
    [IF NOT EXISTS]; the other two always do. *)
Inductive ddl :=
| CreateTable (name : string) (columns : list string)
| CreateIndex (name on : string) (columns : list string)
| AddColumn (if_not_exists : bool) (on column default : string).

(** A statement on the catalog; [None] is an SQL error. *)
Definition exec_ddl (s : ddl) (ct : catalog) : option catalog :=
  match s with
  | CreateTable name columns =>
    match ct_tables ct !! name with
    | Some _ => Some ct
    | None => Some (set_tables ct (<[name := mk_table columns []]> (ct_tables ct)))
    end
  | CreateIndex name on columns =>
    if bool_decide (name ∈ ct_indexes ct) then Some ct
    else
      t ← ct_tables ct !! on;
      if forallb (λ c, bool_decide (c ∈ t_columns t)) columns
      then Some (mk_catalog (ct_tables ct) (ct_indexes ct ++ [name]) (ct_applied ct)) else None
  | AddColumn if_not_exists on column default =>
    t ← ct_tables ct !! on;
    if bool_decide (column ∈ t_columns t) then (if if_not_exists then Some ct else None)
    else Some (set_tables ct
      (<[on := mk_table (t_columns t ++ [column]) (insert column default <$> t_rows t)]>
         (ct_tables ct)))
  end.

Fixpoint exec_all (ss : list ddl) (ct : catalog) : option catalog :=
  match ss with [] => Some ct | s :: ss => ct ← exec_ddl s ct; exec_all ss ct end.

Record migration := mk_migration { mg_version : Z; mg_name : string; mg_sql : list ddl }.

(** [migrations] of [database.go]. *)
Definition migrations : list migration :=
  [ mk_migration 1 "create_messages"
      [CreateTable "messages" ["id"; "username"; "content"; "type"; "timestamp"]];
    mk_migration 2 "create_moderation_audit_log"
      [CreateTable "moderation_audit_log"
         ["id"; "session_id"; "username"; "reason"; "content_preview"; "content_length"; "timestamp"];
       CreateIndex "idx_moderation_audit_log_timestamp" "moderation_audit_log" ["timestamp"]];
    mk_migration 3 "index_message_timestamp"
      [CreateIndex "idx_messages_timestamp" "messages" ["timestamp"]];
    mk_migration 4 "index_moderation_audit_timestamp"
      [CreateIndex "idx_moderation_audit_log_julianday_timestamp" "moderation_audit_log" ["timestamp"]];
    mk_migration 5 "add_message_rooms"
      [AddColumn false "messages" "room" "general";
       CreateIndex "idx_messages_room_timestamp" "messages" ["room"; "timestamp"]];
    mk_migration 6 "bind_message_and_audit_user_ids"
      [AddColumn false "messages" "user_id" "";
       AddColumn false "moderation_audit_log" "user_id" "";
       CreateIndex "idx_messages_user_id_timestamp" "messages" ["user_id"; "timestamp"]] ].

(** [postgresMigrations] *)
Definition postgres_migrations : list migration :=
  [ mk_migration 1 "create_messages"
      [CreateTable "messages" ["id"; "username"; "content"; "type"; "timestamp"]];
    mk_migration 2 "create_moderation_audit_log"
      [CreateTable "moderation_audit_log"
         ["id"; "session_id"; "username"; "reason"; "content_preview"; "content_length"; "timestamp"]];
    mk_migration 3 "index_message_timestamp"
      [CreateIndex "idx_messages_timestamp" "messages" ["timestamp"]];
    mk_migration 4 "index_moderation_audit_timestamp"
      [CreateIndex "idx_moderation_audit_log_timestamp" "moderation_audit_log" ["timestamp"]];
    mk_migration 5 "add_message_rooms"
      [AddColumn true "messages" "room" "general";
       CreateIndex "idx_messages_room_timestamp" "messages" ["room"; "timestamp"]];
    mk_migration 6 "bind_message_and_audit_user_ids"
      [AddColumn true "messages" "user_id" "";
       AddColumn true "moderation_audit_log" "user_id" "";
       CreateIndex "idx_messages_user_id_timestamp" "messages" ["user_id"; "timestamp"]] ].

(** [CREATE TABLE IF NOT EXISTS schema_migrations] and the insert into it, which
    fails on a version that is there already. *)
Definition create_ledger (ct : catalog) : catalog :=
  mk_catalog (ct_tables ct) (ct_indexes ct) (Some (default [] (ct_applied ct))).

Definition is_applied (version : Z) (ct : catalog) : bool :=
  existsb (λ m, m.1 =? version) (default [] (ct_applied ct)).

Definition record_migration (m : migration) (ct : catalog) : option catalog :=
  if is_applied (mg_version m) ct then None
  else Some (mk_catalog (ct_tables ct) (ct_indexes ct)
               (Some (default [] (ct_applied ct) ++ [(mg_version m, mg_name m)]))).

Inductive migration_error := MigrationDriverError | MigrationSqlError.

(** A transaction whose commit is driver call [k]; one that fails may still
    have been committed. *)
Definition commit (c : call) (k : nat) (before after : catalog) :
    result migration_error unit * catalog :=
  if fails c k
  then (Err MigrationDriverError, match c_effect c with Applied => after | _ => before end)
  else (Ok tt, after).

(** ** SQLite *)

(** [applyMigration].  Driver calls of one migration: 0 [migrationApplied],
    1 begin, 2 and 3 the statements, 4 commit. *)
Definition apply_migration (c : call) (m : migration) (ct : catalog) :
    result migration_error unit * catalog :=
  if fails c 1 || fails c 2 then (Err MigrationDriverError, ct)
  else match exec_all (mg_sql m) ct with
  | None => (Err MigrationSqlError, ct)
  | Some ct1 =>
    if fails c 3 then (Err MigrationDriverError, ct)
    else match record_migration m ct1 with
    | None => (Err MigrationSqlError, ct)
    | Some ct2 => commit c 4 ct ct2
    end
  end.

(** The loop of [runMigrations]; each migration has its own world. *)
Fixpoint migrate_all (ms : list (call * migration)) (ct : catalog) :
    result migration_error unit * catalog :=
  match ms with
  | [] => (Ok tt, ct)
  | (c, m) :: ms =>
    if fails c 0 then (Err MigrationDriverError, ct)
    else if is_applied (mg_version m) ct then migrate_all ms ct
    else match apply_migration c m ct with
    | (Ok _, ct) => migrate_all ms ct
    | (Err e, ct) => (Err e, ct)
    end
  end.

(** [runMigrations]: [c0] is the world of the ledger statement, [cs] has one of
    each migration. *)
Definition run_migrations (c0 : call) (cs : list call) (ct : catalog) :
    result migration_error unit * catalog :=
  if fails c0 0
  then (Err MigrationDriverError, match c_effect c0 with Applied => create_ledger ct | _ => ct end)
  else migrate_all (zip cs migrations) (create_ledger ct).

(** ** PostgreSQL *)

(** [PostgresDB.applyMigration], all of it in a transaction that holds the
    advisory lock.  Driver calls: 0 begin, 1 lock, 2 the ledger, 3 the check,
    4 and 5 the statements, 6 commit. *)
Definition pg_apply_migration (c : call) (m : migration) (ct : catalog) :
    result migration_error unit * catalog :=
  if fails c 0 || fails c 1 || fails c 2 || fails c 3 then (Err MigrationDriverError, ct)
  else
    let ct0 := create_ledger ct in
    if is_applied (mg_version m) ct0 then commit c 6 ct ct0
    else if fails c 4 then (Err MigrationDriverError, ct)
    else match exec_all (mg_sql m) ct0 with
    | None => (Err MigrationSqlError, ct)
    | Some ct1 =>
      if fails c 5 then (Err MigrationDriverError, ct)
      else match record_migration m ct1 with
      | None => (Err MigrationSqlError, ct)
      | Some ct2 => commit c 6 ct ct2
      end
    end.

(** [PostgresDB.runMigrations] *)
Fixpoint pg_run_migrations (ms : list (call * migration)) (ct : catalog) :
    result migration_error unit * catalog :=
  match ms with
  | [] => (Ok tt, ct)
  | (c, m) :: ms =>
    match pg_apply_migration c m ct with
    | (Ok _, ct) => pg_run_migrations ms ct
    | (Err e, ct) => (Err e, ct)
    end
  end.

(** *** Replicas that start together

    A replica is at its next migration, or has given up.  An event lets one of
    them run its next transaction in some world; the advisory lock makes
    transactions atomic. *)
Record replica := mk_replica { rp_next : nat; rp_failed : option migration_error }.

Definition replica_step (ms : list migration) (st : list replica * catalog) (ev : nat * call) :
    list replica * catalog :=
  match st.1 !! ev.1 with
  | Some (mk_replica next None) =>
    match ms !! next with
    | None => st
    | Some m =>
      match pg_apply_migration ev.2 m st.2 with
      | (Ok _, ct) => (<[ev.1 := mk_replica (S next) None]> st.1, ct)
      | (Err e, ct) => (<[ev.1 := mk_replica next (Some e)]> st.1, ct)
      end
    end
  | _ => st
  end.

Definition run_replicas (ms : list migration) (n : nat) (ct : catalog) (evs : list (nat * call)) :
    list replica * catalog :=
  foldl (replica_step ms) (replicate n (mk_replica 0 None), ct) evs.

(** ** Facts *)

#[export] Instance table_eq_dec : EqDecision table.
Proof. solve_decision. Defined.
#[export] Instance catalog_eq_dec : EqDecision catalog.
Proof. solve_decision. Defined.

(** A catalog without its rows. *)
Definition erase_rows (t : table) : table := mk_table (t_columns t) [].
Definition erase (ct : catalog) : catalog := set_tables ct (erase_rows <$> ct_tables ct).

(** Statements act on the schema whatever the rows. *)
Lemma exec_ddl_erase s ct : exec_ddl s (erase ct) = erase <$> exec_ddl s ct.
Proof.
  destruct s as [name columns|name on columns|b on column d]; cbn [exec_ddl erase set_tables ct_tables ct_indexes].
  - rewrite lookup_fmap. destruct (ct_tables ct !! name) as [t|]; [done|]. cbn [fmap option_fmap option_map].
    unfold erase, set_tables. cbn [ct_tables ct_indexes ct_applied]. by rewrite fmap_insert.
  - case_bool_decide; [done|]. rewrite lookup_fmap. destruct (ct_tables ct !! on) as [t|]; [|done].
    cbn. by destruct (forallb _ _).
  - rewrite lookup_fmap. destruct (ct_tables ct !! on) as [t|]; [|done]. cbn [fmap option_fmap option_map mbind option_bind erase_rows t_columns t_rows].
    case_bool_decide; [by destruct b|]. cbn. unfold erase, set_tables. cbn [ct_tables ct_indexes ct_applied].
    by rewrite fmap_insert.
Qed.

Lemma exec_all_erase ss ct : exec_all ss (erase ct) = erase <$> exec_all ss ct.
Proof.
  revert ct. induction ss as [|s ss IH]; intros ct; [done|]. cbn [exec_all].
  rewrite exec_ddl_erase. destruct (exec_ddl s ct) as [ct1|]; [|done]. apply IH.
Qed.

Lemma record_erase m ct : record_migration m (erase ct) = erase <$> record_migration m ct.
Proof.
  unfold record_migration. change (is_applied (mg_version m) (erase ct)) with (is_applied (mg_version m) ct).
  by destruct (is_applied _ _).
Qed.

Lemma record_ledger m ct ct' :
  record_migration m ct = Some ct' → create_ledger ct' = ct' ∧ ct_tables ct' = ct_tables ct.
Proof. unfold record_migration. by destruct (is_applied _ _); intros [= <-]. Qed.

(** *** What happens to the rows

    Between [ct] and [ct'] every table keeps its columns, in order, and its rows,
    in order; each row has gained the columns the table has gained, with the
    defaults of [ss]. *)
Definition rows_kept (ss : list ddl) (ct ct' : catalog) : Prop :=
  ∀ name t, ct_tables ct !! name = Some t →
  ∃ t' more added,
    ct_tables ct' !! name = Some t' ∧ t_columns t' = t_columns t ++ more
    ∧ t_rows t' = (λ r, added ∪ r) <$> t_rows t
    ∧ (∀ c, c ∈ more ↔ is_Some (added !! c))
    ∧ ∀ c v, added !! c = Some v → ∃ b, AddColumn b name c v ∈ ss.

Lemma rows_kept_tables ss ct ct' : ct_tables ct' = ct_tables ct → rows_kept ss ct ct'.
Proof.
  intros He name t Ht. exists t, [], ∅. rewrite He, app_nil_r. split_and!; try done.
  - rewrite <- (list_fmap_id (t_rows t)) at 1. apply list_fmap_ext. intros _ r _. by rewrite map_empty_union.
  - intros c. rewrite lookup_empty. split; [by intros ?%elem_of_nil|by intros []].
Qed.

Lemma rows_kept_trans ss ct1 ct2 ct3 :
  rows_kept ss ct1 ct2 → rows_kept ss ct2 ct3 → rows_kept ss ct1 ct3.
Proof.
  intros H12 H23 name t1 Ht1. destruct (H12 _ _ Ht1) as (t2&more1&add1&Ht2&Hc2&Hr2&Hm1&Hd1).
  destruct (H23 _ _ Ht2) as (t3&more2&add2&Ht3&Hc3&Hr3&Hm2&Hd2).
  exists t3, (more1 ++ more2), (add2 ∪ add1). split; [done|]. split; [by rewrite Hc3, Hc2, app_assoc|].
  split; [|split].
  - rewrite Hr3, Hr2, <- list_fmap_compose. apply list_fmap_ext. intros _ r _. cbn.
    by rewrite map_union_assoc.
  - intros c. rewrite elem_of_app, Hm1, Hm2, lookup_union_is_Some. naive_solver.
  - intros c v [Hv|[_ Hv]]%lookup_union_Some_raw; eauto.
Qed.

Lemma rows_kept_weaken ss ss' ct ct' : ss ⊆ ss' → rows_kept ss ct ct' → rows_kept ss' ct ct'.
Proof.
  intros Hss H name t Ht. destruct (H name t Ht) as (t'&more&added&?&?&?&?&Hd).
  exists t', more, added. split_and!; try done. intros c v [b Hb]%Hd. exists b. by apply Hss.
Qed.

Lemma exec_ddl_rows s ct ct' : exec_ddl s ct = Some ct' → rows_kept [s] ct ct'.
Proof.
  destruct s as [name columns|name on columns|b on column d]; cbn [exec_ddl].
  - destruct (ct_tables ct !! name) as [t|] eqn:Hn; intros [= <-]; [by apply rows_kept_tables|].
    intros name' t Ht. destruct (decide (name = name')) as [<-|Hne]; [congruence|].
    destruct (rows_kept_tables [CreateTable name columns] ct ct eq_refl name' t Ht) as (t'&Hk).
    exists t'. cbn. by rewrite lookup_insert_ne by done.
  - case_bool_decide; [intros [= <-]; by apply rows_kept_tables|].
    intros (t&Ht&Hx)%bind_Some. destruct (forallb _ _); [|done]. injection Hx as <-.
    by apply rows_kept_tables.
  - intros (t&Ht&H)%bind_Some. case_bool_decide as Hc.
    { destruct b; [|done]. injection H as <-. by apply rows_kept_tables. }
    injection H as <-. intros name' t' Ht'. destruct (decide (on = name')) as [<-|Hne].
    + rewrite Ht in Ht'. injection Ht' as <-. exists (mk_table (t_columns t ++ [column]) (insert column d <$> t_rows t)),
        [column], {[column := d]}. cbn. rewrite lookup_insert_eq. split_and!; try done.
      * apply list_fmap_ext. intros _ r _. by rewrite insert_union_singleton_l.
      * intros c. rewrite list_elem_of_singleton, lookup_singleton_is_Some. naive_solver.
      * intros c v [<- <-]%lookup_singleton_Some. exists b. by left.
    + destruct (rows_kept_tables [AddColumn b on column d] ct ct eq_refl name' t' Ht') as (t''&Hk).
      exists t''. cbn. by rewrite lookup_insert_ne by done.
Qed.

Lemma exec_all_rows ss ct ct' : exec_all ss ct = Some ct' → rows_kept ss ct ct'.
Proof.
  revert ct. induction ss as [|s ss IH]; intros ct; cbn [exec_all].
  { intros [= <-]. by apply rows_kept_tables. }
  intros (ct1&H1&H)%bind_Some. eapply rows_kept_trans.
  - eapply rows_kept_weaken; [|by apply exec_ddl_rows]. intros x ->%list_elem_of_singleton. by left.
  - eapply rows_kept_weaken; [|by apply IH]. intros x Hx. by right.
Qed.

(** *** Stages

    The schema after the first [k] migrations, on an empty database. *)
Definition apply_to (ct : catalog) (m : migration) : option catalog :=
  ct ← exec_all (mg_sql m) ct; record_migration m ct.

Definition stage (ms : list migration) (k : nat) : catalog :=
  foldl (λ ct m, default ct (apply_to ct m)) (create_ledger empty_catalog) (take k ms).

(** Each migration applies to the schema its predecessors make, and is recorded
    from then on and no earlier. *)
Definition chain (ms : list migration) : Prop :=
  ∀ k m, ms !! k = Some m →
    apply_to (stage ms k) m = Some (stage ms (S k))
    ∧ ∀ j, (j <= length ms)%nat → is_applied (mg_version m) (stage ms j) = (k <? j)%nat.

Definition chainb (ms : list migration) : bool :=
  forallb (λ '(k, m),
    bool_decide (apply_to (stage ms k) m = Some (stage ms (S k)))
    && forallb (λ j, Bool.eqb (is_applied (mg_version m) (stage ms j)) (k <? j)%nat)
         (seq 0 (S (length ms))))
    (zip (seq 0 (length ms)) ms).

Lemma chainb_ok ms : chainb ms = true → chain ms.
Proof.
  unfold chainb. rewrite forallb_forall. intros Hall k m Hk.
  assert (Hin : In (k, m) (zip (seq 0 (length ms)) ms)).
  { apply list_elem_of_In, list_elem_of_lookup. exists k. rewrite lookup_zip_with.
    rewrite lookup_seq_lt by by eapply lookup_lt_Some. cbn. by rewrite Hk. }
  specialize (Hall _ Hin). apply andb_true_iff in Hall as [Ha Hj].
  split; [by apply bool_decide_eq_true in Ha|]. intros j Hle. rewrite forallb_forall in Hj.
    apply Bool.eqb_prop, Hj, in_seq. lia.
Qed.

Lemma sqlite_chain : chain migrations.
Proof. apply chainb_ok. vm_compute. reflexivity. Qed.
Lemma postgres_chain : chain postgres_migrations.
Proof. apply chainb_ok. vm_compute. reflexivity. Qed.

(** Every statement of the migrations. *)
Definition statements (ms : list migration) : list ddl := ms ≫= mg_sql.

Section stages.
Context (ms : list migration) (Hchain : chain ms).
Implicit Types (ct : catalog) (k : nat).

(** The database is at stage [k], whatever rows it has. *)
Definition at_stage k ct : Prop := (k <= length ms)%nat ∧ erase (create_ledger ct) = stage ms k.

Lemma at_stage_applied k ct j m :
  at_stage k ct → ms !! j = Some m → is_applied (mg_version m) (create_ledger ct) = (j <? k)%nat.
Proof.
  intros [Hk Hs] Hj. change (is_applied (mg_version m) (create_ledger ct))
    with (is_applied (mg_version m) (erase (create_ledger ct))). rewrite Hs.
  by apply (Hchain j m Hj).
Qed.

(** The next migration never meets an SQL error, and takes the database to the
    next stage with its rows. *)
Lemma at_stage_next k ct m :
  at_stage k ct → ms !! k = Some m →
  ∃ ct1 ct2, exec_all (mg_sql m) (create_ledger ct) = Some ct1 ∧ record_migration m ct1 = Some ct2
    ∧ at_stage (S k) ct2 ∧ rows_kept (statements ms) ct ct2.
Proof.
  intros [Hk Hs] Hm. destruct (Hchain k m Hm) as [Ha _]. unfold apply_to in Ha.
  rewrite <- Hs, exec_all_erase in Ha.
  destruct (exec_all (mg_sql m) (create_ledger ct)) as [ct1|] eqn:H1; [|done].
  cbn [fmap option_fmap option_map mbind option_bind] in Ha. rewrite record_erase in Ha.
  destruct (record_migration m ct1) as [ct2|] eqn:H2; [|done]. injection Ha as Ha.
  exists ct1, ct2. split_and!; try done.
  - split; [apply lookup_lt_Some in Hm; lia|]. rewrite <- Ha.
    by apply record_ledger in H2 as [-> _].
  - eapply rows_kept_trans; [by apply (rows_kept_tables _ ct (create_ledger ct))|].
    eapply rows_kept_trans.
    + eapply rows_kept_weaken; [|by apply exec_all_rows]. intros s Hin.
      apply list_elem_of_bind. exists m. split; [done|]. by eapply list_elem_of_lookup_2.
    + apply rows_kept_tables. by apply record_ledger in H2 as [_ ?].
Qed.

(** What a run of migrations from stage [k] may end in. *)
Definition outcome_ok k ct (healthy_run : Prop) (r : result migration_error unit * catalog) : Prop :=
  (∃ k', (k <= k')%nat ∧ at_stage k' r.2 ∧ (r.1 = Ok tt → k' = length ms))
  ∧ rows_kept (statements ms) ct r.2
  ∧ r.1 ≠ Err MigrationSqlError
  ∧ (healthy_run → r.1 = Ok tt).

Lemma outcome_trans k k1 ct ct1 (P Q : Prop) r :
  (k <= k1)%nat → rows_kept (statements ms) ct ct1 → (P → Q) →
  outcome_ok k1 ct1 Q r → outcome_ok k ct P r.
Proof.
  intros Hk Hr HPQ ((k'&Hk'&Hs&Hl)&Hrows&Hne&Hok). split; [exists k'; split; [lia|done]|].
  split; [by eapply rows_kept_trans|]. split; [done|]. auto.
Qed.

(** A driver error leaves the stage or, at the commit, the next one. *)
Lemma outcome_fault k ct ct' (P : Prop) :
  (∃ k', (k <= k')%nat ∧ at_stage k' ct') → rows_kept (statements ms) ct ct' → ¬ P →
  outcome_ok k ct P (Err MigrationDriverError, ct').
Proof.
  intros (k'&Hk&Hs) Hr HP. split; [exists k'; by split_and!|]. by split_and!.
Qed.

Lemma migrate_all_outcome cs j k ct :
  at_stage k ct → create_ledger ct = ct → (j <= k)%nat → (length cs = length ms - j)%nat →
  outcome_ok k ct (Forall healthy cs) (migrate_all (zip cs (drop j ms)) ct).
Proof.
  revert j k ct. induction cs as [|c cs IH]; intros j k ct Hs Hl Hj Hlen.
  { cbn. pose proof (proj1 Hs). cbn in Hlen. split; [exists k; split_and!; [done..|lia]|].
    split_and!; [by apply rows_kept_tables|done|done]. }
  cbn [length] in Hlen. destruct (lookup_lt_is_Some_2 ms j) as [m Hm]; [lia|].
  rewrite (drop_S ms m j) by done. cbn [zip zip_with migrate_all].
  assert (Hfault : ∀ n, fails c n = true → ¬ Forall healthy (c :: cs)).
  { intros n Hf [Hc _]%Forall_cons. by rewrite (healthy_fails c n Hc) in Hf. }
  assert (Hstay : ∀ n, fails c n = true →
    outcome_ok k ct (Forall healthy (c :: cs)) (Err MigrationDriverError, ct)).
  { intros n Hf. apply outcome_fault; [by exists k|by apply rows_kept_tables|by eapply Hfault]. }
  assert (Hrest : Forall healthy (c :: cs) → Forall healthy cs) by by intros [_ ?]%Forall_cons.
  destruct (fails c 0) eqn:H0; [by eapply Hstay|].
  pose proof (at_stage_applied k ct j m Hs Hm) as Ha. rewrite Hl in Ha. rewrite Ha.
  destruct (j <? k)%nat eqn:Hjk.
  { apply Nat.ltb_lt in Hjk. eapply outcome_trans; [done|by apply (rows_kept_tables _ ct ct)|exact Hrest|].
    apply IH; [done|done|lia|lia]. }
  apply Nat.ltb_ge in Hjk. assert (j = k) as -> by lia.
  destruct (at_stage_next k ct m Hs Hm) as (ct1&ct2&H1&H2&Hs2&Hr2). rewrite Hl in H1.
  unfold apply_migration.
  destruct (fails c 1) eqn:Hf1; [by eapply Hstay|]. destruct (fails c 2) eqn:Hf2; [by eapply Hstay|].
  cbn [orb]. rewrite H1. destruct (fails c 3) eqn:Hf3; [by eapply Hstay|]. rewrite H2. unfold commit.
  destruct (fails c 4) eqn:Hf4.
  { apply outcome_fault; [|by destruct (c_effect c); try done; apply rows_kept_tables|by eapply Hfault].
    destruct (c_effect c); [by exists k..|exists (S k); split; [lia|done]]. }
  eapply outcome_trans; [|exact Hr2|exact Hrest|apply IH; [done| |done|lia]]; [lia|].
  by apply record_ledger in H2 as [? _].
Qed.

(** One PostgreSQL transaction of a migration the database has or needs next. *)
Lemma pg_apply_outcome c k j ct m :
  at_stage k ct → ms !! j = Some m → (j <= k)%nat →
  let r := pg_apply_migration c m ct in
  (∃ k', (k <= k')%nat ∧ at_stage k' r.2 ∧ (r.1 = Ok tt → (S j <= k')%nat))
  ∧ rows_kept (statements ms) ct r.2 ∧ r.1 ≠ Err MigrationSqlError
  ∧ (healthy c → r.1 = Ok tt).
Proof.
  intros Hs Hm Hj. cbv zeta. unfold pg_apply_migration.
  assert (Hstay : ∀ ct' n, fails c n = true → at_stage k ct' → rows_kept (statements ms) ct ct' →
    (∃ k', (k <= k')%nat ∧ at_stage k' ct' ∧ (Err MigrationDriverError = Ok tt → (S j <= k')%nat))
    ∧ rows_kept (statements ms) ct ct'
    ∧ @Err _ unit MigrationDriverError ≠ Err MigrationSqlError
    ∧ (healthy c → Err MigrationDriverError = Ok tt)).
  { intros ct' n Hf Hs' Hr. split; [by exists k|]. split_and!; [done..|]. intros Hc.
    by rewrite (healthy_fails c n Hc) in Hf. }
  pose proof (rows_kept_tables (statements ms) ct ct eq_refl) as Hrefl.
  destruct (fails c 0) eqn:H0; [by eapply Hstay|]. destruct (fails c 1) eqn:H1; [by eapply Hstay|].
  destruct (fails c 2) eqn:H2; [by eapply Hstay|]. destruct (fails c 3) eqn:H3; [by eapply Hstay|].
  cbn [orb]. rewrite (at_stage_applied k ct j m Hs Hm). unfold commit.
  assert (Hledger : rows_kept (statements ms) ct (create_ledger ct)) by by apply rows_kept_tables.
  destruct (j <? k)%nat eqn:Hjk.
  { apply Nat.ltb_lt in Hjk. destruct (fails c 6) eqn:H6.
    - by destruct (c_effect c); eapply Hstay.
    - cbn. split; [exists k; split_and!; [done..|lia]|]. by split_and!. }
  apply Nat.ltb_ge in Hjk. assert (j = k) as -> by lia.
  destruct (fails c 4) eqn:H4; [by eapply Hstay|].
  destruct (at_stage_next k ct m Hs Hm) as (ct1&ct2&-> & E2&Hs2&Hr2).
  destruct (fails c 5) eqn:H5; [by eapply Hstay|]. rewrite E2.
  destruct (fails c 6) eqn:H6; cbn [fst snd].
  - destruct (c_effect c); [by eapply Hstay..|]. split; [exists (S k); split_and!; [lia|done|done]|].
    split_and!; [done..|]. intros Hc. by rewrite (healthy_fails c 6 Hc) in H6.
  - split; [exists (S k); split_and!; [lia|done|lia]|]. by split_and!.
Qed.

(** A single replica: success means the last stage. *)
Lemma pg_run_outcome cs j k ct :
  at_stage k ct → (j <= k)%nat → (length cs = length ms - j)%nat →
  let r := pg_run_migrations (zip cs (drop j ms)) ct in
  (∃ k', (k <= k')%nat ∧ at_stage k' r.2 ∧ (r.1 = Ok tt → k' = length ms))
  ∧ rows_kept (statements ms) ct r.2.
Proof.
  revert j k ct. induction cs as [|c cs IH]; intros j k ct Hs Hj Hlen; cbv zeta.
  { cbn. pose proof (proj1 Hs). cbn in Hlen. split; [exists k; split_and!; [done..|lia]|].
    by apply rows_kept_tables. }
  cbn [length] in Hlen. destruct (lookup_lt_is_Some_2 ms j) as [m Hm]; [lia|].
  rewrite (drop_S ms m j) by done. cbn [zip zip_with pg_run_migrations].
  destruct (pg_apply_outcome c k j ct m Hs Hm Hj) as ((k1&Hk1&Hs1&Hadv)&Hr1&_&_).
  destruct (pg_apply_migration c m ct) as [[[]|e] ct1]; cbn [fst snd] in *.
  - destruct (IH (S j) k1 ct1 Hs1 (Hadv eq_refl) ltac:(lia)) as ((k2&Hk2&Hs2&Hl)&Hr2).
    split; [exists k2; split_and!; [lia|done|done]|by eapply rows_kept_trans].
  - split; [exists k1; by split_and!|done].
Qed.

(** *** Replicas *)

Definition replicas_ok k (st : list replica * catalog) : Prop :=
  at_stage k st.2
  ∧ Forall (λ r, (rp_next r <= k)%nat ∧ rp_failed r ≠ Some MigrationSqlError) st.1.

Definition turns (i : nat) (evs : list (nat * call)) : nat :=
  length (List.filter (λ ev, ev.1 =? i)%nat evs).

Lemma replica_step_ok k st ev :
  replicas_ok k st →
  let st' := replica_step ms st ev in
  (∃ k', (k <= k')%nat ∧ replicas_ok k' st') ∧ rows_kept (statements ms) st.2 st'.2
  ∧ (healthy ev.2 → ∀ i next, st.1 !! i = Some (mk_replica next None) →
       st'.1 !! i = Some (mk_replica (length ms `min` (next + turns i [ev])) None)).
Proof.
  intros [Hs Hrs]. destruct st as [rs ct], ev as [j c]. cbn [fst snd] in *. cbv zeta.
  assert (Hnext : ∀ i next f, rs !! i = Some (mk_replica next f) → (next <= k)%nat).
  { intros i next f Hi. by apply (Forall_lookup_1 _ _ _ _ Hrs) in Hi as [? _]. }
  pose proof (proj1 Hs) as Hk.
  assert (Hother : ∀ i next, i ≠ j → rs !! i = Some (mk_replica next None) →
    Some (mk_replica (length ms `min` (next + turns i [(j, c)])) None) = rs !! i).
  { intros i next Hij Hi. unfold turns. cbn [List.filter fst].
    replace (j =? i)%nat with false by (symmetry; by apply Nat.eqb_neq). cbn. rewrite Hi.
    specialize (Hnext _ _ _ Hi). do 2 f_equal. lia. }
  assert (Hidle : (∀ next, rs !! j = Some (mk_replica next None) → ms !! next = None) →
    (∃ k', (k <= k')%nat ∧ replicas_ok k' (rs, ct)) ∧ rows_kept (statements ms) ct ct
    ∧ (healthy c → ∀ i next, rs !! i = Some (mk_replica next None) →
         rs !! i = Some (mk_replica (length ms `min` (next + turns i [(j, c)])) None))).
  { intros Hdone. split; [by exists k|]. split; [by apply rows_kept_tables|]. intros _ i next Hi.
    destruct (decide (i = j)) as [->|Hij]; [|symmetry; by apply Hother].
    specialize (Hdone _ Hi). apply lookup_ge_None in Hdone. specialize (Hnext _ _ _ Hi).
    rewrite Hi. do 2 f_equal. lia. }
  unfold replica_step. cbn [fst snd].
  destruct (rs !! j) as [[next [e|]]|] eqn:Hj; [by apply Hidle; congruence| |by apply Hidle; congruence].
  destruct (ms !! next) as [m|] eqn:Hm; [|by apply Hidle; intros ? [= <-]].
  destruct (pg_apply_outcome c k next ct m Hs Hm (Hnext _ _ _ Hj)) as ((k'&Hk'&Hs'&Hadv)&Hr&Hne&Hok).
  destruct (pg_apply_migration c m ct) as [[[]|e] ct'] eqn:Hpg; cbn [fst snd] in *.
  - split; [|split; [done|]].
    + exists k'. split; [done|]. split; [done|]. cbn [fst]. apply Forall_insert.
      * eapply Forall_impl; [exact Hrs|]. cbn. intros r [Hle ?]. split; [lia|done].
      * cbn. split; [by apply Hadv|done].
    + intros _ i next' Hi. destruct (decide (i = j)) as [->|Hij].
      * rewrite Hj in Hi. injection Hi as <-. rewrite list_lookup_insert_eq by by eapply lookup_lt_Some.
        unfold turns. cbn [List.filter fst]. rewrite Nat.eqb_refl. cbn [length].
        apply lookup_lt_Some in Hm. do 2 f_equal. lia.
      * rewrite list_lookup_insert_ne by done. symmetry. by apply Hother.
  - split; [|split; [done|]].
    + exists k'. split; [done|]. split; [done|]. cbn [fst]. apply Forall_insert.
      * eapply Forall_impl; [exact Hrs|]. cbn. intros r [Hle ?]. split; [lia|done].
      * cbn. specialize (Hnext _ _ _ Hj). split; [lia|congruence].
    + intros Hc. by specialize (Hok Hc).
Qed.

Lemma run_replicas_ok evs k st :
  replicas_ok k st →
  let st' := foldl (replica_step ms) st evs in
  (∃ k', (k <= k')%nat ∧ replicas_ok k' st') ∧ rows_kept (statements ms) st.2 st'.2
  ∧ (Forall (λ ev, healthy ev.2) evs → ∀ i next, st.1 !! i = Some (mk_replica next None) →
       (next <= length ms)%nat →
       st'.1 !! i = Some (mk_replica (length ms `min` (next + turns i evs)) None)).
Proof.
  revert k st. induction evs as [|ev evs IH]; intros k st Hst; cbv zeta; cbn [foldl].
  { split; [by exists k|]. split; [by apply rows_kept_tables|]. intros _ i next Hi Hle. rewrite Hi.
    unfold turns. cbn. do 2 f_equal. lia. }
  destruct (replica_step_ok k st ev Hst) as ((k1&Hk1&Hst1)&Hr1&Hn1).
  destruct (IH k1 _ Hst1) as ((k2&Hk2&Hst2)&Hr2&Hn2).
  split; [exists k2; split; [lia|done]|]. split; [by eapply rows_kept_trans|].
  intros [Hc Hcs]%Forall_cons i next Hi Hle. rewrite (Hn2 Hcs i _ (Hn1 Hc i next Hi)) by lia.
  assert (turns i (ev :: evs) = (turns i [ev] + turns i evs)%nat) as ->.
  { unfold turns. cbn [List.filter]. by destruct (ev.1 =? i)%nat. }
  do 2 f_equal. lia.
Qed.
End stages.

(** ** Properties *)

(** Rooms of messages that were stored before rooms existed. *)
Lemma added_room ct ct' t t' :
  rows_kept (statements migrations) ct ct' →
  ct_tables ct !! "messages" = Some t → "room" ∉ t_columns t →
  ct_tables ct' !! "messages" = Some t' → "room" ∈ t_columns t' →
  length (t_rows t') = length (t_rows t) ∧ Forall (λ r, r !! "room" = Some DefaultRoom) (t_rows t').
Proof.
  intros Hk Ht Hno Ht' Hin. destruct (Hk _ _ Ht) as (t''&more&added&Ht''&Hc&Hr&Hm&Hd).
  rewrite Ht' in Ht''. injection Ht'' as <-. rewrite Hc in Hin. apply elem_of_app in Hin as [|Hin]; [done|].
  destruct (proj1 (Hm _) Hin) as [v Hv]. destruct (Hd _ _ Hv) as [b Hb].
  assert (Hdefault : v = DefaultRoom).
  { change DefaultRoom with "general". vm_compute in Hb.
    repeat (apply elem_of_cons in Hb as [Hb|Hb]; [congruence|]).
    by apply elem_of_nil in Hb. }
  rewrite Hdefault in Hv.
  rewrite Hr, length_fmap. split; [done|]. apply Forall_fmap, Forall_forall. intros r _. cbn.
  by apply lookup_union_Some_l.
Qed.

(** C25: opening a SQLite file migrates it, whatever happened before.  From any
    stage (an empty file, a file of an older release, one whose migration was
    interrupted) a run ends at a stage at least as far, with every table's rows
    and columns kept; it never meets an SQL error, it succeeds when no driver
    call fails, and success means the current schema.  Messages from before rooms
    existed are then all in the default room. *)
Theorem sqlite_migrations_resume k ct c0 cs :
  at_stage migrations k ct → length cs = length migrations →
  let '(res, ct') := run_migrations c0 cs ct in
  (∃ k', (k <= k')%nat ∧ at_stage migrations k' ct' ∧ (res = Ok tt → k' = 6%nat))
  ∧ rows_kept (statements migrations) ct ct'
  ∧ res ≠ Err MigrationSqlError
  ∧ (Forall healthy (c0 :: cs) → res = Ok tt)
  ∧ ∀ t, res = Ok tt → ct_tables ct !! "messages" = Some t → "room" ∉ t_columns t →
      ∃ t', ct_tables ct' !! "messages" = Some t'
        ∧ t_columns t' = ["id"; "username"; "content"; "type"; "timestamp"; "room"; "user_id"]
        ∧ length (t_rows t') = length (t_rows t)
        ∧ Forall (λ r, r !! "room" = Some DefaultRoom) (t_rows t').
Proof.
  intros Hs Hlen.
  assert (Hout : outcome_ok migrations k ct (Forall healthy (c0 :: cs)) (run_migrations c0 cs ct)).
  { unfold run_migrations. destruct (fails c0 0) eqn:H0.
    - apply outcome_fault.
      + exists k. split; [done|]. by destruct (c_effect c0).
      + by destruct (c_effect c0); apply rows_kept_tables.
      + intros [Hc _]%Forall_cons. by rewrite (healthy_fails c0 0 Hc) in H0.
    - eapply (outcome_trans _ k k ct (create_ledger ct)); [done|by apply rows_kept_tables| |].
      2:{ apply (migrate_all_outcome migrations sqlite_chain cs 0 k); [done|done|lia|lia]. }
      by intros [_ ?]%Forall_cons. }
  destruct (run_migrations c0 cs ct) as [res ct']. destruct Hout as ((k'&Hk&Hs'&Hl)&Hr&Hne&Hok).
  cbn [fst snd] in *. split; [by exists k'|]. split_and!; try done.
  intros t Hres Ht Hno. specialize (Hl Hres). subst k'. destruct Hs' as [_ He].
  assert (Hcol : t_columns <$> ct_tables ct' !! "messages"
    = Some ["id"; "username"; "content"; "type"; "timestamp"; "room"; "user_id"]).
  { transitivity (t_columns <$> ct_tables (erase (create_ledger ct')) !! "messages").
    - cbn. rewrite lookup_fmap. by destruct (ct_tables ct' !! "messages").
    - rewrite He. vm_compute. reflexivity. }
  destruct (ct_tables ct' !! "messages") as [t'|] eqn:Ht'; [|done]. injection Hcol as Hcol.
  exists t'. split; [done|]. split; [done|]. apply (added_room ct ct' t t' Hr Ht Hno Ht').
  rewrite Hcol. apply (bool_decide_unpack _). vm_compute. exact I.
Qed.

(** C26: replicas that start together.  However the transactions of any number of
    PostgreSQL replicas interleave and whichever of their driver calls fail, no
    replica ever gives up on an SQL error, each migration is recorded once, the
    database is never behind any replica, and no row is lost; when nothing fails,
    a replica has done as many migrations as it had turns, so six turns complete
    it.  The schema they reach has the tables and columns of the SQLite one. *)
Theorem postgres_replicas_migrate n k ct evs :
  at_stage postgres_migrations k ct →
  let '(rs, ct') := run_replicas postgres_migrations n ct evs in
  (∃ k', (k <= k')%nat ∧ at_stage postgres_migrations k' ct'
     ∧ Forall (λ r, (rp_next r <= k')%nat ∧ rp_failed r ≠ Some MigrationSqlError) rs)
  ∧ rows_kept (statements postgres_migrations) ct ct'
  ∧ (Forall (λ ev, healthy ev.2) evs → ∀ i, (i < n)%nat →
       rs !! i = Some (mk_replica (6 `min` turns i evs) None))
  ∧ ct_tables (stage postgres_migrations 6) = ct_tables (stage migrations 6)
  ∧ NoDup (default [] (ct_applied (stage postgres_migrations 6))).
Proof.
  intros Hs. unfold run_replicas.
  destruct (run_replicas_ok postgres_migrations postgres_chain evs k
              (replicate n (mk_replica 0 None), ct)) as ((k'&Hk&Hs'&Hrs)&Hr&Hn).
  { split; [done|]. cbn. apply Forall_replicate. split; [cbn; lia|done]. }
  destruct (foldl _ _ _) as [rs ct']. cbn [fst snd] in *.
  split; [by exists k'|]. split; [done|]. split; [|split].
  - intros Hc i Hi. apply (Hn Hc i 0%nat); [by apply lookup_replicate_2|lia].
  - vm_compute. reflexivity.
  - apply (bool_decide_unpack _). vm_compute. exact I.
Qed.

(** ** Examples: an old database with a message, and a fresh server *)

Definition old_row : gmap string string := {["id" := "1"; "username" := "ana"; "content" := "hi"]}.
Definition old_database : catalog :=
  default empty_catalog
    (exec_ddl (CreateTable "messages" ["id"; "username"; "content"; "type"; "timestamp"]) empty_catalog
     ≫= λ ct, Some (mk_catalog
       (insert "messages" (mk_table ["id"; "username"; "content"; "type"; "timestamp"] [old_row])
          (ct_tables ct)) [] (Some [(1, "create_messages")]))).

Definition quiet : call := mk_call zero_time 0 None NoEffect.

Lemma sqlite_migrations_resume_witness :
  ∃ t', ct_tables (run_migrations quiet (replicate 6 quiet) old_database).2 !! "messages" = Some t'
    ∧ Forall (λ r, r !! "room" = Some "general") (t_rows t') ∧ length (t_rows t') = 1%nat.
Proof.
  pose proof (sqlite_migrations_resume 1 old_database quiet (replicate 6 quiet)) as H.
  destruct (run_migrations quiet (replicate 6 quiet) old_database) as [res ct'].
  destruct H as (_&_&_&Hok&Hroom).
  { split; [cbn; lia|vm_compute; reflexivity]. }
  { reflexivity. }
  destruct (Hroom (mk_table ["id"; "username"; "content"; "type"; "timestamp"] [old_row]))
    as (t'&Ht'&_&Hlen&Hall).
  - apply Hok. repeat constructor.
  - vm_compute. reflexivity.
  - apply (bool_decide_unpack _). vm_compute. exact I.
  - exists t'. split; [exact Ht'|]. split; [exact Hall|exact Hlen].
Defined.

Lemma postgres_replicas_migrate_witness :
  (run_replicas postgres_migrations 2 empty_catalog
     (mjoin (replicate 6 [(0%nat, quiet); (1%nat, quiet)]))).1
  !! 1%nat = Some (mk_replica 6 None).
Proof.
  pose proof (postgres_replicas_migrate 2 0 empty_catalog
    (mjoin (replicate 6 [(0%nat, quiet); (1%nat, quiet)]))) as H.
  destruct (run_replicas _ _ _ _) as [rs ct']. destruct H as (_&_&Hn&_).
  { split; [cbn; lia|vm_compute; reflexivity]. }
  apply (Hn ltac:(repeat constructor) 1%nat). lia.
Defined.
