(* ===== verification/Telemetry.v ===== *)
(** The switch of the tracing boundary ([internal/telemetry/telemetry.go]):
    whether the environment enables tracing, and the tracer [Setup] installs.  The
    exporter and the resource are third-party code and are represented by whether
    they are created. *)
From S2P Require Import Prelude.
From S2P Require Import GoUnicode.
From S2P Require Import GoString.

(** [strconv.ParseBool] *)
Definition parse_bool (s : string) : option bool :=
  if bool_decide (s ∈ ["1"; "t"; "T"; "TRUE"; "true"; "True"]) then Some true
  else if bool_decide (s ∈ ["0"; "f"; "F"; "FALSE"; "false"; "False"]) then Some false
  else None.

Inductive telemetry_error := BadOtelEnabled | UnsupportedExporter | ExporterFailed | ResourceFailed.

(** The tracer of the process: the global one it begins with, or that of the
    provider set last.  A provider is represented by its service name. *)
Inductive tracer := GlobalTracer | NoopTracer | ServiceTracer (service : string).

Definition SetTracerProvider (provider : option string) : tracer :=
  match provider with None => NoopTracer | Some service => ServiceTracer service end.

Definition serviceName : string := "chatster".

Section telemetry.
Context (getenv : string → string).

Definition env_set (name : string) : bool := negb (bool_decide (trim_space (getenv name) = "")).

(** [tracingConfigured], behind the check of [CHATSTER_OTEL_ENABLED]. *)
Definition exporter_configured : result telemetry_error bool :=
  let exporter := to_lower (trim_space (getenv "OTEL_TRACES_EXPORTER")) in
  if bool_decide (exporter = "none") then Ok false
  else if negb (bool_decide (exporter = "")) && negb (bool_decide (exporter = "otlp"))
  then Err UnsupportedExporter
  else if bool_decide (exporter = "otlp") || env_set "OTEL_EXPORTER_OTLP_ENDPOINT"
          || env_set "OTEL_EXPORTER_OTLP_TRACES_ENDPOINT" then Ok true
  else Ok (env_set "CHATSTER_OTEL_ENABLED").

(** [tracingConfigured] *)
Definition tracing_configured : result telemetry_error bool :=
  let raw := trim_space (getenv "CHATSTER_OTEL_ENABLED") in
  if bool_decide (raw = "") then exporter_configured
  else match parse_bool raw with
  | None => Err BadOtelEnabled
  | Some enabled => if enabled then exporter_configured else Ok false
  end.

Definition service_name : string :=
  let name := trim_space (getenv "OTEL_SERVICE_NAME") in
  if bool_decide (name = "") then serviceName else name.

(** [Setup]: the tracer it installs, if tracing is enabled. *)
Definition setup_telemetry (exporter_ok resource_ok : bool) : result telemetry_error (option tracer) :=
  match tracing_configured with
  | Err e => Err e
  | Ok false => Ok None
  | Ok true =>
    if negb exporter_ok then Err ExporterFailed
    else if negb resource_ok then Err ResourceFailed
    else Ok (Some (SetTracerProvider (Some service_name)))
  end.

(** Tracing is opt-in: without any of its variables nothing is set up, whatever
    the collector does. *)
Lemma telemetry_opt_in exporter_ok resource_ok :
  Forall (λ name, env_set name = false)
    ["CHATSTER_OTEL_ENABLED"; "OTEL_TRACES_EXPORTER"; "OTEL_EXPORTER_OTLP_ENDPOINT";
     "OTEL_EXPORTER_OTLP_TRACES_ENDPOINT"] →
  setup_telemetry exporter_ok resource_ok = Ok None.
Proof.
  rewrite !Forall_cons. intros (He&Hx&Hp&Ht&_).
  unfold setup_telemetry, tracing_configured, exporter_configured.
  rewrite Hp, Ht, He. unfold env_set in He, Hx. apply negb_false_iff in He, Hx. rewrite He. unbool.
  by rewrite Hx.
Qed.
End telemetry.
