(* ===== verification/Startup.v ===== *)
(** Start-up and shutdown: selecting and opening the repository
    ([db/repository.go], [Open] and [OpenPostgres]), the services [main] builds
    in order ([main.go]), [shutdownServer] and the exit status.

    What third-party code answers (a DSN parser, a Redis client, the telemetry
    set-up) are arguments.  The schemas of all databases are the state [stores];
    the data the process then works on is [opened backend] for any function
    [opened].  A start-up that fails ends the process. *)
From S2P Require Import Prelude.
From S2P Require Import GoUnicode.
From S2P Require Import GoString.
From S2P Require Import GoTime.
From S2P Require Import Metrics.
From S2P Require Import Rooms.
From S2P Require Import Events.
From S2P Require Import Storage.
From S2P Require Import Sqlite.
From S2P Require Import Client.
From S2P Require Import Auth.
From S2P Require Import AuthFacts.
From S2P Require Import Hub.
From S2P Require Import HubSystem.
From S2P Require Import Broker.
From S2P Require Import Config.
From S2P Require Import Telemetry.
From S2P Require Import RateLimit.
From S2P Require Import Upgrade.
From S2P Require Import Migrations.
Open Scope Z_scope.

(** ** Repositories *)

Definition DefaultSQLitePath : string := "./chatster.db".
Definition DefaultPostgresMinConns : Z := 2.
Definition DefaultPostgresMaxConns : Z := 10.
Definition sqliteBusyTimeoutMS : string := "5000".

Record StorageConfig := mk_storage_config {
  sc_Storage : string; sc_SQLitePath : string; sc_PostgresDSN : string;
  sc_PostgresMinConns : Z; sc_PostgresMaxConns : Z
}.

Inductive open_error :=
| OpenDriverError | MissingDSN | NegativeMinConns | NonPositiveMaxConns | MaxBelowMin | InvalidDSN
| PoolFailed | PingFailed | MigrationsFailed (e : migration_error) | UnsupportedBackend.

(** [StartupError] *)
Record StartupError := mk_startup_error {
  se_Backend : string; se_Operation : string; se_Err : open_error
}.

(** An opened repository. *)
Inductive backend :=
| SqliteBackend (path : string)
| PostgresBackend (dsn : string) (minConns maxConns : Z).

(** The schemas of the SQLite files and of the PostgreSQL databases. *)
Record Stores := mk_stores { st_files : gmap string catalog; st_servers : gmap string catalog }.

Definition schema_of (st : Stores) (b : backend) : catalog :=
  default empty_catalog
    match b with
    | SqliteBackend path => st_files st !! path
    | PostgresBackend dsn _ _ => st_servers st !! dsn
    end.

(** The statements of [configureSQLite]. *)
Definition pragmas : list string :=
  ["PRAGMA foreign_keys = ON"; "PRAGMA journal_mode = WAL"; "PRAGMA synchronous = NORMAL";
   "PRAGMA busy_timeout = " +:+ sqliteBusyTimeoutMS].

(** [configureSQLite]: pragma [k] is driver call [1 + k] of [Open]. *)
Definition configure_sqlite (c : call) : bool :=
  forallb (λ k, negb (fails c k)) (seq 1 (length pragmas)).

(** [Open].  Driver calls of [c]: 0 open, then the pragmas and the ping; [c0]
    and [cs] are the worlds of the migrations. *)
Definition open_sqlite (c c0 : call) (cs : list call) (path : string) (st : Stores) :
    result open_error backend * Stores :=
  if fails c 0 || negb (configure_sqlite c) then (Err OpenDriverError, st)
  else if fails c (S (length pragmas)) then (Err PingFailed, st)
  else
    let '(res, ct) := run_migrations c0 cs (schema_of st (SqliteBackend path)) in
    (match res with Ok _ => Ok (SqliteBackend path) | Err e => Err (MigrationsFailed e) end,
     mk_stores (<[path := ct]> (st_files st)) (st_servers st)).

(** [db.New] *)
Definition New (c c0 : call) (cs : list call) (st : Stores) : result open_error backend * Stores :=
  open_sqlite c c0 cs "./chatster.db" st.

(** [OpenPostgres]; [parse_config] says whether [pgxpool.ParseConfig] accepts
    the DSN.  Driver calls of [c]: 0 the pool, 1 the ping. *)
Definition open_postgres (parse_config : string → bool) (c : call) (cs : list call) (dsn : string)
    (minConns maxConns : Z) (st : Stores) : result open_error backend * Stores :=
  if bool_decide (trim_space dsn = "") then (Err MissingDSN, st)
  else if minConns <? 0 then (Err NegativeMinConns, st)
  else if maxConns <? 1 then (Err NonPositiveMaxConns, st)
  else if maxConns <? minConns then (Err MaxBelowMin, st)
  else if negb (parse_config dsn) then (Err InvalidDSN, st)
  else if fails c 0 then (Err PoolFailed, st)
  else if fails c 1 then (Err PingFailed, st)
  else
    let b := PostgresBackend dsn minConns maxConns in
    let '(res, ct) := pg_run_migrations (zip cs postgres_migrations) (schema_of st b) in
    (match res with Ok _ => Ok b | Err e => Err (MigrationsFailed e) end,
     mk_stores (st_files st) (<[dsn := ct]> (st_servers st))).

(** [OpenRepository] *)
Definition open_repository (parse_config : string → bool) (c c0 : call) (cs : list call)
    (cfg : StorageConfig) (st : Stores) : result StartupError backend * Stores :=
  let backend := to_lower (trim_space (sc_Storage cfg)) in
  let backend := if bool_decide (backend = "") then "sqlite" else backend in
  let wrap (r : result open_error _ * Stores) :=
    (match r.1 with Ok b => Ok b | Err e => Err (mk_startup_error backend "open" e) end, r.2) in
  if bool_decide (backend = "sqlite") then
    let path := trim_space (sc_SQLitePath cfg) in
    let path := if bool_decide (path = "") then DefaultSQLitePath else path in
    wrap (open_sqlite c c0 cs path st)
  else if bool_decide (backend = "postgres") then
    let minConns :=
      if sc_PostgresMinConns cfg =? 0 then DefaultPostgresMinConns else sc_PostgresMinConns cfg in
    let maxConns :=
      if sc_PostgresMaxConns cfg =? 0 then DefaultPostgresMaxConns else sc_PostgresMaxConns cfg in
    wrap (open_postgres parse_config c cs (sc_PostgresDSN cfg) minConns maxConns st)
  else (Err (mk_startup_error backend "select" UnsupportedBackend), st).

(** ** The process *)

Inductive auth_init_error := AuthConfigInvalid (e : auth_config_error) | OriginsRequired.

(** [newAuthService] *)
Definition new_auth_service (cfg : Config) : result auth_init_error Service :=
  match new_service (mk_auth_config (AuthMode cfg) (SessionSecret cfg) (AuthUsersJSON cfg)
                       (SessionTTL cfg) (SessionCookieSecure cfg)) with
  | Err e => Err (AuthConfigInvalid e)
  | Ok service =>
    if bool_decide (mode (Some service) = ModeSession) && (length (AllowedOrigins cfg) =? 0)%nat
    then Err OriginsRequired else Ok service
  end.

Inductive startup_failure :=
| AuthInitFailed (e : auth_init_error) | TelemetryInitFailed (e : telemetry_error) | StorageInitFailed (e : StartupError)
| MessageRetentionFailed | AuditRetentionFailed | RedisInitFailed (e : new_redis_error).

(** [Time.AddDate(0, 0, days)] of a UTC time. *)
Definition add_days (t : time) (days : Z) : time := add t (days * 86400 * Second).

(** A retention clean-up: disabled, or a prune before the cutoff. *)
Definition retention {S} (prune : S → time → result db_error Z * S) (now : time) (days : Z) (db : S) :
    result db_error Z * S :=
  if 0 <? days then prune db (add_days (utc now) (- days)) else (Ok 0, db).

Section process.
Context `{RateLimiter} {S : Type} `{Repository S}.

(** What [main] has built when it starts to serve. *)
Record server := mk_server {
  sv_auth : Service;
  sv_backend : backend;
  sv_fanout : option RedisFanout;
  sv_limiter : option WSUpgrade;
  sv_pruned : Z * Z;
  sv_world : World (S:=S)
}.

(** The outside world of [main] up to serving. *)
Record main_world := mk_main_world {
  mw_exporter : bool; mw_resource : bool;       (* of telemetry.Setup *)
  mw_parse_config : string → bool;
  mw_open : call; mw_ledger : call; mw_migrations : list call;
  mw_now : time; mw_prune : call; mw_prune_audit : call;
  mw_random : option (list Z);                  (* of newInstanceID *)
  mw_parse_url : string → bool; mw_redis_ping : string → bool
}.

(** [main], up to serving. *)
Definition main_startup (getenv : string → string) (parse_float : string → option float64)
    (parse_duration : string → option Z) (env : main_world) (opened : backend → S) (st : Stores) :
    result startup_failure server * Stores :=
  let cfg := from_env getenv parse_float parse_duration in
  match new_auth_service cfg with
  | Err e => (Err (AuthInitFailed e), st)
  | Ok authService =>
    match setup_telemetry getenv (mw_exporter env) (mw_resource env) with
    | Err e => (Err (TelemetryInitFailed e), st)
    | Ok _ =>
      let storage := mk_storage_config (cfg_Storage cfg) (DBPath cfg) (PostgresDSN cfg)
                       (PostgresMinConns cfg) (PostgresMaxConns cfg) in
      let '(opening, st) :=
        open_repository (mw_parse_config env) (mw_open env) (mw_ledger env) (mw_migrations env)
          storage st in
      match opening with
      | Err e => (Err (StorageInitFailed e), st)
      | Ok b =>
        let '(pruned, db) :=
          retention (PruneMessagesBeforeContext (mw_prune env)) (mw_now env)
            (MessageRetentionDays cfg) (opened b) in
        match pruned with
        | Err _ => (Err MessageRetentionFailed, st)
        | Ok deleted =>
          let '(pruned, db) :=
            retention (PruneModerationEventsBeforeContext (mw_prune_audit env)) (mw_now env)
              (AuditRetentionDays cfg) db in
          match pruned with
          | Err _ => (Err AuditRetentionFailed, st)
          | Ok deletedEvents =>
            let serve fanout :=
              mk_server authService b fanout (mount_limiter cfg) (deleted, deletedEvents)
                (startBroker (mk_world (newHub (rf_instanceID <$> fanout)) ∅ db ∅ ∅)) in
            if bool_decide (RedisURL cfg = "") then (Ok (serve None), st)
            else
              let instanceID :=
                if bool_decide (InstanceID cfg = "") then new_instance_id (mw_random env) (mw_now env)
                else InstanceID cfg in
              match (new_redis (mw_parse_url env) (mw_redis_ping env)
                       (mk_broker_config (RedisURL cfg) (RedisNamespace cfg) instanceID) ∅).1 with
              | Err e => (Err (RedisInitFailed e), st)
              | Ok fanout => (Ok (serve (Some fanout)), st)
              end
          end
        end
      end
    end
  end.
End process.
Arguments server {_} S.

(** [shutdownServer]: the hub drains first, the HTTP server stops in any case,
    and the hub's error is the one reported. *)
Definition shutdown_server {W E} (hub_shutdown server_shutdown : W → option E * W) (w : W) :
    option E * W :=
  let '(hubErr, w) := hub_shutdown w in
  let '(serverErr, w) := server_shutdown w in
  (match hubErr with Some e => Some e | None => serverErr end, w).

(** The end of [main], once it serves: the listener fails, or a signal arrives and
    the server shuts down.  The exit status is 0 or 1. *)
Inductive serving := ListenFailed | SignalReceived.

Definition main_exit {W E} (first : serving) (hub_shutdown server_shutdown : W → option E * W) (w : W) :
    Z * W :=
  match first with
  | ListenFailed => (1, w)
  | SignalReceived =>
    let '(err, w) := shutdown_server hub_shutdown server_shutdown w in
    (match err with Some _ => 1 | None => 0 end, w)
  end.

(** Exit status 0 means a signal, a drained hub and a stopped server; after a
    signal both shutdowns run, the second whatever the first returns. *)
Lemma main_exit_spec {W E} first (hub server : W → option E * W) w :
  ((main_exit first hub server w).1 = 0
   ↔ first = SignalReceived ∧ (hub w).1 = None ∧ (server (hub w).2).1 = None)
  ∧ (first = SignalReceived → (main_exit first hub server w).2 = (server (hub w).2).2).
Proof.
  unfold main_exit, shutdown_server. destruct first; [naive_solver|].
  destruct (hub w) as [[]?]; cbn [fst snd]; destruct (server _) as [[]?]; naive_solver.
Qed.

(** ** Facts *)

(** The names a fan-out has are canonical: what it publishes passes its own
    origin check and the event contract. *)
Lemma new_redis_ok parse_url ping cfg ms b ms' :
  new_redis parse_url ping cfg ms = (Ok b, ms') →
  canonical_token (rf_namespace b) = true ∧ canonical_token (rf_instanceID b) = true
  ∧ rf_ready b = false ∧ rf_closed b = None.
Proof.
  unfold new_redis, channel_pattern, validate_instance_id. case_bool_decide; [done|].
  destruct (normalize_token (to_lower (trim_space (bc_Namespace cfg)))) as [ns|] eqn:Hns; [|done].
  destruct (normalize_token (to_lower (trim_space (bc_InstanceID cfg)))) as [iid|] eqn:Hid; [|done].
  repeat (case_match; [done|]). intros [= <- _]. cbn.
  apply normalize_token_canonical in Hns as Hcn. apply normalize_token_lowered in Hns as <-.
  apply normalize_token_canonical in Hid as Hci. by apply normalize_token_lowered in Hid as <-.
Qed.

(** Databases whose schema is at some stage. *)
Definition migratable (st : Stores) : Prop :=
  ∀ b, ∃ k, at_stage match b with SqliteBackend _ => migrations | _ => postgres_migrations end k
              (schema_of st b).

(** The current schema of a repository. *)
Definition current (st : Stores) (b : backend) : Prop :=
  at_stage match b with SqliteBackend _ => migrations | _ => postgres_migrations end 6 (schema_of st b).

Lemma open_sqlite_ok c c0 cs path st b st' :
  migratable st → length cs = 6%nat → open_sqlite c c0 cs path st = (Ok b, st') →
  b = SqliteBackend path ∧ current st' b ∧ st_servers st' = st_servers st.
Proof.
  intros Hst Hlen. unfold open_sqlite. destruct (_ || _); [done|]. destruct (fails c _); [done|].
  destruct (Hst (SqliteBackend path)) as [k Hk]. unfold run_migrations.
  destruct (fails c0 0); [done|].
  destruct (migrate_all_outcome migrations sqlite_chain cs 0 k (create_ledger (schema_of st (SqliteBackend path))))
    as ((k'&_&Hs&Hl)&_&_&_); [done|done|lia|done|]. cbn [drop] in *.
  destruct (migrate_all _ _) as [[[]|e] ct]; [|done]. intros [= <- <-]. cbn [fst snd] in *.
  split; [done|]. split; [|done]. unfold current, schema_of. cbn. rewrite lookup_insert_eq. cbn.
  by rewrite (Hl eq_refl) in Hs.
Qed.

Lemma open_postgres_ok parse_config c cs dsn lo hi st b st' :
  migratable st → length cs = 6%nat → open_postgres parse_config c cs dsn lo hi st = (Ok b, st') →
  b = PostgresBackend dsn lo hi ∧ trim_space dsn ≠ "" ∧ 0 <= lo <= hi ∧ 1 <= hi
  ∧ current st' b ∧ st_files st' = st_files st.
Proof.
  intros Hst Hlen. unfold open_postgres. case_bool_decide as Hd; [done|].
  destruct (lo <? 0) eqn:Hlo; [done|]. destruct (hi <? 1) eqn:Hhi; [done|].
  destruct (hi <? lo) eqn:Hle; [done|]. repeat (case_match; [done|]).
  destruct (Hst (PostgresBackend dsn lo hi)) as [k Hk].
  destruct (pg_run_outcome postgres_migrations postgres_chain cs 0 k (schema_of st (PostgresBackend dsn lo hi)))
    as ((k'&_&Hs&Hl)&_); [done|lia|done|]. cbn [drop] in *.
  destruct (pg_run_migrations _ _) as [[[]|e] ct]; [|done]. intros [= <- <-]. cbn [fst snd] in *.
  split_and!; try done; try lia. unfold current, schema_of. cbn. rewrite lookup_insert_eq. cbn.
  by rewrite (Hl eq_refl) in Hs.
Qed.

Lemma open_repository_ok parse_config c c0 cs cfg st b st' :
  migratable st → length cs = 6%nat → open_repository parse_config c c0 cs cfg st = (Ok b, st') →
  current st' b
  ∧ match b with
    | SqliteBackend _ => to_lower (trim_space (sc_Storage cfg)) ∈ [""; "sqlite"]
    | PostgresBackend dsn lo hi =>
      to_lower (trim_space (sc_Storage cfg)) = "postgres" ∧ dsn = sc_PostgresDSN cfg
      ∧ trim_space dsn ≠ "" ∧ 0 <= lo <= hi ∧ 1 <= hi
      ∧ lo = (if sc_PostgresMinConns cfg =? 0 then DefaultPostgresMinConns else sc_PostgresMinConns cfg)
      ∧ hi = (if sc_PostgresMaxConns cfg =? 0 then DefaultPostgresMaxConns else sc_PostgresMaxConns cfg)
    end.
Proof.
  intros Hst Hlen. unfold open_repository. set (raw := to_lower (trim_space (sc_Storage cfg))).
  set (name := if bool_decide (raw = "") then "sqlite" else raw). cbv zeta.
  case_bool_decide as Hsq.
  - set (path := if bool_decide _ then _ else _).
    destruct (open_sqlite c c0 cs path st) as [[b'|e] st1] eqn:Ho; [|done]. cbn. intros [= <- <-].
    apply open_sqlite_ok in Ho as (->&Hc&_); [|done..]. split; [done|].
    unfold name in Hsq. case_bool_decide as He; rewrite ?He, ?Hsq; [by left|right; by left].
  - case_bool_decide as Hpg; [|done].
    destruct (open_postgres _ _ _ _ _ _ _) as [[b'|e] st1] eqn:Ho; [|done]. cbn. intros [= <- <-].
    apply open_postgres_ok in Ho as (->&Hd&Hle&Hhi&Hc&_); [|done..]. split; [done|].
    assert (raw = "postgres") as ->; [|destruct Hle; by split_and!].
    unfold name in Hpg. by case_bool_decide.
Qed.

Lemma new_auth_service_ok cfg s :
  new_auth_service cfg = Ok s → s_mode s = ModeSession → service_ok s ∧ AllowedOrigins cfg ≠ [].
Proof.
  unfold new_auth_service. destruct (new_service _) as [s'|] eqn:Hs; [|done].
  destruct (bool_decide _ && _) eqn:Ho; [done|]. intros [= <-] Hm.
  apply new_service_ok in Hs as [Ha|[Hok _]]; [by rewrite Hm in Ha|]. split; [done|].
  intros He. rewrite He in Ho. unfold mode in Ho. rewrite Hm in Ho. by vm_compute in Ho.
Qed.

(** ** Properties *)

(** C27: what a server that starts has.  However the environment is set and
    whatever the databases went through, if [main] gets as far as serving, then:
    in session mode the service is well formed and origins are configured; the
    selected backend, and no other, is open, with the current schema, and a
    PostgreSQL pool has positive bounds in order; Redis is on exactly when a URL
    is set, under canonical names, and the hub publishes as the instance the
    fan-out accepts; and the hub starts in the initial state of the hub
    system. *)
Theorem startup_sound `{RateLimiter} {S : Type} `{Repository S}
    getenv parse_float parse_duration (env : main_world) (opened : backend → S) st sv st' :
  let cfg := from_env getenv parse_float parse_duration in
  migratable st → length (mw_migrations env) = 6%nat →
  main_startup getenv parse_float parse_duration env opened st = (Ok sv, st') →
  (s_mode (sv_auth sv) = ModeSession → service_ok (sv_auth sv) ∧ AllowedOrigins cfg ≠ [])
  ∧ current st' (sv_backend sv)
  ∧ match sv_backend sv with
    | SqliteBackend _ => to_lower (trim_space (cfg_Storage cfg)) ∈ [""; "sqlite"]
    | PostgresBackend dsn lo hi =>
      to_lower (trim_space (cfg_Storage cfg)) = "postgres" ∧ trim_space dsn ≠ ""
      ∧ 1 <= lo <= hi ∧ hi < 2 ^ 31
    end
  ∧ (RedisURL cfg = "" ↔ sv_fanout sv = None)
  ∧ (∀ b, sv_fanout sv = Some b →
      canonical_token (rf_namespace b) = true ∧ canonical_token (rf_instanceID b) = true
      ∧ b_fanout (h_broker (w_hub (sv_world sv))) = true
      ∧ b_instanceID (h_broker (w_hub (sv_world sv))) = rf_instanceID b
      ∧ b_publish (h_broker (w_hub (sv_world sv))) = Some [])
  ∧ sv_limiter sv = mount_limiter cfg
  ∧ sv_world sv = world (initial (w_db (sv_world sv)) (rf_instanceID <$> sv_fanout sv)).
Proof.
  intros cfg Hst Hlen. unfold main_startup. fold cfg. cbv zeta.
  destruct (new_auth_service cfg) as [s|e] eqn:Hauth; [|done].
  destruct (setup_telemetry _ _ _); [|done].
  destruct (open_repository _ _ _ _ _ st) as [[b|e] st1] eqn:Hopen; [|done].
  apply open_repository_ok in Hopen as [Hcur Hb]; [|done..]. cbn [sc_Storage sc_PostgresDSN
    sc_PostgresMinConns sc_PostgresMaxConns] in Hb.
  destruct (retention _ _ _ _) as [[deleted|e] db]; [|done].
  destruct (retention _ _ _ _) as [[deletedEvents|e] db1]; [|done].
  assert (Hbackend : match b with
    | SqliteBackend _ => to_lower (trim_space (cfg_Storage cfg)) ∈ [""; "sqlite"]
    | PostgresBackend dsn lo hi =>
      to_lower (trim_space (cfg_Storage cfg)) = "postgres" ∧ trim_space dsn ≠ ""
      ∧ 1 <= lo <= hi ∧ hi < 2 ^ 31
    end).
  { destruct b as [path|dsn lo hi]; [done|]. destruct Hb as (Hs&_&Hd&Hlo&Hhi&Elo&Ehi).
    split_and!; try done.
    - pose proof (parse_pool_size_range getenv "CHATSTER_POSTGRES_MIN_CONNS" defaultPostgresMinConns
        ltac:(unfold defaultPostgresMinConns; lia)) as Hr. change (PostgresMinConns cfg) with
        (parse_pool_size_env getenv "CHATSTER_POSTGRES_MIN_CONNS" defaultPostgresMinConns) in Elo.
      unfold DefaultPostgresMinConns in Elo. destruct (_ =? 0) eqn:? in Elo; lia.
    - lia.
    - pose proof (parse_pool_size_range getenv "CHATSTER_POSTGRES_MAX_CONNS" defaultPostgresMaxConns
        ltac:(unfold defaultPostgresMaxConns; lia)) as Hr. change (PostgresMaxConns cfg) with
        (parse_pool_size_env getenv "CHATSTER_POSTGRES_MAX_CONNS" defaultPostgresMaxConns) in Ehi.
      unfold DefaultPostgresMaxConns in Ehi. destruct (_ =? 0) eqn:? in Ehi; lia. }
  case_bool_decide as Hurl.
  - intros [= <- <-]. cbn [sv_auth sv_backend sv_fanout sv_limiter sv_world].
    split; [by apply new_auth_service_ok|]. split_and!; done.
  - destruct (new_redis _ _ _ _) as [[f|e] ms'] eqn:Hr; [|done]. cbn [fst]. intros [= <- <-].
    apply new_redis_ok in Hr as (Hns&Hid&_&_).
    cbn [sv_auth sv_backend sv_fanout sv_limiter sv_world].
    split; [by apply new_auth_service_ok|]. split_and!; try done. intros b' [= <-]. by split_and!.
Qed.

(** ** An example: SQLite with Redis, on a database of an older release *)
Module StartupExample.
#[local] Existing Instances text_driver text_driver_laws fixed_bucket.

Definition getenv (name : string) : string :=
  if bool_decide (name = "CHATSTER_REDIS_URL") then "redis://cache:6379"
  else if bool_decide (name = "CHATSTER_INSTANCE_ID") then " Node-1 "
  else example_env name.
Definition env : main_world :=
  mk_main_world true true (λ _, true) quiet quiet (replicate 6 quiet) zero_time quiet quiet None
    (λ _, true) (λ _, true).
Definition stores : Stores := mk_stores {["./chatster.db" := old_database]} ∅.

Lemma stores_migratable : migratable stores.
Proof.
  intros [path|dsn lo hi].
  - destruct (decide (path = "./chatster.db")) as [->|Hp].
    + exists 1%nat. split; [cbn; lia|vm_compute; reflexivity].
    + exists 0%nat. split; [cbn; lia|]. unfold schema_of, stores. cbn.
      rewrite lookup_singleton_ne by congruence. vm_compute. reflexivity.
  - exists 0%nat. split; [cbn; lia|vm_compute; reflexivity].
Qed.

Lemma starts : is_ok (main_startup getenv (λ _, None) (λ _, None) env (λ _, empty_db) stores).1 = true.
Proof. vm_compute. reflexivity. Qed.

Lemma startup_sound_witness :
  ∃ sv st' b, main_startup getenv (λ _, None) (λ _, None) env (λ _, empty_db) stores = (Ok sv, st')
    ∧ current st' (sv_backend sv) ∧ sv_fanout sv = Some b
    ∧ canonical_token (rf_instanceID b) = true
    ∧ b_instanceID (h_broker (w_hub (sv_world sv))) = rf_instanceID b.
Proof.
  pose proof starts as Hok.
  destruct (main_startup getenv (λ _, None) (λ _, None) env (λ _, empty_db) stores) as [[sv|e] st'] eqn:E; [|discriminate Hok].
  destruct (startup_sound getenv (λ _, None) (λ _, None) env (λ _, empty_db) stores sv st'
              stores_migratable eq_refl E) as (_&Hc&_&Hurl&Hf&_).
  destruct (sv_fanout sv) as [b|] eqn:Hb.
  - destruct (Hf b eq_refl) as (_&Hid&_&Hi&_). exists sv, st', b.
    split; [reflexivity|]. split; [exact Hc|]. split; [exact Hb|]. split; [exact Hid|exact Hi].
  - exfalso. destruct Hurl as [_ Hurl]. specialize (Hurl eq_refl). vm_compute in Hurl. discriminate Hurl.
Defined.
End StartupExample.
